(* ===== verification/_CoqProject ===== *)
-Q . S2P
Prelude.v
GoBytes.v
GoStrings.v
GoFloat.v
GoFlag.v
GoNet.v
GoSort.v
Sha256.v
Table.v
TableInv.v
TableConc.v
Closest.v
Node.v
NodeInv.v
NodeProps.v
Stun.v
Predict.v
MeshState.v
Pex.v
PexConc.v
Host.v
Uapi.v
UapiProps.v
Ports.v
Args.v
Scan.v
Monitor.v
Punch.v
PunchProps.v
Daemon.v
DaemonProps.v
Witnesses.v
Machine.v
Service.v
Listeners.v
Loops.v
Shutdown.v
Main.v
Mesh.v
Wire.v
Discovery.v
Running.v
