(* ===== verification/Prelude.v ===== *)
(** * wg-mesh: a verification of the mesh daemon

    wg-mesh keeps a WireGuard mesh connected.  The daemon [wg-meshd]
    ([src/cmd/wg-meshd/main.go]) discovers peers through a Kademlia-style DHT
    ([src/pkg/dht]) and a gossip protocol ([src/pkg/pex]), learns its public
    address by STUN and predicts NAT ports ([src/pkg/nat]), keeps a registry of
    peers ([src/pkg/mesh]) and configures WireGuard through the [wg] command
    and the UAPI socket ([src/pkg/uapi]).  A monitor watches handshakes and
    recovers silent peers by a scan of candidate ports; a hub can make two
    peers punch at the same time.

    ** How the code is modelled

    Go functions become functions of the same name.  A method takes its
    receiver and returns the new one.  A panic ends the whole process, since
    nothing recovers from it, and is an outcome of [result] beside the value;
    log calls are left out except where evaluating an argument can panic.
    Integers are [Z] with the wrap-around written out where it matters;
    strings are byte strings; maps are [gmap]; slices are lists.  A loop that
    is not structural has fuel, and a theorem that the fuel given is enough.
    What the code calls outside the repository is an argument: what the
    network does with a dial or a write, the datagram that arrives, the order
    in which Go iterates over a map, the sort behind [sort.Slice] (class
    [SliceSort], with its contract [SliceSortOk]) and the machine (class
    [Host]: processes, sockets, and a clock that is read as a wall and a
    monotonic time, as [time.Now] does; [HostTime]: the monotonic time does
    not go back and a sleep lasts; [wall_steady]: the wall clock is not set).
    A map may be iterated over in another order each time.  The parts of the standard library the code uses are
    modelled: hex, base64, SHA-256, UTF-8, strings, strconv, durations, the
    flag package, float64, host:port, IP text, and gob streams at the level of
    type definitions and values.

    ** Files

    - [Prelude]: outcomes, loops over slices, machine integers, strings,
      tactics and the hint database [wgmesh].
    - [GoBytes], [GoStrings], [GoFloat], [GoFlag], [GoNet], [GoSort],
      [Sha256]: the standard library.
    - [Table]: identifiers, XOR distance, buckets, [insert], [KnownPeers],
      [closest] of [kademlia.go]; [TableInv]: the invariant and the refinement
      of [insert] to a map with a capacity; [TableConc]: reachable tables and
      scans that interleave with inserts; [Closest]: the result of [closest].
    - [Node]: the DHT node, its messages, handlers and queries; [NodeInv]: its
      invariant over all operations; [NodeProps]: what each handler does.
    - [Stun], [Predict]: [stun.go] and [predict.go].
    - [MeshState]: [state.go], a heap of shared records behind a map.
    - [Pex]: [protocol.go]; [PexConc]: interleaved handlers, whole connections
      and a round between two nodes.
    - [Host]: the machine and the monad [io]; [Uapi], [UapiProps]: [client.go].
    - [Ports], [Args], [Scan], [Monitor], [Punch], [PunchProps], [Daemon],
      [DaemonProps]: the parts of [main.go]: candidate ports, string helpers
      and seeds, [blindScanEndpoint], [runHandshakeMonitor], [runPunchPlan] and
      [scheduleHubPunch], and the start with its callbacks.
    - [Witnesses], [Machine]: concrete nodes and a simulated machine to which
      the theorems with hypotheses are applied.
    - [Service]: the interface of a TCP service (class [Service], its laws in
      [ServiceOk]) and [perform], one atomic action of its goroutines or of
      the network; schedules are lists of actions.  [Listeners]: the accept
      loops, [Start] and [Stop] of [kademlia.go] and [protocol.go], statement
      by statement, as its two instances, and the goroutines in which the
      exchange calls [main]'s [connect].
    - [Loops]: the loops on a ticker, [gossipLoop] and [runHandshakeMonitor].
    - [Shutdown]: the end of [main]: signals, the refresh goroutine, the start
      of the monitor and the stop of both services, as one process.
    - [Main]: the table of flags, the variables behind it, and [main] from the
      arguments of the process to the wait for a signal.
    - [Mesh]: any number of DHT nodes and the streams between them.
    - [Wire]: what receivers take for granted of a message, as a type.
    - [Discovery]: [discoverPublicEndpoint] and [reusableListenUDP] on the UDP
      sockets of a system.
    - [Running]: concrete schedules for the theorems of these files.

    ** What the theorems show

    - Routing table: [insert] implements its abstract map and keeps the
      invariant; [closest] returns the nearest contacts; distance is a metric
      and the bucket index a common prefix; concurrent readers see a set
      between the first and the last table.
    - Node: invariant over every operation, exact effect and replies of the
      handlers, exact conditions for a panic, and three facts about the wire
      protocol as written: requests behind a hello are not served, only the
      first plan of a connection is delivered, the announced control endpoint
      is not an address.
    - STUN and prediction: parser and encoder round trip as long as no
      attribute before the address needs padding, which the parser does not
      skip; totality and its one exception; prediction of arithmetic
      progressions.
    - Registry: refinement to a map of records, sharing of snapshots.
    - Exchange: any interleaving learns the same keys, connects once per new
      key and ends; a round exchanges both sides' entries; what can make it
      panic, which includes a stranger's request.
    - Client: the dump parser inverts the printer; success of a fast endpoint
      change was acknowledged.
    - Daemon: candidate ports are complete, distinct and nearest first; a scan
      or a plan reports an endpoint only after a handshake; the monitor keeps
      its invariant, never touches the hub and always returns; a plan does not
      start early; the start reaches a well-formed state; gossip never sends,
      since no code fills the registry's endpoints.
    - Command line: every command line is refused or parsed, one that was
      written out runs [main] with the options it names and the documented
      defaults, and the goroutines [main] starts are those the flags ask for,
      with their parameters.
    - Life cycle: under every schedule services keep their invariants and lose
      no connection; after a stop the accept loops, the handlers and the
      goroutines that wait for it end; the shutdown runs to its end without a
      panic, but a single signal may be taken by the refresh goroutine; the
      monitor checks once per tick, and the gossip loop sends the requests of
      one round per tick.
    - Mesh: nodes of this program send only typed messages, which make none of
      them panic; but since requests follow a hello, no table ever holds more
      than the node's own seeds, and no hub ever sends a plan.

    ** Bounds and fuel

    The attribute loop of the STUN parser has the datagram's length as fuel,
    [split] and the scan of a duration the text's, and the polls of a plan one
    per fifty milliseconds of the window: [stun_parse_total], [split_spec],
    [ParseDuration_total] and [punch_on_time] show that this is enough.
    [runPunchPlan] takes the fuel of its wait as an argument: three readings
    of the clock are enough for a start at most 2^63 nanoseconds ahead, some
    number for any start.  The sums of [prioritizedPorts] wrap around; its
    third loop ends within 8193 iterations except for one centre, for which it
    never does ([prioritizedPorts_complete]).  [Itoa] writes at most twenty
    digits, enough for 64 bits.

    ** Granularity

    An action of a schedule runs a handler, a critical section or a statement
    at once.  Finer interleavings are covered where the code releases a lock
    in between: [TableConc] for the readers of the table, [PexConc] for the
    loops over entries.

    ** Not modelled

    Log and usage texts, deadlines of sockets, [ListenPort] of the peer
    exchange (never called), the event types of [state.go] (never used), and
    data races on fields of the DHT node that are written without a lock.

    ** Plan

    Next: the setters that write fields of the DHT node without a lock, as an
    explicit memory model. *)

From stdpp Require Export base gmap strings list list_numbers numbers sorting.
From Stdlib Require Export Ascii ZArith Lia.

(** ** Outcomes of Go code

    A call returns a value or panics.  A panic in any goroutine of the
    daemon terminates the whole process, since the sources never call
    [recover]; it is therefore an outcome and not an error value.
    [NoFuel] is the outcome of a loop whose fuel ran out: theorems about
    such loops say when it does not occur. *)

Inductive panic :=
  | IndexOutOfRange
  | SliceOutOfRange
  | NilDereference
  | CloseOfClosedChannel
  | NonPositiveTicker.

Inductive result (A : Type) :=
  | Ok (a : A)
  | Panic (p : panic)
  | NoFuel.
Arguments Ok {A} a.
Arguments Panic {A} p.
Arguments NoFuel {A}.

#[export] Instance panic_eq_dec : EqDecision panic.
Proof. solve_decision. Defined.
#[export] Instance result_eq_dec `{EqDecision A} : EqDecision (result A).
Proof. solve_decision. Defined.

#[export] Instance result_ret : MRet result := fun A a => Ok a.
#[export] Instance result_bind : MBind result := fun A B f r =>
  match r with
  | Ok a => f a
  | Panic p => Panic p
  | NoFuel => NoFuel
  end.
#[export] Instance result_fmap : FMap result := fun A B f r =>
  match r with
  | Ok a => Ok (f a)
  | Panic p => Panic p
  | NoFuel => NoFuel
  end.

Definition is_ok {A} (r : result A) : Prop := exists a, r = Ok a.
Definition is_panic {A} (r : result A) : Prop := exists p, r = Panic p.

(** A [for range] loop over [l] whose body updates the state and may panic. *)
Fixpoint for_range {S A} (f : S -> A -> result S) (l : list A) (s : S) : result S :=
  match l with
  | [] => Ok s
  | x :: l => s' ← f s x; for_range f l s'
  end.

Lemma bind_ok {A B} (r : result A) (f : A -> result B) b :
  (r ≫= f) = Ok b <-> exists a, r = Ok a /\ f a = Ok b.
Proof.
  destruct r; cbn; (split; [intros H|intros (x & Hx & H)]);
    try discriminate; [eauto|by injection Hx as ->].
Qed.

Lemma for_range_app {S A} (f : S -> A -> result S) l1 l2 s :
  for_range f (l1 ++ l2) s = (for_range f l1 s ≫= for_range f l2).
Proof.
  revert s. induction l1 as [|x l1 IH]; intros s; cbn; [done|].
  destruct (f s x); cbn; [apply IH|done..].
Qed.

(** Loop invariant rule: what holds before and is kept by each iteration
    that returns holds after the loop. *)
Lemma for_range_inv {S A} (P : S -> Prop) (f : S -> A -> result S) l s s' :
  (forall s x s', x ∈ l -> P s -> f s x = Ok s' -> P s') ->
  P s -> for_range f l s = Ok s' -> P s'.
Proof.
  revert s. induction l as [|x l IH]; intros s Hstep HP; cbn.
  - by injection 1 as <-.
  - intros (s1 & H1 & H2)%bind_ok. apply (IH s1); [|by eapply Hstep; [left|..]|done].
    intros s2 y s3 Hy. apply Hstep. by right.
Qed.

(** Loop progress rule: if every iteration returns under the invariant, so
    does the loop. *)
Lemma for_range_ok {S A} (P : S -> Prop) (f : S -> A -> result S) l s :
  (forall s x, x ∈ l -> P s -> exists s', f s x = Ok s' /\ P s') ->
  P s -> exists s', for_range f l s = Ok s' /\ P s'.
Proof.
  revert s. induction l as [|x l IH]; intros s Hstep HP; cbn; [eauto|].
  destruct (Hstep s x) as (s1 & -> & HP1); [left|done|]. cbn.
  apply IH; [|done]. intros s2 y Hy. apply Hstep. by right.
Qed.

(** ** Machine integers

    [int] and [int64] are 64-bit two's complement on the platforms the
    daemon is built for; arithmetic wraps around. *)

Definition wrap64 (z : Z) : Z := (z + 2 ^ 63) `mod` 2 ^ 64 - 2 ^ 63.
Definition wrap_u64 (z : Z) : Z := z `mod` 2 ^ 64.
Definition wrap8 (z : Z) : Z := z `mod` 256.
Definition max_int64 : Z := 2 ^ 63 - 1.
Definition min_int64 : Z := - 2 ^ 63.

Definition int64_range (z : Z) : Prop := (min_int64 <= z <= max_int64)%Z.
Definition byte_range (z : Z) : Prop := (0 <= z < 256)%Z.

Lemma wrap64_id z : int64_range z -> wrap64 z = z.
Proof.
  unfold int64_range, min_int64, max_int64, wrap64. intros.
  rewrite Z.mod_small by lia. lia.
Qed.

Lemma wrap64_range z : int64_range (wrap64 z).
Proof.
  unfold int64_range, min_int64, max_int64, wrap64.
  pose proof (Z.mod_pos_bound (z + 2 ^ 63) (2 ^ 64) ltac:(lia)). lia.
Qed.

(** Bits at and above a power-of-two bound are clear. *)
Lemma testbit_small y n i : (0 <= y < 2 ^ n)%Z -> (0 <= n <= i)%Z -> Z.testbit y i = false.
Proof.
  intros Hy Hi. rewrite <- (Z.mod_small y (2 ^ n)) by lia.
  apply Z.mod_pow2_bits_high. lia.
Qed.

(** Or-ing into cleared low bits is addition: [x<<n | y]. *)
Lemma lor_shiftl_add x y n :
  (0 <= n)%Z -> (0 <= y < 2 ^ n)%Z -> Z.lor (Z.shiftl x n) y = (x * 2 ^ n + y)%Z.
Proof.
  intros Hn Hy. assert (Z.land (Z.shiftl x n) y = 0%Z) as Hland.
  { apply Z.bits_inj'. intros i Hi. rewrite Z.land_spec, Z.bits_0.
    destruct (decide (i < n)%Z).
    - by rewrite Z.shiftl_spec_low by lia.
    - rewrite (testbit_small y n) by lia. apply andb_false_r. }
  rewrite <- Z.lxor_lor, <- Z.add_nocarry_lxor, Z.shiftl_mul_pow2 by done. done.
Qed.

(** Xor stays below a common power-of-two bound. *)
Lemma lxor_bound a b n :
  (0 <= n)%Z -> (0 <= a < 2 ^ n)%Z -> (0 <= b < 2 ^ n)%Z -> (0 <= Z.lxor a b < 2 ^ n)%Z.
Proof.
  intros Hn Ha Hb. assert (0 <= Z.lxor a b)%Z by (apply Z.lxor_nonneg; lia).
  split; [done|]. destruct (decide (Z.lxor a b = 0)%Z) as [->|Hne]; [lia|].
  apply Z.log2_lt_pow2; [lia|]. apply Z.nle_gt. intros Hle.
  assert (Z.testbit (Z.lxor a b) (Z.log2 (Z.lxor a b)) = true) as Ht
    by (apply Z.bit_log2; lia).
  rewrite Z.lxor_spec, !(testbit_small _ n) in Ht by lia. done.
Qed.

(** ** Strings

    A Go string is a byte sequence, as is a [string] of 8-bit [ascii]. *)

Definition len (s : string) : Z := Z.of_nat (String.length s).

Fixpoint str_take (n : nat) (s : string) : string :=
  match n, s with
  | S n, String a s => String a (str_take n s)
  | _, _ => EmptyString
  end.

Fixpoint str_drop (n : nat) (s : string) : string :=
  match n, s with
  | S n, String _ s => str_drop n s
  | _, _ => s
  end.

(** [s[:n]]: panics when [n] exceeds the length. *)
Definition slice_to (s : string) (n : nat) : result string :=
  if decide (n <= String.length s)%nat then Ok (str_take n s)
  else Panic SliceOutOfRange.

Lemma slice_to_ok s n : (n <= String.length s)%nat -> is_ok (slice_to s n).
Proof. unfold slice_to, is_ok. case_decide; [eauto|done]. Qed.

Lemma slice_to_panic s n :
  (String.length s < n)%nat -> slice_to s n = Panic SliceOutOfRange.
Proof. unfold slice_to. case_decide; [lia|done]. Qed.

Lemma slice_to_take s n : (n <= String.length s)%nat -> slice_to s n = Ok (str_take n s).
Proof. unfold slice_to. by case_decide. Qed.

Lemma slice_to_inv s n x : slice_to s n = Ok x -> (n <= String.length s)%nat.
Proof. unfold slice_to. by case_decide. Qed.

Lemma str_take_app s1 s2 : str_take (String.length s1) (s1 +:+ s2) = s1.
Proof. induction s1 as [|a s1 IH]; cbn; [by destruct s2|]. by f_equal. Qed.

Lemma str_drop_app s1 s2 : str_drop (String.length s1) (s1 +:+ s2) = s2.
Proof. induction s1 as [|a s1 IH]; cbn; [by destruct s2|]. done. Qed.

Lemma str_app_cons a s1 s2 : String a s1 +:+ s2 = String a (s1 +:+ s2).
Proof. done. Qed.

Lemma str_app_assoc s1 s2 s3 : (s1 +:+ s2) +:+ s3 = s1 +:+ s2 +:+ s3.
Proof. induction s1 as [|a s1 IH]; cbn; [done|]. by rewrite !str_app_cons, IH. Qed.

Lemma str_app_nil_r s : s +:+ "" = s.
Proof. induction s as [|a s IH]; cbn; [done|]. by rewrite str_app_cons, IH. Qed.

Lemma str_length_app s1 s2 :
  String.length (s1 +:+ s2) = (String.length s1 + String.length s2)%nat.
Proof. induction s1 as [|a s1 IH]; cbn; [done|]. by rewrite <- IH. Qed.

(** ** Lists and maps *)

Lemma filter_all {A} (P : A -> Prop) `{!forall x, Decision (P x)} l :
  Forall P l -> filter P l = l.
Proof. induction 1; [done|]. rewrite filter_cons_True by done. by f_equal. Qed.

Lemma filter_none {A} (P : A -> Prop) `{!forall x, Decision (P x)} l :
  Forall (fun x => ~ P x) l -> filter P l = [].
Proof. induction 1; [done|]. by rewrite filter_cons_False by done. Qed.

(** The size of a filtered map, counted on the list it was built from. *)
Lemma size_filter_list_to_map {K A} `{Countable K} (P : K * A -> Prop)
    `{!forall x, Decision (P x)} (l : list (K * A)) :
  NoDup l.*1 -> size (filter P (list_to_map l : gmap K A)) = length (filter P l).
Proof.
  intros Hnd. rewrite map_filter_alt, <- length_map_to_list.
  rewrite map_to_list_to_map; [by rewrite map_to_list_to_map|].
  rewrite map_to_list_to_map by done.
  eapply sublist_NoDup; [exact Hnd|]. apply fmap_sublist, sublist_filter.
Qed.

(** ** Automation *)

(** Splits the hypotheses that say a monadic computation returned. *)
Ltac res_inv :=
  repeat match goal with
  | H : (_ ≫= _) = Ok _ |- _ => apply bind_ok in H as (? & ? & ?)
  | H : mbind _ _ = Ok _ |- _ => apply bind_ok in H as (? & ? & ?)
  | H : mret _ = Ok _ |- _ => unfold mret, result_ret in H
  | H : Ok _ = Ok _ |- _ => injection H as H
  | H : Panic _ = Ok _ |- _ => discriminate H
  | H : NoFuel = Ok _ |- _ => discriminate H
  end; simplify_eq/=.

Create HintDb wgmesh.
#[export] Hint Resolve wrap64_range slice_to_ok : wgmesh.
