(* ===== verification/GoBytes.v ===== *)
(** * Byte slices: the parts of [encoding/hex], [math/bits] and the byte-wise
    string order that the DHT uses

    A [[]byte] is a list of integers in [0, 256).  [hex_decode] is
    [hex.DecodeString] with its error dropped, as every caller drops it: the
    bytes decoded before the first bad digit.  [be_value] reads a byte slice
    as a big-endian number; the lemmas relate the byte-wise operations of the
    sources to arithmetic on that number. *)

From S2P Require Import Prelude.
Local Open Scope Z_scope.

Definition byte_of (a : ascii) : Z := Z.of_N (Ascii.N_of_ascii a).
Definition ascii_of (b : Z) : ascii := Ascii.ascii_of_N (Z.to_N b).

(** ** Hexadecimal *)

(** The digit value of a hexadecimal character, both cases accepted
    ([reverseHexTable]). *)
Definition hex_val (a : ascii) : option Z :=
  let b := byte_of a in
  if decide (48 <= b <= 57) then Some (b - 48)
  else if decide (97 <= b <= 102) then Some (b - 87)
  else if decide (65 <= b <= 70) then Some (b - 55)
  else None.

Fixpoint hex_decode (s : string) : list Z :=
  match s with
  | String a (String b s') =>
      match hex_val a, hex_val b with
      | Some x, Some y => Z.lor (Z.shiftl x 4) y :: hex_decode s'
      | _, _ => []
      end
  | _ => []
  end.

Definition hex_digit (v : Z) : ascii :=
  if decide (v < 10) then ascii_of (48 + v) else ascii_of (87 + v).

(** [hex.EncodeToString]. *)
Fixpoint hex_encode (bs : list Z) : string :=
  match bs with
  | [] => EmptyString
  | b :: bs =>
      String (hex_digit (Z.shiftr b 4)) (String (hex_digit (Z.land b 15)) (hex_encode bs))
  end.

Lemma byte_of_range a : byte_range (byte_of a).
Proof.
  unfold byte_range, byte_of. pose proof (Ascii.N_ascii_bounded a). lia.
Qed.

Lemma byte_of_ascii_of b : byte_range b -> byte_of (ascii_of b) = b.
Proof.
  unfold byte_range, byte_of, ascii_of. intros.
  rewrite Ascii.N_ascii_embedding by lia. lia.
Qed.

Lemma ascii_of_byte_of a : ascii_of (byte_of a) = a.
Proof. unfold byte_of, ascii_of. by rewrite N2Z.id, Ascii.ascii_N_embedding. Qed.

Lemma hex_val_range a v : hex_val a = Some v -> 0 <= v < 16.
Proof. unfold hex_val. intros. repeat case_decide; simplify_eq; lia. Qed.

Lemma hex_val_digit v : 0 <= v < 16 -> hex_val (hex_digit v) = Some v.
Proof.
  intros Hv. unfold hex_val.
  assert (byte_of (hex_digit v) = if decide (v < 10) then 48 + v else 87 + v) as ->.
  { unfold hex_digit. case_decide; apply byte_of_ascii_of; unfold byte_range; lia. }
  repeat case_decide; try lia; f_equal; lia.
Qed.

Lemma nibbles b : byte_range b ->
  Z.lor (Z.shiftl (Z.shiftr b 4) 4) (Z.land b 15) = b.
Proof.
  intros _. change 15 with (Z.ones 4). rewrite Z.land_ones by lia.
  pose proof (Z.mod_pos_bound b (2 ^ 4)).
  rewrite lor_shiftl_add, Z.shiftr_div_pow2 by lia.
  pose proof (Z.div_mod b (2 ^ 4)). lia.
Qed.

Lemma hex_decode_range s : Forall byte_range (hex_decode s).
Proof.
  revert s. fix IH 1. intros [|a [|b s]]; cbn; [constructor..|].
  destruct (hex_val a) as [x|] eqn:Ha; [|constructor].
  destruct (hex_val b) as [y|] eqn:Hb; constructor; [|apply IH].
  apply hex_val_range in Ha, Hb. unfold byte_range.
  rewrite lor_shiftl_add by lia. lia.
Qed.

(** Round trip: decoding an encoding gives the bytes back. *)
Lemma hex_decode_encode bs : Forall byte_range bs -> hex_decode (hex_encode bs) = bs.
Proof.
  induction 1 as [|b bs Hb _ IH]; cbn [hex_encode hex_decode]; [done|].
  assert (0 <= Z.shiftr b 4 < 16).
  { unfold byte_range in Hb. rewrite Z.shiftr_div_pow2 by lia.
    split; [apply Z.div_pos; lia|apply Z.div_lt_upper_bound; lia]. }
  assert (0 <= Z.land b 15 < 16).
  { change 15 with (Z.ones 4). rewrite Z.land_ones by lia. by apply Z.mod_pos_bound. }
  rewrite !hex_val_digit, IH, nibbles by done. done.
Qed.

Lemma hex_encode_length bs : String.length (hex_encode bs) = (2 * length bs)%nat.
Proof. induction bs as [|b bs IH]; cbn; [done|]. rewrite IH. lia. Qed.

Lemma hex_decode_length s : (2 * length (hex_decode s) <= String.length s)%nat.
Proof.
  revert s. fix IH 1. intros [|a [|b s]]; cbn; [lia..|].
  destruct (hex_val a), (hex_val b); cbn; try lia. specialize (IH s). lia.
Qed.

(** ** Bits *)

(** [bits.LeadingZeros8]. *)
Definition LeadingZeros8 (x : Z) : Z :=
  8 - (if decide (x = 0) then 0 else Z.log2 x + 1).

(** ** Big-endian value *)

Fixpoint be_value (bs : list Z) : Z :=
  match bs with
  | [] => 0
  | b :: bs => b * 256 ^ Z.of_nat (length bs) + be_value bs
  end.

Lemma be_value_range bs :
  Forall byte_range bs -> 0 <= be_value bs < 256 ^ Z.of_nat (length bs).
Proof.
  induction 1 as [|b bs Hb _ IH]; cbn [be_value length]; [lia|].
  unfold byte_range in Hb. rewrite Nat2Z.inj_succ, Z.pow_succ_r by lia. nia.
Qed.

Lemma be_value_inj bs1 bs2 :
  length bs1 = length bs2 -> Forall byte_range bs1 -> Forall byte_range bs2 ->
  be_value bs1 = be_value bs2 -> bs1 = bs2.
Proof.
  revert bs2. induction bs1 as [|x bs1 IH]; intros [|y bs2]; cbn; [done..|].
  intros [= Hlen] [Hx H1]%Forall_cons [Hy H2]%Forall_cons. rewrite Hlen. intros Heq.
  pose proof (be_value_range _ H1) as B1. pose proof (be_value_range _ H2) as B2.
  rewrite Hlen in B1. assert (x = y) as <- by nia. f_equal. apply IH; [done..|lia].
Qed.

(** ** The byte-wise order of strings ([string(x) < string(y)]) *)

Fixpoint bytes_ltb (x y : list Z) : bool :=
  match x, y with
  | _, [] => false
  | [], _ :: _ => true
  | a :: x, b :: y => if decide (a = b) then bytes_ltb x y else bool_decide (a < b)
  end.

(** On slices of one length the byte-wise order is the order of the
    big-endian values. *)
Lemma bytes_ltb_value x y :
  length x = length y -> Forall byte_range x -> Forall byte_range y ->
  bytes_ltb x y = bool_decide (be_value x < be_value y).
Proof.
  revert y. induction x as [|a x IH]; intros [|b y]; cbn [length be_value bytes_ltb];
    try done.
  intros [= Hlen] [Ha Hx]%Forall_cons [Hb Hy]%Forall_cons.
  pose proof (be_value_range _ Hx) as Bx. pose proof (be_value_range _ Hy) as By.
  rewrite Hlen in Bx |- *. case_decide as Hab.
  - subst b. rewrite IH by done. apply bool_decide_ext. lia.
  - apply bool_decide_ext. unfold byte_range in *. nia.
Qed.
