(* ===== verification/GoStrings.v ===== *)
(** * The parts of [strings], [strconv] and [unicode/utf8] the daemon uses

    Strings are byte sequences.  [TrimSpace], [Fields] and [for range] over a
    string see runes: [runes] cuts a string into the chunks the UTF-8 decoder
    of the Go runtime yields, one byte for each invalid encoding. *)

From S2P Require Import Prelude.
From S2P Require Import GoBytes.
Local Open Scope Z_scope.

Definition newline : ascii := "010"%char.
Definition tab : ascii := "009"%char.

Notation chars := String.list_ascii_of_string.
Notation of_chars := String.string_of_list_ascii.

(** ** Runes *)

Definition rune_error : Z := 0xFFFD.

Definition byte_in (lo hi : Z) (a : ascii) : bool :=
  bool_decide (lo <= byte_of a) && bool_decide (byte_of a <= hi).

Definition cont_bits (a : ascii) : Z := Z.land (byte_of a) 0x3F.

(** [utf8.DecodeRune]: the rune and its width. *)
Definition decode_rune (a : ascii) (l : list ascii) : Z * nat :=
  let b := byte_of a in
  if decide (b < 0x80) then (b, 1%nat)
  else if decide (b < 0xC2) then (rune_error, 1%nat)
  else if decide (b < 0xE0) then
    match l with
    | c1 :: _ =>
        if byte_in 0x80 0xBF c1
        then (Z.lor (Z.shiftl (Z.land b 0x1F) 6) (cont_bits c1), 2%nat)
        else (rune_error, 1%nat)
    | _ => (rune_error, 1%nat)
    end
  else if decide (b < 0xF0) then
    match l with
    | c1 :: c2 :: _ =>
        if byte_in (if decide (b = 0xE0) then 0xA0 else 0x80)
                   (if decide (b = 0xED) then 0x9F else 0xBF) c1 && byte_in 0x80 0xBF c2
        then (Z.lor (Z.shiftl (Z.land b 0x0F) 12)
                (Z.lor (Z.shiftl (cont_bits c1) 6) (cont_bits c2)), 3%nat)
        else (rune_error, 1%nat)
    | _ => (rune_error, 1%nat)
    end
  else if decide (b < 0xF5) then
    match l with
    | c1 :: c2 :: c3 :: _ =>
        if byte_in (if decide (b = 0xF0) then 0x90 else 0x80)
                   (if decide (b = 0xF4) then 0x8F else 0xBF) c1
           && byte_in 0x80 0xBF c2 && byte_in 0x80 0xBF c3
        then (Z.lor (Z.shiftl (Z.land b 0x07) 18)
                (Z.lor (Z.shiftl (cont_bits c1) 12)
                   (Z.lor (Z.shiftl (cont_bits c2) 6) (cont_bits c3))), 4%nat)
        else (rune_error, 1%nat)
    | _ => (rune_error, 1%nat)
    end
  else (rune_error, 1%nat).

(** A rune with the bytes it was decoded from. *)
Fixpoint runes_fuel (fuel : nat) (l : list ascii) : list (Z * list ascii) :=
  match fuel, l with
  | S fuel, a :: l' =>
      let '(r, n) := decode_rune a l' in
      (r, take n l) :: runes_fuel fuel (drop n l)
  | _, _ => []
  end.

(** Every rune takes at least one byte, so the length is fuel enough. *)
Definition runes (l : list ascii) : list (Z * list ascii) := runes_fuel (length l) l.

(** [string(r)] for a rune [range] produced: its own bytes, or the encoding
    of U+FFFD for an invalid one. *)
Definition rune_string (c : Z * list ascii) : list ascii :=
  if decide (c.1 = rune_error) then [ascii_of 0xEF; ascii_of 0xBF; ascii_of 0xBD] else c.2.

(** [unicode.IsSpace]. *)
Definition is_space (r : Z) : bool :=
  bool_decide (9 <= r <= 13) || bool_decide (r = 0x20) || bool_decide (r = 0x85) ||
  bool_decide (r = 0xA0) || bool_decide (r = 0x1680) || bool_decide (0x2000 <= r <= 0x200A) ||
  bool_decide (r = 0x2028) || bool_decide (r = 0x2029) || bool_decide (r = 0x202F) ||
  bool_decide (r = 0x205F) || bool_decide (r = 0x3000).

Fixpoint drop_spaces (l : list (Z * list ascii)) : list (Z * list ascii) :=
  match l with
  | c :: l' => if is_space c.1 then drop_spaces l' else l
  | [] => []
  end.

(** [strings.TrimSpace]. *)
Definition TrimSpace (s : string) : string :=
  of_chars (concat (snd <$> reverse (drop_spaces (reverse (drop_spaces (runes (chars s))))))).

(** [strings.Fields]: the maximal runs of non-space runes. *)
Fixpoint fields_go (l : list (Z * list ascii)) (cur : list ascii) : list (list ascii) :=
  match l with
  | [] => if decide (cur = []) then [] else [cur]
  | c :: l =>
      if is_space c.1 then (if decide (cur = []) then [] else [cur]) ++ fields_go l []
      else fields_go l (cur ++ c.2)
  end.

Definition Fields (s : string) : list string := of_chars <$> fields_go (runes (chars s)) [].

(** [strings.Split] with a one-byte separator. *)
Fixpoint Split (sep : ascii) (s : string) : list string :=
  match s with
  | EmptyString => [EmptyString]
  | String a s =>
      if decide (a = sep) then EmptyString :: Split sep s
      else match Split sep s with
           | p :: ps => String a p :: ps
           | [] => [String a EmptyString]
           end
  end.

Fixpoint has_prefix (p s : string) : bool :=
  match p, s with
  | EmptyString, _ => true
  | String a p, String b s => bool_decide (a = b) && has_prefix p s
  | _, _ => false
  end.

(** [strings.Contains]. *)
Fixpoint Contains (s sub : string) : bool :=
  has_prefix sub s || match s with String _ s' => Contains s' sub | EmptyString => false end.

(** ** Decimal numbers *)

Definition digit_val (a : ascii) : option Z :=
  let b := byte_of a in if decide (48 <= b <= 57) then Some (b - 48) else None.

Fixpoint dec_digits (fuel : nat) (n : Z) (acc : string) : string :=
  match fuel with
  | O => acc
  | S fuel =>
      let acc := String (ascii_of (48 + n `mod` 10)) acc in
      if decide (n < 10) then acc else dec_digits fuel (n / 10) acc
  end.

(** [strconv.Itoa]; twenty digits hold every 64-bit integer. *)
Definition Itoa (n : Z) : string :=
  if decide (n < 0) then String "-" (dec_digits 20 (- n) "") else dec_digits 20 n "".

Inductive num_error := ErrSyntax | ErrRange.

(** The digit loop of [strconv.ParseUint(s, 10, 64)]. *)
Fixpoint parse_uint (s : string) (n : Z) : Z * option num_error :=
  match s with
  | EmptyString => (n, None)
  | String a s =>
      match digit_val a with
      | None => (0, Some ErrSyntax)
      | Some d =>
          if decide (2 ^ 64 <= n * 10 + d) then (2 ^ 64 - 1, Some ErrRange)
          else parse_uint s (n * 10 + d)
      end
  end.

(** [strconv.ParseInt(s, 10, 64)], which [strconv.Atoi] agrees with: the
    value is clamped when out of range and zero on a syntax error. *)
Definition ParseInt (s : string) : Z * option num_error :=
  let '(neg, digits) :=
    match s with
    | String "+" s => (false, s)
    | String "-" s => (true, s)
    | _ => (false, s)
    end%char in
  if decide (digits = "") then (0, Some ErrSyntax)
  else
    let '(un, err) := parse_uint digits 0 in
    match err with
    | Some ErrSyntax => (0, Some ErrSyntax)
    | _ =>
        if negb neg && bool_decide (2 ^ 63 <= un) then (2 ^ 63 - 1, Some ErrRange)
        else if neg && bool_decide (2 ^ 63 < un) then (- 2 ^ 63, Some ErrRange)
        else (if neg then - un else un, None)
    end.

Definition Atoi (s : string) : Z * option num_error := ParseInt s.

Example trim_example : TrimSpace (String tab (String " " "a b" +:+ String newline "")) = "a b".
Proof. vm_compute. reflexivity. Qed.
Example fields_example : Fields "/usr/bin/sudo -n  /opt/wg" = ["/usr/bin/sudo"; "-n"; "/opt/wg"].
Proof. vm_compute. reflexivity. Qed.
Example atoi_example :
  Atoi "51820" = (51820, None) /\ Atoi "off" = (0, Some ErrSyntax) /\ Atoi "-7" = (-7, None) /\
  Atoi "99999999999999999999" = (2 ^ 63 - 1, Some ErrRange) /\ Itoa 51820 = "51820".
Proof. vm_compute. done. Qed.

(** ** Lemmas *)

Fixpoint has_byte (c : ascii) (s : string) : bool :=
  match s with
  | EmptyString => false
  | String a s => bool_decide (a = c) || has_byte c s
  end.

Lemma has_byte_app c s1 s2 : has_byte c (s1 +:+ s2) = has_byte c s1 || has_byte c s2.
Proof.
  induction s1 as [|a s1 IH]; [done|]. rewrite str_app_cons. cbn. by rewrite IH, orb_assoc.
Qed.

(** [strings.Join] with a one-byte separator. *)
Fixpoint Join (sep : ascii) (ps : list string) : string :=
  match ps with
  | [] => EmptyString
  | [p] => p
  | p :: ps => p +:+ String sep (Join sep ps)
  end.

Lemma Join_cons sep p q ps : Join sep (p :: q :: ps) = p +:+ String sep (Join sep (q :: ps)).
Proof. done. Qed.

Lemma Split_no_sep sep s : has_byte sep s = false -> Split sep s = [s].
Proof.
  induction s as [|a s IH]; cbn; [done|].
  intros [Ha%bool_decide_eq_false Hs]%orb_false_iff. by rewrite decide_False, IH by done.
Qed.

Lemma Split_app_sep sep p s :
  has_byte sep p = false -> Split sep (p +:+ String sep s) = p :: Split sep s.
Proof.
  induction p as [|a p IH]; cbn [has_byte].
  - intros _. change ("" +:+ String sep s) with (String sep s). cbn. by rewrite decide_True.
  - intros [Ha%bool_decide_eq_false Hp]%orb_false_iff.
    rewrite str_app_cons. cbn. by rewrite decide_False, IH by done.
Qed.

(** Splitting a join gives the pieces back. *)
Lemma Split_Join sep ps :
  ps <> [] -> Forall (fun p => has_byte sep p = false) ps -> Split sep (Join sep ps) = ps.
Proof.
  induction ps as [|p ps IH]; [done|]. intros _ [Hp Hps]%Forall_cons.
  destruct ps as [|q ps]; [by apply Split_no_sep|].
  rewrite Join_cons, Split_app_sep, IH by done. done.
Qed.

Lemma has_byte_Join c sep ps :
  c <> sep -> Forall (fun p => has_byte c p = false) ps -> has_byte c (Join sep ps) = false.
Proof.
  intros Hne. induction ps as [|p ps IH]; [done|]. intros [Hp Hps]%Forall_cons.
  destruct ps as [|q ps]; [done|]. rewrite Join_cons, has_byte_app, Hp. cbn [has_byte].
  rewrite bool_decide_eq_false_2 by congruence. by apply IH.
Qed.

(** ** Decimal round trip *)

Lemma digit_val_ascii d : 0 <= d < 10 -> digit_val (ascii_of (48 + d)) = Some d.
Proof.
  intros Hd. unfold digit_val. rewrite byte_of_ascii_of by (unfold byte_range; lia).
  rewrite decide_True by lia. f_equal. lia.
Qed.

(** A loop that reads a number digit by digit, up to a bound, reads what
    [dec_digits] wrote. *)
Lemma dec_digits_loop {R} (F : string -> Z -> R) (bound : Z) fuel n acc :
  (forall d s x, 0 <= d < 10 -> 0 <= x -> x * 10 + d <= bound ->
     F (String (ascii_of (48 + d)) s) x = F s (x * 10 + d)) ->
  0 <= n < 10 ^ Z.of_nat fuel -> n <= bound -> (0 < fuel)%nat ->
  F (dec_digits fuel n acc) 0 = F acc n.
Proof.
  intros HF. revert n acc. induction fuel as [|fuel IH]; intros n acc Hn Hb Hf; [lia|].
  cbn [dec_digits]. pose proof (Z.mod_pos_bound n 10 ltac:(lia)).
  pose proof (Z.div_mod n 10 ltac:(lia)).
  case_decide as Hsmall.
  - rewrite Z.mod_small by lia. rewrite HF by lia. f_equal; lia.
  - rewrite Nat2Z.inj_succ, Z.pow_succ_r in Hn by lia.
    assert (0 <= n / 10 < 10 ^ Z.of_nat fuel).
    { split; [apply Z.div_pos; lia|apply Z.div_lt_upper_bound; lia]. }
    assert (n / 10 <= n) by (apply Z.div_le_upper_bound; lia).
    rewrite IH; [|done|lia|destruct fuel; [cbn in *; lia|lia]].
    rewrite HF by lia. f_equal; lia.
Qed.

Lemma dec_digits_parse fuel n acc :
  0 <= n < 10 ^ Z.of_nat fuel -> n < 2 ^ 64 -> (0 < fuel)%nat ->
  parse_uint (dec_digits fuel n acc) 0 = parse_uint acc n.
Proof.
  intros Hn Hb Hf. apply (dec_digits_loop parse_uint (2 ^ 64 - 1)); [|lia..].
  intros d s x Hd Hx Hle. cbn [parse_uint]. rewrite digit_val_ascii, decide_False by lia. done.
Qed.

Lemma dec_digits_head fuel n acc :
  0 <= n ->
  exists a s d, dec_digits (S fuel) n acc = String a s /\ digit_val a = Some d.
Proof.
  revert n acc. induction fuel as [|fuel IH]; intros n acc Hn;
    pose proof (Z.mod_pos_bound n 10 ltac:(lia)).
  - cbn [dec_digits]. case_decide; eauto 9 using digit_val_ascii.
  - remember (S fuel) as f. cbn [dec_digits]. case_decide; [eauto 9 using digit_val_ascii|].
    apply IH. apply Z.div_pos; lia.
Qed.

Lemma dec_digits_bytes c fuel n acc :
  digit_val c = None -> has_byte c (dec_digits fuel n acc) = has_byte c acc.
Proof.
  intros Hc. revert n acc. induction fuel as [|fuel IH]; intros n acc; cbn [dec_digits]; [done|].
  pose proof (Z.mod_pos_bound n 10 ltac:(lia)).
  assert (has_byte c (String (ascii_of (48 + n `mod` 10)) acc) = has_byte c acc) as Hd.
  { cbn. rewrite bool_decide_eq_false_2; [done|]. intros <-.
    rewrite digit_val_ascii in Hc by lia. done. }
  case_decide; [done|]. by rewrite IH.
Qed.

Lemma ParseInt_digits a s d :
  digit_val a = Some d ->
  ParseInt (String a s) =
    let '(un, err) := parse_uint (String a s) 0 in
    match err with
    | Some ErrSyntax => (0, Some ErrSyntax)
    | _ => if bool_decide (2 ^ 63 <= un) then (2 ^ 63 - 1, Some ErrRange) else (un, None)
    end.
Proof.
  intros Ha. unfold ParseInt.
  destruct a as [[] [] [] [] [] [] [] []]; try done.
Qed.

(** [Itoa] and [Atoi] are inverse on every 64-bit integer. *)
Lemma Atoi_Itoa n : int64_range n -> Atoi (Itoa n) = (n, None).
Proof.
  unfold int64_range, min_int64, max_int64. intros Hn. unfold Atoi, Itoa.
  assert (forall m, 0 <= m <= 2 ^ 63 -> parse_uint (dec_digits 20 m "") 0 = (m, None)) as Hp.
  { intros m Hm.
    rewrite dec_digits_parse; [done|change (10 ^ Z.of_nat 20) with 100000000000000000000; lia|lia..]. }
  case_decide as Hneg.
  - destruct (dec_digits_head 19 (- n) "") as (a & s & d & Hd & _); [lia|].
    unfold ParseInt. rewrite decide_False by (by rewrite Hd). rewrite Hp by lia.
    rewrite (bool_decide_eq_false_2 (2 ^ 63 < - n)) by lia. cbn [negb andb]. f_equal. lia.
  - destruct (dec_digits_head 19 n "") as (a & s & d & Hd & Ha); [lia|].
    specialize (Hp n ltac:(lia)). rewrite Hd in Hp |- *.
    rewrite (ParseInt_digits a s d Ha), Hp, bool_decide_eq_false_2 by lia. done.
Qed.

Lemma Itoa_bytes c n : digit_val c = None -> c <> "-"%char -> has_byte c (Itoa n) = false.
Proof.
  intros Hc Hm. unfold Itoa. case_decide; cbn [has_byte].
  - by rewrite bool_decide_eq_false_2, dec_digits_bytes by congruence.
  - by rewrite dec_digits_bytes.
Qed.

(** ** Ascii text

    On bytes below 0x80 runes are bytes, so trimming and splitting into
    fields work bytewise. *)

Definition is_ascii (a : ascii) : bool := bool_decide (byte_of a < 0x80).
Definition byte_space (a : ascii) : bool := is_space (byte_of a).

Definition ascii_text (s : string) : Prop := Forall (fun a => is_ascii a = true) (chars s).
(** A word: ascii, not empty, no white space. *)
Definition ascii_word (s : string) : Prop :=
  s <> "" /\ Forall (fun a => is_ascii a = true /\ byte_space a = false) (chars s).

Lemma runes_cons a l : is_ascii a = true -> runes (a :: l) = (byte_of a, [a]) :: runes l.
Proof.
  intros Ha%bool_decide_eq_true. unfold runes. cbn [length runes_fuel].
  unfold decode_rune. rewrite decide_True by done. done.
Qed.

Lemma runes_app l1 l2 :
  Forall (fun a => is_ascii a = true) l1 ->
  runes (l1 ++ l2) = ((fun a => (byte_of a, [a])) <$> l1) ++ runes l2.
Proof. induction 1 as [|a l Ha _ IH]; [done|]. cbn [app fmap list_fmap]. by rewrite runes_cons, IH. Qed.

Lemma runes_ascii l :
  Forall (fun a => is_ascii a = true) l -> runes l = (fun a => (byte_of a, [a])) <$> l.
Proof. intros Hl. by rewrite <- (app_nil_r l) at 1; rewrite runes_app, app_nil_r. Qed.

Lemma drop_spaces_head a l :
  byte_space a = false -> drop_spaces ((fun a => (byte_of a, [a])) <$> a :: l) = (fun a => (byte_of a, [a])) <$> a :: l.
Proof. unfold byte_space. cbn. by intros ->. Qed.

Lemma concat_singletons (l : list ascii) : concat (snd <$> ((fun a => (byte_of a, [a])) <$> l)) = l.
Proof. induction l as [|a l IH]; cbn in *; [done|]. by f_equal. Qed.

Lemma chars_app s1 s2 : chars (s1 +:+ s2) = chars s1 ++ chars s2.
Proof. induction s1 as [|a s1 IH]; [done|]. rewrite str_app_cons. cbn. by rewrite IH. Qed.

(** Text that neither starts nor ends with white space loses exactly the
    white space that follows it. *)
Lemma TrimSpace_ascii a m b w :
  Forall (fun x => is_ascii x = true) (a :: m ++ b :: w) ->
  byte_space a = false -> byte_space b = false -> Forall (fun x => byte_space x = true) w ->
  TrimSpace (of_chars (a :: m ++ b :: w)) = of_chars (a :: m ++ [b]).
Proof.
  intros Hasc Ha Hb Hw. unfold TrimSpace. f_equal. rewrite String.list_ascii_of_string_of_list_ascii.
  rewrite runes_ascii, drop_spaces_head by done. rewrite <- fmap_reverse.
  rewrite <- (concat_singletons (a :: m ++ [b])). do 2 f_equal.
  rewrite app_comm_cons, (cons_middle b), app_assoc, reverse_app, fmap_app.
  assert (forall l, drop_spaces (((fun a => (byte_of a, [a])) <$> reverse w) ++ l) = drop_spaces l) as ->.
  { intros l. assert (Forall (fun x => byte_space x = true) (reverse w)) as Hr by by apply Forall_reverse.
    induction Hr as [|x r Hx _ IH]; cbn; [done|]. unfold byte_space in Hx. by rewrite Hx. }
  rewrite reverse_snoc, drop_spaces_head by done. rewrite <- fmap_reverse. f_equal.
  by rewrite reverse_cons, reverse_involutive.
Qed.

(** Bytes that are not white space extend the current field. *)
Lemma fields_go_word l cur rest :
  Forall (fun a => is_ascii a = true /\ byte_space a = false) l ->
  fields_go (runes (l ++ rest)) cur = fields_go (runes rest) (cur ++ l).
Proof.
  intros Hl. revert cur. induction Hl as [|a l [Ha Hs] _ IH]; intros cur.
  - by rewrite app_nil_r.
  - cbn [app]. rewrite runes_cons by done. cbn [fields_go fst snd]. unfold byte_space in Hs.
    by rewrite Hs, IH, <- app_assoc.
Qed.

(** A word followed by a blank is the first field. *)
Lemma Fields_word w rest :
  ascii_word w -> Fields (w +:+ String " " rest) = w :: Fields rest.
Proof.
  intros [Hne Hw]. unfold Fields. rewrite chars_app, fields_go_word by done. cbn [chars].
  rewrite runes_cons by done. cbn [fields_go app].
  change (is_space (byte_of " ", [" "%char]).1) with true. cbn iota.
  rewrite decide_False by (by destruct w). cbn [app fmap list_fmap]. by rewrite String.string_of_list_ascii_of_string.
Qed.

Lemma Fields_one w : ascii_word w -> Fields w = [w].
Proof.
  intros [Hne Hw]. unfold Fields. rewrite <- (app_nil_r (chars w)), fields_go_word by done.
  cbn. rewrite decide_False by (by destruct w). cbn. by rewrite String.string_of_list_ascii_of_string.
Qed.
