(* ===== verification/GoFloat.v ===== *)
(** * Float arithmetic of the standard library

    [float64] operations as IEEE 754 specifies them (round to nearest even,
    53 bits), where the code converts through a float. *)

From S2P Require Import Prelude.
From Stdlib Require Import SpecFloat.
Local Open Scope Z_scope.

Definition f64_of_Z (z : Z) : spec_float := binary_normalize 53 1024 z 0 false.
Definition f64_add : spec_float -> spec_float -> spec_float := SFadd 53 1024.
Definition f64_mul : spec_float -> spec_float -> spec_float := SFmul 53 1024.
Definition f64_div : spec_float -> spec_float -> spec_float := SFdiv 53 1024.

(** Conversion of a float to an integer type that holds it: truncation. *)
Definition f64_trunc (x : spec_float) : Z :=
  match x with
  | S754_finite s m e =>
      let a := if decide (e < 0) then Z.pos m / 2 ^ (- e) else Z.pos m * 2 ^ e in
      if s then - a else a
  | _ => 0
  end.

(** [time.Duration.Seconds]. *)
Definition Seconds (d : Z) : spec_float :=
  f64_add (f64_of_Z (Z.quot d (10 ^ 9))) (f64_div (f64_of_Z (Z.rem d (10 ^ 9))) (f64_of_Z (10 ^ 9))).

Example seconds_two_minutes : f64_trunc (Seconds (120 * 10 ^ 9)) = 120.
Proof. vm_compute. reflexivity. Qed.
Example seconds_truncates : f64_trunc (Seconds (119 * 10 ^ 9 + 999999999)) = 119.
Proof. vm_compute. reflexivity. Qed.
Example seconds_negative : f64_trunc (Seconds (- 1500000000)) = -1.
Proof. vm_compute. reflexivity. Qed.
(** Beyond 2^23 seconds the sum rounds up. *)
Example seconds_rounds_up : f64_trunc (Seconds (2 ^ 24 * 10 ^ 9 + 999999999)) = 2 ^ 24 + 1.
Proof. vm_compute. reflexivity. Qed.
