(* ===== verification/GoFlag.v ===== *)
(** * The parts of [strconv], [time] and [flag] behind the command line

    The parsers of flag values ([ParseInt] with base 0, [ParseBool],
    [ParseDuration]) and the loop of [flag.Parse].  A value that does not
    parse ends the process, so the parsers only tell whether they succeed. *)

From Stdlib Require Import SpecFloat.
From S2P Require Import Prelude GoBytes GoStrings GoFloat.
Local Open Scope Z_scope.

(** ** Integers: [strconv.ParseInt(s, 0, 64)] *)

(** [c | ('x' - 'X')]. *)
Definition lower (a : ascii) : Z := Z.lor (byte_of a) 32.

Definition digit36 (a : ascii) : option Z :=
  let c := byte_of a in
  if decide (48 <= c <= 57) then Some (c - 48)
  else if decide (97 <= lower a <= 122) then Some (lower a - 97 + 10)
  else None.

Fixpoint uint_loop (base : Z) (s : string) (n : Z) : option Z :=
  match s with
  | EmptyString => Some n
  | String a s =>
      if decide (a = "_"%char) then uint_loop base s n
      else
        d ← digit36 a;
        if decide (base <= d) then None
        else if decide (2 ^ 64 <= n * base + d) then None
        else uint_loop base s (n * base + d)
  end.

(** The base a literal selects, and its digits. *)
Definition base_prefix (s : string) : Z * string :=
  match s with
  | String a s1 =>
      if decide (a = "0"%char) then
        match s1 with
        | String b (String c r) =>
            if decide (lower b = 98) then (2, String c r)
            else if decide (lower b = 111) then (8, String c r)
            else if decide (lower b = 120) then (16, String c r)
            else (8, s1)
        | _ => (8, s1)
        end
      else (10, s)
  | EmptyString => (10, s)
  end.

(** The last thing [underscoreOK] saw. *)
Inductive saw := SawStart | SawDigit | SawUnderscore | SawOther.

Fixpoint underscore_loop (hex : bool) (s : string) (st : saw) : bool :=
  match s with
  | EmptyString => match st with SawUnderscore => false | _ => true end
  | String a s =>
      if bool_decide (48 <= byte_of a <= 57) || (hex && bool_decide (97 <= lower a <= 102))
      then underscore_loop hex s SawDigit
      else if decide (a = "_"%char) then
        match st with SawDigit => underscore_loop hex s SawUnderscore | _ => false end
      else match st with SawUnderscore => false | _ => underscore_loop hex s SawOther end
  end.

Definition underscoreOK (s : string) : bool :=
  match s with
  | String a (String b r) =>
      if bool_decide (a = "0"%char) &&
         (bool_decide (lower b = 98) || bool_decide (lower b = 111) || bool_decide (lower b = 120))
      then underscore_loop (bool_decide (lower b = 120)) r SawDigit
      else underscore_loop false s SawStart
  | _ => underscore_loop false s SawStart
  end.

(** The sign of a number and the rest. *)
Definition sign (s : string) : bool * string :=
  match s with
  | String a r =>
      if decide (a = "-"%char) then (true, r) else if decide (a = "+"%char) then (false, r) else (false, s)
  | EmptyString => (false, s)
  end.

Definition ParseInt0 (s : string) : option Z :=
  let '(neg, u) := sign s in
  if decide (u = "") then None
  else
    let '(base, ds) := base_prefix u in
    un ← uint_loop base ds 0;
    if has_byte "_" ds && negb (underscoreOK u) then None
    else if neg then (if decide (2 ^ 63 < un) then None else Some (- un))
    else if decide (2 ^ 63 <= un) then None
    else Some un.

Example parse_int0 :
  ParseInt0 "51821" = Some 51821 /\ ParseInt0 "-0x1F" = Some (-31) /\ ParseInt0 "0" = Some 0 /\
  ParseInt0 "010" = Some 8 /\ ParseInt0 "65_535" = Some 65535 /\ ParseInt0 "6__5" = None /\
  ParseInt0 "9223372036854775808" = None /\ ParseInt0 "-9223372036854775808" = Some (- 2 ^ 63) /\
  ParseInt0 "" = None /\ ParseInt0 "12a" = None /\ ParseInt0 "0x" = None /\ ParseInt0 "0_1" = Some 1.
Proof. vm_compute. split_and!; reflexivity. Qed.

(** ** Booleans: [strconv.ParseBool] *)

Definition ParseBool (s : string) : option bool :=
  if decide (s ∈ ["1"; "t"; "T"; "true"; "TRUE"; "True"]) then Some true
  else if decide (s ∈ ["0"; "f"; "F"; "false"; "FALSE"; "False"]) then Some false
  else None.

(** ** Durations: [time.ParseDuration] *)

(** [leadingInt]: the number at the front and the rest; [None] on overflow. *)
Fixpoint leadingInt (s : string) (x : Z) : option (Z * string) :=
  match s with
  | String a r =>
      match digit_val a with
      | None => Some (x, s)
      | Some d =>
          if decide (2 ^ 63 / 10 < x) then None
          else if decide (2 ^ 63 < x * 10 + d) then None
          else leadingInt r (x * 10 + d)
      end
  | EmptyString => Some (x, s)
  end.

(** [leadingFraction]: the digits, the power of ten they are divided by and
    the rest; digits that do not fit are skipped. *)
Fixpoint leadingFraction (s : string) (x : Z) (scale : spec_float) (overflow : bool)
  : Z * spec_float * string :=
  match s with
  | String a r =>
      match digit_val a with
      | None => (x, scale, s)
      | Some d =>
          if overflow || bool_decide ((2 ^ 63 - 1) / 10 < x) || bool_decide (2 ^ 63 < x * 10 + d)
          then leadingFraction r x scale true
          else leadingFraction r (x * 10 + d) (f64_mul scale (f64_of_Z 10)) false
      end
  | EmptyString => (x, scale, s)
  end.

(** The unit: everything up to the next digit or point. *)
Fixpoint split_unit (s : string) : string * string :=
  match s with
  | String a r =>
      if bool_decide (a = "."%char) || bool_decide (is_Some (digit_val a)) then ("", s)
      else let '(u, rest) := split_unit r in (String a u, rest)
  | EmptyString => ("", "")
  end.

(** [unitMap]; the two micro signs are written in UTF-8. *)
Definition micro1 : string := String (ascii_of 194) (String (ascii_of 181) "s").
Definition micro2 : string := String (ascii_of 206) (String (ascii_of 188) "s").
Definition unit_of (u : string) : option Z :=
  if decide (u = "ns") then Some 1
  else if decide (u = "us" \/ u = micro1 \/ u = micro2) then Some (10 ^ 3)
  else if decide (u = "ms") then Some (10 ^ 6)
  else if decide (u = "s") then Some (10 ^ 9)
  else if decide (u = "m") then Some (60 * 10 ^ 9)
  else if decide (u = "h") then Some (3600 * 10 ^ 9)
  else None.

(** One number with its unit: its nanoseconds and the rest. *)
Definition duration_part (s : string) : option (Z * string) :=
  '(v, s1) ← leadingInt s 0;
  let pre := bool_decide (s1 <> s) in
  let '(f, scale, s2, post) :=
    match s1 with
    | String a r =>
        if decide (a = "."%char)
        then let '(f, scale, s2) := leadingFraction r 0 (f64_of_Z 1) false in (f, scale, s2, bool_decide (s2 <> r))
        else (0, f64_of_Z 1, s1, false)
    | EmptyString => (0, f64_of_Z 1, s1, false)
    end in
  if negb (pre || post) then None
  else
    let '(u, rest) := split_unit s2 in
    if decide (u = "") then None
    else
      unit ← unit_of u;
      if decide (2 ^ 63 / unit < v) then None
      else
        let v := v * unit in
        let v := if decide (0 < f)
                 then v + f64_trunc (f64_mul (f64_of_Z f) (f64_div (f64_of_Z unit) scale))
                 else v in
        if decide (2 ^ 63 < v) then None else Some (v, rest).

Fixpoint duration_loop (fuel : nat) (s : string) (d : Z) : result (option Z) :=
  match s with
  | EmptyString => Ok (Some d)
  | String _ _ =>
      match fuel with
      | O => NoFuel
      | S fuel =>
          match duration_part s with
          | None => Ok None
          | Some (v, rest) =>
              let d := wrap_u64 (d + v) in
              if decide (2 ^ 63 < d) then Ok None else duration_loop fuel rest d
          end
      end
  end.

Definition ParseDuration (s : string) : result (option Z) :=
  let '(neg, u) := sign s in
  if decide (u = "0") then Ok (Some 0)
  else if decide (u = "") then Ok None
  else
    r ← duration_loop (String.length u) u 0;
    Ok (d ← r;
        if neg then Some (- d)
        else if decide (2 ^ 63 - 1 < d) then None else Some d).

Example parse_duration :
  ParseDuration "2m" = Ok (Some (120 * 10 ^ 9)) /\ ParseDuration "1h15m30.918s" = Ok (Some 4530918000000) /\
  ParseDuration "-1.5h" = Ok (Some (- 5400 * 10 ^ 9)) /\ ParseDuration "750ms" = Ok (Some (750 * 10 ^ 6)) /\
  ParseDuration "15" = Ok None /\ ParseDuration "" = Ok None /\ ParseDuration "0" = Ok (Some 0) /\
  ParseDuration ".s" = Ok None /\ ParseDuration "9223372036854775808ns" = Ok None /\
  ParseDuration "-9223372036854775808ns" = Ok (Some (- 2 ^ 63)) /\ ParseDuration "1s2" = Ok None /\
  ParseDuration (String "1" micro1) = Ok (Some 1000).
Proof. vm_compute. split_and!; reflexivity. Qed.

(** ** Numbers that were printed parse back *)

Lemma digit36_ascii d : 0 <= d < 10 -> digit36 (ascii_of (48 + d)) = Some d.
Proof.
  intros Hd. unfold digit36. rewrite byte_of_ascii_of by (unfold byte_range; lia).
  rewrite decide_True by lia. f_equal. lia.
Qed.

Lemma ascii_digit_ne d a : 0 <= d < 10 -> digit_val a = None -> ascii_of (48 + d) <> a.
Proof. intros Hd Ha <-. by rewrite digit_val_ascii in Ha. Qed.

(** The first digit of a positive number is not zero. *)
Lemma dec_digits_first fuel n acc :
  0 < n < 10 ^ Z.of_nat fuel ->
  exists d s, 0 < d < 10 /\ dec_digits fuel n acc = String (ascii_of (48 + d)) s.
Proof.
  revert n acc. induction fuel as [|fuel IH]; intros n acc Hn; [cbn in Hn; lia|].
  cbn [dec_digits]. case_decide as Hs; [rewrite Z.mod_small by lia; exists n, acc; split; [lia|done]|].
  rewrite Nat2Z.inj_succ, Z.pow_succ_r in Hn by lia. apply IH.
  split; [apply Z.div_str_pos; lia|apply Z.div_lt_upper_bound; lia].
Qed.

Lemma byte_of_digit d : 0 <= d < 10 -> byte_of (ascii_of (48 + d)) = 48 + d.
Proof. intros. apply byte_of_ascii_of. unfold byte_range. lia. Qed.

Lemma uint_loop_digits n : 0 <= n <= 2 ^ 63 -> uint_loop 10 (dec_digits 20 n "") 0 = Some n.
Proof.
  intros Hn. rewrite (dec_digits_loop (uint_loop 10) (2 ^ 63)); [done| |split; [lia|]|lia..].
  - intros d s x Hd Hx Hle. cbn [uint_loop].
    rewrite (decide_False (P := _ = "_"%char)) by (apply ascii_digit_ne; [lia|reflexivity]).
    rewrite digit36_ascii by done. cbn [mbind option_bind]. by rewrite !decide_False by lia.
  - change (10 ^ Z.of_nat 20) with 100000000000000000000. lia.
Qed.

(** The sign and the digits of a printed number. *)
Lemma sign_Itoa n t :
  sign (Itoa n +:+ t) = (bool_decide (n < 0), dec_digits 20 (Z.abs n) "" +:+ t).
Proof.
  unfold Itoa. case_decide as Hn.
  - rewrite bool_decide_eq_true_2, Z.abs_neq by lia. done.
  - rewrite bool_decide_eq_false_2, Z.abs_eq by lia.
    destruct (dec_digits_head 19 n "") as (a & s & d & -> & Ha); [lia|]. rewrite str_app_cons. cbn [sign].
    rewrite !decide_False; [done|by intros ->..].
Qed.

Lemma ParseInt0_Itoa n : int64_range n -> ParseInt0 (Itoa n) = Some n.
Proof.
  unfold int64_range, min_int64, max_int64. intros Hn. unfold ParseInt0.
  rewrite <- (str_app_nil_r (Itoa n)), sign_Itoa, str_app_nil_r.
  destruct (decide (n = 0)) as [->|Hne]; [done|].
  assert (0 < Z.abs n < 10 ^ Z.of_nat 20) as Hr by (change (10 ^ Z.of_nat 20) with 100000000000000000000; lia).
  destruct (dec_digits_first 20 (Z.abs n) "" Hr) as (d & s & Hd & E).
  rewrite decide_False by (by rewrite E).
  assert (base_prefix (dec_digits 20 (Z.abs n) "") = (10, dec_digits 20 (Z.abs n) "")) as ->.
  { rewrite E. cbn [base_prefix]. rewrite decide_False; [done|]. intros H%(f_equal byte_of).
    rewrite byte_of_digit in H by lia. change (byte_of "0"%char) with 48 in H. lia. }
  rewrite uint_loop_digits by lia. cbn [mbind option_bind].
  rewrite dec_digits_bytes by done. cbn [has_byte andb].
  case_bool_decide; rewrite decide_False by lia; f_equal; lia.
Qed.

Lemma dec_digits_app fuel n acc t : dec_digits fuel n acc +:+ t = dec_digits fuel n (acc +:+ t).
Proof.
  revert n acc. induction fuel as [|fuel IH]; intros n acc; cbn [dec_digits]; [done|].
  case_decide; [by rewrite str_app_cons|]. by rewrite IH, str_app_cons.
Qed.

Lemma leadingInt_digits n t :
  0 <= n <= 2 ^ 63 -> leadingInt (dec_digits 20 n t) 0 = leadingInt t n.
Proof.
  intros Hn. apply (dec_digits_loop leadingInt (2 ^ 63)); [|split; [lia|]|lia..].
  - intros d s x Hd Hx Hle. cbn [leadingInt]. rewrite digit_val_ascii by done.
    rewrite !decide_False; [done|lia|]. apply Z.nlt_ge, Z.div_le_lower_bound; lia.
  - change (10 ^ Z.of_nat 20) with 100000000000000000000. lia.
Qed.

Lemma ParseDuration_Itoa n : int64_range n -> ParseDuration (Itoa n +:+ "ns") = Ok (Some n).
Proof.
  unfold int64_range, min_int64, max_int64. intros Hn. unfold ParseDuration. rewrite sign_Itoa.
  rewrite dec_digits_app. change ("" +:+ "ns") with "ns".
  destruct (dec_digits_head 19 (Z.abs n) "ns") as (a & s & d & E & Ha); [lia|].
  set (u := dec_digits 20 (Z.abs n) "ns") in *.
  assert (leadingInt u 0 = Some (Z.abs n, "ns")) as Hl by (unfold u; by rewrite leadingInt_digits by lia).
  assert (u <> "ns" /\ u <> "" /\ u <> "0") as (H1 & H2 & H3).
  { split_and!; intros Hu; rewrite Hu in *; [by injection E as <- _|done|].
    vm_compute in Hl. injection Hl as Hl. done. }
  rewrite (decide_False (P := u = "0")), (decide_False (P := u = "")) by done.
  assert (duration_part u = Some (Z.abs n, "")) as Hp.
  { unfold duration_part. rewrite Hl. cbn [mbind option_bind]. rewrite bool_decide_eq_true_2 by done.
    cbn [orb negb]. rewrite (decide_False (P := _ = "."%char)) by done. change (split_unit "ns") with ("ns", "").
    cbn iota beta. rewrite (decide_False (P := "ns" = "")) by done.
    change (unit_of "ns") with (Some 1). cbn [mbind option_bind].
    rewrite Z.div_1_r, (decide_False (P := _ < Z.abs n)), (decide_False (P := 0 < 0)) by lia.
    rewrite Z.mul_1_r, decide_False by lia. done. }
  rewrite E at 1. rewrite E at 1. cbn [String.length duration_loop]. rewrite <- E, Hp.
  cbn zeta. unfold wrap_u64. rewrite Z.add_0_l, Z.mod_small, decide_False by lia.
  assert (forall f, duration_loop f "" (Z.abs n) = Ok (Some (Z.abs n))) as -> by by intros []. cbn.
  case_bool_decide; [|rewrite decide_False by lia]; do 2 f_equal; lia.
Qed.

(** ** The scan of a duration ends *)

Lemma leadingInt_length s x v rest : leadingInt s x = Some (v, rest) -> (String.length rest <= String.length s)%nat.
Proof.
  revert x. induction s as [|a s IH]; intros x; cbn [leadingInt]; [by intros [= _ <-]|].
  destruct (digit_val a); [|by intros [= _ <-]]. repeat case_decide; [done..|]. intros Hr%IH. cbn. lia.
Qed.

Lemma leadingFraction_length s x scale ov f sc rest :
  leadingFraction s x scale ov = (f, sc, rest) -> (String.length rest <= String.length s)%nat.
Proof.
  revert x scale ov. induction s as [|a s IH]; intros x scale ov; cbn [leadingFraction]; [by intros [= _ _ <-]|].
  destruct (digit_val a); [|by intros [= _ _ <-]]. case_match; intros Hr%IH; cbn; lia.
Qed.

Lemma split_unit_length s u rest :
  split_unit s = (u, rest) -> String.length s = (String.length u + String.length rest)%nat.
Proof.
  revert u. induction s as [|a s IH]; intros u; cbn [split_unit]; [by intros [= <- <-]|].
  destruct (bool_decide _ || bool_decide _); [by intros [= <- <-]|].
  destruct (split_unit s) as [u1 r1]. intros [= <- <-]. cbn. by rewrite (IH u1).
Qed.

Lemma duration_part_length s v rest :
  duration_part s = Some (v, rest) -> (String.length rest < String.length s)%nat.
Proof.
  unfold duration_part. destruct (leadingInt s 0) as [[v1 s1]|] eqn:H1; cbn [mbind option_bind]; [|done].
  apply leadingInt_length in H1.
  destruct (match s1 with EmptyString => _ | String _ _ => _ end) as [[[f scale] s2] post] eqn:H2.
  assert (String.length s2 <= String.length s1)%nat as Hl.
  { destruct s1 as [|a r]; [by injection H2 as <- <- <- <-|].
    case_decide; [|by injection H2 as <- <- <- <-].
    destruct (leadingFraction r 0 (f64_of_Z 1) false) as [[f' sc'] s2'] eqn:H3.
    injection H2 as <- <- <- <-. apply leadingFraction_length in H3. cbn. lia. }
  destruct (negb _); [done|]. destruct (split_unit s2) as [u r] eqn:Hu. apply split_unit_length in Hu.
  case_decide as Hne; [done|]. destruct (unit_of u); cbn [mbind option_bind]; [|done].
  assert (0 < String.length u)%nat by (destruct u; cbn; [done|lia]).
  repeat case_decide; intros [= _ <-]; lia.
Qed.

Lemma duration_loop_total fuel s d :
  (String.length s <= fuel)%nat -> exists o, duration_loop fuel s d = Ok o.
Proof.
  revert s d. induction fuel as [|fuel IH]; intros [|a s] d Hl; cbn [duration_loop String.length] in *; eauto; [lia|].
  destruct (duration_part (String a s)) as [[v rest]|] eqn:Hp; [|eauto]. cbn zeta.
  case_decide; [eauto|]. apply IH. apply duration_part_length in Hp. cbn in Hp. lia.
Qed.

Lemma ParseDuration_total s : exists o, ParseDuration s = Ok o.
Proof.
  unfold ParseDuration. destruct (sign s) as [neg u]. case_decide; [eauto|]. case_decide; [eauto|].
  destruct (duration_loop_total (String.length u) u 0) as (o & ->); [lia|]. cbn. eauto.
Qed.

(** What the scan accepts is a 64-bit number of nanoseconds. *)
Lemma duration_loop_range fuel s d o :
  0 <= d <= 2 ^ 63 -> duration_loop fuel s d = Ok (Some o) -> 0 <= o <= 2 ^ 63.
Proof.
  revert s d. induction fuel as [|fuel IH]; intros [|a s] d Hd; cbn [duration_loop];
    try (by intros [= <-]).
  destruct (duration_part (String a s)) as [[v rest]|]; [|done]. cbn zeta. case_decide; [done|].
  apply IH. split; [|lia]. unfold wrap_u64. apply Z.mod_pos_bound. lia.
Qed.

Lemma ParseDuration_range s d : ParseDuration s = Ok (Some d) -> int64_range d.
Proof.
  unfold ParseDuration, int64_range, min_int64, max_int64. destruct (sign s) as [neg u].
  case_decide; [intros [= <-]; lia|]. case_decide; [done|].
  intros (r & Hr & Hd)%bind_ok. injection Hd as Hd. destruct r as [n|]; cbn in Hd; [|done].
  apply duration_loop_range in Hr; [|lia]. destruct neg; [injection Hd as <-; lia|].
  case_decide; [done|]. injection Hd as <-. lia.
Qed.

(** ** The package [flag] *)

Inductive flag_val :=
  | VString (s : string)
  | VInt (n : Z)
  | VBool (b : bool)
  | VDuration (d : Z).

Definition is_bool_flag (v : flag_val) : bool := match v with VBool _ => true | _ => false end.

(** [Value.Set]; [None] is an error. *)
Definition set_value (v : flag_val) (s : string) : result (option flag_val) :=
  match v with
  | VString _ => Ok (Some (VString s))
  | VInt _ => Ok (option_map VInt (ParseInt0 s))
  | VBool _ => Ok (option_map VBool (ParseBool s))
  | VDuration _ => r ← ParseDuration s; Ok (option_map VDuration r)
  end.

Inductive flag_error :=
  | BadSyntax (arg : string)
  | NotDefined (name : string)
  | HelpRequested
  | NeedsArgument (name : string)
  | InvalidValue (name value : string).

(** What an argument is. *)
Inductive arg_kind :=
  | NoFlag                                          (* parsing stops before it *)
  | Terminator                                      (* "--" *)
  | Malformed
  | Flag (name : string) (value : option string).   (* -name or -name=value *)

Fixpoint cut (sep : ascii) (s : string) : string * option string :=
  match s with
  | EmptyString => ("", None)
  | String a s =>
      if decide (a = sep) then ("", Some s)
      else let '(n, v) := cut sep s in (String a n, v)
  end.

Definition flag_name (name : string) : arg_kind :=
  match name with
  | EmptyString => Malformed
  | String a _ =>
      if decide (a = "-"%char \/ a = "="%char) then Malformed
      else let '(n, v) := cut "=" name in Flag n v
  end.

Definition classify (arg : string) : arg_kind :=
  match arg with
  | String a (String b r) =>
      if decide (a <> "-"%char) then NoFlag
      else if decide (b = "-"%char) then (if decide (r = "") then Terminator else flag_name r)
      else flag_name (String b r)
  | _ => NoFlag
  end.

Notation flag_set := (gmap string flag_val).

(** [FlagSet.Parse]: the values and the arguments that are left. *)
Fixpoint parse_args (fs : flag_set) (args : list string) : result (flag_error + flag_set * list string) :=
  match args with
  | [] => Ok (inr (fs, []))
  | arg :: args' =>
      match classify arg with
      | NoFlag => Ok (inr (fs, args))
      | Terminator => Ok (inr (fs, args'))
      | Malformed => Ok (inl (BadSyntax arg))
      | Flag name value =>
          match fs !! name with
          | None =>
              Ok (inl (if decide (name = "help" \/ name = "h") then HelpRequested else NotDefined name))
          | Some cur =>
              let set (value : string) (k : flag_set -> result (flag_error + flag_set * list string)) :=
                o ← set_value cur value;
                match o with
                | None => Ok (inl (InvalidValue name value))
                | Some v => k (<[name := v]> fs)
                end in
              match value with
              | Some value => set value (fun fs => parse_args fs args')
              | None =>
                  if is_bool_flag cur then set "true" (fun fs => parse_args fs args')
                  else match args' with
                       | value :: args'' => set value (fun fs => parse_args fs args'')
                       | [] => Ok (inl (NeedsArgument name))
                       end
              end
          end
      end
  end.

(** The command line has [flag.ExitOnError]: the status the process ends with. *)
Definition exit_code (e : flag_error) : Z := match e with HelpRequested => 0 | _ => 2 end.

(** ** Parsing keeps the names and types of the flags *)

Definition same_type (v v' : flag_val) : Prop :=
  match v, v' with
  | VString _, VString _ | VBool _, VBool _ => True
  | VInt _, VInt n | VDuration _, VDuration n => int64_range n
  | _, _ => False
  end.

(** [v'] may be what became of [v]. *)
Definition kept (v v' : flag_val) : Prop := v' = v \/ same_type v v'.
Definition keeps (fs fs' : flag_set) : Prop := forall n, option_Forall2 kept (fs !! n) (fs' !! n).

Lemma kept_trans v1 v2 v3 : kept v1 v2 -> kept v2 v3 -> kept v1 v3.
Proof. intros [->|H1] [->|H2]; [by left|by right|by right|]. right. by destruct v1, v2, v3. Qed.

#[export] Instance keeps_preorder : PreOrder keeps.
Proof.
  split.
  - intros fs n. destruct (fs !! n); constructor. by left.
  - intros f1 f2 f3 H12 H23 n. specialize (H12 n). specialize (H23 n).
    destruct H12; inversion H23; subst; constructor. by eapply kept_trans.
Qed.

Lemma keeps_insert fs n v v' : fs !! n = Some v -> same_type v v' -> keeps fs (<[n := v']> fs).
Proof.
  intros Hn Hv m. destruct (decide (n = m)) as [<-|Hne].
  - rewrite Hn, lookup_insert_eq. constructor. by right.
  - rewrite lookup_insert_ne by done. destruct (fs !! m); constructor. by left.
Qed.

Lemma ParseInt0_range s n : ParseInt0 s = Some n -> int64_range n.
Proof.
  unfold ParseInt0, int64_range, min_int64, max_int64. destruct (sign s) as [neg u]. case_decide; [done|].
  destruct (base_prefix u) as [base ds] eqn:Hb.
  assert (forall t m r, 0 <= base -> 0 <= m -> uint_loop base t m = Some r -> 0 <= r) as Hpos.
  { clear. induction t as [|a t IH]; intros m r Hb Hm; cbn [uint_loop]; [by intros [= <-]|].
    case_decide; [by apply IH|]. destruct (digit36 a) as [d|] eqn:Hd; cbn [mbind option_bind]; [|done].
    assert (0 <= d) by (revert Hd; unfold digit36; repeat case_decide; intros [= <-]; lia).
    repeat case_decide; [done..|]. apply IH; [done|nia]. }
  assert (0 <= base) as Hb0.
  { revert Hb. unfold base_prefix. repeat case_match; intros [= <- _]; lia. }
  destruct (uint_loop base ds 0) as [un|] eqn:Hu; cbn [mbind option_bind]; [|done].
  apply Hpos in Hu; [|done..]. destruct (_ && _); [done|].
  destruct neg; case_decide; intros [= <-]; lia.
Qed.

Lemma set_value_spec v s :
  exists o, set_value v s = Ok o /\ forall v', o = Some v' -> same_type v v'.
Proof.
  destruct v; cbn [set_value].
  - eexists. split; [done|]. by intros v' [= <-].
  - eexists. split; [done|]. intros v'. destruct (ParseInt0 s) eqn:Hp; [|done].
    intros [= <-]. by eapply ParseInt0_range.
  - eexists. split; [done|]. intros v'. by destruct (ParseBool s); [intros [= <-]|].
  - destruct (ParseDuration_total s) as (o & Ho). rewrite Ho. eexists. split; [done|].
    intros v'. destruct o; [|done]. intros [= <-]. by eapply ParseDuration_range.
Qed.

(** The continuation that stores one value. *)
Lemma parse_set fs name value cur (k : flag_set -> result (flag_error + flag_set * list string)) :
  fs !! name = Some cur ->
  (forall fs, exists o, k fs = Ok o /\ forall fs' rest, o = inr (fs', rest) -> keeps fs fs') ->
  exists o,
    (o ← set_value cur value;
     match o with None => Ok (inl (InvalidValue name value)) | Some v => k (<[name := v]> fs) end) = Ok o /\
    forall fs' rest, o = inr (fs', rest) -> keeps fs fs'.
Proof.
  intros Hc Hk. destruct (set_value_spec cur value) as (o & -> & Hty). cbn.
  destruct o as [v|]; [|by eexists]. destruct (Hk (<[name := v]> fs)) as (o & Ho & Hkeep). exists o.
  split; [done|]. intros fs' rest Hr. trans (<[name := v]> fs); [|by eapply Hkeep].
  by apply (keeps_insert _ _ cur), Hty.
Qed.

(** Every command line either parses, with the same flags, or is refused. *)
Lemma parse_args_spec args fs :
  exists o, parse_args fs args = Ok o /\ forall fs' rest, o = inr (fs', rest) -> keeps fs fs'.
Proof.
  remember (length args) as n eqn:Hn. assert (length args <= n)%nat as Hl by lia. clear Hn. revert args fs Hl.
  induction n as [|n IH]; intros [|arg args] fs Hl; cbn [parse_args length] in *; try lia.
  1,2: eexists; split; [done|]; by intros fs' rest [= <- _].
  destruct (classify arg) as [| | |name value];
    try (eexists; split; [done|]; by intros fs' rest [= <- _]).
  destruct (fs !! name) as [cur|] eqn:Hc; [|by eexists].
  destruct value as [value|]; [apply (parse_set _ _ _ _ (fun fs => parse_args fs args)); auto with lia|].
  destruct (is_bool_flag cur); [apply (parse_set _ _ _ _ (fun fs => parse_args fs args)); auto with lia|].
  destruct args as [|value args]; [by eexists|]. cbn in Hl.
  apply (parse_set _ _ _ _ (fun fs => parse_args fs args)); auto with lia.
Qed.

(** ** A command line that was written out parses back *)

(** One assignment, with one dash or two, and its value joined by [=] or in
    an argument of its own. *)
Record assignment := mkAssign {
  as_name : string;
  as_value : flag_val;
  as_long : bool;
  as_joined : bool;
}.

Definition print_value (v : flag_val) : string :=
  match v with
  | VString s => s
  | VInt n => Itoa n
  | VBool b => if b then "true" else "false"
  | VDuration d => Itoa d +:+ "ns"
  end.

Definition dashes (a : assignment) : string := if a.(as_long) then "--" else "-".

Definition render (a : assignment) : list string :=
  if a.(as_joined) || is_bool_flag a.(as_value)
  then [dashes a +:+ a.(as_name) +:+ String "=" (print_value a.(as_value))]
  else [dashes a +:+ a.(as_name); print_value a.(as_value)].

(** A name that can be written on the command line. *)
Definition good_name (n : string) : bool :=
  match n with
  | EmptyString => false
  | String a _ => negb (bool_decide (a = "-"%char)) && negb (has_byte "=" n)
  end.

Lemma set_value_print v v' : same_type v v' -> set_value v (print_value v') = Ok (Some v').
Proof.
  destruct v, v'; cbn [same_type set_value print_value]; try done.
  - intros Hn. by rewrite ParseInt0_Itoa.
  - by destruct b0.
  - intros Hn. rewrite ParseDuration_Itoa by done. done.
Qed.

Lemma cut_app sep n v :
  has_byte sep n = false -> cut sep (n +:+ String sep v) = (n, Some v).
Proof.
  induction n as [|a n IH]; cbn [has_byte].
  - intros _. change ("" +:+ String sep v) with (String sep v). cbn. by rewrite decide_True.
  - intros [Ha%bool_decide_eq_false Hn]%orb_false_iff. rewrite str_app_cons. cbn. by rewrite decide_False, IH.
Qed.

Lemma cut_none sep n : has_byte sep n = false -> cut sep n = (n, None).
Proof.
  induction n as [|a n IH]; cbn [has_byte]; [done|].
  intros [Ha%bool_decide_eq_false Hn]%orb_false_iff. cbn. by rewrite decide_False, IH.
Qed.

Lemma classify_render long n t k v :
  good_name n = true -> cut "=" (n +:+ t) = (k, v) ->
  classify ((if long : bool then "--" else "-") +:+ n +:+ t) = Flag k v.
Proof.
  destruct n as [|a n]; [done|]. cbn [good_name has_byte].
  intros [Ha%negb_true_iff%bool_decide_eq_false [He%bool_decide_eq_false _]%negb_true_iff%orb_false_iff]%andb_true_iff Hc.
  rewrite str_app_cons in Hc |- *.
  assert (flag_name (String a (n +:+ t)) = Flag k v) as Hf.
  { unfold flag_name. rewrite decide_False, Hc by naive_solver. done. }
  destruct long.
  - exact Hf.
  - change ("-" +:+ String a (n +:+ t)) with (String "-" (String a (n +:+ t))). unfold classify.
    rewrite decide_False by (intros Hne; by apply Hne). by rewrite decide_False.
Qed.

(** The flags after a list of assignments: the last one wins. *)
Definition assign (fs : flag_set) (asg : list assignment) : flag_set :=
  foldl (fun fs a => <[a.(as_name) := a.(as_value)]> fs) fs asg.

(** Assignments of defined flags to values of their types. *)
Definition assignable (fs : flag_set) (a : assignment) : Prop :=
  good_name a.(as_name) = true /\
  exists v, fs !! a.(as_name) = Some v /\ same_type v a.(as_value).

Lemma same_type_trans v1 v2 v3 : same_type v1 v2 -> same_type v1 v3 -> same_type v2 v3.
Proof. by destruct v1, v2, v3. Qed.

Lemma assignable_insert fs a b :
  assignable fs a -> assignable fs b -> assignable (<[a.(as_name) := a.(as_value)]> fs) b.
Proof.
  intros [_ (v & Hv & Ht)] [Hg (v' & Hv' & Ht')]. split; [done|].
  destruct (decide (a.(as_name) = b.(as_name))) as [E|Hne].
  - rewrite E, lookup_insert_eq. eexists. split; [done|]. rewrite E, Hv' in Hv. injection Hv as ->.
    by eapply same_type_trans.
  - rewrite lookup_insert_ne by done. eauto.
Qed.

Lemma same_type_bool v v' : same_type v v' -> is_bool_flag v = is_bool_flag v'.
Proof. by destruct v, v'. Qed.

Lemma parse_render fs a rest :
  assignable fs a -> parse_args fs (render a ++ rest) = parse_args (<[a.(as_name) := a.(as_value)]> fs) rest.
Proof.
  intros [Hg (v & Hv & Ht)].
  assert (has_byte "=" a.(as_name) = false) as Hb.
  { unfold good_name in Hg. destruct (as_name a); [done|]. by apply andb_true_iff in Hg as [_ ?%negb_true_iff]. }
  unfold render, dashes. rewrite <- (same_type_bool _ _ Ht).
  destruct (as_joined a || is_bool_flag v) eqn:Hj; cbn [app parse_args].
  - rewrite (classify_render _ _ _ a.(as_name) (Some (print_value a.(as_value)))) by (done || by apply cut_app).
    rewrite Hv, set_value_print by done. done.
  - apply orb_false_iff in Hj as [_ Hnb]. rewrite <- (str_app_nil_r (as_name a)) at 1.
    rewrite (classify_render _ _ _ a.(as_name) None); [|done|by rewrite str_app_nil_r; apply cut_none].
    rewrite Hv, Hnb, set_value_print by done. done.
Qed.

Lemma parse_rendered fs asg rest :
  Forall (assignable fs) asg ->
  parse_args fs (concat (render <$> asg) ++ rest) = parse_args (assign fs asg) rest.
Proof.
  revert fs. induction asg as [|a asg IH]; intros fs; [done|]. intros [Ha Hasg]%Forall_cons.
  cbn [fmap list_fmap concat assign foldl]. rewrite <- app_assoc, parse_render by done. apply IH.
  eapply Forall_impl; [done|]. intros b. by apply assignable_insert.
Qed.
