(* ===== verification/GoNet.v ===== *)
(** * The parts of [net] and [encoding/gob] the daemon uses

    [SplitHostPort] and [JoinHostPort] on strings; a gob stream as the frames
    its encoders write.  A fresh [gob.Encoder] writes the definitions of a
    type before the first value of that type; a [gob.Decoder] that meets the
    definitions of a type it already knows fails with "duplicate type
    received". *)

From S2P Require Import Prelude.
From S2P Require Import GoBytes.
From S2P Require Import GoStrings.

(** ** Addresses *)

Fixpoint index_byte (c : ascii) (s : string) : option nat :=
  match s with
  | EmptyString => None
  | String a s => if decide (a = c) then Some O else S <$> index_byte c s
  end.

Fixpoint last_index_byte (c : ascii) (s : string) : option nat :=
  match s with
  | EmptyString => None
  | String a s =>
      match last_index_byte c s with
      | Some i => Some (S i)
      | None => if decide (a = c) then Some O else None
      end
  end.

(** [net.JoinHostPort]. *)
Definition JoinHostPort (host port : string) : string :=
  if has_byte ":" host then "[" +:+ host +:+ "]:" +:+ port else host +:+ ":" +:+ port.

(** [net.SplitHostPort]; [None] is a non-nil error.  A leading bracket must
    be closed just before the last colon. *)
Definition SplitHostPort (hostport : string) : option (string * string) :=
  match last_index_byte ":" hostport, hostport with
  | Some i, String a rest =>
      let port := str_drop (S i) hostport in
      if decide (a = "["%char) then
        match index_byte "]" hostport with
        | Some e =>
            if decide (S e = i) then
              if has_byte "[" rest || has_byte "]" (str_drop (S e) hostport) then None
              else Some (str_take (e - 1) rest, port)
            else None
        | None => None
        end
      else
        let host := str_take i hostport in
        if has_byte ":" host || has_byte "[" hostport || has_byte "]" hostport then None
        else Some (host, port)
  | _, _ => None
  end.

Lemma last_index_app c s1 s2 :
  has_byte c s2 = false -> last_index_byte c (s1 +:+ String c s2) = Some (String.length s1).
Proof.
  intros H2. induction s1 as [|a s1 IH].
  - change ("" +:+ String c s2) with (String c s2). cbn.
    assert (last_index_byte c s2 = None) as ->; [|by rewrite decide_True].
    induction s2 as [|a s2 IH]; [done|]. cbn in *.
    apply orb_false_iff in H2 as [Ha%bool_decide_eq_false H2]. by rewrite IH, decide_False.
  - rewrite str_app_cons. cbn. by rewrite IH.
Qed.

Lemma index_app c s1 s2 :
  has_byte c s1 = false -> index_byte c (s1 +:+ String c s2) = Some (String.length s1).
Proof.
  induction s1 as [|a s1 IH]; cbn [has_byte].
  - intros _. change ("" +:+ String c s2) with (String c s2). cbn. by rewrite decide_True.
  - intros [Ha%bool_decide_eq_false H1]%orb_false_iff. rewrite str_app_cons. cbn.
    by rewrite decide_False, IH.
Qed.

Lemma str_drop_past s1 c s2 : str_drop (S (String.length s1)) (s1 +:+ String c s2) = s2.
Proof. induction s1 as [|a s1 IH]; [by destruct s2|]. by rewrite str_app_cons. Qed.

Lemma SplitHostPort_plain host port :
  has_byte ":" host = false -> has_byte "[" host = false -> has_byte "]" host = false ->
  has_byte ":" port = false -> has_byte "[" port = false -> has_byte "]" port = false ->
  SplitHostPort (host +:+ String ":" port) = Some (host, port).
Proof.
  intros Hc Hl Hr Pc Pl Pr. unfold SplitHostPort. rewrite last_index_app by done.
  assert (has_byte "[" (host +:+ String ":" port) = false) as Fl by (rewrite has_byte_app, Hl; cbn; by rewrite Pl).
  assert (has_byte "]" (host +:+ String ":" port) = false) as Fr by (rewrite has_byte_app, Hr; cbn; by rewrite Pr).
  pose proof (str_take_app host (String ":" port)) as Ft.
  pose proof (str_drop_past host ":" port) as Fd.
  destruct (host +:+ String ":" port) as [|a rest] eqn:E; [by destruct host|]. clear E.
  rewrite Fd, Ft, Fl, Fr, Hc. cbn in Fl. apply orb_false_iff in Fl as [Fl%bool_decide_eq_false _].
  by rewrite decide_False.
Qed.

Lemma SplitHostPort_bracket host port :
  has_byte "[" host = false -> has_byte "]" host = false ->
  has_byte ":" port = false -> has_byte "[" port = false -> has_byte "]" port = false ->
  SplitHostPort (String "[" (host +:+ String "]" (String ":" port))) = Some (host, port).
Proof.
  intros Hl Hr Pc Pl Pr.
  pose proof (last_index_app ":" (String "[" host +:+ "]") port Pc) as Fi.
  pose proof (str_drop_past (String "[" host +:+ "]") ":" port) as Fp.
  pose proof (index_app "]" (String "[" host) (String ":" port)) as Fe.
  pose proof (str_drop_past (String "[" host) "]" (String ":" port)) as Fd.
  rewrite str_app_assoc, str_length_app in Fi, Fp. rewrite !str_app_cons in Fi, Fp, Fe, Fd.
  change ("]" +:+ String ":" port) with (String "]" (String ":" port)) in Fi, Fp.
  cbn [String.length] in Fi, Fp, Fe, Fd. unfold SplitHostPort.
  rewrite Fi, Fe by (cbn; done). rewrite !decide_True by (done || (cbn; lia)).
  rewrite Fp, Fd, has_byte_app, Hl. cbn [has_byte]. rewrite Pl, Pr. cbn -[str_take].
  by rewrite Nat.sub_0_r, str_take_app.
Qed.

(** A host without brackets and a port without colon or brackets survive
    [JoinHostPort] followed by [SplitHostPort]. *)
Lemma Split_JoinHostPort host port :
  has_byte "[" host = false -> has_byte "]" host = false ->
  has_byte ":" port = false -> has_byte "[" port = false -> has_byte "]" port = false ->
  SplitHostPort (JoinHostPort host port) = Some (host, port).
Proof.
  intros Hl Hr Pc Pl Pr. unfold JoinHostPort. destruct (has_byte ":" host) eqn:Hc.
  - by apply SplitHostPort_bracket.
  - by apply SplitHostPort_plain.
Qed.

Lemma Split_JoinHostPort_Itoa host p :
  has_byte "[" host = false -> has_byte "]" host = false ->
  SplitHostPort (JoinHostPort host (Itoa p)) = Some (host, Itoa p).
Proof. intros. by apply Split_JoinHostPort; try apply Itoa_bytes. Qed.

(** ** Gob streams *)

Inductive frame (M : Type) :=
  | FTypes             (* the type definitions an encoder writes once *)
  | FValue (m : M).
Arguments FTypes {M}.
Arguments FValue {M} m.

(** [gob.NewEncoder(conn).Encode(m)]: what a fresh encoder writes. *)
Definition encode_fresh {M} (m : M) : list (frame M) := [FTypes; FValue m].

(** One [dec.Decode]: [seen] tells whether the decoder knows the type. *)
Definition decode {M} (seen : bool) (stream : list (frame M)) : option (M * list (frame M)) :=
  match stream with
  | FTypes :: FValue m :: rest => if seen then None else Some (m, rest)
  | FValue m :: rest => if seen then Some (m, rest) else None
  | _ => None
  end.

(** [for { if err := dec.Decode(&msg); err != nil { return }; ... }]: the
    messages one decoder delivers before its first error. *)
Fixpoint decode_all {M} (seen : bool) (stream : list (frame M)) : list M :=
  match stream with
  | FTypes :: rest =>
      if seen then [] else
      match rest with
      | FValue m :: rest => m :: decode_all true rest
      | _ => []
      end
  | FValue m :: rest => if seen then m :: decode_all true rest else []
  | [] => []
  end.

(** A decoder sees only the first of several messages that were each written
    by a fresh encoder. *)
Lemma decode_all_fresh {M} (m : M) ms :
  decode_all false (encode_fresh m ++ concat (encode_fresh <$> ms)) = [m].
Proof. destruct ms; done. Qed.

(** One encoder for all messages would deliver them all. *)
Lemma decode_all_one_encoder {M} (ms : list M) :
  ms <> [] -> decode_all false (FTypes :: (FValue <$> ms)) = ms.
Proof.
  destruct ms as [|m ms]; [done|]. intros _. cbn. f_equal.
  induction ms as [|m' ms IH]; cbn; [done|]. by f_equal.
Qed.
