(* ===== verification/GoSort.v ===== *)
(** * [sort.Slice]

    The Go documentation promises that [sort.Slice] permutes the slice so
    that it is sorted by [less], and leaves the order of equivalent elements
    open.  The interface [SliceSort] states this promise; the DHT is proved
    against it.  [insertion_slice_sort] is the algorithm the Go runtime uses
    for at most twelve elements; it discharges the interface and makes the
    definitions executable. *)

From S2P Require Import Prelude.

Class SliceSort := sort_slice : forall A, (A -> A -> bool) -> list A -> list A.
Arguments sort_slice {_ A} less l.

(** [less] is a strict weak order on the elements of [l]. *)
Record strict_weak {A} (less : A -> A -> bool) (l : list A) : Prop := {
  sw_irrefl x : x ∈ l -> less x x = false;
  sw_trans x y z : x ∈ l -> y ∈ l -> z ∈ l ->
    less x y = true -> less y z = true -> less x z = true;
  sw_negtrans x y z : x ∈ l -> y ∈ l -> z ∈ l ->
    less x y = false -> less y z = false -> less x z = false;
}.

Class SliceSortOk (S : SliceSort) : Prop := {
  sort_slice_perm A (less : A -> A -> bool) l : sort_slice less l ≡ₚ l;
  sort_slice_sorted A (less : A -> A -> bool) l :
    strict_weak less l -> Sorted (fun x y => less y x = false) (sort_slice less l);
}.

Section strict_weak.
Context {A : Type} (less : A -> A -> bool).

Lemma strict_weak_incl l l' : l' ⊆ l -> strict_weak less l -> strict_weak less l'.
Proof.
  intros Hsub [H1 H2 H3]. split; [eauto|intros x y z ???; eapply H2; eauto|].
  intros x y z ???. eapply H3; eauto.
Qed.

Lemma strict_weak_asym l x y :
  strict_weak less l -> x ∈ l -> y ∈ l -> less x y = true -> less y x = false.
Proof.
  intros Hsw Hx Hy Hxy. destruct (less y x) eqn:E; [|done].
  pose proof (sw_trans _ _ Hsw x y x Hx Hy Hx Hxy E).
  pose proof (sw_irrefl _ _ Hsw x Hx). congruence.
Qed.

(** Adjacent order is order, on the elements where [less] is a weak order. *)
Lemma sorted_strongly l :
  strict_weak less l -> Sorted (fun x y => less y x = false) l ->
  StronglySorted (fun x y => less y x = false) l.
Proof.
  intros Hsw Hs. induction Hs as [|x l Hs IH Hhd]; constructor.
  - apply IH. eapply strict_weak_incl; [|exact Hsw]. set_solver.
  - assert (StronglySorted (fun x y => less y x = false) l) as Hss.
    { apply IH. eapply strict_weak_incl; [|exact Hsw]. set_solver. }
    destruct Hhd as [|y l Hxy]; [constructor|]. constructor; [done|].
    apply StronglySorted_cons in Hss as [Hall _]. rewrite Forall_forall in Hall |- *.
    intros z Hz. eapply (sw_negtrans _ _ Hsw z y x); [set_solver..| |done].
    by apply Hall.
Qed.
End strict_weak.

(** ** Insertion sort *)

(** [for j := i; j > a && less(data[j], data[j-1]); j-- { swap }], with the
    sorted prefix held in reverse. *)
Fixpoint insert_back {A} (less : A -> A -> bool) (x : A) (prefix : list A) : list A :=
  match prefix with
  | [] => [x]
  | y :: prefix' =>
      if less x y then y :: insert_back less x prefix' else x :: prefix
  end.

Definition insertion_sort {A} (less : A -> A -> bool) (l : list A) : list A :=
  reverse (foldl (fun prefix x => insert_back less x prefix) [] l).

#[export] Instance insertion_slice_sort : SliceSort := @insertion_sort.

Section insertion.
Context {A : Type} (less : A -> A -> bool).

Lemma insert_back_perm x l : insert_back less x l ≡ₚ x :: l.
Proof.
  induction l as [|y l IH]; cbn; [done|]. destruct (less x y); [|done].
  rewrite IH. apply Permutation_swap.
Qed.

Lemma insert_back_sorted x l :
  strict_weak less (x :: l) ->
  StronglySorted (fun a b => less a b = false) l ->
  StronglySorted (fun a b => less a b = false) (insert_back less x l).
Proof.
  intros Hsw Hs. induction Hs as [|y l Hs IH Hall]; cbn.
  { repeat constructor. }
  assert (strict_weak less (x :: l)) as Hsw'
    by (eapply strict_weak_incl; [|exact Hsw]; set_solver).
  destruct (less x y) eqn:Hxy.
  - constructor; [by apply IH|]. rewrite insert_back_perm. constructor; [|done].
    eapply strict_weak_asym; [exact Hsw|set_solver..|done].
  - constructor; [by constructor|]. constructor; [done|].
    rewrite Forall_forall in Hall |- *. intros z Hz.
    eapply (sw_negtrans _ _ Hsw x y z); [set_solver..|done|]. by apply Hall.
Qed.

Lemma foldl_insert_back_perm l acc :
  foldl (fun prefix x => insert_back less x prefix) acc l ≡ₚ l ++ acc.
Proof.
  revert acc. induction l as [|x l IH]; intros acc; cbn; [done|].
  rewrite IH, insert_back_perm. by rewrite Permutation_middle.
Qed.

Lemma foldl_insert_back_sorted l acc :
  strict_weak less (l ++ acc) ->
  StronglySorted (fun a b => less a b = false) acc ->
  StronglySorted (fun a b => less a b = false)
    (foldl (fun prefix x => insert_back less x prefix) acc l).
Proof.
  revert acc. induction l as [|x l IH]; intros acc Hsw Hs; cbn; [done|].
  apply IH.
  - eapply strict_weak_incl; [|exact Hsw]. rewrite insert_back_perm. set_solver.
  - apply insert_back_sorted; [|done]. eapply strict_weak_incl; [|exact Hsw]. set_solver.
Qed.
End insertion.

Lemma strongly_sorted_reverse {A} (R : A -> A -> Prop) l :
  StronglySorted R l -> StronglySorted (flip R) (reverse l).
Proof.
  induction 1 as [|x l Hs IH Hall]; [constructor|]. rewrite reverse_cons.
  apply StronglySorted_app_2; [|done|repeat constructor].
  intros y z Hy Hz. apply list_elem_of_singleton in Hz as ->. unfold flip.
  rewrite elem_of_reverse in Hy. rewrite Forall_forall in Hall. by apply Hall.
Qed.

#[export] Instance insertion_slice_sort_ok : SliceSortOk insertion_slice_sort.
Proof.
  split; intros A less l; cbv [sort_slice insertion_slice_sort insertion_sort].
  - by rewrite reverse_Permutation, foldl_insert_back_perm, app_nil_r.
  - intros Hsw. apply StronglySorted_Sorted.
    apply (strongly_sorted_reverse (fun a b => less a b = false)).
    apply foldl_insert_back_sorted; [by rewrite app_nil_r|constructor].
Qed.

(** A duplicate-free list has one sorted order when [less] separates its
    elements: whichever algorithm sorts it, the result is the same. *)
Lemma sort_slice_unique (S1 S2 : SliceSort) `{!SliceSortOk S1, !SliceSortOk S2}
    {A} (less : A -> A -> bool) l :
  strict_weak less l ->
  (forall x y, x ∈ l -> y ∈ l -> less x y = false -> less y x = false -> x = y) ->
  @sort_slice S1 A less l = @sort_slice S2 A less l.
Proof.
  intros Hsw Hsep.
  assert (forall (S : SliceSort) `{!SliceSortOk S},
    StronglySorted (fun x y => less y x = false) (sort_slice less l)) as Hss.
  { intros S HS. apply sorted_strongly; [|by apply sort_slice_sorted].
    eapply strict_weak_incl; [|exact Hsw]. by rewrite sort_slice_perm. }
  assert (forall l1 l2, l1 ≡ₚ l2 -> l1 ⊆ l ->
    StronglySorted (fun x y => less y x = false) l1 ->
    StronglySorted (fun x y => less y x = false) l2 -> l1 = l2) as Huniq.
  { induction l1 as [|x l1 IH]; intros l2 Hp Hsub H1 H2.
    { by apply Permutation_nil_l in Hp. }
    destruct l2 as [|y l2]; [by apply Permutation_nil_r in Hp|].
    assert (x = y) as <-.
    { assert (x ∈ y :: l2) as Hx by (rewrite <- Hp; set_solver).
      assert (y ∈ x :: l1) as Hy by (rewrite Hp; set_solver).
      apply elem_of_cons in Hx as [->|Hx]; [done|].
      apply elem_of_cons in Hy as [->|Hy]; [done|].
      apply StronglySorted_cons in H1 as [H1 _]. apply StronglySorted_cons in H2 as [H2 _].
      rewrite Forall_forall in H1, H2. apply Hsep; [set_solver..|by apply H2|by apply H1]. }
    f_equal. apply Permutation_cons_inv in Hp.
    apply StronglySorted_cons in H1 as [_ H1]. apply StronglySorted_cons in H2 as [_ H2].
    apply IH; [done|set_solver|done..]. }
  apply Huniq; [by rewrite !sort_slice_perm| |by apply Hss..].
  by rewrite sort_slice_perm.
Qed.
