(* ===== verification/Sha256.v ===== *)
(** * [crypto/sha256]

    The SHA-256 of FIPS 180-4, which [NodeID] applies to a public key.  Words
    are 32-bit integers with their wrap-around written out.  The standard's
    test vectors are checked at the end. *)

From S2P Require Import Prelude.
From S2P Require Import GoBytes.
Local Open Scope Z_scope.

Module Sha256.

Definition w32 (z : Z) : Z := z `mod` 2 ^ 32.
Definition rotr (n x : Z) : Z := Z.lor (Z.shiftr x n) (w32 (Z.shiftl x (32 - n))).
Definition not32 (x : Z) : Z := Z.lxor x (2 ^ 32 - 1).

Definition Ch (x y z : Z) : Z := Z.lxor (Z.land x y) (Z.land (not32 x) z).
Definition Maj (x y z : Z) : Z := Z.lxor (Z.lxor (Z.land x y) (Z.land x z)) (Z.land y z).
Definition big_sigma0 (x : Z) : Z := Z.lxor (Z.lxor (rotr 2 x) (rotr 13 x)) (rotr 22 x).
Definition big_sigma1 (x : Z) : Z := Z.lxor (Z.lxor (rotr 6 x) (rotr 11 x)) (rotr 25 x).
Definition small_sigma0 (x : Z) : Z := Z.lxor (Z.lxor (rotr 7 x) (rotr 18 x)) (Z.shiftr x 3).
Definition small_sigma1 (x : Z) : Z := Z.lxor (Z.lxor (rotr 17 x) (rotr 19 x)) (Z.shiftr x 10).

(** The round constants: the first 32 bits of the fractional parts of the
    cube roots of the first 64 primes. *)
Definition is_prime (n : Z) : bool :=
  bool_decide (2 <= n) && forallb (fun d => negb (bool_decide (n `mod` Z.of_nat d = 0))) (seq 2 (Z.to_nat n - 2)).

Definition primes : list Z := filter (fun n => is_prime n = true) (Z.of_nat <$> seq 2 310).

(** The largest [r] below [lo + 2^bits] with [r^3 <= x]. *)
Fixpoint cube_root (bits : nat) (lo x : Z) : Z :=
  match bits with
  | O => lo
  | S bits =>
      let mid := lo + 2 ^ Z.of_nat bits in
      cube_root bits (if decide (mid * mid * mid <= x) then mid else lo) x
  end.

Definition K : list Z :=
  Eval vm_compute in (fun p => w32 (cube_root 36 0 (p * 2 ^ 96))) <$> take 64 primes.

Record hash := Hash { ha : Z; hb : Z; hc : Z; hd : Z; he : Z; hf : Z; hg : Z; hh : Z }.

(** The initial value: likewise from the square roots of the first 8. *)
Definition H0 : hash :=
  Eval vm_compute in
  let frac i := w32 (Z.sqrt (nth i primes 0 * 2 ^ 64)) in
  Hash (frac 0%nat) (frac 1%nat) (frac 2%nat) (frac 3%nat) (frac 4%nat) (frac 5%nat) (frac 6%nat) (frac 7%nat).

(** The last sixteen words of the message schedule, oldest first. *)
Definition next_word (w : list Z) : Z :=
  w32 (small_sigma1 (nth 14 w 0) + nth 9 w 0 + small_sigma0 (nth 1 w 0) + nth 0 w 0).

Definition round (h : hash) (k w : Z) : hash :=
  let t1 := h.(hh) + big_sigma1 h.(he) + Ch h.(he) h.(hf) h.(hg) + k + w in
  let t2 := big_sigma0 h.(ha) + Maj h.(ha) h.(hb) h.(hc) in
  Hash (w32 (t1 + t2)) h.(ha) h.(hb) h.(hc) (w32 (h.(hd) + t1)) h.(he) h.(hf) h.(hg).

Fixpoint rounds (ks w : list Z) (h : hash) : hash :=
  match ks with
  | [] => h
  | k :: ks => rounds ks (tail w ++ [next_word w]) (round h k (nth 0 w 0))
  end.

Fixpoint words (bs : list Z) : list Z :=
  match bs with
  | a :: b :: c :: d :: bs => be_value [a; b; c; d] :: words bs
  | _ => []
  end.

Definition compress (h : hash) (block : list Z) : hash :=
  let h' := rounds K (words block) h in
  Hash (w32 (h.(ha) + h'.(ha))) (w32 (h.(hb) + h'.(hb)))
       (w32 (h.(hc) + h'.(hc))) (w32 (h.(hd) + h'.(hd)))
       (w32 (h.(he) + h'.(he))) (w32 (h.(hf) + h'.(hf)))
       (w32 (h.(hg) + h'.(hg))) (w32 (h.(hh) + h'.(hh))).

Fixpoint be_bytes (n : nat) (z : Z) : list Z :=
  match n with
  | O => []
  | S n => Z.shiftr z (8 * Z.of_nat n) `mod` 256 :: be_bytes n z
  end.

Definition pad (msg : list Z) : list Z :=
  let n := length msg in
  msg ++ [0x80] ++ replicate (Z.to_nat ((55 - Z.of_nat n) `mod` 64)) 0
      ++ be_bytes 8 (8 * Z.of_nat n).

Fixpoint blocks (fuel : nat) (bs : list Z) (h : hash) : hash :=
  match fuel with
  | O => h
  | S fuel =>
      match bs with
      | [] => h
      | _ => blocks fuel (drop 64 bs) (compress h (take 64 bs))
      end
  end.

(** [sha256.Sum256]. *)
Definition Sum256 (msg : list Z) : list Z :=
  let bs := pad msg in
  let h := blocks (length bs) bs H0 in
  be_bytes 4 h.(ha) ++ be_bytes 4 h.(hb) ++ be_bytes 4 h.(hc) ++ be_bytes 4 h.(hd) ++
  be_bytes 4 h.(he) ++ be_bytes 4 h.(hf) ++ be_bytes 4 h.(hg) ++ be_bytes 4 h.(hh).

Lemma be_bytes_length n z : length (be_bytes n z) = n.
Proof. induction n as [|n IH]; cbn; by rewrite ?IH. Qed.

Lemma be_bytes_range n z : Forall byte_range (be_bytes n z).
Proof.
  induction n as [|n IH]; cbn; constructor; [|done].
  unfold byte_range. by apply Z.mod_pos_bound.
Qed.

Lemma Sum256_length msg : length (Sum256 msg) = 32%nat.
Proof. unfold Sum256. by rewrite !length_app, !be_bytes_length. Qed.

Lemma Sum256_range msg : Forall byte_range (Sum256 msg).
Proof. unfold Sum256. rewrite !Forall_app. repeat split; apply be_bytes_range. Qed.

(** FIPS 180-4 test vectors. *)
Example sha256_empty :
  hex_encode (Sum256 []) =
  "e3b0c44298fc1c149afbf4c8996fb92427ae41e4649b934ca495991b7852b855".
Proof. vm_compute. reflexivity. Qed.

Example sha256_abc :
  hex_encode (Sum256 [97; 98; 99]) =
  "ba7816bf8f01cfea414140de5dae2223b00361a396177a9cb410ff61f20015ad".
Proof. vm_compute. reflexivity. Qed.

Example sha256_two_blocks :
  hex_encode (Sum256 (byte_of <$> String.list_ascii_of_string
    "abcdbcdecdefdefgefghfghighijhijkijkljklmklmnlmnomnopnopq")) =
  "248d6a61d20638b8e5c026930c3e6039a33ce45964ff2167f6ecedd419db06c1".
Proof. vm_compute. reflexivity. Qed.

End Sha256.
