(* ===== verification/Table.v ===== *)
(** * The Kademlia routing table ([pkg/dht/kademlia.go])

    [Contact], [NodeID], the XOR distance, the bucket index and the table
    operations [insert], [closest] and [KnownPeers].  A [KBucket] is its slice
    of contacts; the 160 buckets are a list. *)

From S2P Require Import Prelude.
From S2P Require Import GoBytes.
From S2P Require Import GoSort.
From S2P Require Import Sha256.
Local Open Scope Z_scope.

Definition kBuckets : Z := 160.
Definition kBucketSize : Z := 8.

Record Contact := mkContact {
  c_ID : string;
  c_PublicKey : string;
  c_Endpoint : string;
  c_PublicEndpoint : string;
  c_ControlEndpoint : string;
}.

#[export] Instance Contact_eq_dec : EqDecision Contact.
Proof. solve_decision. Defined.

Definition string_bytes (s : string) : list Z := byte_of <$> String.list_ascii_of_string s.

Definition NodeID (publicKey : string) : string :=
  hex_encode (take 20 (Sha256.Sum256 (string_bytes publicKey))).

(** [for i := range da { out[i] = da[i] ^ db[i] }]: [db] may be the shorter. *)
Fixpoint xor_bytes (da db : list Z) : result (list Z) :=
  match da, db with
  | [], _ => Ok []
  | _ :: _, [] => Panic IndexOutOfRange
  | a :: da, b :: db => out ← xor_bytes da db; Ok (Z.lxor a b :: out)
  end.

Definition xorDist (a b : string) : result (list Z) :=
  xor_bytes (hex_decode a) (hex_decode b).

Fixpoint leadingZeros_from (i : Z) (dist : list Z) : Z :=
  match dist with
  | [] => i * 8
  | b :: dist => if decide (b = 0) then leadingZeros_from (i + 1) dist
                 else i * 8 + LeadingZeros8 b
  end.

Definition leadingZeros (dist : list Z) : Z := leadingZeros_from 0 dist.

Record Table := mkTable {
  t_selfID : string;
  t_buckets : list (list Contact);
}.

(** The table [NewDHT] builds. *)
Definition new_table (selfID : string) : Table :=
  mkTable selfID (replicate (Z.to_nat kBuckets) []).

Definition set_bucket (t : Table) (i : nat) (b : list Contact) : Table :=
  mkTable t.(t_selfID) (<[i := b]> t.(t_buckets)).

(** The fields [insert] overwrites in a contact it already holds. *)
Definition update_contact (existing c : Contact) : Contact :=
  mkContact existing.(c_ID) existing.(c_PublicKey) c.(c_Endpoint)
    (if decide (c.(c_PublicEndpoint) = "") then existing.(c_PublicEndpoint)
     else c.(c_PublicEndpoint))
    existing.(c_ControlEndpoint).

(** The search loop of [insert]: updates the first contact with the ID. *)
Fixpoint update_first (c : Contact) (contacts : list Contact) : option (list Contact) :=
  match contacts with
  | [] => None
  | existing :: rest =>
      if decide (existing.(c_ID) = c.(c_ID)) then Some (update_contact existing c :: rest)
      else cons existing <$> update_first c rest
  end.

Definition insert (t : Table) (c : Contact) : result Table :=
  dist ← xorDist t.(t_selfID) c.(c_ID);
  let bucketIdx := leadingZeros dist in
  if decide (kBuckets <= bucketIdx) then Ok t
  else
    let i := Z.to_nat bucketIdx in
    let contacts := default [] (t.(t_buckets) !! i) in
    match update_first c contacts with
    | Some contacts' =>
        (* the debug log evaluates c.ID[:8] *)
        _ ← slice_to c.(c_ID) 8;
        Ok (set_bucket t i contacts')
    | None =>
        if decide (Z.of_nat (length contacts) < kBucketSize)
        then Ok (set_bucket t i (contacts ++ [c]))
        else Ok t
    end.

(** [KnownPeers], and the candidate list of [closest]. *)
Definition KnownPeers (t : Table) : list Contact := concat t.(t_buckets).

(** The [less] of [closest], on contacts whose distance is defined. *)
Definition dist_to (targetID : string) (c : Contact) : list Z :=
  match xorDist targetID c.(c_ID) with Ok d => d | _ => [] end.

Definition closer (targetID : string) (ci cj : Contact) : bool :=
  let di := dist_to targetID ci in
  let dj := dist_to targetID cj in
  bool_decide (0 < length di)%nat && bool_decide (0 < length dj)%nat && bytes_ltb di dj.

Definition dist_defined (targetID : string) (c : Contact) : bool :=
  match xorDist targetID c.(c_ID) with Ok _ => true | _ => false end.

(** [sort.Slice] compares every element once there are two, so an ID whose
    distance panics makes the sort panic exactly then. *)
Definition closest `{SliceSort} (t : Table) (targetID : string) (n : nat) : result (list Contact) :=
  let candidates := KnownPeers t in
  if bool_decide (2 <= length candidates)%nat && negb (forallb (dist_defined targetID) candidates)
  then Panic IndexOutOfRange
  else
    let candidates := sort_slice (closer targetID) candidates in
    if decide (n < length candidates)%nat then Ok (take n candidates) else Ok candidates.

(** ** Distances *)

Lemma xor_bytes_length da db d : xor_bytes da db = Ok d -> length d = length da.
Proof.
  revert db d. induction da as [|a da IH]; intros [|b db] d; cbn; intros; res_inv; try done.
  f_equal. eauto.
Qed.

Lemma xor_bytes_ok da db :
  (length da <= length db)%nat -> exists d, xor_bytes da db = Ok d.
Proof.
  revert db. induction da as [|a da IH]; intros [|b db]; cbn; [eauto|eauto|lia|].
  intros Hle. destruct (IH db) as (d & ->); [lia|]. eauto.
Qed.

Lemma xor_bytes_panic da db :
  (length db < length da)%nat -> xor_bytes da db = Panic IndexOutOfRange.
Proof.
  revert db. induction da as [|a da IH]; intros [|b db]; cbn; [lia|lia|done|].
  intros Hlt. by rewrite IH by lia.
Qed.

(** Bytes beyond the length of the first argument do not matter. *)
Lemma xor_bytes_take da db : xor_bytes da (take (length da) db) = xor_bytes da db.
Proof. revert db. induction da as [|a da IH]; intros [|b db]; cbn; [done..|]. by rewrite IH. Qed.

Lemma xor_bytes_range da db d :
  Forall byte_range da -> Forall byte_range db -> xor_bytes da db = Ok d ->
  Forall byte_range d.
Proof.
  intros Ha. revert db d. induction Ha as [|a da Ha _ IH]; intros [|b db] d Hdb; cbn;
    intros; res_inv; constructor.
  - apply Forall_cons in Hdb as [Hb _]. by apply (lxor_bound a b 8).
  - apply Forall_cons in Hdb as [_ Hdb]. eauto.
Qed.

(** Bits of a number split at position [k]. *)
Lemma testbit_split x r k i :
  0 <= k -> 0 <= i -> 0 <= r < 2 ^ k ->
  Z.testbit (x * 2 ^ k + r) i = if decide (i < k) then Z.testbit r i else Z.testbit x (i - k).
Proof.
  intros Hk Hi Hr. rewrite <- lor_shiftl_add, Z.lor_spec by lia. case_decide.
  - by rewrite Z.shiftl_spec_low by lia.
  - by rewrite Z.shiftl_spec, (testbit_small r k), orb_false_r by lia.
Qed.

Lemma lxor_split x y r s k :
  0 <= k -> 0 <= r < 2 ^ k -> 0 <= s < 2 ^ k ->
  Z.lxor (x * 2 ^ k + r) (y * 2 ^ k + s) = Z.lxor x y * 2 ^ k + Z.lxor r s.
Proof.
  intros Hk Hr Hs. apply Z.bits_inj'. intros i Hi.
  pose proof (lxor_bound r s k Hk Hr Hs).
  rewrite Z.lxor_spec, !testbit_split by done. case_decide; by rewrite Z.lxor_spec.
Qed.

Lemma pow256 n : 256 ^ Z.of_nat n = 2 ^ (8 * Z.of_nat n).
Proof. change 256 with (2 ^ 8). rewrite <- Z.pow_mul_r by lia. done. Qed.

(** The byte-wise distance is the XOR of the identifiers as numbers. *)
Lemma xor_bytes_value da db d :
  length da = length db -> Forall byte_range da -> Forall byte_range db ->
  xor_bytes da db = Ok d -> be_value d = Z.lxor (be_value da) (be_value db).
Proof.
  revert db d. induction da as [|a da IH]; intros [|b db] d; cbn [xor_bytes length];
    try done.
  { intros. by res_inv. }
  intros [= Hlen] [Ha Hda]%Forall_cons [Hb Hdb]%Forall_cons Hd. res_inv.
  match goal with H : xor_bytes _ _ = Ok _ |- _ => rename H into Hx end.
  cbn [be_value]. rewrite (xor_bytes_length _ _ _ Hx), <- Hlen, pow256.
  pose proof (be_value_range _ Hda). pose proof (be_value_range _ Hdb).
  rewrite lxor_split; [|lia|rewrite <- pow256; lia|rewrite <- pow256, Hlen; lia].
  by erewrite (IH db) by done.
Qed.

Lemma xorDist_ok a b :
  (length (hex_decode a) <= length (hex_decode b))%nat <-> is_ok (xorDist a b).
Proof.
  unfold is_ok, xorDist. split; [apply xor_bytes_ok|]. intros (d & Hd).
  destruct (decide (length (hex_decode a) <= length (hex_decode b))%nat); [done|].
  rewrite xor_bytes_panic in Hd by lia. done.
Qed.

Lemma xorDist_length a b d : xorDist a b = Ok d -> length d = length (hex_decode a).
Proof. apply xor_bytes_length. Qed.

Lemma xorDist_range a b d : xorDist a b = Ok d -> Forall byte_range d.
Proof. apply xor_bytes_range; apply hex_decode_range. Qed.

(** ** Bucket index *)

(** The number of bits of a non-negative number. *)
Definition bitlen (v : Z) : Z := if decide (v = 0) then 0 else Z.log2 v + 1.

Lemma log2_split b r k :
  0 < b -> 0 <= k -> 0 <= r < 2 ^ k -> Z.log2 (b * 2 ^ k + r) = Z.log2 b + k.
Proof.
  intros Hb Hk Hr. apply Z.log2_unique; [pose proof (Z.log2_nonneg b); lia|].
  pose proof (Z.log2_spec b Hb) as [Hlo Hhi]. pose proof (Z.log2_nonneg b).
  rewrite <- Z.add_succ_l, !Z.pow_add_r by lia. nia.
Qed.

Lemma leadingZeros_from_value i d :
  Forall byte_range d ->
  leadingZeros_from i d = i * 8 + (8 * Z.of_nat (length d) - bitlen (be_value d)).
Proof.
  intros Hd. revert i. induction Hd as [|b d Hb Hd IH]; intros i;
    cbn [leadingZeros_from length be_value].
  { change (bitlen 0) with 0. lia. }
  pose proof (be_value_range _ Hd) as Hr. unfold byte_range in Hb. case_decide.
  - rewrite IH. subst b. rewrite Z.mul_0_l, Z.add_0_l. lia.
  - rewrite pow256 in Hr |- *. unfold bitlen, LeadingZeros8.
    assert (0 < b * 2 ^ (8 * Z.of_nat (length d))) by (apply Z.mul_pos_pos; lia).
    rewrite !decide_False by lia. rewrite log2_split by lia. lia.
Qed.

(** The bucket index counts from the top of the distance read as a number. *)
Lemma leadingZeros_value d :
  Forall byte_range d -> leadingZeros d = 8 * Z.of_nat (length d) - bitlen (be_value d).
Proof. intros. unfold leadingZeros. rewrite leadingZeros_from_value by done. lia. Qed.

Lemma bitlen_bound v n : 0 <= n -> 0 <= v < 2 ^ n -> 0 <= bitlen v <= n.
Proof.
  intros Hn Hv. unfold bitlen. case_decide; [lia|].
  pose proof (Z.log2_nonneg v). assert (Z.log2 v < n) by (apply Z.log2_lt_pow2; lia). lia.
Qed.

Lemma leadingZeros_bound d :
  Forall byte_range d -> 0 <= leadingZeros d <= 8 * Z.of_nat (length d).
Proof.
  intros Hd. rewrite leadingZeros_value by done.
  pose proof (be_value_range _ Hd) as Hv. rewrite pow256 in Hv.
  pose proof (bitlen_bound _ (8 * Z.of_nat (length d)) ltac:(lia) Hv). lia.
Qed.

(** ** Identifiers *)

(** An identifier of the DHT: twenty bytes in hexadecimal. *)
Definition is_id (id : string) : Prop := length (hex_decode id) = 20%nat.

(** [NodeID] yields an identifier of forty digits. *)
Lemma NodeID_is_id pk :
  is_id (NodeID pk) /\ String.length (NodeID pk) = 40%nat /\
  hex_decode (NodeID pk) = take 20 (Sha256.Sum256 (string_bytes pk)).
Proof.
  unfold is_id, NodeID. assert (length (take 20 (Sha256.Sum256 (string_bytes pk))) = 20%nat) as Hl
    by (rewrite length_take, Sha256.Sum256_length; lia).
  rewrite hex_encode_length, hex_decode_encode, Hl; [done|].
  apply Forall_take, Sha256.Sum256_range.
Qed.

Lemma xorDist_value a b d :
  is_id a -> is_id b -> xorDist a b = Ok d ->
  be_value d = Z.lxor (be_value (hex_decode a)) (be_value (hex_decode b)).
Proof.
  unfold is_id. intros Ha Hb. apply xor_bytes_value; [lia|apply hex_decode_range..].
Qed.

Lemma lxor_le_add x y : 0 <= x -> 0 <= y -> Z.lxor x y <= x + y.
Proof.
  intros Hx Hy. pose proof (Z.add_lxor_2land x y).
  assert (0 <= Z.land x y) by (apply Z.land_nonneg; lia). lia.
Qed.

Lemma xorDist_ids_ok a b : is_id a -> is_id b -> exists d, xorDist a b = Ok d.
Proof. unfold is_id. intros. apply xor_bytes_ok. lia. Qed.

(** C22: On node identifiers xorDist is a metric: defined, symmetric, zero exactly for equal
    identifiers, and satisfying the triangle inequality. *)
Theorem xorDist_metric a b c :
  is_id a -> is_id b -> is_id c ->
  exists dab dba dbc dac,
    xorDist a b = Ok dab /\ xorDist b a = Ok dba /\ xorDist b c = Ok dbc /\ xorDist a c = Ok dac /\
    dab = dba /\
    (be_value dab = 0 <-> hex_decode a = hex_decode b) /\
    be_value dac <= be_value dab + be_value dbc.
Proof.
  intros Ha Hb Hc.
  destruct (xorDist_ids_ok a b) as (dab & Hab); [done..|].
  destruct (xorDist_ids_ok b a) as (dba & Hba); [done..|].
  destruct (xorDist_ids_ok b c) as (dbc & Hbc); [done..|].
  destruct (xorDist_ids_ok a c) as (dac & Hac); [done..|].
  exists dab, dba, dbc, dac. do 4 (split; [done|]).
  rewrite (xorDist_value a b dab), (xorDist_value b c dbc), (xorDist_value a c dac) by done.
  pose proof (be_value_range _ (hex_decode_range a)) as Ra.
  pose proof (be_value_range _ (hex_decode_range b)) as Rb.
  pose proof (be_value_range _ (hex_decode_range c)) as Rc.
  repeat split.
  - apply be_value_inj; [|by eapply xorDist_range..|].
    + rewrite (xorDist_length _ _ _ Hab), (xorDist_length _ _ _ Hba). unfold is_id in *. lia.
    + rewrite (xorDist_value a b dab), (xorDist_value b a dba) by done. apply Z.lxor_comm.
  - intros Hz%Z.lxor_eq. apply be_value_inj; [unfold is_id in *; lia|apply hex_decode_range..|done].
  - intros ->. apply Z.lxor_nilpotent.
  - set (x := be_value (hex_decode a)) in *. set (y := be_value (hex_decode b)) in *.
    set (z := be_value (hex_decode c)) in *.
    replace (Z.lxor x z) with (Z.lxor (Z.lxor x y) (Z.lxor y z)).
    + apply lxor_le_add; apply Z.lxor_nonneg; lia.
    + by rewrite Z.lxor_assoc, <- (Z.lxor_assoc y y z), Z.lxor_nilpotent, Z.lxor_0_l.
Qed.

(** C23: The bucket index leadingZeros(xorDist(a, b)) is the length of the common bit prefix
    of the two identifiers: the first k bits agree and, below 160, bit k differs. *)
Theorem bucket_index_prefix a b d :
  is_id a -> is_id b -> xorDist a b = Ok d ->
  let k := leadingZeros d in
  0 <= k <= 160 /\
  (forall i, 0 <= i < k ->
     Z.testbit (be_value (hex_decode a)) (159 - i) = Z.testbit (be_value (hex_decode b)) (159 - i)) /\
  (k < 160 ->
     Z.testbit (be_value (hex_decode a)) (159 - k) <> Z.testbit (be_value (hex_decode b)) (159 - k)).
Proof.
  intros Ha Hb Hd k. pose proof (xorDist_range _ _ _ Hd) as Hr.
  assert (length d = 20%nat) as Hlen by (rewrite (xorDist_length _ _ _ Hd); done).
  pose proof (leadingZeros_bound d Hr) as Hk. fold k in Hk. rewrite Hlen in Hk.
  pose proof (leadingZeros_value d Hr) as Hkv. fold k in Hkv. rewrite Hlen in Hkv.
  pose proof (be_value_range _ Hr) as Hv.
  assert (forall j, Z.testbit (be_value d) j =
    xorb (Z.testbit (be_value (hex_decode a)) j) (Z.testbit (be_value (hex_decode b)) j)) as Hbit
    by (intros j; rewrite (xorDist_value a b d) by done; apply Z.lxor_spec).
  unfold bitlen in Hkv. split; [lia|]. split.
  - intros i Hi. apply xorb_eq. rewrite <- Hbit. case_decide as Hz; [rewrite Hz; apply Z.bits_0|].
    apply Z.bits_above_log2; lia.
  - intros Hlt. case_decide as Hz; [lia|].
    intros Heq. pose proof (Hbit (159 - k)) as Ht. rewrite Heq, xorb_nilpotent in Ht.
    replace (159 - k) with (Z.log2 (be_value d)) in Ht by lia.
    rewrite Z.bit_log2 in Ht by lia. done.
Qed.
