(* ===== verification/TableInv.v ===== *)
(** * Invariants of the routing table and its refinement to a bounded map

    [table_wf] is the type invariant of a table: 160 buckets of at most eight
    contacts, no identifier twice, every contact in the bucket its distance
    to the node selects.  [abs_insert] is what [insert] promises on the map
    from identifiers to contacts; [insert_refines] shows the promise kept. *)

From S2P Require Import Prelude.
From S2P Require Import GoBytes.
From S2P Require Import Table.
Local Open Scope Z_scope.

(** The bucket a contact belongs to, when its distance is defined. *)
Definition bucket_of (self id : string) : option Z :=
  match xorDist self id with Ok d => Some (leadingZeros d) | _ => None end.

Record bucket_wf (self : string) (i : nat) (b : list Contact) : Prop := {
  bw_size : Z.of_nat (length b) <= kBucketSize;
  bw_nodup : NoDup (c_ID <$> b);
  bw_index : Forall (fun c => bucket_of self c.(c_ID) = Some (Z.of_nat i)) b;
}.

Record table_wf (t : Table) : Prop := {
  tw_self : is_id t.(t_selfID);
  tw_length : length t.(t_buckets) = Z.to_nat kBuckets;
  tw_bucket i b : t.(t_buckets) !! i = Some b -> bucket_wf t.(t_selfID) i b;
}.

(** ** The abstract table *)

Definition view (t : Table) : gmap string Contact :=
  list_to_map ((fun c => (c.(c_ID), c)) <$> KnownPeers t).

(** How many leading bits two identifiers share, of 160; an identifier is the
    number its first 20 bytes write. *)
Definition id_value (id : string) : Z := be_value (take 20 (hex_decode id)).

Definition shared_bits (id1 id2 : string) : Z :=
  if decide (id_value id1 = id_value id2) then 160 else 159 - Z.log2 (Z.lxor (id_value id1) (id_value id2)).

(** The identifiers that share [i] bits with the node's. *)
Definition in_bucket (self : string) (i : Z) (id : string) : Prop :=
  (20 <= length (hex_decode id))%nat /\ shared_bits self id = i.

#[export] Instance in_bucket_dec self i id : Decision (in_bucket self i id).
Proof. unfold in_bucket. apply _. Defined.

Definition bucket_count (self : string) (m : gmap string Contact) (i : Z) : nat :=
  size (filter (fun kc => in_bucket self i kc.1) m).

(** What [insert] promises: a known identifier has its endpoint refreshed, and
    its public endpoint when there is a new one; a new identifier is stored
    while fewer than eight that share as many bits are; the node's own never
    is. *)
Definition abs_insert (self : string) (m : gmap string Contact) (c : Contact) : gmap string Contact :=
  let i := shared_bits self c.(c_ID) in
  if decide (length (hex_decode c.(c_ID)) < 20)%nat then m
  else if decide (i = 160) then m
  else match m !! c.(c_ID) with
       | Some e =>
           <[c.(c_ID) := {| c_ID := e.(c_ID); c_PublicKey := e.(c_PublicKey); c_Endpoint := c.(c_Endpoint);
                            c_PublicEndpoint := if decide (c.(c_PublicEndpoint) = "") then e.(c_PublicEndpoint)
                                                else c.(c_PublicEndpoint);
                            c_ControlEndpoint := e.(c_ControlEndpoint) |}]> m
       | None => if decide (bucket_count self m i < 8)%nat then <[c.(c_ID) := c]> m else m
       end.

(** The buckets of the code are those of the shared bits. *)
Lemma bucket_of_shared self id :
  is_id self ->
  bucket_of self id = if decide (length (hex_decode id) < 20)%nat then None else Some (shared_bits self id).
Proof.
  unfold is_id. intros Hs. unfold bucket_of. case_decide as Hl.
  { unfold xorDist. by rewrite xor_bytes_panic by lia. }
  destruct (xor_bytes_ok (hex_decode self) (hex_decode id)) as (d & Hd); [lia|].
  assert (xorDist self id = Ok d) as Hx by done. rewrite Hx. f_equal.
  rewrite leadingZeros_value by (by eapply xorDist_range). rewrite (xorDist_length _ _ _ Hx), Hs.
  assert (be_value d = Z.lxor (id_value self) (id_value id)) as Hv.
  { unfold id_value. rewrite (take_ge (hex_decode self)) by lia. apply xor_bytes_value.
    - rewrite length_take. lia.
    - apply hex_decode_range.
    - apply Forall_take, hex_decode_range.
    - by rewrite <- Hs, xor_bytes_take. }
  rewrite Hv. unfold shared_bits, bitlen. destruct (decide (id_value self = id_value id)) as [E|E].
  - by rewrite E, Z.lxor_nilpotent.
  - rewrite decide_False by (intros Hz; by apply Z.lxor_eq in Hz). lia.
Qed.

Lemma shared_bits_bound id1 id2 : shared_bits id1 id2 <= 160.
Proof. unfold shared_bits. case_decide; [done|]. pose proof (Z.log2_nonneg (Z.lxor (id_value id1) (id_value id2))). lia. Qed.

Lemma in_bucket_spec self i id : is_id self -> in_bucket self i id <-> bucket_of self id = Some i.
Proof. intros Hs. rewrite bucket_of_shared by done. unfold in_bucket. case_decide; [naive_solver lia|]. naive_solver lia. Qed.

(** ** Lemmas on buckets *)

Inductive table_step (t t' : Table) : Prop :=
  | step_insert c : insert t c = Ok t' -> table_step t t'.

Lemma new_table_wf self : is_id self -> table_wf (new_table self).
Proof.
  intros Hself. split; cbn; [done|by rewrite length_replicate|].
  intros i b [-> _]%lookup_replicate. split; cbn; [done|constructor..].
Qed.

Lemma update_first_None c b : update_first c b = None <-> c.(c_ID) ∉ (c_ID <$> b).
Proof.
  induction b as [|e b IH]; cbn; [set_solver|].
  case_decide as He; [set_solver|]. rewrite fmap_None, IH. set_solver.
Qed.

Lemma update_first_Some c b b' :
  update_first c b = Some b' ->
  exists b1 e b2, b = b1 ++ e :: b2 /\ b' = b1 ++ update_contact e c :: b2 /\ e.(c_ID) = c.(c_ID).
Proof.
  revert b'. induction b as [|e b IH]; intros b'; cbn; [done|].
  case_decide as He.
  - intros [= <-]. by exists [], e, b.
  - intros (r & (b1 & e' & b2 & -> & -> & Hid)%IH & ->)%fmap_Some.
    by exists (e :: b1), e', b2.
Qed.

Lemma update_first_IDs c b b' : update_first c b = Some b' -> c_ID <$> b' = c_ID <$> b.
Proof.
  intros (b1 & e & b2 & -> & -> & _)%update_first_Some. by rewrite !fmap_app, !fmap_cons.
Qed.

Lemma bucket_wf_IDs self i b b' :
  c_ID <$> b' = c_ID <$> b -> bucket_wf self i b -> bucket_wf self i b'.
Proof.
  intros Heq [Hs Hn Hi]. split.
  - rewrite <- (length_fmap c_ID b'), Heq, length_fmap. done.
  - by rewrite Heq.
  - apply (Forall_fmap c_ID (fun id => bucket_of self id = Some (Z.of_nat i))).
    rewrite Heq. by apply Forall_fmap.
Qed.

Lemma bucket_wf_snoc self i b c :
  bucket_wf self i b -> c.(c_ID) ∉ (c_ID <$> b) -> Z.of_nat (length b) < kBucketSize ->
  bucket_of self c.(c_ID) = Some (Z.of_nat i) -> bucket_wf self i (b ++ [c]).
Proof.
  intros [Hs Hn Hi] Hnew Hlt Hc. split.
  - rewrite length_app. cbn. lia.
  - rewrite fmap_app, NoDup_app. split_and!; [done|set_solver|apply NoDup_singleton].
  - by rewrite Forall_app, Forall_singleton.
Qed.

Lemma set_bucket_wf t i b :
  table_wf t -> bucket_wf t.(t_selfID) i b -> table_wf (set_bucket t i b).
Proof.
  intros [Hs Hl Hb] Hbw. split; cbn; [done|by rewrite length_insert|].
  intros j b' Hj. destruct (decide (i = j)) as [<-|Hne].
  - apply list_lookup_insert_Some in Hj as [(_ & <- & _)|(? & _)]; done.
  - rewrite list_lookup_insert_ne in Hj by done. by apply Hb.
Qed.

(** The case analysis of [insert], shared by every theorem about it. *)
Inductive insert_case (t : Table) (c : Contact) : result Table -> Prop :=
  | insert_short :
      bucket_of t.(t_selfID) c.(c_ID) = None ->
      (length (hex_decode c.(c_ID)) < 20)%nat ->
      insert_case t c (Panic IndexOutOfRange)
  | insert_self i :
      bucket_of t.(t_selfID) c.(c_ID) = Some i -> kBuckets <= i ->
      insert_case t c (Ok t)
  | insert_update i b b1 e b2 :
      bucket_of t.(t_selfID) c.(c_ID) = Some (Z.of_nat i) -> Z.of_nat i < kBuckets ->
      t.(t_buckets) !! i = Some b -> b = b1 ++ e :: b2 -> e.(c_ID) = c.(c_ID) ->
      insert_case t c (Ok (set_bucket t i (b1 ++ update_contact e c :: b2)))
  | insert_new i b :
      bucket_of t.(t_selfID) c.(c_ID) = Some (Z.of_nat i) -> Z.of_nat i < kBuckets ->
      t.(t_buckets) !! i = Some b -> c.(c_ID) ∉ (c_ID <$> b) ->
      Z.of_nat (length b) < kBucketSize ->
      insert_case t c (Ok (set_bucket t i (b ++ [c])))
  | insert_full i b :
      bucket_of t.(t_selfID) c.(c_ID) = Some (Z.of_nat i) -> Z.of_nat i < kBuckets ->
      t.(t_buckets) !! i = Some b -> c.(c_ID) ∉ (c_ID <$> b) ->
      kBucketSize <= Z.of_nat (length b) ->
      insert_case t c (Ok t).

Lemma insert_cases t c : table_wf t -> insert_case t c (insert t c).
Proof.
  intros Hwf. unfold insert. pose proof (tw_self t Hwf) as Hself. unfold is_id in Hself.
  destruct (xorDist t.(t_selfID) c.(c_ID)) as [d|p|] eqn:Hd; cycle 1.
  - assert (length (hex_decode c.(c_ID)) < 20)%nat as Hlt.
    { apply Nat.nle_gt. intros Hle. destruct (xor_bytes_ok (hex_decode t.(t_selfID))
        (hex_decode c.(c_ID))) as (d & Hok); [lia|]. unfold xorDist in Hd. congruence. }
    assert (p = IndexOutOfRange) as ->.
    { unfold xorDist in Hd. rewrite xor_bytes_panic in Hd by lia. congruence. }
    constructor; [unfold bucket_of; by rewrite Hd|done].
  - exfalso. destruct (decide (length (hex_decode t.(t_selfID)) <= length (hex_decode c.(c_ID)))%nat) as [Hle|Hgt].
    + apply xorDist_ok in Hle as (d & Hok). congruence.
    + unfold xorDist in Hd. rewrite xor_bytes_panic in Hd by lia. congruence.
  - pose proof (leadingZeros_bound d (xorDist_range _ _ _ Hd)) as Hlz.
    assert (bucket_of t.(t_selfID) c.(c_ID) = Some (leadingZeros d)) as Hbo
      by (unfold bucket_of; by rewrite Hd).
    cbn. case_decide as Hk; [by eapply insert_self|].
    set (i := Z.to_nat (leadingZeros d)).
    assert (leadingZeros d = Z.of_nat i) as Hi by (unfold i; lia). rewrite Hi in Hbo.
    destruct (t.(t_buckets) !! i) as [b|] eqn:Hb; cycle 1.
    { apply lookup_ge_None in Hb. rewrite (tw_length t Hwf) in Hb. unfold kBuckets in *. lia. }
    cbn. destruct (update_first c b) as [b'|] eqn:Hu.
    + apply update_first_Some in Hu as (b1 & e & b2 & Hbe & -> & Hid).
      assert (8 <= String.length c.(c_ID))%nat as H8.
      { pose proof (hex_decode_length c.(c_ID)).
        assert (is_ok (xorDist t.(t_selfID) c.(c_ID))) as Hle%xorDist_ok by (eexists; done). lia. }
      destruct (slice_to_ok _ _ H8) as (s & ->). cbn.
      eapply insert_update; [done|lia|done..].
    + apply update_first_None in Hu. case_decide.
      * eapply insert_new; [done|lia|done..].
      * eapply insert_full; [done|lia|done..|lia].
Qed.

(** [insert] keeps the invariant. *)
Lemma insert_wf t c t' : table_wf t -> insert t c = Ok t' -> table_wf t'.
Proof.
  intros Hwf Hins. pose proof (insert_cases t c Hwf) as Hc. rewrite Hins in Hc.
  inversion Hc as [|?|i b b1 e b2 Hbo Hi Hb -> Hid|i b Hbo Hi Hb Hnew Hlt|]; simplify_eq; try done.
  - apply set_bucket_wf; [done|]. eapply bucket_wf_IDs; [|by apply (tw_bucket _ Hwf)].
    by rewrite !fmap_app, !fmap_cons.
  - apply set_bucket_wf; [done|]. apply bucket_wf_snoc; [by apply (tw_bucket _ Hwf)|done..].
Qed.


(** [insert] panics exactly on identifiers that decode to fewer bytes than
    the node's own. *)
Lemma insert_panics t c :
  table_wf t ->
  insert t c = Panic IndexOutOfRange <-> (length (hex_decode c.(c_ID)) < 20)%nat.
Proof.
  intros Hwf. pose proof (insert_cases t c Hwf) as Hc.
  assert (forall i, bucket_of t.(t_selfID) c.(c_ID) = Some i ->
    (20 <= length (hex_decode c.(c_ID)))%nat) as Hdef.
  { intros i Hb. unfold bucket_of in Hb.
    destruct (xorDist t.(t_selfID) c.(c_ID)) as [d| |] eqn:Hd; simplify_eq.
    assert (is_ok (xorDist t.(t_selfID) c.(c_ID))) as Hle%xorDist_ok by (eexists; done).
    pose proof (tw_self t Hwf) as Hs. unfold is_id in Hs. lia. }
  destruct Hc as [|i Hb|i b b1 e b2 Hb|i b Hb|i b Hb]; [done|..];
    (split; [done|apply Hdef in Hb; lia]).
Qed.

Lemma insert_result t c :
  table_wf t ->
  (insert t c = Panic IndexOutOfRange /\ (length (hex_decode c.(c_ID)) < 20)%nat) \/
  (exists t', insert t c = Ok t' /\ (20 <= length (hex_decode c.(c_ID)))%nat).
Proof.
  intros Hwf. destruct (decide (length (hex_decode c.(c_ID)) < 20)%nat) as [Hlt|Hge].
  - left. by rewrite insert_panics.
  - right. pose proof (insert_cases t c Hwf) as Hc.
    destruct Hc; [done|..]; eexists; (split; [done|lia]).
Qed.

(** ** The contacts of a table *)

Definition not_in_bucket (self : string) (i : nat) (c : Contact) : Prop :=
  bucket_of self c.(c_ID) <> Some (Z.of_nat i).

(** Replacing one bucket replaces one segment of the contact list; the other
    segments belong to other buckets. *)
Lemma known_split t i b :
  table_wf t -> t.(t_buckets) !! i = Some b ->
  exists pre post,
    KnownPeers t = pre ++ b ++ post /\
    (forall b', KnownPeers (set_bucket t i b') = pre ++ b' ++ post) /\
    Forall (not_in_bucket t.(t_selfID) i) pre /\ Forall (not_in_bucket t.(t_selfID) i) post.
Proof.
  intros Hwf Hb. exists (concat (take i t.(t_buckets))), (concat (drop (S i) t.(t_buckets))).
  assert (forall (l : list (list Contact)) (k : nat -> nat),
    (forall j b, l !! j = Some b -> t.(t_buckets) !! k j = Some b /\ k j <> i) ->
    Forall (not_in_bucket t.(t_selfID) i) (concat l)) as Hother.
  { intros l k Hl. apply Forall_concat, Forall_lookup. intros j b' [Hj Hne]%Hl.
    eapply Forall_impl; [apply (bw_index _ _ _ (tw_bucket _ Hwf _ _ Hj))|].
    intros c Hc. cbn in Hc. unfold not_in_bucket. rewrite Hc. intros [=]. lia. }
  split_and!.
  - unfold KnownPeers. rewrite <- (take_drop_middle _ _ _ Hb) at 1.
    by rewrite concat_app.
  - intros b'. unfold KnownPeers, set_bucket. cbn.
    rewrite insert_take_drop by (by eapply lookup_lt_Some). by rewrite concat_app.
  - apply (Hother _ id). intros j b' Hj. assert (j < i)%nat.
    { apply lookup_lt_Some in Hj. rewrite length_take in Hj. lia. }
    rewrite lookup_take in Hj. case_decide; [|done]. unfold id. split; [done|lia].
  - apply (Hother _ (fun j => (S i + j)%nat)). intros j b'. rewrite lookup_drop. split; [done|lia].
Qed.

Lemma buckets_nodup self k (l : list (list Contact)) :
  (forall i b, l !! i = Some b -> bucket_wf self (k + i) b) ->
  NoDup (c_ID <$> concat l) /\
  Forall (fun c => exists j, (k <= j)%nat /\ bucket_of self c.(c_ID) = Some (Z.of_nat j)) (concat l).
Proof.
  revert k. induction l as [|b l IH]; intros k Hl; cbn [concat].
  { split; constructor. }
  destruct (IH (S k)) as [Hnd Hj].
  { intros i b' Hi. replace (S k + i)%nat with (k + S i)%nat by lia. by apply Hl. }
  destruct (Hl 0%nat b eq_refl) as [_ Hndb Hib]. rewrite Nat.add_0_r in Hib. split.
  - rewrite fmap_app, NoDup_app. split_and!; [done| |done].
    intros id (c & -> & Hc)%list_elem_of_fmap (c' & Heq & Hc')%list_elem_of_fmap.
    rewrite Forall_forall in Hib, Hj. specialize (Hib c Hc). cbn in Hib.
    destruct (Hj c' Hc') as (j & Hlt & Hj'). rewrite <- Heq, Hib in Hj'. simplify_eq. lia.
  - rewrite Forall_app. split; [|eapply Forall_impl; [exact Hj|]].
    + eapply Forall_impl; [exact Hib|]. intros c Hc. by exists k.
    + intros c (j & Hle & Hc). exists j. split; [lia|done].
Qed.

Lemma known_nodup t : table_wf t -> NoDup (c_ID <$> KnownPeers t).
Proof. intros Hwf. apply (buckets_nodup t.(t_selfID) 0). apply (tw_bucket _ Hwf). Qed.

Lemma concat_length_le {A} (l : list (list A)) n :
  Forall (fun b => Z.of_nat (length b) <= n) l -> Z.of_nat (length (concat l)) <= n * Z.of_nat (length l).
Proof. induction 1; cbn; [lia|]. rewrite length_app. lia. Qed.

Lemma bucket_of_self self id :
  is_id self -> hex_decode id = hex_decode self -> bucket_of self id = Some kBuckets.
Proof.
  intros Hs Heq. unfold bucket_of.
  assert (is_id id) as Hid by (unfold is_id in *; by rewrite Heq).
  destruct (xor_bytes_ok (hex_decode self) (hex_decode id)) as (d & Hd); [by rewrite Heq|].
  assert (xorDist self id = Ok d) as Hx by done. rewrite Hx. f_equal.
  rewrite leadingZeros_value by (by eapply xorDist_range).
  rewrite (xorDist_length _ _ _ Hx), (xorDist_value self id d), Heq, Z.lxor_nilpotent by done.
  unfold is_id in Hs. by rewrite Hs.
Qed.

Lemma known_peers_unique t :
  table_wf t ->
  NoDup (c_ID <$> KnownPeers t) /\
  Z.of_nat (length (KnownPeers t)) <= kBuckets * kBucketSize /\
  Forall (fun c => hex_decode c.(c_ID) <> hex_decode t.(t_selfID)) (KnownPeers t).
Proof.
  intros Hwf. pose proof (tw_length t Hwf) as Hl. split; [by apply known_nodup|]. split.
  - unfold KnownPeers.
    assert (Forall (fun b => Z.of_nat (length b) <= kBucketSize) t.(t_buckets)) as Hb.
    { apply Forall_lookup. intros i b Hi. by apply (bw_size _ _ _ (tw_bucket _ Hwf _ _ Hi)). }
    apply concat_length_le in Hb. rewrite Hl in Hb. unfold kBuckets in *. lia.
  - apply Forall_concat, Forall_lookup. intros i b Hi.
    pose proof (lookup_lt_Some _ _ _ Hi) as Hlt. rewrite Hl in Hlt.
    eapply Forall_impl; [apply (bw_index _ _ _ (tw_bucket _ Hwf _ _ Hi))|].
    intros c Hc Heq. cbn in Hc. rewrite (bucket_of_self _ _ (tw_self _ Hwf) Heq) in Hc.
    simplify_eq. unfold kBuckets in *. lia.
Qed.

(** ** Refinement *)

Lemma view_perm t t' :
  table_wf t -> KnownPeers t ≡ₚ KnownPeers t' -> view t = view t'.
Proof.
  intros Hwf Hp. unfold view. apply list_to_map_proper; [|by rewrite Hp].
  rewrite <- list_fmap_compose. by apply known_nodup.
Qed.

Lemma view_cons t' c l :
  table_wf t' -> KnownPeers t' ≡ₚ c :: l ->
  view t' = <[c.(c_ID) := c]> (list_to_map ((fun c => (c.(c_ID), c)) <$> l)).
Proof.
  intros Hwf Hp. change (view t' = list_to_map ((fun c => (c.(c_ID), c)) <$> c :: l)).
  unfold view. apply list_to_map_proper; [|by rewrite Hp].
  rewrite <- list_fmap_compose. by apply known_nodup.
Qed.

Lemma view_lookup t c : table_wf t -> c ∈ KnownPeers t -> view t !! c.(c_ID) = Some c.
Proof.
  intros Hwf Hc. apply elem_of_list_to_map_1.
  - rewrite <- list_fmap_compose. by apply known_nodup.
  - apply list_elem_of_fmap. eauto.
Qed.

Lemma view_lookup_None t id : id ∉ (c_ID <$> KnownPeers t) -> view t !! id = None.
Proof. intros Hid. apply not_elem_of_list_to_map_1. by rewrite <- list_fmap_compose. Qed.

(** The occupancy of a bucket is visible in the abstract map. *)
Lemma bucket_count_length t i b :
  table_wf t -> t.(t_buckets) !! i = Some b ->
  bucket_count t.(t_selfID) (view t) (Z.of_nat i) = length b.
Proof.
  intros Hwf Hb. destruct (known_split t i b Hwf Hb) as (pre & post & Hk & _ & Hpre & Hpost).
  pose proof (bw_index _ _ _ (tw_bucket _ Hwf _ _ Hb)) as Hin.
  unfold bucket_count, view. rewrite size_filter_list_to_map
    by (rewrite <- list_fmap_compose; by apply known_nodup).
  rewrite Hk, !fmap_app, !filter_app.
  assert (forall c, in_bucket t.(t_selfID) (Z.of_nat i) c.(c_ID) <->
    bucket_of t.(t_selfID) c.(c_ID) = Some (Z.of_nat i)) as Hiff
    by (intros c; apply in_bucket_spec, (tw_self _ Hwf)).
  rewrite (filter_none _ (_ <$> pre)), (filter_none _ (_ <$> post)), (filter_all _ (_ <$> b));
    [|apply Forall_fmap; eapply Forall_impl; [done|]; intros c Hc; cbn; by rewrite Hiff..].
  by rewrite app_nil_l, app_nil_r, length_fmap.
Qed.

(** An identifier that its own bucket does not hold is nowhere in the table. *)
Lemma known_fresh t i b id :
  table_wf t -> t.(t_buckets) !! i = Some b ->
  bucket_of t.(t_selfID) id = Some (Z.of_nat i) -> id ∉ (c_ID <$> b) ->
  id ∉ (c_ID <$> KnownPeers t).
Proof.
  intros Hwf Hb Hbo Hnew. destruct (known_split t i b Hwf Hb) as (pre & post & -> & _ & Hpre & Hpost).
  rewrite !fmap_app, !elem_of_app. rewrite Forall_forall in Hpre, Hpost.
  intros [(x & -> & Hx)%list_elem_of_fmap|[Hx|(x & -> & Hx)%list_elem_of_fmap]]; [|done|].
  - by apply Hpre in Hx.
  - by apply Hpost in Hx.
Qed.

(** [insert] does what [abs_insert] promises. *)
Lemma insert_view t c t' :
  table_wf t -> insert t c = Ok t' -> view t' = abs_insert t.(t_selfID) (view t) c.
Proof.
  intros Hwf Hins. pose proof (insert_wf _ _ _ Hwf Hins) as Hwf'.
  pose proof (insert_cases t c Hwf) as Hc. rewrite Hins in Hc. unfold abs_insert.
  pose proof (bucket_of_shared t.(t_selfID) c.(c_ID) (tw_self _ Hwf)) as Hsh.
  pose proof (shared_bits_bound t.(t_selfID) c.(c_ID)) as Hmax.
  inversion Hc as [|i Hbo Hi|i b b1 e b2 Hbo Hi Hb Hbe Hid|i b Hbo Hi Hb Hnew Hlt|i b Hbo Hi Hb Hnew Hge];
    subst; rewrite Hbo in Hsh; case_decide as Hl; try done; injection Hsh as Hsb;
    unfold kBuckets, kBucketSize in *.
  - by rewrite decide_True by lia.
  - destruct (known_split t i _ Hwf Hb) as (pre & post & Hk & Hk' & _ & _).
    rewrite decide_False by lia.
    rewrite <- Hid, (view_lookup t e Hwf) by (rewrite Hk; set_solver).
    rewrite (view_cons _ (update_contact e c) (pre ++ b1 ++ b2 ++ post));
      [|done|rewrite Hk'; solve_Permutation].
    rewrite (view_cons t e (pre ++ b1 ++ b2 ++ post)); [|done|rewrite Hk; solve_Permutation].
    by rewrite insert_insert_eq.
  - destruct (known_split t i b Hwf Hb) as (pre & post & Hk & Hk' & _ & _).
    rewrite decide_False by lia. rewrite view_lookup_None by (by eapply known_fresh).
    rewrite <- Hsb, (bucket_count_length t i b), decide_True by (done || lia).
    rewrite (view_cons _ c (KnownPeers t)); [done|done|]. rewrite Hk', Hk. solve_Permutation.
  - rewrite decide_False by lia. rewrite view_lookup_None by (by eapply known_fresh).
    by rewrite <- Hsb, (bucket_count_length _ i b), decide_False by (done || lia).
Qed.

(** C1: On a well-formed table, Table.insert panics exactly when the contact's identifier
    decodes to fewer than 20 bytes; otherwise it returns a well-formed table whose
    contents, as a map from identifiers, are those of the abstract insert: nothing for
    the node's own identifier or when eight contacts that share as many leading bits
    with the node are stored; for a known identifier a new endpoint, a new public
    endpoint if there is one, and all other fields kept; else a new entry. *)
Theorem insert_correct t c :
  table_wf t ->
  (insert t c = Panic IndexOutOfRange <-> (length (hex_decode c.(c_ID)) < 20)%nat) /\
  ((20 <= length (hex_decode c.(c_ID)))%nat ->
   exists t', insert t c = Ok t' /\ table_wf t' /\
     view t' = abs_insert t.(t_selfID) (view t) c).
Proof.
  intros Hwf. split; [by apply insert_panics|]. intros Hge.
  destruct (insert_result t c Hwf) as [[_ Hlt]|(t' & Hins & _)]; [lia|].
  exists t'. split_and!; [done|by eapply insert_wf|by apply insert_view].
Qed.
