(* ===== verification/TableConc.v ===== *)
(** * The routing table over time, and scans that race with inserts

    Goroutines of one node call [insert] concurrently; each call holds one
    bucket's lock.  [KnownPeers] and [closest] lock the buckets one after the
    other, so the list they collect need not be the table of any one moment.
    [scan_step] interleaves such a scan with inserts. *)

From S2P Require Import Prelude.
From S2P Require Import GoBytes.
From S2P Require Import Table.
From S2P Require Import TableInv.
Local Open Scope Z_scope.

(** The table, the next bucket to read, the contacts collected so far. *)
Record scan := mkScan { s_table : Table; s_next : nat; s_acc : list Contact }.

Inductive scan_step : scan -> scan -> Prop :=
  | scan_insert t t' c i acc :
      insert t c = Ok t' -> scan_step (mkScan t i acc) (mkScan t' i acc)
  | scan_read t i acc b :
      t.(t_buckets) !! i = Some b -> scan_step (mkScan t i acc) (mkScan t (S i) (acc ++ b)).

Definition IDs (l : list Contact) : list string := c_ID <$> l.

(** Inserts never drop an identifier. *)
Lemma insert_mono t c t' i b :
  table_wf t -> insert t c = Ok t' -> t.(t_buckets) !! i = Some b ->
  exists b', t'.(t_buckets) !! i = Some b' /\ IDs b ⊆ IDs b'.
Proof.
  intros Hwf Hins Hb. pose proof (insert_cases t c Hwf) as Hc. rewrite Hins in Hc.
  assert (forall j bj b', t.(t_buckets) !! j = Some bj -> IDs bj ⊆ IDs b' ->
    exists b'', (set_bucket t j b').(t_buckets) !! i = Some b'' /\ IDs b ⊆ IDs b'') as Hset.
  { intros j bj b' Hj Hsub. cbn. destruct (decide (j = i)) as [->|Hne].
    - exists b'. rewrite list_lookup_insert_eq by (by eapply lookup_lt_Some).
      split; [done|]. by simplify_eq.
    - exists b. by rewrite list_lookup_insert_ne. }
  inversion Hc as [|?|j bj b1 e b2 _ _ Hj Hbe _|j bj _ _ Hj _ _|]; simplify_eq.
  - eauto.
  - eapply Hset; [done|]. unfold IDs. by rewrite !fmap_app, !fmap_cons.
  - eapply Hset; [done|]. unfold IDs. rewrite fmap_app. set_solver.
  - eauto.
Qed.

Lemma insert_selfID t c t' : insert t c = Ok t' -> t'.(t_selfID) = t.(t_selfID).
Proof.
  unfold insert. intros (d & _ & H)%bind_ok. case_decide; [by simplify_eq|].
  destruct (update_first _ _); [apply bind_ok in H as (? & _ & H)|case_decide]; by simplify_eq.
Qed.

Lemma reachable_wf t t' : table_wf t -> rtc table_step t t' ->
  table_wf t' /\ t'.(t_selfID) = t.(t_selfID).
Proof.
  intros Hwf. induction 1 as [|t1 t2 t3 [c Hc] _ IH]; [done|].
  destruct IH as [? ->]; [by eapply insert_wf|]. split; [done|]. by eapply insert_selfID.
Qed.

(** C17: Every table reachable from NewDHT by inserts, in any order, is well formed: each
    contact is in the bucket of its distance, no identifier occurs twice, no bucket
    holds more than eight contacts, there are at most 160*8 in all, and the node itself
    is never stored. *)
Theorem reachable_table_wf pk t :
  rtc table_step (new_table (NodeID pk)) t ->
  table_wf t /\ t.(t_selfID) = NodeID pk /\
  NoDup (IDs (KnownPeers t)) /\
  Z.of_nat (length (KnownPeers t)) <= kBuckets * kBucketSize /\
  NodeID pk ∉ IDs (KnownPeers t).
Proof.
  intros Hr. destruct (reachable_wf (new_table (NodeID pk)) t) as [Hwf Hself]; [|done|].
  { apply new_table_wf, NodeID_is_id. }
  destruct (known_peers_unique t Hwf) as (Hnd & Hcap & Hne).
  split_and!; [done..|]. intros (c & Heq & Hc)%list_elem_of_fmap.
  rewrite Forall_forall in Hne. apply (Hne c Hc). by rewrite Hself, Heq.
Qed.

(** What a scan has collected after reading [n] buckets of a table that
    started as [t0]. *)
Record scan_inv (t0 : Table) (s : scan) : Prop := {
  si_wf : table_wf s.(s_table);
  si_self : s.(s_table).(t_selfID) = t0.(t_selfID);
  si_mono i b0 : t0.(t_buckets) !! i = Some b0 ->
    exists b, s.(s_table).(t_buckets) !! i = Some b /\ IDs b0 ⊆ IDs b;
  si_read : exists bs, s.(s_acc) = concat bs /\ length bs = s.(s_next) /\
    forall i b, bs !! i = Some b ->
      bucket_wf t0.(t_selfID) i b /\
      (exists b0, t0.(t_buckets) !! i = Some b0 /\ IDs b0 ⊆ IDs b) /\
      (exists b', s.(s_table).(t_buckets) !! i = Some b' /\ IDs b ⊆ IDs b');
}.

Lemma scan_inv_insert t0 t t' c i acc :
  scan_inv t0 (mkScan t i acc) -> insert t c = Ok t' -> scan_inv t0 (mkScan t' i acc).
Proof.
  intros [Hwf Hself Hmono (bs & Hacc & Hlen & Hbs)] Hins. cbn in *.
  assert (forall j b0 bj, t.(t_buckets) !! j = Some bj -> IDs b0 ⊆ IDs bj ->
    exists b', t'.(t_buckets) !! j = Some b' /\ IDs b0 ⊆ IDs b') as Hm.
  { intros j b0 bj Hj Hs. destruct (insert_mono t c t' j bj) as (b' & Hb' & Hs'); [done..|].
    exists b'. split; [done|]. by etrans. }
  split; cbn; [by eapply insert_wf|by rewrite (insert_selfID _ _ _ Hins)|..].
  - intros j b0 (b & Hb & Hs)%Hmono. by eapply Hm.
  - exists bs. split_and!; [done..|]. intros j b Hj.
    destruct (Hbs j b Hj) as (? & ? & (b' & Hb' & Hs)). split_and!; [done..|]. by eapply Hm.
Qed.

Lemma scan_inv_read t0 t i acc b :
  table_wf t0 -> scan_inv t0 (mkScan t i acc) -> t.(t_buckets) !! i = Some b ->
  scan_inv t0 (mkScan t (S i) (acc ++ b)).
Proof.
  intros Hwf0 [Hwf Hself Hmono (bs & Hacc & Hlen & Hbs)] Hb. cbn in *.
  split; cbn; [done..|]. exists (bs ++ [b]). split_and!.
  - by rewrite concat_app, Hacc; cbn; rewrite app_nil_r.
  - rewrite length_app. cbn. lia.
  - intros j b' [Hj|[Hle Hj]]%lookup_app_Some; [by apply Hbs|].
    apply list_lookup_singleton_Some in Hj as [Hj <-].
    replace j with i by lia. rewrite <- Hself. split_and!; [by apply (tw_bucket _ Hwf)| |eauto].
    destruct (lookup_lt_is_Some_2 t0.(t_buckets) i) as (b0 & Hb0).
    { rewrite (tw_length _ Hwf0), <- (tw_length _ Hwf). by eapply lookup_lt_Some. }
    destruct (Hmono i b0 Hb0) as (b'' & Hb'' & Hs). exists b0. by simplify_eq.
Qed.

Lemma scan_inv_reachable t0 s :
  table_wf t0 -> rtc scan_step (mkScan t0 0 []) s -> scan_inv t0 s.
Proof.
  intros Hwf0 Hr. assert (scan_inv t0 (mkScan t0 0 [])) as Hinit.
  { split; cbn; [done..|eauto|]. exists []. split_and!; [done..|]. intros i b Hi. done. }
  revert Hinit. induction Hr as [|s1 s2 s3 Hstep _ IH]; [done|]. intros Hinv. apply IH.
  destruct Hstep; [by eapply scan_inv_insert|by apply scan_inv_read].
Qed.

Lemma IDs_concat bs id :
  id ∈ IDs (concat bs) <-> exists i b, bs !! i = Some b /\ id ∈ IDs b.
Proof.
  unfold IDs. rewrite list_elem_of_fmap. setoid_rewrite list_elem_of_fmap. split.
  - intros (c & -> & (b & Hb & Hc)%list_elem_of_In%in_concat).
    apply list_elem_of_In, list_elem_of_lookup in Hb as (i & Hi).
    exists i, b. split; [done|]. exists c. by rewrite list_elem_of_In.
  - intros (i & b & Hb%list_elem_of_lookup_2 & c & -> & Hc). exists c. split; [done|].
    apply list_elem_of_In, in_concat. exists b. by rewrite <- !list_elem_of_In.
Qed.

(** C21: KnownPeers and closest read one bucket after the other while inserts run: the list
    they collect has no duplicates, contains every identifier known at the start and
    only identifiers known at the end. *)
Theorem scan_sandwich t0 t acc :
  table_wf t0 -> rtc scan_step (mkScan t0 0 []) (mkScan t (Z.to_nat kBuckets) acc) ->
  NoDup (IDs acc) /\
  Z.of_nat (length acc) <= kBuckets * kBucketSize /\
  IDs (KnownPeers t0) ⊆ IDs acc /\ IDs acc ⊆ IDs (KnownPeers t).
Proof.
  intros Hwf0 [Hwf Hself Hmono (bs & Hacc & Hlen & Hbs)]%scan_inv_reachable; [|done].
  cbn in Hacc, Hlen, Hbs. subst acc.
  destruct (buckets_nodup t0.(t_selfID) 0 bs) as [Hnd _].
  { intros i b Hi. by apply Hbs. }
  split; [done|]. split.
  { assert (Forall (fun b => Z.of_nat (length b) <= kBucketSize) bs) as Hb.
    { apply Forall_lookup. intros i b Hi. by apply (bw_size _ _ _ (proj1 (Hbs i b Hi))). }
    apply concat_length_le in Hb. rewrite Hlen in Hb. unfold kBuckets in *. lia. }
  split; intros id; unfold KnownPeers; rewrite !IDs_concat.
  - intros (i & b0 & Hb0 & Hid).
    destruct (lookup_lt_is_Some_2 bs i) as (b & Hb).
    { rewrite Hlen, <- (tw_length _ Hwf0). by eapply lookup_lt_Some. }
    destruct (Hbs i b Hb) as (_ & (b0' & Hb0' & Hs) & _). simplify_eq. eauto.
  - intros (i & b & Hb & Hid). destruct (Hbs i b Hb) as (_ & _ & (b' & Hb' & Hs)). eauto.
Qed.
