(* ===== verification/Closest.v ===== *)
(** * [closest] returns the nearest contacts

    Proved for every [sort.Slice] that keeps its documented promise
    ([SliceSortOk]). *)

From S2P Require Import Prelude.
From S2P Require Import GoBytes.
From S2P Require Import GoSort.
From S2P Require Import Table.
From S2P Require Import TableInv.
Local Open Scope Z_scope.

(** The XOR distance of a contact to a target, as a number. *)
Definition xor_key (targetID : string) (c : Contact) : Z := be_value (dist_to targetID c).

Lemma dist_defined_spec targetID c :
  dist_defined targetID c = true <->
  (length (hex_decode targetID) <= length (hex_decode c.(c_ID)))%nat.
Proof.
  unfold dist_defined. rewrite xorDist_ok. unfold is_ok.
  destruct (xorDist targetID c.(c_ID)) as [d| |]; split; try done; [eauto|..]; by intros (d & ?).
Qed.

Lemma dist_to_shape targetID c :
  dist_defined targetID c = true ->
  length (dist_to targetID c) = length (hex_decode targetID) /\
  Forall byte_range (dist_to targetID c).
Proof.
  unfold dist_defined, dist_to. destruct (xorDist targetID c.(c_ID)) as [d| |] eqn:Hd; [|done..].
  intros _. split; [by eapply xorDist_length|by eapply xorDist_range].
Qed.

Lemma closer_key targetID ci cj :
  dist_defined targetID ci = true -> dist_defined targetID cj = true ->
  closer targetID ci cj = bool_decide (xor_key targetID ci < xor_key targetID cj).
Proof.
  intros [Li Ri]%dist_to_shape [Lj Rj]%dist_to_shape. unfold closer, xor_key.
  rewrite Li, Lj, bytes_ltb_value by (done || congruence).
  destruct (hex_decode targetID) as [|b bs]; cbn; [|done].
  apply length_zero_iff_nil in Li as ->, Lj as ->. done.
Qed.

Lemma closer_strict_weak targetID l :
  ((2 <= length l)%nat -> forallb (dist_defined targetID) l = true) ->
  strict_weak (closer targetID) l.
Proof.
  intros Hdef. destruct (decide (2 <= length l)%nat) as [H2|H2].
  - assert (forall c, c ∈ l -> dist_defined targetID c = true) as Hd.
    { intros c Hc. eapply forallb_forall; [by apply Hdef|by apply list_elem_of_In]. }
    split; intros *; intros; rewrite ?closer_key in * by auto;
      repeat match goal with
      | H : bool_decide _ = true |- _ => apply bool_decide_eq_true in H
      | H : bool_decide _ = false |- _ => apply bool_decide_eq_false in H
      | |- bool_decide _ = true => apply bool_decide_eq_true
      | |- bool_decide _ = false => apply bool_decide_eq_false
      end; lia.
  - assert (forall x, closer targetID x x = false) as Hirr.
    { intros x. unfold closer. apply andb_false_iff. right.
      induction (dist_to targetID x) as [|b d IH]; cbn; [done|]. by rewrite decide_True. }
    destruct l as [|a [|b l]]; cbn in H2; [..|lia].
    { split; set_solver. }
    split; intros *; rewrite ?list_elem_of_singleton; intros; subst; congruence.
Qed.

Section closest.
Context `{!SliceSort, !SliceSortOk _}.

Lemma closest_inv t targetID n out :
  closest t targetID n = Ok out ->
  ((2 <= length (KnownPeers t))%nat -> forallb (dist_defined targetID) (KnownPeers t) = true) /\
  out = take n (sort_slice (closer targetID) (KnownPeers t)).
Proof.
  unfold closest. destruct (bool_decide _ && _) eqn:Hp; [done|]. intros Hout. split.
  - intros H2. rewrite bool_decide_eq_true_2, andb_true_l in Hp by done. by apply negb_false_iff in Hp.
  - case_decide; simplify_eq; [done|]. by rewrite take_ge by lia.
Qed.

(** The answer is a sorted prefix of the table, and nothing left out is
    nearer. *)
Lemma closest_prefix t targetID n out :
  closest t targetID n = Ok out ->
  length out = min n (length (KnownPeers t)) /\
  exists rest,
    out ++ rest ≡ₚ KnownPeers t /\
    StronglySorted (fun a b => xor_key targetID a <= xor_key targetID b) out /\
    (forall o r, o ∈ out -> r ∈ rest -> xor_key targetID o <= xor_key targetID r).
Proof.
  intros [Hdef ->]%closest_inv.
  set (sorted := sort_slice (closer targetID) (KnownPeers t)).
  assert (sorted ≡ₚ KnownPeers t) as Hp by apply sort_slice_perm.
  split; [by rewrite length_take, Hp|].
  exists (drop n sorted). rewrite take_drop. split; [done|].
  assert (StronglySorted (fun x y => closer targetID y x = false) sorted) as Hs.
  { apply sorted_strongly; [|by apply sort_slice_sorted, closer_strict_weak].
    apply closer_strict_weak. intros H2. rewrite Hp in H2. specialize (Hdef H2).
    rewrite forallb_forall in Hdef |- *. intros x Hx. apply Hdef.
    rewrite <- list_elem_of_In in Hx |- *. by rewrite <- Hp. }
  assert (StronglySorted (fun a b => xor_key targetID a <= xor_key targetID b) sorted) as Hk.
  { destruct (decide (2 <= length (KnownPeers t))%nat) as [H2|H2]; cycle 1.
    { rewrite <- Hp in H2. destruct sorted as [|a [|b l]]; [repeat constructor..|cbn in H2; lia]. }
    specialize (Hdef H2). rewrite forallb_forall in Hdef.
    assert (Forall (fun c => dist_defined targetID c = true) sorted) as Hd.
    { rewrite Hp. apply Forall_forall. intros c Hc. by apply Hdef, list_elem_of_In. }
    clear -Hs Hd. induction Hs as [|x l Hs IH Hall]; constructor.
    - apply IH. by apply Forall_cons in Hd as [_ ?].
    - apply Forall_cons in Hd as [Hx Hd]. rewrite Forall_forall in Hall, Hd |- *.
      intros y Hy. specialize (Hall y Hy). cbn in Hall.
      rewrite closer_key, bool_decide_eq_false in Hall by auto. lia. }
  rewrite <- (take_drop n sorted) in Hk. apply StronglySorted_app in Hk as (Hx & Ht & _).
  split; [done|]. auto.
Qed.

(** The sort panics exactly when some identifier is shorter than the target. *)
Lemma closest_panics t targetID n :
  closest t targetID n = Panic IndexOutOfRange <->
  (2 <= length (KnownPeers t))%nat /\
  Exists (fun c => (length (hex_decode c.(c_ID)) < length (hex_decode targetID))%nat) (KnownPeers t).
Proof.
  unfold closest.
  assert (forallb (dist_defined targetID) (KnownPeers t) = false <->
    Exists (fun c => (length (hex_decode c.(c_ID)) < length (hex_decode targetID))%nat) (KnownPeers t))
    as Hex.
  { induction (KnownPeers t) as [|c l IH]; cbn; [split; [done|by intros ?%Exists_nil]|].
    rewrite andb_false_iff, Exists_cons, IH, <- not_true_iff_false, dist_defined_spec, Nat.nle_gt. done. }
  rewrite <- Hex. destruct (decide (2 <= length (KnownPeers t))%nat) as [H2|H2].
  - rewrite bool_decide_eq_true_2 by done. cbn.
    destruct (forallb _ _); cbn; [|done]. case_decide; naive_solver.
  - rewrite bool_decide_eq_false_2 by done. cbn. case_decide; naive_solver.
Qed.

(** C2: closest(target, n) panics exactly when two contacts are compared and some known
    identifier is shorter than the target; otherwise it returns min(n, all) contacts of
    the table, sorted by XOR distance to the target, and none that it leaves out is
    nearer than one it returns. This holds for every sort that meets the contract of
    sort.Slice. *)
Theorem closest_correct t targetID n :
  (closest t targetID n = Panic IndexOutOfRange <->
   (2 <= length (KnownPeers t))%nat /\
   Exists (fun c => (length (hex_decode c.(c_ID)) < length (hex_decode targetID))%nat) (KnownPeers t)) /\
  (closest t targetID n <> Panic IndexOutOfRange ->
   exists out rest,
     closest t targetID n = Ok out /\
     out ++ rest ≡ₚ KnownPeers t /\
     length out = min n (length (KnownPeers t)) /\
     StronglySorted (fun a b => xor_key targetID a <= xor_key targetID b) out /\
     (forall o r, o ∈ out -> r ∈ rest -> xor_key targetID o <= xor_key targetID r)).
Proof.
  split; [apply closest_panics|]. intros Hnp.
  assert (exists out, closest t targetID n = Ok out) as (out & Hout).
  { revert Hnp. unfold closest. destruct (bool_decide _ && _); [done|].
    intros _. case_decide; eauto. }
  destruct (closest_prefix t targetID n out Hout) as (Hlen & rest & Hp & Hs & Hr). eauto 8.
Qed.
End closest.

(** An identifier in the form [NodeID] produces: lower-case, twenty bytes. *)
Definition canonical_id (id : string) : Prop := is_id id /\ id = hex_encode (hex_decode id).

Lemma NodeID_canonical pk : canonical_id (NodeID pk).
Proof.
  destruct (NodeID_is_id pk) as (Hid & _ & Hdec). split; [done|]. by rewrite Hdec.
Qed.

Lemma xor_key_inj targetID c1 c2 :
  is_id targetID -> canonical_id c1.(c_ID) -> canonical_id c2.(c_ID) ->
  xor_key targetID c1 = xor_key targetID c2 -> c1.(c_ID) = c2.(c_ID).
Proof.
  intros Ht [H1 E1] [H2 E2]. unfold xor_key, dist_to.
  destruct (xorDist_ids_ok targetID c1.(c_ID)) as (d1 & Hd1); [done..|].
  destruct (xorDist_ids_ok targetID c2.(c_ID)) as (d2 & Hd2); [done..|].
  rewrite Hd1, Hd2, (xorDist_value _ _ _ Ht H1 Hd1), (xorDist_value _ _ _ Ht H2 Hd2).
  intros Heq. rewrite E1, E2. f_equal.
  apply be_value_inj; [by rewrite H1, H2|apply hex_decode_range..|].
  rewrite <- (Z.lxor_0_l (be_value (hex_decode c1.(c_ID)))).
  rewrite <- (Z.lxor_nilpotent (be_value (hex_decode targetID))), Z.lxor_assoc, Heq.
  by rewrite <- Z.lxor_assoc, Z.lxor_nilpotent, Z.lxor_0_l.
Qed.

(** On a well-formed table with canonical identifiers the result of [closest] does not
    depend on the sort. *)
Theorem closest_sort_independent (S1 S2 : SliceSort) `{!SliceSortOk S1, !SliceSortOk S2}
    t targetID n :
  table_wf t -> is_id targetID -> Forall (fun c => canonical_id c.(c_ID)) (KnownPeers t) ->
  @closest S1 t targetID n = @closest S2 t targetID n.
Proof.
  intros Hwf Ht Hcan. rewrite Forall_forall in Hcan.
  assert (forall c, c ∈ KnownPeers t -> dist_defined targetID c = true) as Hdef.
  { intros c [Hid _]%Hcan. apply dist_defined_spec. unfold is_id in *. lia. }
  assert (forallb (dist_defined targetID) (KnownPeers t) = true) as Hall.
  { apply forallb_forall. intros c Hc. by apply Hdef, list_elem_of_In. }
  unfold closest. rewrite Hall, andb_false_r.
  rewrite (sort_slice_unique S1 S2); [done|by apply closer_strict_weak|].
  intros x y Hx Hy. rewrite !closer_key, !bool_decide_eq_false by auto. intros Hxy Hyx.
  assert (x.(c_ID) = y.(c_ID)) as Hid by (apply (xor_key_inj targetID); auto; lia).
  pose proof (view_lookup t x Hwf Hx) as Vx. pose proof (view_lookup t y Hwf Hy) as Vy.
  rewrite Hid in Vx. congruence.
Qed.
