(* ===== verification/Node.v ===== *)
(** * The DHT node ([pkg/dht/kademlia.go])

    The node's state, its messages and its handlers.  A handler returns the
    next state and the events it causes, in order: bytes written to a
    connection and calls of the registered callbacks.  What the network does
    (a dial that fails, a write that fails, the bytes a connection delivers)
    is an argument.  Log output is not modelled, except where evaluating a
    log argument can panic. *)

From S2P Require Import Prelude.
From S2P Require Import GoBytes.
From S2P Require Import GoStrings.
From S2P Require Import GoNet.
From S2P Require Import GoSort.
From S2P Require Import Table.
Local Open Scope Z_scope.

Definition MsgFindNode : Z := 0.
Definition MsgFindNodeResp : Z := 1.
Definition MsgPing : Z := 2.
Definition MsgPong : Z := 3.
Definition MsgReportState : Z := 4.
Definition MsgPunchPlan : Z := 5.
Definition MsgControlHello : Z := 6.

Record DhtMessage := mkMsg {
  m_Type : Z;
  m_SenderID : string;
  m_TargetID : string;
  m_Contacts : list Contact;
  m_PublicKey : string;
  m_WgEndpoint : string;
  m_PublicEndpoint : string;
  m_State : string;
  m_ControlEndpoint : string;
  m_PunchID : string;
  m_TargetPublicKey : string;
  m_PunchStartUnix : Z;
  m_PunchWindowMs : Z;
  m_PunchPorts : list string;
}.

#[export] Instance DhtMessage_eq_dec : EqDecision DhtMessage.
Proof. solve_decision. Defined.

(** The zero value a composite literal starts from. *)
Definition zero_msg (typ : Z) (sender : string) : DhtMessage :=
  mkMsg typ sender "" [] "" "" "" "" "" "" "" 0 0 [].

Definition zero_contact : Contact := mkContact "" "" "" "" "".

(** An accepted or dialled TCP connection. *)
Record Conn := mkConn { conn_id : nat; conn_remote : string }.

#[export] Instance Conn_eq_dec : EqDecision Conn.
Proof. solve_decision. Defined.

Record DHT := mkDHT {
  d_table : Table;
  d_publicKey : string;
  d_wgEndpoint : string;
  d_publicEndpoint : string;
  d_seedContact : Contact;
  d_listenPort : Z;
  d_onPeerDiscovered : bool;      (* the callback is registered *)
  d_onPunchPlan : bool;
  d_controlConns : gmap string Conn;
  d_observedEndpoint : option (string -> string);
  d_stopped : bool;               (* stopCh is closed *)
}.

Inductive event :=
  | EvWrite (conn : Conn) (frames : list (frame DhtMessage))
  | EvPeerDiscovered (c : Contact)
  | EvPunchPlan (m : DhtMessage).

Definition with_table (d : DHT) (t : Table) : DHT :=
  mkDHT t d.(d_publicKey) d.(d_wgEndpoint) d.(d_publicEndpoint) d.(d_seedContact)
    d.(d_listenPort) d.(d_onPeerDiscovered) d.(d_onPunchPlan) d.(d_controlConns)
    d.(d_observedEndpoint) d.(d_stopped).

Definition with_seed (d : DHT) (c : Contact) : DHT :=
  mkDHT d.(d_table) d.(d_publicKey) d.(d_wgEndpoint) d.(d_publicEndpoint) c
    d.(d_listenPort) d.(d_onPeerDiscovered) d.(d_onPunchPlan) d.(d_controlConns)
    d.(d_observedEndpoint) d.(d_stopped).

Definition with_conns (d : DHT) (m : gmap string Conn) : DHT :=
  mkDHT d.(d_table) d.(d_publicKey) d.(d_wgEndpoint) d.(d_publicEndpoint) d.(d_seedContact)
    d.(d_listenPort) d.(d_onPeerDiscovered) d.(d_onPunchPlan) m d.(d_observedEndpoint)
    d.(d_stopped).

(** [listen] is the operating system's answer: the bound port, or an error. *)
Definition NewDHT (listen : Z -> option Z) (publicKey : string) (listenPort : Z)
    (wgEndpoint : string) : option DHT :=
  port ← listen listenPort;
  Some (mkDHT (new_table (NodeID publicKey)) publicKey wgEndpoint "" zero_contact port
          false false ∅ None false).

Definition SetPeerCallback (d : DHT) : DHT :=
  mkDHT d.(d_table) d.(d_publicKey) d.(d_wgEndpoint) d.(d_publicEndpoint) d.(d_seedContact)
    d.(d_listenPort) true d.(d_onPunchPlan) d.(d_controlConns) d.(d_observedEndpoint)
    d.(d_stopped).

Definition SetPunchPlanCallback (d : DHT) : DHT :=
  mkDHT d.(d_table) d.(d_publicKey) d.(d_wgEndpoint) d.(d_publicEndpoint) d.(d_seedContact)
    d.(d_listenPort) d.(d_onPeerDiscovered) true d.(d_controlConns) d.(d_observedEndpoint)
    d.(d_stopped).

Definition SetObservedEndpoint (d : DHT) (f : string -> string) : DHT :=
  mkDHT d.(d_table) d.(d_publicKey) d.(d_wgEndpoint) d.(d_publicEndpoint) d.(d_seedContact)
    d.(d_listenPort) d.(d_onPeerDiscovered) d.(d_onPunchPlan) d.(d_controlConns) (Some f)
    d.(d_stopped).

Definition SetPublicEndpoint (d : DHT) (ep : string) : DHT :=
  mkDHT d.(d_table) d.(d_publicKey) d.(d_wgEndpoint) ep d.(d_seedContact)
    d.(d_listenPort) d.(d_onPeerDiscovered) d.(d_onPunchPlan) d.(d_controlConns)
    d.(d_observedEndpoint) d.(d_stopped).

(** ** Life cycle *)

Definition ListenPort (d : DHT) : Z := d.(d_listenPort).

(** [Start] launches an accept loop, every time it is called: the number of
    loops launched. *)
Definition Start (d : DHT) : DHT * nat := (d, 1%nat).

(** The first statement of [Stop], [close(d.stopCh)]. *)
Definition Stop (d : DHT) : result DHT :=
  if d.(d_stopped) then Panic CloseOfClosedChannel
  else Ok (mkDHT d.(d_table) d.(d_publicKey) d.(d_wgEndpoint) d.(d_publicEndpoint) d.(d_seedContact)
         d.(d_listenPort) d.(d_onPeerDiscovered) d.(d_onPunchPlan) d.(d_controlConns)
         d.(d_observedEndpoint) true).

(** ** Handlers of accepted connections *)

Section handlers.
Context {sort : SliceSort}.

(** The contact [handleFindNode] registers for the sender. *)
Definition sender_contact (d : DHT) (conn : Conn) (msg : DhtMessage) : Contact :=
  let ep := if decide (msg.(m_WgEndpoint) = "") then conn.(conn_remote) else msg.(m_WgEndpoint) in
  let public :=
    match d.(d_observedEndpoint) with
    | Some f =>
        let observed := f msg.(m_PublicKey) in
        if decide (observed = "") then msg.(m_PublicEndpoint) else observed
    | None => msg.(m_PublicEndpoint)
    end in
  mkContact msg.(m_SenderID) msg.(m_PublicKey) ep public msg.(m_ControlEndpoint).

(** The responder side of peer registration: the callback, after a log line
    that slices the key. *)
Definition notify_registered (d : DHT) (contact : Contact) (msg : DhtMessage) : result (list event) :=
  if d.(d_onPeerDiscovered) && bool_decide (msg.(m_PublicKey) <> "")
     && bool_decide (msg.(m_PublicKey) <> d.(d_publicKey))
  then _ ← slice_to msg.(m_PublicKey) 16; Ok [EvPeerDiscovered contact]
  else Ok [].

Definition handleFindNode (d : DHT) (conn : Conn) (msg : DhtMessage) : result (DHT * list event) :=
  let contact := sender_contact d conn msg in
  t ← insert d.(d_table) contact;
  callback ← notify_registered d contact msg;
  near ← closest t msg.(m_TargetID) (Z.to_nat kBucketSize);
  let resp := mkMsg MsgFindNodeResp d.(d_table).(t_selfID) "" near "" "" "" "" "" "" "" 0 0 [] in
  Ok (with_table d t, callback ++ [EvWrite conn (encode_fresh resp)]).

(** The loop body of [handleFindNodeResp]; both log branches evaluate
    [c.ID[:8]]. *)
Definition learn_contact (s : DHT * list event) (c : Contact) : result (DHT * list event) :=
  let '(d, evs) := s in
  if decide (c.(c_ID) = d.(d_table).(t_selfID)) then Ok s
  else
    t ← insert d.(d_table) c;
    _ ← slice_to c.(c_ID) 8;
    let evs' := if d.(d_onPeerDiscovered) && bool_decide (c.(c_PublicKey) <> "")
                then [EvPeerDiscovered c] else [] in
    Ok (with_table d t, evs ++ evs').

Definition handleFindNodeResp (d : DHT) (msg : DhtMessage) : result (DHT * list event) :=
  for_range learn_contact msg.(m_Contacts) (d, []).

Definition handlePing (d : DHT) (conn : Conn) : result (DHT * list event) :=
  Ok (d, [EvWrite conn (encode_fresh (zero_msg MsgPong d.(d_table).(t_selfID)))]).

(** Only logs; its slices are guarded by length checks. *)
Definition handleReportState (d : DHT) (msg : DhtMessage) : result (DHT * list event) :=
  if decide (8 <= String.length msg.(m_SenderID) /\ 8 <= String.length msg.(m_TargetID))%nat
  then _ ← slice_to msg.(m_SenderID) 8; _ ← slice_to msg.(m_TargetID) 8; Ok (d, [])
  else Ok (d, []).

Definition punch_event (d : DHT) (msg : DhtMessage) : list event :=
  if d.(d_onPunchPlan) then [EvPunchPlan msg] else [].

(** [handleConn] decodes one message and dispatches on it.  After a
    [MsgControlHello] it waits for the node to stop, or a day, and returns:
    what follows on the connection is never read. *)
Definition handleConn (d : DHT) (conn : Conn) (stream : list (frame DhtMessage)) :
    result (DHT * list event) :=
  match decode false stream with
  | None => Ok (d, [])
  | Some (msg, _) =>
      if decide (msg.(m_Type) = MsgControlHello) then
        if decide (msg.(m_PublicKey) = "") then Ok (d, [])
        else Ok (with_conns d (<[msg.(m_PublicKey) := conn]> d.(d_controlConns)), [])
      else if decide (msg.(m_Type) = MsgFindNode) then handleFindNode d conn msg
      else if decide (msg.(m_Type) = MsgPing) then handlePing d conn
      else if decide (msg.(m_Type) = MsgReportState) then handleReportState d msg
      else if decide (msg.(m_Type) = MsgPunchPlan) then Ok (d, punch_event d msg)
      else Ok (d, [])
  end.

(** Does the goroutine of [handleConn] wait for the stop, or a day, before it
    returns? *)
Definition waits_for_stop (stream : list (frame DhtMessage)) : bool :=
  match decode false stream with
  | Some (msg, _) => bool_decide (msg.(m_Type) = MsgControlHello)
  | None => false
  end.

(** ** Outgoing connections *)

(** What the network does with a dial and the writes that follow it. *)
Inductive net_outcome := DialFails | FirstWriteFails | SecondWriteFails | AllSent.

Definition hello_msg (d : DHT) : DhtMessage :=
  mkMsg MsgControlHello d.(d_table).(t_selfID) "" [] d.(d_publicKey) "" "" "" "" "" "" 0 0 [].

(** The control endpoint [findNode] advertises: the second result of
    [SplitHostPort] joined with the listener's port. *)
Definition control_endpoint (d : DHT) : string :=
  match SplitHostPort d.(d_publicEndpoint) with
  | Some (_, host) => if decide (host = "") then "" else JoinHostPort host (Itoa d.(d_listenPort))
  | None => ""
  end.

Definition find_msg (d : DHT) (targetID : string) : DhtMessage :=
  mkMsg MsgFindNode d.(d_table).(t_selfID) targetID [] d.(d_publicKey) d.(d_wgEndpoint)
    d.(d_publicEndpoint) "" (control_endpoint d) "" "" 0 0 [].

(** [findNode]: the frames written to the contact's endpoint.  Each message
    has an encoder of its own. *)
Definition findNode (d : DHT) (targetID : string) (contact : Contact) (net : net_outcome) :
    list (frame DhtMessage) :=
  match net with
  | DialFails | FirstWriteFails => []
  | SecondWriteFails => encode_fresh (hello_msg d)
  | AllSent => encode_fresh (hello_msg d) ++ encode_fresh (find_msg d targetID)
  end.

(** The reader goroutine [findNode] leaves on the connection. *)
Definition read_reply (s : DHT * list event) (resp : DhtMessage) : result (DHT * list event) :=
  let '(d, evs) := s in
  if decide (resp.(m_Type) = MsgFindNodeResp) then
    '(d', evs') ← handleFindNodeResp d resp; Ok (d', evs ++ evs')
  else if decide (resp.(m_Type) = MsgPunchPlan) then Ok (d, evs ++ punch_event d resp)
  else Ok s.

Definition findNode_reader (d : DHT) (stream : list (frame DhtMessage)) : result (DHT * list event) :=
  for_range read_reply (decode_all false stream) (d, []).
End handlers.

(** Frames sent to an address that was dialled. *)
Notation outbound := (string * list (frame DhtMessage))%type.

(** One iteration of [Bootstrap]; the log guards its slice by a length check. *)
Definition bootstrap_seed (s : DHT * list outbound) (sn : Contact * net_outcome) :
    result (DHT * list outbound) :=
  let '(d, out) := s in
  let '(seed, net) := sn in
  t ← insert d.(d_table) seed;
  let d := with_table d t in
  let d := if decide (d.(d_seedContact).(c_PublicKey) = "") then with_seed d seed else d in
  Ok (d, out ++ [(seed.(c_Endpoint), findNode d d.(d_table).(t_selfID) seed net)]).

(** [Bootstrap], each seed paired with what the network does to its dial. *)
Definition Bootstrap (d : DHT) (seeds : list (Contact * net_outcome)) : result (DHT * list outbound) :=
  for_range bootstrap_seed seeds (d, []).

Definition Refresh (d : DHT) (net : Contact -> net_outcome) : list outbound :=
  (fun contact => (contact.(c_Endpoint), findNode d d.(d_table).(t_selfID) contact (net contact))) <$>
  filter (fun contact => ~ (contact.(c_PublicKey) = "" \/ contact.(c_PublicKey) = d.(d_publicKey)))
    (KnownPeers d.(d_table)).

(** [SendState]: a report to the first seed, when there is one. *)
Definition SendState (d : DHT) (peerPubKey state endpoint : string) (net : net_outcome) :
    result (list outbound) :=
  if decide (d.(d_seedContact).(c_PublicKey) = "") then Ok []
  else
    let peerID := NodeID peerPubKey in
    let msg := mkMsg MsgReportState d.(d_table).(t_selfID) peerID [] d.(d_publicKey) endpoint
                 "" state "" "" "" 0 0 [] in
    match net with
    | DialFails | FirstWriteFails => Ok []
    | _ => _ ← slice_to peerID 8; Ok [(d.(d_seedContact).(c_Endpoint), encode_fresh msg)]
    end.

(** The control address of a contact: [ControlEndpoint], else [Endpoint]. *)
Definition control_addr (contact : Contact) : string :=
  if decide (contact.(c_ControlEndpoint) = "") then contact.(c_Endpoint)
  else contact.(c_ControlEndpoint).

Inductive send_error := EmptyEndpoint | ConnectError | EncodeError.

#[export] Instance send_error_eq_dec : EqDecision send_error.
Proof. solve_decision. Defined.

(** [OpenControl]: the error it returns and the frames it sends. *)
Definition OpenControl (d : DHT) (contact : Contact) (net : net_outcome) :
    option send_error * list outbound :=
  let addr := control_addr contact in
  if decide (addr = "") then (Some EmptyEndpoint, [])
  else match net with
       | DialFails => (Some ConnectError, [])
       | FirstWriteFails => (Some EncodeError, [])
       | _ => (None, [(addr, encode_fresh (hello_msg d))])
       end.

(** The reader goroutine of [OpenControl]. *)
Definition control_reader (d : DHT) (stream : list (frame DhtMessage)) : list event :=
  mjoin ((fun msg => if decide (msg.(m_Type) = MsgPunchPlan) then punch_event d msg else [])
           <$> decode_all false stream).

Inductive destination := OnConn (c : Conn) | OnDial (addr : string).

(** [SendPunchPlan]; [window] is in nanoseconds, [startMs] in Unix
    milliseconds.  Without a control connection the log slices every
    connected key and the peer's key. *)
Definition punch_msg (d : DHT) (targetPublicKey targetEndpoint punchID : string)
    (startMs window : Z) (ports : list string) : DhtMessage :=
  mkMsg MsgPunchPlan d.(d_table).(t_selfID) "" [] d.(d_publicKey) targetEndpoint "" "" ""
    punchID targetPublicKey startMs (Z.quot window 1000000) ports.

Definition SendPunchPlan (d : DHT) (contact : Contact)
    (targetPublicKey targetEndpoint punchID : string) (startMs window : Z) (ports : list string)
    (net : net_outcome) :
    result (option send_error * list (destination * list (frame DhtMessage))) :=
  let msg := punch_msg d targetPublicKey targetEndpoint punchID startMs window ports in
  match d.(d_controlConns) !! contact.(c_PublicKey) with
  | Some conn =>
      match net with
      | FirstWriteFails => Ok (Some EncodeError, [])
      | _ => Ok (None, [(OnConn conn, encode_fresh msg)])
      end
  | None =>
      _ ← for_range (fun _ k => _ ← slice_to k 16; Ok tt) (map_to_list d.(d_controlConns)).*1 tt;
      _ ← slice_to contact.(c_PublicKey) 32;
      let control := control_addr contact in
      if decide (control = "") then Ok (Some EmptyEndpoint, [])
      else match net with
           | DialFails => Ok (Some ConnectError, [])
           | FirstWriteFails => Ok (Some EncodeError, [])
           | _ => Ok (None, [(OnDial control, encode_fresh msg)])
           end
  end.
