(* ===== verification/NodeInv.v ===== *)
(** * Invariants and behaviour of the DHT node

    [node_step] is one operation of a running node; [node_wf] holds in every
    state reachable from [NewDHT].  The theorems then say what each handler
    does, when it panics, and what two nodes that talk to each other see. *)

From S2P Require Import Prelude.
From S2P Require Import GoBytes.
From S2P Require Import GoStrings.
From S2P Require Import GoNet.
From S2P Require Import GoSort.
From S2P Require Import Table.
From S2P Require Import TableInv.
From S2P Require Import TableConc.
From S2P Require Import Closest.
From S2P Require Import Node.
Local Open Scope Z_scope.

Record node_wf (d : DHT) : Prop := {
  nw_table : table_wf d.(d_table);
  nw_self : d.(d_table).(t_selfID) = NodeID d.(d_publicKey);
  nw_conns : d.(d_controlConns) !! "" = None;
}.

(** What an operation never changes: the node's key, whether it is stopped,
    and the seed it reports to once there is one; known identifiers stay. *)
Record node_stable (d d' : DHT) : Prop := {
  ns_key : d'.(d_publicKey) = d.(d_publicKey);
  ns_stop : d'.(d_stopped) = d.(d_stopped);
  ns_seed : d.(d_seedContact).(c_PublicKey) <> "" -> d'.(d_seedContact) = d.(d_seedContact);
  ns_peers : IDs (KnownPeers d.(d_table)) ⊆ IDs (KnownPeers d'.(d_table));
}.

#[export] Instance node_stable_preorder : PreOrder node_stable.
Proof.
  split; [by intros d; split|]. intros d1 d2 d3 [K1 T1 S1 P1] [K2 T2 S2 P2]. split.
  - congruence.
  - congruence.
  - intros H. rewrite S2; [by apply S1|]. by rewrite S1.
  - by etrans.
Qed.

Lemma insert_IDs_mono t c t' :
  table_wf t -> insert t c = Ok t' -> IDs (KnownPeers t) ⊆ IDs (KnownPeers t').
Proof.
  intros Hwf Hins id. unfold KnownPeers. rewrite !IDs_concat. intros (i & b & Hb & Hid).
  destruct (insert_mono t c t' i b) as (b' & Hb' & Hs); [done..|]. eauto.
Qed.

Lemma with_table_ok d c t :
  node_wf d -> insert d.(d_table) c = Ok t ->
  node_wf (with_table d t) /\ node_stable d (with_table d t).
Proof.
  intros [Ht Hs Hc] Hins. split; split; cbn; [by eapply insert_wf| |done|done|done|done|].
  - by rewrite (insert_selfID _ _ _ Hins).
  - by eapply insert_IDs_mono.
Qed.

Section node.
Context {sort : SliceSort}.

Inductive node_step (d : DHT) : DHT -> Prop :=
  | step_conn conn stream d' evs :
      handleConn d conn stream = Ok (d', evs) -> node_step d d'
  | step_reader stream d' evs :
      findNode_reader d stream = Ok (d', evs) -> node_step d d'
  | step_bootstrap seeds d' out :
      Bootstrap d seeds = Ok (d', out) -> node_step d d'
  | step_public ep : node_step d (SetPublicEndpoint d ep)
  | step_peer_callback : node_step d (SetPeerCallback d)
  | step_punch_callback : node_step d (SetPunchPlanCallback d)
  | step_observed f : node_step d (SetObservedEndpoint d f).

Definition node_ok (d0 d : DHT) : Prop := node_wf d /\ node_stable d0 d.

Lemma handleFindNode_ok d conn msg d' evs :
  node_wf d -> handleFindNode d conn msg = Ok (d', evs) -> node_ok d d'.
Proof. unfold handleFindNode. intros Hwf H. res_inv. by eapply with_table_ok. Qed.

Lemma learn_contact_ok d0 d evs c d' evs' :
  node_ok d0 d -> learn_contact (d, evs) c = Ok (d', evs') -> node_ok d0 d'.
Proof.
  intros [Hwf Hst] H. unfold learn_contact in H. case_decide; [by simplify_eq|]. res_inv.
  edestruct with_table_ok as [Hwf' Hst']; [done..|]. split; [done|]. by etrans.
Qed.

Lemma handleFindNodeResp_ok d0 d msg d' evs :
  node_ok d0 d -> handleFindNodeResp d msg = Ok (d', evs) -> node_ok d0 d'.
Proof.
  intros Hok H. unfold handleFindNodeResp in H.
  apply (for_range_inv (fun s => node_ok d0 s.1)) in H; [done| |done].
  intros [d1 e1] c [d2 e2] _ Hd. by apply learn_contact_ok.
Qed.

Lemma handleConn_ok d conn stream d' evs :
  node_wf d -> handleConn d conn stream = Ok (d', evs) -> node_ok d d'.
Proof.
  intros Hwf H. unfold handleConn in H. destruct (decode false stream) as [[msg rest]|];
    [|by simplify_eq].
  repeat case_decide; try by simplify_eq.
  - simplify_eq. destruct Hwf. split; split; cbn; try done. by rewrite lookup_insert_ne by congruence.
  - by eapply handleFindNode_ok.
  - unfold handlePing in H. by simplify_eq.
  - unfold handleReportState in H. case_decide; res_inv; done.
Qed.

Lemma findNode_reader_ok d stream d' evs :
  node_wf d -> findNode_reader d stream = Ok (d', evs) -> node_ok d d'.
Proof.
  intros Hwf H. unfold findNode_reader in H.
  apply (for_range_inv (fun s => node_ok d s.1)) in H; [done| |by split].
  intros [d1 e1] m [d2 e2] _ Hd Hr. unfold read_reply in Hr.
  repeat case_decide; try by simplify_eq.
  apply bind_ok in Hr as ([d3 e3] & Hr & ?). simplify_eq. by eapply handleFindNodeResp_ok.
Qed.

Lemma Bootstrap_ok d seeds d' out :
  node_wf d -> Bootstrap d seeds = Ok (d', out) -> node_ok d d'.
Proof.
  intros Hwf H. unfold Bootstrap in H.
  apply (for_range_inv (fun s => node_ok d s.1)) in H; [done| |by split].
  intros [d1 e1] [seed net] [d2 e2] _ [Hwf1 Hst1] Hr. unfold bootstrap_seed in Hr. res_inv.
  edestruct (with_table_ok d1) as [Hwf' Hst']; [done..|].
  case_decide as Hs; [|split; [done|by etrans]].
  split; [by destruct Hwf'; split|]. etrans; [done|]. etrans; [done|].
  split; cbn in *; [done|done| |done]. by intros [].
Qed.

Lemma node_step_ok d d' : node_wf d -> node_step d d' -> node_ok d d'.
Proof.
  intros Hwf Hstep. destruct Hstep;
    eauto using handleConn_ok, findNode_reader_ok, Bootstrap_ok;
    destruct Hwf; split; split; done.
Qed.

Lemma node_reach_ok d d' : node_wf d -> rtc node_step d d' -> node_ok d d'.
Proof.
  intros Hwf. induction 1 as [d|d1 d2 d3 Hstep _ IH]; [by split|].
  destruct (node_step_ok d1 d2) as [Hwf2 Hst2]; [done..|].
  destruct (IH Hwf2) as [Hwf3 Hst3]. split; [done|]. by etrans.
Qed.

Lemma NewDHT_wf listen pk port ep d : NewDHT listen pk port ep = Some d -> node_wf d.
Proof.
  unfold NewDHT. intros (p & _ & [= <-])%bind_Some. split; cbn; [|done..].
  apply new_table_wf, NodeID_is_id.
Qed.

(** C18: Every state a DHT node reaches by serving connections, reading replies,
    bootstrapping and its setters keeps the table well formed and the node's key and
    identifier unchanged, never stores the node itself, and never loses a known
    identifier or the seed it reports to. *)
Theorem node_reachable listen pk port ep d0 d :
  NewDHT listen pk port ep = Some d0 -> rtc node_step d0 d ->
  table_wf d.(d_table) /\ d.(d_publicKey) = pk /\ d.(d_table).(t_selfID) = NodeID pk /\
  NodeID pk ∉ IDs (KnownPeers d.(d_table)) /\
  (forall d', rtc node_step d d' -> node_stable d d').
Proof.
  intros Hnew Hr. pose proof (NewDHT_wf _ _ _ _ _ Hnew) as Hwf0.
  destruct (node_reach_ok d0 d Hwf0 Hr) as [Hwf Hst].
  assert (d.(d_publicKey) = pk) as Hpk.
  { rewrite (ns_key _ _ Hst). unfold NewDHT in Hnew. by apply bind_Some in Hnew as (? & _ & [= <-]). }
  pose proof (nw_self d Hwf) as Hself. rewrite Hpk in Hself.
  split_and!; [apply Hwf|done..| |intros d' Hd'; by apply node_reach_ok].
  intros (c & Heq & Hc)%list_elem_of_fmap.
  destruct (known_peers_unique _ (nw_table _ Hwf)) as (_ & _ & Hne).
  rewrite Forall_forall in Hne. apply (Hne c Hc). by rewrite Hself, Heq.
Qed.
End node.
