(* ===== verification/NodeProps.v ===== *)
(** * What the handlers of a DHT node do

    When they panic, what they register and answer, and what a node sees of
    the streams other nodes of this program write. *)

From S2P Require Import Prelude.
From S2P Require Import GoBytes.
From S2P Require Import GoStrings.
From S2P Require Import GoNet.
From S2P Require Import GoSort.
From S2P Require Import Table.
From S2P Require Import TableInv.
From S2P Require Import TableConc.
From S2P Require Import Closest.
From S2P Require Import Node.
From S2P Require Import NodeInv.
Local Open Scope Z_scope.

Lemma is_panic_bind {A B} (r : result A) (f : A -> result B) :
  is_panic (r ≫= f) <-> is_panic r \/ exists a, r = Ok a /\ is_panic (f a).
Proof.
  unfold is_panic. destruct r as [a|p|]; cbn; split.
  - eauto.
  - by intros [[p [=]]|(a' & [= ->] & H)].
  - eauto.
  - intros _. eauto.
  - intros [p [=]].
  - by intros [[p [=]]|(a' & [=] & H)].
Qed.

Lemma is_panic_slice s n : is_panic (slice_to s n) <-> (String.length s < n)%nat.
Proof.
  unfold is_panic, slice_to. case_decide; split; [by intros (?&[=])|lia|lia|eauto].
Qed.

Section handlers.
Context {sort : SliceSort}.

Lemma is_panic_insert t c :
  table_wf t -> is_panic (insert t c) <-> (length (hex_decode c.(c_ID)) < 20)%nat.
Proof.
  intros Hwf. destruct (insert_result t c Hwf) as [[-> H]|(t' & -> & H)].
  - split; [done|]. intros _. by eexists.
  - split; [by intros (p & [=])|lia].
Qed.

Lemma is_panic_closest t targetID n :
  is_panic (closest t targetID n) <->
  (2 <= length (KnownPeers t))%nat /\
  Exists (fun c => (length (hex_decode c.(c_ID)) < length (hex_decode targetID))%nat) (KnownPeers t).
Proof.
  rewrite <- (closest_panics t targetID n). unfold is_panic, closest.
  destruct (bool_decide _ && _); [|case_decide]; (split; [|by eexists]); by intros (p & [=]).
Qed.

Lemma is_panic_notify d contact msg :
  is_panic (notify_registered d contact msg) <->
  d.(d_onPeerDiscovered) = true /\ msg.(m_PublicKey) <> "" /\
  msg.(m_PublicKey) <> d.(d_publicKey) /\ (String.length msg.(m_PublicKey) < 16)%nat.
Proof.
  unfold notify_registered. destruct (_ && _ && _) eqn:Hb.
  - rewrite !andb_true_iff, !bool_decide_eq_true in Hb. destruct Hb as [[Hcb Hne] Hself].
    rewrite is_panic_bind, is_panic_slice. split.
    + intros [Hlt|(s & _ & p & [=])]. done.
    + intros (_ & _ & _ & Hlt). by left.
  - split; [by intros (p & [=])|]. intros (Hcb & Hne & Hself & _).
    by rewrite Hcb, !bool_decide_eq_true_2 in Hb.
Qed.

Lemma notify_NoFuel d contact msg : notify_registered d contact msg <> NoFuel.
Proof.
  unfold notify_registered, slice_to. destruct (_ && _ && _); [case_decide|]; done.
Qed.

(** C33: A FindNode request brings the process down exactly when the sender's identifier is
    short, or a callback is registered and a foreign key is shorter than 16, or the
    target identifier is longer than a known one while two contacts are compared. *)
Theorem handleFindNode_panics_iff d conn msg :
  node_wf d ->
  is_panic (handleFindNode d conn msg) <->
  (length (hex_decode msg.(m_SenderID)) < 20)%nat \/
  (d.(d_onPeerDiscovered) = true /\ msg.(m_PublicKey) <> "" /\
     msg.(m_PublicKey) <> d.(d_publicKey) /\ (String.length msg.(m_PublicKey) < 16)%nat) \/
  (exists t, insert d.(d_table) (sender_contact d conn msg) = Ok t /\
     (2 <= length (KnownPeers t))%nat /\
     Exists (fun c => (length (hex_decode c.(c_ID)) < length (hex_decode msg.(m_TargetID)))%nat)
       (KnownPeers t)).
Proof.
  intros Hwf. unfold handleFindNode.
  rewrite is_panic_bind, is_panic_insert by apply Hwf. cbn [sender_contact c_ID].
  rewrite <- (is_panic_notify d (sender_contact d conn msg) msg).
  setoid_rewrite is_panic_bind. setoid_rewrite is_panic_bind.
  setoid_rewrite <- (is_panic_closest _ msg.(m_TargetID) (Z.to_nat kBucketSize)).
  destruct (insert_result d.(d_table) (sender_contact d conn msg) (nw_table _ Hwf))
    as [[-> Hlt]|(t & -> & Hge)]; [by split; left|].
  split.
  - intros [?|(t' & [= <-] & [?|(evs & _ & [?|(near & _ & p & [=])])])]; eauto 6.
  - intros [?|[?|(t' & [= <-] & Hc)]]; [by left|right; eauto|].
    right. exists t. split; [done|].
    destruct (notify_registered d (sender_contact d conn msg) msg) as [evs|p|] eqn:Hn.
    + right. eauto.
    + left. by exists p.
    + by apply notify_NoFuel in Hn.
Qed.

(** C12: A FindNode request that is answered registers the sender as the abstract insert
    does, fires the discovery callback exactly for a sender with another non-empty key,
    and is answered with the (at most eight) known contacts nearest to the target, in
    order of distance. *)
Theorem handleFindNode_spec `{!SliceSortOk sort} d conn msg d' evs :
  node_wf d -> handleFindNode d conn msg = Ok (d', evs) ->
  let contact := sender_contact d conn msg in
  view d'.(d_table) = abs_insert d.(d_table).(t_selfID) (view d.(d_table)) contact /\
  exists near rest,
    evs = (if d.(d_onPeerDiscovered) && bool_decide (msg.(m_PublicKey) <> "") &&
              bool_decide (msg.(m_PublicKey) <> d.(d_publicKey))
           then [EvPeerDiscovered contact] else []) ++
          [EvWrite conn (encode_fresh
             (mkMsg MsgFindNodeResp (NodeID d.(d_publicKey)) "" near "" "" "" "" "" "" "" 0 0 []))] /\
    near ++ rest ≡ₚ KnownPeers d'.(d_table) /\
    length near = min 8 (length (KnownPeers d'.(d_table))) /\
    StronglySorted (fun a b => xor_key msg.(m_TargetID) a <= xor_key msg.(m_TargetID) b) near /\
    (forall o r, o ∈ near -> r ∈ rest -> xor_key msg.(m_TargetID) o <= xor_key msg.(m_TargetID) r).
Proof.
  intros Hwf H contact. unfold handleFindNode in H. fold contact in H.
  apply bind_ok in H as (t & Hins & H). apply bind_ok in H as (cb & Hcb & H).
  apply bind_ok in H as (near & Hnear & H). injection H as <- <-.
  split; [eapply insert_view; [apply Hwf|done]|].
  apply closest_prefix in Hnear as (Hlen & rest & Hp & Hs & Hr).
  exists near, rest. split_and!; [|done..].
  rewrite (nw_self _ Hwf). f_equal. unfold notify_registered in Hcb.
  destruct (_ && _ && _); [apply bind_ok in Hcb as (? & _ & Hcb)|]; by simplify_eq.
Qed.

(** ** Learning contacts from a response *)

Lemma learn_contact_view d evs c d' evs' :
  node_wf d -> learn_contact (d, evs) c = Ok (d', evs') ->
  view d'.(d_table) =
    (if decide (c.(c_ID) = d.(d_table).(t_selfID)) then view d.(d_table)
     else abs_insert d.(d_table).(t_selfID) (view d.(d_table)) c) /\
  evs' = evs ++
    (if decide (c.(c_ID) <> d.(d_table).(t_selfID) /\ d.(d_onPeerDiscovered) = true /\
                c.(c_PublicKey) <> "") then [EvPeerDiscovered c] else []) /\
  d'.(d_table).(t_selfID) = d.(d_table).(t_selfID) /\
  d'.(d_onPeerDiscovered) = d.(d_onPeerDiscovered).
Proof.
  intros Hwf H. unfold learn_contact in H. case_decide as Hid.
  - simplify_eq. split; [done|]. rewrite decide_False by naive_solver. by rewrite app_nil_r.
  - apply bind_ok in H as (t & Hins & H). apply bind_ok in H as (? & _ & H). injection H as <- <-.
    cbn. split_and!; [eapply insert_view; [apply Hwf|done]| |by eapply insert_selfID|done].
    f_equal. destruct d.(d_onPeerDiscovered); cbn.
    + case_bool_decide; [rewrite decide_True by done|rewrite decide_False by naive_solver]; done.
    + rewrite decide_False by naive_solver. done.
Qed.

(** The contacts of a response a node learns: all but itself. *)
Definition learned (self : string) (cs : list Contact) : list Contact :=
  filter (fun c => c.(c_ID) <> self) cs.

Lemma learn_contacts_view self cb l d acc d' evs :
  node_wf d -> d.(d_table).(t_selfID) = self -> d.(d_onPeerDiscovered) = cb ->
  for_range learn_contact l (d, acc) = Ok (d', evs) ->
  view d'.(d_table) = foldl (abs_insert self) (view d.(d_table)) (learned self l) /\
  evs = acc ++ (EvPeerDiscovered <$>
    filter (fun c => c.(c_ID) <> self /\ cb = true /\ c.(c_PublicKey) <> "") l).
Proof.
  unfold learned. revert d acc.
  induction l as [|c l IH]; intros d acc Hwf Hself Hcb H.
  { injection H as <- <-. by rewrite app_nil_r. }
  cbn [for_range] in H. apply bind_ok in H as ([d1 acc1] & H1 & H).
  pose proof (learn_contact_ok d d acc c d1 acc1) as [Hwf1 _]; [by split|done|].
  destruct (learn_contact_view d acc c d1 acc1) as (V1 & A1 & S1 & C1); [done..|].
  rewrite Hself in V1, A1, S1. rewrite Hcb in A1, C1.
  destruct (IH d1 acc1 Hwf1 S1 C1 H) as [V E]. rewrite E, V, V1, A1. clear. split.
  - destruct (decide (c.(c_ID) = self)) as [Hid|Hid].
    + by rewrite filter_cons_False by tauto.
    + by rewrite filter_cons_True by done.
  - rewrite <- app_assoc. f_equal.
    destruct (decide (c.(c_ID) <> self /\ cb = true /\ c.(c_PublicKey) <> "")) as [Hc|Hc].
    + by rewrite filter_cons_True by done.
    + by rewrite filter_cons_False by done.
Qed.

(** Handling a [FindNodeResp] inserts every contact but the node itself, in order, and fires
    the discovery callback for exactly those with a public key. *)
Theorem handleFindNodeResp_spec d msg d' evs :
  node_wf d -> handleFindNodeResp d msg = Ok (d', evs) ->
  let self := d.(d_table).(t_selfID) in
  view d'.(d_table) = foldl (abs_insert self) (view d.(d_table)) (learned self msg.(m_Contacts)) /\
  evs = EvPeerDiscovered <$>
    filter (fun c => c.(c_ID) <> self /\ d.(d_onPeerDiscovered) = true /\ c.(c_PublicKey) <> "")
      msg.(m_Contacts).
Proof. intros Hwf H self. by eapply learn_contacts_view in H. Qed.

Lemma learn_contact_progress d evs c :
  node_wf d -> (c.(c_ID) <> d.(d_table).(t_selfID) -> 20 <= length (hex_decode c.(c_ID)))%nat ->
  exists d' evs', learn_contact (d, evs) c = Ok (d', evs').
Proof.
  intros Hwf Hid. unfold learn_contact. case_decide as Hself; [eauto|]. specialize (Hid Hself).
  destruct (insert_result d.(d_table) c (nw_table _ Hwf)) as [[_ ?]|(t & -> & _)]; [lia|]. cbn.
  destruct (slice_to_ok c.(c_ID) 8) as (s & ->); [|cbn; eauto].
  pose proof (hex_decode_length c.(c_ID)). lia.
Qed.

(** A response whose contacts have full identifiers is handled without a panic. *)
Theorem handleFindNodeResp_total d msg :
  node_wf d ->
  Forall (fun c => c.(c_ID) <> d.(d_table).(t_selfID) -> (20 <= length (hex_decode c.(c_ID)))%nat)
    msg.(m_Contacts) ->
  exists d' evs, handleFindNodeResp d msg = Ok (d', evs) /\ node_wf d' /\ node_stable d d'.
Proof.
  intros Hwf Hall. unfold handleFindNodeResp.
  destruct (for_range_ok
    (fun s => node_ok d s.1 /\ s.1.(d_table).(t_selfID) = d.(d_table).(t_selfID))
    learn_contact msg.(m_Contacts) (d, [])) as ([d' evs] & H & [Hwf' Hst] & _); [|by split; [split|]|eauto].
  intros [d1 evs1] c Hc [[Hwf1 Hst1] Hself1]. cbn in *. rewrite Forall_forall in Hall.
  destruct (learn_contact_progress d1 evs1 c) as (d2 & evs2 & H2); [done|rewrite Hself1; auto|].
  exists (d2, evs2). split; [done|]. split; [by eapply learn_contact_ok|]. cbn.
  destruct (learn_contact_view d1 evs1 c d2 evs2) as (_ & _ & -> & _); done.
Qed.
End handlers.

(** ** Streams between nodes of this program *)

(** The streams the package itself writes on connections it dials. *)
Inductive dialled_stream : list (frame DhtMessage) -> Prop :=
  | ds_find d targetID contact net : dialled_stream (findNode d targetID contact net)
  | ds_control d contact net err addr fs :
      OpenControl d contact net = (err, [(addr, fs)]) -> dialled_stream fs
  | ds_state d pk state ep net addr fs :
      SendState d pk state ep net = Ok [(addr, fs)] -> dialled_stream fs
  | ds_punch d contact tpk tep id start window ports net err addr fs :
      SendPunchPlan d contact tpk tep id start window ports net = Ok (err, [(OnDial addr, fs)]) ->
      dialled_stream fs.

(** The first message of such a stream, when there is one. *)
Lemma dialled_first fs :
  dialled_stream fs ->
  fs = [] \/ exists m rest, fs = FTypes :: FValue m :: rest /\
    (m.(m_Type) = MsgControlHello \/ m.(m_Type) = MsgReportState \/ m.(m_Type) = MsgPunchPlan).
Proof.
  destruct 1 as [d t c net|d c net err addr fs H|d pk st ep net addr fs H|
                 d c tpk tep id start window ports net err addr fs H].
  - destruct net; cbn; eauto 7.
  - unfold OpenControl in H. case_decide; [done|]. right. destruct net; simplify_eq/=; eauto 7.
  - unfold SendState in H. case_decide; [done|]. right. destruct net; simplify_eq/=; res_inv; eauto 7.
  - unfold SendPunchPlan in H. right.
    destruct (d_controlConns d !! c_PublicKey c); [destruct net; simplify_eq|].
    res_inv. case_decide; [done|]. destruct net; simplify_eq/=; eauto 8.
Qed.

(** No stream that the code itself opens changes the routing table of the node that accepts
    it: [findNode]'s request follows a hello after which the connection is no longer
    read. *)
Theorem own_streams_never_register `{!SliceSort} hub conn fs :
  dialled_stream fs ->
  exists hub' evs,
    handleConn hub conn fs = Ok (hub', evs) /\
    hub'.(d_table) = hub.(d_table) /\
    Forall (fun e => exists m, e = EvPunchPlan m) evs.
Proof.
  intros [->|(m & rest & -> & Hty)]%dialled_first; [by exists hub, []|].
  unfold handleConn. cbn [decode].
  destruct Hty as [Hty|[Hty|Hty]]; rewrite Hty.
  - rewrite decide_True by done. case_decide; eauto.
  - rewrite !decide_False, decide_True by done. unfold handleReportState.
    case_decide as Hl; [|eauto]. destruct Hl as [H1 H2].
    destruct (slice_to_ok _ _ H1) as (s1 & ->), (slice_to_ok _ _ H2) as (s2 & ->). cbn. eauto.
  - rewrite !decide_False, decide_True by done. exists hub, (punch_event hub m).
    split_and!; [done..|]. unfold punch_event. destruct (d_onPunchPlan hub); repeat constructor; eauto.
Qed.

(** The frames a plan puts on a control connection come from an encoder of
    their own. *)
Lemma SendPunchPlan_on_conn d contact tpk tep id start window ports net err conn fs :
  SendPunchPlan d contact tpk tep id start window ports net = Ok (err, [(OnConn conn, fs)]) ->
  d.(d_controlConns) !! contact.(c_PublicKey) = Some conn /\ err = None /\
  fs = encode_fresh (punch_msg d tpk tep id start window ports).
Proof.
  unfold SendPunchPlan. destruct (d_controlConns d !! c_PublicKey contact) as [conn'|] eqn:Hc.
  - destruct net; intros; by simplify_eq.
  - intros H. res_inv. case_decide; [done|]. destruct net; simplify_eq.
Qed.

(** [fs] is what some plan for [contact] puts on the control connection. *)
Definition plan_on_conn (d : DHT) (contact : Contact) (conn : Conn) (fs : list (frame DhtMessage)) : Prop :=
  exists tpk tep id start window ports net err,
    SendPunchPlan d contact tpk tep id start window ports net = Ok (err, [(OnConn conn, fs)]).

(** C32: Of several punch plans sent over one control connection only the first is
    delivered: each is written by a fresh gob encoder, and the reader's decoder fails on
    the repeated type definitions. *)
Theorem only_first_plan_delivered `{!SliceSort} hub contact conn fs rest peer :
  plan_on_conn hub contact conn fs -> Forall (plan_on_conn hub contact conn) rest ->
  control_reader peer (fs ++ concat rest) = control_reader peer fs /\
  findNode_reader peer (fs ++ concat rest) = findNode_reader peer fs /\
  (length (control_reader peer (fs ++ concat rest)) <= 1)%nat.
Proof.
  intros (? & ? & ? & ? & ? & ? & ? & ? & (_ & _ & ->)%SendPunchPlan_on_conn) Hrest.
  set (m := punch_msg _ _ _ _ _ _ _).
  assert (decode_all false (encode_fresh m ++ concat rest) = [m]) as Hd.
  { destruct Hrest as [|fs' rest' H' _]; [done|].
    destruct H' as (? & ? & ? & ? & ? & ? & ? & ? & (_ & _ & ->)%SendPunchPlan_on_conn). done. }
  unfold control_reader, findNode_reader. rewrite Hd. split_and!; [done..|].
  cbn [fmap list_fmap]. rewrite decide_True by done. unfold punch_event.
  destruct (d_onPunchPlan peer); cbn; lia.
Qed.

(** The control endpoint [findNode] announces has the port of the public endpoint where the
    host should be. *)
Theorem control_endpoint_names_port d ip p :
  has_byte "[" ip = false -> has_byte "]" ip = false -> 0 <= p ->
  d.(d_publicEndpoint) = JoinHostPort ip (Itoa p) ->
  SplitHostPort (m_ControlEndpoint (find_msg d d.(d_table).(t_selfID))) =
    Some (Itoa p, Itoa d.(d_listenPort)).
Proof.
  intros Hl Hr Hp Hep. cbn. unfold control_endpoint.
  rewrite Hep, Split_JoinHostPort_Itoa by done.
  destruct (dec_digits_head 19 p "" Hp) as (a & s & v & Hd & _).
  rewrite decide_False.
  - apply Split_JoinHostPort_Itoa; by apply Itoa_bytes.
  - unfold Itoa. rewrite decide_False by lia. by rewrite Hd.
Qed.

(** ** Punch plans that panic *)

Lemma slice_keys_panic ks :
  is_panic (for_range (fun (_ : unit) k => _ ← slice_to k 16; Ok tt) ks tt) <->
  Exists (fun k => (String.length k < 16)%nat) ks.
Proof.
  induction ks as [|k ks IH]; cbn.
  - split; [by intros (p & [=])|by intros ?%Exists_nil].
  - rewrite is_panic_bind, is_panic_bind, is_panic_slice, Exists_cons, <- IH. split.
    + intros [[?|(s & _ & p & [=])]|([] & _ & ?)]; auto.
    + intros [?|?]; [by left; left|].
      destruct (decide (String.length k < 16)%nat); [by left; left|].
      right. exists tt. destruct (slice_to_ok k 16) as (s & ->); [lia|]. done.
Qed.

Lemma slice_keys_NoFuel ks :
  for_range (fun (_ : unit) k => _ ← slice_to k 16; Ok tt) ks tt <> NoFuel.
Proof.
  induction ks as [|k ks IH]; cbn; [done|]. unfold slice_to. case_decide; done.
Qed.

(** Without a control connection to the peer, [SendPunchPlan] panics exactly when a
    connected key is shorter than 16 or the peer's shorter than 32. *)
Theorem SendPunchPlan_panics_iff d contact tpk tep id start window ports net :
  is_panic (SendPunchPlan d contact tpk tep id start window ports net) <->
  d.(d_controlConns) !! contact.(c_PublicKey) = None /\
  (Exists (fun k => (String.length k < 16)%nat) (map_to_list d.(d_controlConns)).*1 \/
   (String.length contact.(c_PublicKey) < 32)%nat).
Proof.
  unfold SendPunchPlan. destruct (d_controlConns d !! c_PublicKey contact) as [conn|].
  { split; [|by intros [[=] _]]. destruct net; by intros (p & [=]). }
  rewrite is_panic_bind, slice_keys_panic. setoid_rewrite is_panic_bind. setoid_rewrite is_panic_slice.
  split.
  - intros [?|(u & _ & [?|(s & _ & Hp)])]; [by auto..|].
    exfalso. destruct Hp as (p & Hp). case_decide; [done|]. by destruct net.
  - intros [_ [?|Hlt]]; [by left|].
    destruct (for_range _ _ tt) as [u|p|] eqn:Hf.
    + right. eauto.
    + left. apply slice_keys_panic. by exists p.
    + by apply slice_keys_NoFuel in Hf.
Qed.

(** ** Bootstrap *)

Lemma bootstrap_seed_progress d out seed net :
  node_wf d -> (20 <= length (hex_decode seed.(c_ID)))%nat ->
  exists d' fs, bootstrap_seed (d, out) (seed, net) = Ok (d', out ++ [(seed.(c_Endpoint), fs)]) /\
    d'.(d_seedContact) = (if decide (d.(d_seedContact).(c_PublicKey) = "") then seed
                          else d.(d_seedContact)) /\
    node_ok d d'.
Proof.
  intros Hwf Hid. assert (exists d' fs,
    bootstrap_seed (d, out) (seed, net) = Ok (d', out ++ [(seed.(c_Endpoint), fs)]) /\
    d'.(d_seedContact) = (if decide (d.(d_seedContact).(c_PublicKey) = "") then seed
                          else d.(d_seedContact))) as (d' & fs & H & Hs).
  { unfold bootstrap_seed.
    destruct (insert_result d.(d_table) seed (nw_table _ Hwf)) as [[_ ?]|(t & -> & _)]; [lia|].
    cbn. case_decide; eexists _, _; done. }
  exists d', fs. split_and!; [done..|].
  apply (Bootstrap_ok d [(seed, net)] d' [(seed.(c_Endpoint), fs)]); [done|].
  unfold Bootstrap. cbn [for_range]. unfold bootstrap_seed in H |- *.
  apply bind_ok in H as (t & -> & H). cbn in H |- *. simplify_eq. done.
Qed.

Lemma Bootstrap_run seeds d out :
  node_wf d -> Forall (fun sn => (20 <= length (hex_decode sn.1.(c_ID)))%nat) seeds ->
  Forall (fun sn => sn.1.(c_PublicKey) <> "") seeds ->
  exists d' out', for_range bootstrap_seed seeds (d, out) = Ok (d', out ++ out') /\
    out'.*1 = (fun sn => sn.1.(c_Endpoint)) <$> seeds /\
    d'.(d_seedContact) = (if decide (d.(d_seedContact).(c_PublicKey) = "")
                          then default d.(d_seedContact) (fst <$> head seeds)
                          else d.(d_seedContact)) /\
    node_ok d d'.
Proof.
  revert d out. induction seeds as [|[seed net] seeds IH]; intros d out Hwf Hid Hpk.
  { exists d, []. rewrite app_nil_r. split_and!; [done..|by case_decide|by split]. }
  apply Forall_cons in Hid as [Hid Hids]. apply Forall_cons in Hpk as [Hpk Hpks]. cbn [fst] in *.
  destruct (bootstrap_seed_progress d out seed net) as (d1 & fs & Hs & Hsc & Hwf1 & Hst1); [done..|].
  destruct (IH d1 (out ++ [(seed.(c_Endpoint), fs)])) as (d' & out' & Hr & Hout & Hsc' & Hwf' & Hst');
    [done..|].
  exists d', ((seed.(c_Endpoint), fs) :: out'). cbn [for_range]. rewrite Hs. cbn [mbind result_bind].
  rewrite Hr, <- app_assoc. split_and!; [done|cbn; by rewrite Hout| |split; [done|by etrans]].
  rewrite Hsc', Hsc. cbn. destruct (decide (d.(d_seedContact).(c_PublicKey) = "")) as [He|He];
    by rewrite decide_False.
Qed.

(** [Bootstrap] contacts every seed in order, remembers the first one and keeps the node
    well formed; [SendState] then reports to that seed. *)
Theorem Bootstrap_spec d seed net seeds :
  node_wf d -> d.(d_seedContact).(c_PublicKey) = "" ->
  Forall (fun sn => (20 <= length (hex_decode sn.1.(c_ID)))%nat) ((seed, net) :: seeds) ->
  Forall (fun sn => sn.1.(c_PublicKey) <> "") ((seed, net) :: seeds) ->
  exists d' out,
    Bootstrap d ((seed, net) :: seeds) = Ok (d', out) /\
    out.*1 = (fun sn => sn.1.(c_Endpoint)) <$> ((seed, net) :: seeds) /\
    d'.(d_seedContact) = seed /\ node_wf d' /\
    (forall pk state ep, exists msg,
       SendState d' pk state ep AllSent = Ok [(seed.(c_Endpoint), encode_fresh msg)] /\
       msg.(m_Type) = MsgReportState /\ msg.(m_SenderID) = NodeID d.(d_publicKey) /\
       msg.(m_TargetID) = NodeID pk /\ msg.(m_State) = state /\ msg.(m_WgEndpoint) = ep).
Proof.
  intros Hwf Hnone Hid Hpk.
  destruct (Bootstrap_run ((seed, net) :: seeds) d []) as (d' & out & Hr & Hout & Hsc & Hwf' & Hst);
    [done..|].
  rewrite decide_True in Hsc by done. cbn in Hsc.
  exists d', out. split_and!; [done..|]. intros pk state ep. unfold SendState.
  apply Forall_cons in Hpk as [Hpk _]. rewrite Hsc, decide_False by done.
  destruct (slice_to_ok (NodeID pk) 8) as (s & ->).
  { destruct (NodeID_is_id pk) as (_ & -> & _). lia. }
  eexists. split; [reflexivity|]. cbn. rewrite (nw_self _ Hwf'), (ns_key _ _ Hst). done.
Qed.
