(* ===== verification/Stun.v ===== *)
(** * The STUN client ([pkg/nat/stun.go])

    Packets are byte slices; reading past the end panics.  The attribute loop
    runs on fuel, one unit per attribute header; the length of the packet is
    enough.  The socket is an argument: what it resolves, whether a write
    succeeds, the datagram a read returns. *)

From S2P Require Import Prelude.
From S2P Require Import GoBytes.
Local Open Scope Z_scope.

Definition defaultStunServer : string := "stun.l.google.com:19302".

Record StunResult := mkStun {
  sr_PublicIP : option (list Z);     (* [None] is a nil [net.IP] *)
  sr_PublicPort : Z;
  sr_NATType : string;
}.

#[export] Instance StunResult_eq_dec : EqDecision StunResult.
Proof. solve_decision. Defined.

Definition buildStunRequest : list Z :=
  [0x00; 0x01; 0x00; 0x00; 0x21; 0x12; 0xA4; 0x42] ++
  ((fun i => wrap8 (Z.of_nat i * 37)) <$> seq 8 12).

(** [data[i]]. *)
Definition byte_at (data : list Z) (i : nat) : result Z :=
  match data !! i with Some b => Ok b | None => Panic IndexOutOfRange end.

Definition be16 (hi lo : Z) : Z := Z.lor (Z.shiftl hi 8) lo.

(** [for j := 0; j < n; j++ { ip[j] = data[i+4+j] ^ data[4+j] }], from [j]. *)
Fixpoint xor_ip (data : list Z) (i : nat) (j n : nat) : result (list Z) :=
  match n with
  | O => Ok []
  | S n =>
      x ← byte_at data (i + 4 + j);
      y ← byte_at data (4 + j);
      ip ← xor_ip data i (S j) n;
      Ok (Z.lxor x y :: ip)
  end.

(** The body of an XOR-MAPPED-ADDRESS attribute whose value is at [i]. *)
Definition parse_xor_mapped (data : list Z) (i : nat) (result : StunResult) : Prelude.result StunResult :=
  family ← byte_at data (i + 1);
  p0 ← byte_at data (i + 2); c0 ← byte_at data 4;
  p1 ← byte_at data (i + 3); c1 ← byte_at data 5;
  let port := be16 (Z.lxor p0 c0) (Z.lxor p1 c1) in
  ip ← (if decide (family = 1) then Some <$> xor_ip data i 0 4
        else if decide (family = 2) then Some <$> xor_ip data i 0 16
        else Ok result.(sr_PublicIP));
  Ok (mkStun ip port "cone").

Fixpoint parse_attrs (fuel : nat) (data : list Z) (i : nat) (r : StunResult) : result StunResult :=
  match fuel with
  | O => NoFuel
  | S fuel =>
      if decide (i + 4 < length data)%nat then
        t0 ← byte_at data i; t1 ← byte_at data (i + 1);
        l0 ← byte_at data (i + 2); l1 ← byte_at data (i + 3);
        let attrType := be16 t0 t1 in
        let attrLen := be16 l0 l1 in
        let i := (i + 4)%nat in
        if decide (Z.of_nat (length data) < Z.of_nat i + attrLen) then Ok r
        else
          r ← (if decide (attrType = 0x0020 /\ 8 <= attrLen) then parse_xor_mapped data i r
               else Ok r);
          parse_attrs fuel data (i + Z.to_nat attrLen) r
      else Ok r
  end.

Definition parseStunResponse (data : list Z) : result StunResult :=
  if decide (length data < 20)%nat then Ok (mkStun None 0 "unknown")
  else parse_attrs (length data) data 20 (mkStun None 0 "unknown").

Inductive stun_error := StunResolve | StunWrite | StunRead.

(** [DiscoverPublic]: [read] is the datagram received, if any; the buffer
    holds 1024 bytes. *)
Definition DiscoverPublic {Addr} (resolve : string -> option Addr)
    (write : Addr -> list Z -> bool) (read : option (list Z)) (stunAddr : string) :
    result (stun_error + StunResult) :=
  let stunAddr := if decide (stunAddr = "") then defaultStunServer else stunAddr in
  match resolve stunAddr with
  | None => Ok (inl StunResolve)
  | Some serverAddr =>
      if negb (write serverAddr buildStunRequest) then Ok (inl StunWrite)
      else match read with
           | None => Ok (inl StunRead)
           | Some datagram => inr <$> parseStunResponse (take 1024 datagram)
           end
  end.

(** [PunchHole]: the packets written before the first error, and whether
    there was one; [write i] tells whether the [i]-th write succeeds. *)
Fixpoint PunchHole (write : nat -> bool) (i count : nat) : nat * bool :=
  match count with
  | O => (i, true)
  | S count => if write i then PunchHole write (S i) count else (i, false)
  end.

Definition PredictEndpoint (currentPort : Z) : Z := wrap64 (currentPort + 2).

(** ** Lemmas *)

Lemma byte_at_ok data i : (i < length data)%nat -> exists b, byte_at data i = Ok b.
Proof.
  intros Hi. unfold byte_at. destruct (lookup_lt_is_Some_2 data i Hi) as (b & ->). eauto.
Qed.

Lemma byte_at_panic data i : (length data <= i)%nat -> byte_at data i = Panic IndexOutOfRange.
Proof. intros Hi. unfold byte_at. by rewrite lookup_ge_None_2. Qed.

Lemma byte_at_drop data i j l : drop i data = l -> byte_at data (i + j) = byte_at l j.
Proof. intros <-. unfold byte_at. by rewrite lookup_drop. Qed.

Lemma byte_at_range data i b : Forall byte_range data -> byte_at data i = Ok b -> byte_range b.
Proof.
  unfold byte_at. intros Hd H. destruct (data !! i) eqn:E; simplify_eq.
  by eapply Forall_lookup_1 in Hd.
Qed.

Lemma be16_value hi lo : byte_range hi -> byte_range lo -> be16 hi lo = hi * 256 + lo.
Proof. unfold byte_range, be16. intros. by rewrite lor_shiftl_add by lia. Qed.

Lemma xor_ip_spec data i j n :
  (20 <= length data)%nat -> (i + 4 + j + n <= length data)%nat -> (4 + j + n <= 20)%nat ->
  exists ip, xor_ip data i j n = Ok ip /\ length ip = n.
Proof.
  revert j. induction n as [|n IH]; intros j H20 Hi Hj; cbn [xor_ip]; [eauto|].
  destruct (byte_at_ok data (i + 4 + j)) as (x & ->); [lia|].
  destruct (byte_at_ok data (4 + j)) as (y & ->); [lia|].
  destruct (IH (S j)) as (ip & -> & Hl); [lia..|]. cbn. eexists. split; [done|]. cbn. by f_equal.
Qed.

Lemma xor_ip_panic data i j n :
  (20 <= length data)%nat -> (length data < i + 4 + j + n)%nat -> (4 + j + n <= 20)%nat ->
  (0 < n)%nat -> xor_ip data i j n = Panic IndexOutOfRange.
Proof.
  revert j. induction n as [|n IH]; intros j H20 Hi Hj Hn; [lia|]. cbn [xor_ip].
  destruct (decide (i + 4 + j < length data)%nat) as [Hx|Hx]; cycle 1.
  { by rewrite (byte_at_panic data (i + 4 + j)) by lia. }
  destruct (byte_at_ok data (i + 4 + j) Hx) as (x & ->).
  destruct (byte_at_ok data (4 + j)) as (y & ->); [lia|]. cbn.
  rewrite IH by lia. done.
Qed.

(** The only out-of-range read: an IPv6 family in an attribute too short for
    sixteen address bytes. *)
Lemma parse_xor_mapped_cases data i r :
  (20 <= length data)%nat -> (i + 8 <= length data)%nat ->
  (exists r', parse_xor_mapped data i r = Ok r') \/
  (parse_xor_mapped data i r = Panic IndexOutOfRange /\ byte_at data (i + 1) = Ok 2 /\
   (length data < i + 20)%nat).
Proof.
  intros H20 Hi. unfold parse_xor_mapped.
  destruct (byte_at_ok data (i + 1)) as (f & Hf); [lia|].
  destruct (byte_at_ok data (i + 2)) as (p0 & Hp0), (byte_at_ok data 4) as (c0 & Hc0),
    (byte_at_ok data (i + 3)) as (p1 & Hp1), (byte_at_ok data 5) as (c1 & Hc1); [lia..|].
  rewrite Hf, Hp0, Hc0, Hp1, Hc1. cbn [mbind result_bind].
  case_decide as H1; [|case_decide as H2; [|eauto]].
  - destruct (xor_ip_spec data i 0 4) as (ip & -> & _); [lia..|]. cbn. eauto.
  - destruct (decide (length data < i + 20)%nat) as [Hs|Hs]; cycle 1.
    { destruct (xor_ip_spec data i 0 16) as (ip & -> & _); [lia..|]. cbn. eauto. }
    right. subst f. rewrite xor_ip_panic by lia. done.
Qed.

(** [attr_at data i v]: the header at [i] announces a mapped address with
    its value at [v], inside the packet. *)
Definition mapped_attr_at (data : list Z) (v : nat) : Prop :=
  exists t0 t1 l0 l1, (24 <= v)%nat /\
    data !! (v - 4)%nat = Some t0 /\ data !! (v - 3)%nat = Some t1 /\
    data !! (v - 2)%nat = Some l0 /\ data !! (v - 1)%nat = Some l1 /\
    be16 t0 t1 = 0x0020 /\ 8 <= be16 l0 l1 /\
    Z.of_nat v + be16 l0 l1 <= Z.of_nat (length data).

Lemma byte_at_Ok data i b : byte_at data i = Ok b <-> data !! i = Some b.
Proof. unfold byte_at. destruct (data !! i); split; congruence. Qed.

(** The loop ends within its fuel, and panics only on a truncated IPv6
    address. *)
Lemma parse_attrs_cases fuel data i r :
  Forall byte_range data -> (20 <= i <= length data)%nat -> (length data < fuel + i)%nat ->
  (exists r', parse_attrs fuel data i r = Ok r') \/
  (parse_attrs fuel data i r = Panic IndexOutOfRange /\
   exists v, mapped_attr_at data v /\ data !! (v + 1)%nat = Some 2 /\ (length data < v + 20)%nat).
Proof.
  intros Hd. revert i r. induction fuel as [|fuel IH]; intros i r Hi Hf; [lia|].
  cbn [parse_attrs]. case_decide as Hlt; [|eauto].
  destruct (byte_at_ok data i) as (t0 & Ht0), (byte_at_ok data (i + 1)) as (t1 & Ht1),
    (byte_at_ok data (i + 2)) as (l0 & Hl0), (byte_at_ok data (i + 3)) as (l1 & Hl1); [lia..|].
  rewrite Ht0, Ht1, Hl0, Hl1. cbn.
  assert (0 <= be16 l0 l1) as Hlen.
  { rewrite be16_value by (by eapply byte_at_range).
    apply byte_at_range in Hl0, Hl1; [|done..]. unfold byte_range in *. lia. }
  case_decide as Hbreak; [eauto|]. case_decide as Hm; cycle 1.
  { cbn. apply IH; lia. }
  destruct Hm as [Hty H8].
  destruct (parse_xor_mapped_cases data (i + 4) r) as [(r' & ->)|(-> & Hfam & Hshort)]; [lia..| |].
  { cbn. apply IH; lia. }
  right. split; [done|]. exists (i + 4)%nat. apply byte_at_Ok in Ht0, Ht1, Hl0, Hl1, Hfam.
  split_and!; [|done|lia]. exists t0, t1, l0, l1.
  replace (i + 4 - 4)%nat with i by lia. replace (i + 4 - 3)%nat with (i + 1)%nat by lia.
  replace (i + 4 - 2)%nat with (i + 2)%nat by lia. replace (i + 4 - 1)%nat with (i + 3)%nat by lia.
  split_and!; (done || lia).
Qed.

Lemma parse_cases data :
  Forall byte_range data ->
  (exists r, parseStunResponse data = Ok r) \/
  (parseStunResponse data = Panic IndexOutOfRange /\
   exists v, mapped_attr_at data v /\ data !! (v + 1)%nat = Some 2 /\ (length data < v + 20)%nat).
Proof.
  intros Hd. unfold parseStunResponse. case_decide; [eauto|]. apply parse_attrs_cases; [done|lia..].
Qed.

(** ** Responses a STUN server sends (RFC 8489) *)

Definition enc_attr (a : Z * list Z) : list Z :=
  let '(t, v) := a in
  [t / 256; t `mod` 256; Z.of_nat (length v) / 256; Z.of_nat (length v) `mod` 256] ++ v.

(** The XOR-MAPPED-ADDRESS value, with the cookie and transaction id of the
    header [hdr]. *)
Definition xor_mapped (hdr : list Z) (family : Z) (ip : list Z) (port : Z) : list Z :=
  [0; family; Z.lxor (port / 256) (nth 4 hdr 0); Z.lxor (port `mod` 256) (nth 5 hdr 0)] ++
  zip_with Z.lxor ip (drop 4 hdr).

(** Values are padded with zeros to a multiple of four bytes; the length
    field does not count the padding. *)
Definition padding (n : nat) : nat := ((4 - n `mod` 4) `mod` 4)%nat.
Definition enc_padded (a : Z * list Z) : list Z := enc_attr a ++ replicate (padding (length a.2)) 0.

(** A response with the mapped address between other attributes. *)
Definition stun_response (hdr : list Z) (pre : list (Z * list Z)) (family : Z) (ip : list Z)
    (port : Z) (post : list (Z * list Z)) : list Z :=
  hdr ++ concat (enc_padded <$> pre) ++ enc_padded (0x0020, xor_mapped hdr family ip port) ++
  concat (enc_padded <$> post).

Lemma be16_split z : 0 <= z < 65536 -> be16 (z / 256) (z `mod` 256) = z.
Proof.
  intros Hz. pose proof (Z.mod_pos_bound z 256 ltac:(lia)). pose proof (Z.div_mod z 256 ltac:(lia)).
  rewrite be16_value; [lia| |done]. unfold byte_range.
  split; [apply Z.div_pos; lia|apply Z.div_lt_upper_bound; lia].
Qed.

(** One turn of the loop, by the bytes at the index. *)
Lemma parse_attrs_header fuel data i r t0 t1 l0 l1 rest :
  drop i data = t0 :: t1 :: l0 :: l1 :: rest -> rest <> [] ->
  parse_attrs (S fuel) data i r =
    if decide (Z.of_nat (length rest) < be16 l0 l1) then Ok r
    else (if decide (be16 t0 t1 = 0x0020 /\ 8 <= be16 l0 l1) then parse_xor_mapped data (i + 4) r else Ok r)
         ≫= parse_attrs fuel data (i + 4 + Z.to_nat (be16 l0 l1)).
Proof.
  intros Hdrop Hne.
  assert (length data = i + 4 + length rest)%nat as Hlen.
  { pose proof (length_drop data i) as Hl. rewrite Hdrop in Hl. cbn in Hl. lia. }
  cbn [parse_attrs]. rewrite decide_True by (destruct rest; cbn in *; [done|lia]).
  rewrite <- (Nat.add_0_r i) at 1. rewrite !(byte_at_drop data i _ _ Hdrop).
  cbn [byte_at lookup list_lookup mbind result_bind].
  destruct (decide (Z.of_nat (length rest) < be16 l0 l1)); [by rewrite decide_True by lia|].
  by rewrite decide_False by lia.
Qed.

(** One turn over an attribute that is really there. *)
Lemma parse_attrs_step fuel data i r t v rest :
  drop i data = enc_attr (t, v) ++ rest -> v ++ rest <> [] ->
  0 <= t < 65536 -> Z.of_nat (length v) < 65536 ->
  parse_attrs (S fuel) data i r =
    (if decide (t = 0x0020 /\ 8 <= Z.of_nat (length v)) then parse_xor_mapped data (i + 4) r else Ok r)
    ≫= parse_attrs fuel data (i + 4 + length v).
Proof.
  intros Hdrop Hne Ht Hv. erewrite parse_attrs_header; [|exact Hdrop|exact Hne].
  rewrite !be16_split by lia. rewrite length_app, decide_False by lia. by rewrite Nat2Z.id.
Qed.

Lemma xor_ip_zip data i j n xs ys r1 r2 :
  drop (i + 4 + j) data = xs ++ r1 -> drop (4 + j) data = ys ++ r2 ->
  length xs = n -> length ys = n -> xor_ip data i j n = Ok (zip_with Z.lxor xs ys).
Proof.
  revert j xs ys. induction n as [|n IH]; intros j [|x xs] [|y ys] Hx Hy; try done.
  intros [= Lx] [= Ly]. cbn [xor_ip].
  rewrite <- (Nat.add_0_r (i + 4 + j)), (byte_at_drop _ _ _ _ Hx).
  rewrite <- (Nat.add_0_r (4 + j)), (byte_at_drop _ _ _ _ Hy). cbn.
  rewrite (IH (S j) xs ys); [done| | |done..].
  - replace (i + 4 + S j)%nat with (i + 4 + j + 1)%nat by lia. rewrite <- drop_drop, Hx. done.
  - replace (4 + S j)%nat with (4 + j + 1)%nat by lia. rewrite <- drop_drop, Hy. done.
Qed.

Lemma zip_lxor_cancel xs ys :
  (length xs <= length ys)%nat -> zip_with Z.lxor (zip_with Z.lxor xs ys) ys = xs.
Proof.
  revert ys. induction xs as [|x xs IH]; intros [|y ys]; cbn; [done|done|lia|].
  intros Hl. rewrite IH by lia. by rewrite Z.lxor_assoc, Z.lxor_nilpotent, Z.lxor_0_r.
Qed.

Lemma zip_with_take xs ys n :
  (length xs <= n)%nat -> zip_with Z.lxor xs (take n ys) = zip_with Z.lxor xs ys.
Proof.
  revert ys n. induction xs as [|x xs IH]; intros [|y ys] [|n]; cbn; try done; [lia|].
  intros Hl. by rewrite IH by lia.
Qed.

(** An address family with its address length. *)
Definition family_len (family : Z) (n : nat) : Prop := family = 1 /\ n = 4%nat \/ family = 2 /\ n = 16%nat.

Lemma xor_ip_response hdr tl data i family ip port rest n :
  length hdr = 20%nat -> data = hdr ++ tl -> drop i data = xor_mapped hdr family ip port ++ rest ->
  length ip = n -> (n <= 16)%nat -> xor_ip data i 0 n = Ok ip.
Proof.
  intros Hh Hdata Hdrop Hip Hn.
  assert (length (drop 4 hdr) = 16%nat) as Hd4 by (rewrite length_drop; lia).
  rewrite (xor_ip_zip data i 0 n (zip_with Z.lxor ip (drop 4 hdr)) (take n (drop 4 hdr)) rest
    (drop n (drop 4 hdr) ++ tl)).
  - f_equal. rewrite <- (zip_with_take ip (drop 4 hdr) n) by lia.
    apply zip_lxor_cancel. rewrite length_take. lia.
  - rewrite Nat.add_0_r, <- drop_drop, Hdrop. done.
  - rewrite Nat.add_0_r, app_assoc, take_drop, Hdata, drop_app_le by lia. done.
  - rewrite length_zip_with. lia.
  - rewrite length_take. lia.
Qed.

Lemma parse_xor_mapped_response hdr tl data i family ip port rest r :
  length hdr = 20%nat -> data = hdr ++ tl -> drop i data = xor_mapped hdr family ip port ++ rest ->
  family_len family (length ip) -> 0 <= port < 65536 ->
  parse_xor_mapped data i r = Ok (mkStun (Some ip) port "cone").
Proof.
  intros Hh Hdata Hdrop Hfam Hport. unfold parse_xor_mapped.
  assert (byte_at data 4 = Ok (nth 4 hdr 0) /\ byte_at data 5 = Ok (nth 5 hdr 0)) as [H4 H5].
  { rewrite Hdata. do 20 (destruct hdr as [|? hdr]; [done|]). done. }
  rewrite !(byte_at_drop data i _ _ Hdrop), H4, H5.
  change (byte_at (xor_mapped hdr family ip port ++ rest) 1) with (Ok (A := Z) family).
  change (byte_at (xor_mapped hdr family ip port ++ rest) 2)
    with (Ok (Z.lxor (port / 256) (nth 4 hdr 0))).
  change (byte_at (xor_mapped hdr family ip port ++ rest) 3)
    with (Ok (Z.lxor (port `mod` 256) (nth 5 hdr 0))).
  cbn [mbind result_bind]. rewrite !Z.lxor_assoc, !Z.lxor_nilpotent, !Z.lxor_0_r, be16_split by done.
  destruct Hfam as [[-> Hn]|[-> Hn]].
  - rewrite decide_True by done. by rewrite (xor_ip_response hdr tl data i 1 ip port rest 4) by (done || lia).
  - rewrite decide_False, decide_True by done.
    by rewrite (xor_ip_response hdr tl data i 2 ip port rest 16) by (done || lia).
Qed.

Lemma enc_attr_length t v : length (enc_attr (t, v)) = (4 + length v)%nat.
Proof. done. Qed.

(** Other attributes that a response may carry, and those that need no
    padding. *)
Definition other_attr (a : Z * list Z) : Prop :=
  0 <= a.1 < 65536 /\ a.1 <> 0x0020 /\ Z.of_nat (length a.2) < 65536.
Definition aligned_attr (a : Z * list Z) : Prop := other_attr a /\ (length a.2 `mod` 4 = 0)%nat.

Lemma enc_padded_aligned a : (length a.2 `mod` 4 = 0)%nat -> enc_padded a = enc_attr a.
Proof. intros H. unfold enc_padded, padding. rewrite H. apply app_nil_r. Qed.

Lemma concat_aligned attrs : Forall aligned_attr attrs -> concat (enc_padded <$> attrs) = concat (enc_attr <$> attrs).
Proof.
  induction 1 as [|a attrs [_ Ha] _ IH]; [done|]. cbn [fmap list_fmap concat].
  change (list_fmap _ _ enc_padded attrs) with (enc_padded <$> attrs). by rewrite IH, enc_padded_aligned.
Qed.

Lemma aligned_other attrs : Forall aligned_attr attrs -> Forall other_attr attrs.
Proof. intros H. eapply Forall_impl; [exact H|]. by intros a [? _]. Qed.

Lemma parse_attrs_skip attrs fuel data i r rest :
  drop i data = concat (enc_attr <$> attrs) ++ rest -> rest <> [] -> Forall other_attr attrs ->
  parse_attrs (length attrs + fuel) data i r =
  parse_attrs fuel data (i + length (concat (enc_attr <$> attrs))) r.
Proof.
  revert i. induction attrs as [|[t v] attrs IH]; intros i Hdrop Hne Hall.
  { cbn. by rewrite Nat.add_0_r. }
  apply Forall_cons in Hall as [(Ht & Hne20 & Hv) Hall].
  rewrite fmap_cons in Hdrop |- *. cbn [concat] in Hdrop |- *. rewrite <- app_assoc in Hdrop.
  cbn [length Nat.add]. erewrite parse_attrs_step; [|exact Hdrop| |done..].
  - rewrite decide_False by (cbn in Hne20; tauto). cbn [mbind result_bind].
    rewrite IH; [|rewrite <- Nat.add_assoc, <- drop_drop, Hdrop|done..].
    + f_equal. rewrite length_app, enc_attr_length. lia.
    + rewrite <- enc_attr_length with (t := t). apply drop_app_length.
  - intros H. apply app_eq_nil in H as [_ H]. apply app_eq_nil in H as [_ H]. done.
Qed.

(** Attributes at the end of the datagram; an empty last one is not seen. *)
Lemma parse_attrs_tail attrs fuel data i r :
  drop i data = concat (enc_attr <$> attrs) -> Forall other_attr attrs -> (length attrs < fuel)%nat ->
  parse_attrs fuel data i r = Ok r.
Proof.
  revert fuel i. induction attrs as [|[t v] attrs IH]; intros [|fuel] i Hdrop Hall Hf; cbn [length] in Hf; try lia.
  - pose proof (length_drop data i) as Hl. rewrite Hdrop in Hl. cbn in Hl.
    cbn [parse_attrs]. by rewrite decide_False by lia.
  - apply Forall_cons in Hall as [(Ht & Hne20 & Hv) Hall].
    rewrite fmap_cons in Hdrop. cbn [concat] in Hdrop.
    destruct (v ++ concat (enc_attr <$> attrs)) eqn:Hrest.
    + apply app_eq_nil in Hrest as [-> Hrest]. rewrite Hrest in Hdrop.
      pose proof (length_drop data i) as Hl. rewrite Hdrop in Hl. cbn in Hl.
      cbn [parse_attrs]. by rewrite decide_False by lia.
    + erewrite parse_attrs_step; [|exact Hdrop|by rewrite Hrest|done..].
      rewrite decide_False by (cbn in Hne20; tauto). cbn [mbind result_bind]. apply IH; [|done|lia].
      rewrite <- Nat.add_assoc, <- drop_drop, Hdrop. rewrite <- enc_attr_length with (t := t). apply drop_app_length.
Qed.

Lemma concat_attrs_length attrs : (length attrs <= length (concat (enc_attr <$> attrs)))%nat.
Proof.
  induction attrs as [|[t v] attrs IH]; [done|]. rewrite fmap_cons. cbn [concat length].
  rewrite length_app, enc_attr_length. lia.
Qed.

Lemma xor_mapped_length hdr family ip port :
  length hdr = 20%nat -> family_len family (length ip) ->
  length (xor_mapped hdr family ip port) = (4 + length ip)%nat.
Proof.
  intros Hh Hfam. unfold xor_mapped. rewrite length_app, length_zip_with, length_drop, Hh.
  destruct Hfam as [[_ ->]|[_ ->]]; cbn; lia.
Qed.

Lemma stun_aligned hdr pre family ip port post :
  length hdr = 20%nat -> Forall aligned_attr pre -> Forall aligned_attr post -> family_len family (length ip) ->
  0 <= port < 65536 ->
  parseStunResponse (stun_response hdr pre family ip port post) = Ok (mkStun (Some ip) port "cone").
Proof.
  intros Hh Hpre Hpost Hfam Hport. unfold parseStunResponse.
  pose proof (xor_mapped_length hdr family ip port Hh Hfam) as Hv. set (v := xor_mapped hdr family ip port) in *.
  set (data := stun_response hdr pre family ip port post).
  assert (data = hdr ++ concat (enc_attr <$> pre) ++ enc_attr (0x0020, v) ++ concat (enc_attr <$> post)) as Hdata.
  { unfold data, stun_response. fold v. rewrite !concat_aligned by done. rewrite (enc_padded_aligned (_, v)); [done|].
    cbn [snd]. rewrite Hv. by destruct Hfam as [[_ ->]|[_ ->]]. }
  pose proof (concat_attrs_length pre) as Hle. pose proof (concat_attrs_length post) as Hle'.
  assert (length data = 20 + (length (concat (enc_attr <$> pre)) + (8 + length ip + length (concat (enc_attr <$> post)))))%nat as Hlen.
  { rewrite Hdata, !length_app, enc_attr_length, Hv, Hh. lia. }
  rewrite decide_False by lia.
  replace (length data) with (length pre + S (length data - length pre - 1))%nat at 1 by lia.
  erewrite parse_attrs_skip; [|rewrite Hdata, <- Hh; apply drop_app_length|done|by apply aligned_other].
  set (i := (20 + length (concat (enc_attr <$> pre)))%nat).
  assert (drop i data = enc_attr (0x0020, v) ++ concat (enc_attr <$> post)) as Hdrop.
  { rewrite Hdata, app_assoc. unfold i. rewrite <- Hh, <- length_app. apply drop_app_length. }
  erewrite parse_attrs_step; [|exact Hdrop| |lia|destruct Hfam as [[_ H]|[_ H]]; lia].
  2: { intros H. apply app_eq_nil in H as [H _]. by rewrite H in Hv. }
  rewrite decide_True by (destruct Hfam as [[_ H]|[_ H]]; lia).
  erewrite (parse_xor_mapped_response hdr _ data (i + 4) family ip port);
    [|done|exact Hdata| |done|done].
  - cbn [mbind result_bind]. apply (parse_attrs_tail post); [|by apply aligned_other|lia].
    rewrite <- Nat.add_assoc, <- drop_drop, Hdrop. rewrite <- enc_attr_length with (t := 0x0020). apply drop_app_length.
  - rewrite <- drop_drop, Hdrop. done.
Qed.

(** The parser takes padding for the next header: it reads a length that
    does not fit and stops. *)
Lemma parse_attrs_padding k fuel data i r x0 x1 x :
  (1 <= k <= 3)%nat -> drop i data = replicate k 0 ++ enc_attr (0x0020, 0 :: x0 :: x1 :: x) ->
  (length x = 5 \/ length x = 17)%nat -> (length data < 2048)%nat ->
  parse_attrs (S (S fuel)) data i r = Ok r.
Proof.
  intros Hk Hdrop Hx Hlen. assert (length data <= i + 27)%nat as Hi.
  { pose proof (length_drop data i) as Hl. rewrite Hdrop, length_app, length_replicate, enc_attr_length in Hl.
    cbn in Hl. lia. }
  assert (exists l, Z.of_nat (length (0 :: x0 :: x1 :: x)) = l /\ (l = 8 \/ l = 20)) as (l & Hl & Hl2).
  { eexists. split; [done|]. cbn. lia. }
  unfold enc_attr in Hdrop. rewrite Hl in Hdrop. assert (l / 256 = 0 /\ l `mod` 256 = l) as [E1 E2] by by destruct Hl2 as [-> | ->].
  rewrite E1, E2 in Hdrop. change (0x0020 / 256) with 0 in Hdrop. change (0x0020 `mod` 256) with 32 in Hdrop.
  assert (k = 1 \/ k = 2 \/ k = 3)%nat as [-> | [-> | ->]] by lia; cbn [replicate app] in Hdrop.
  - erewrite parse_attrs_header; [|exact Hdrop|done]. rewrite decide_True; [done|].
    change (be16 32 0) with 8192. cbn. lia.
  - erewrite parse_attrs_header; [|exact Hdrop|done]. rewrite decide_True; [done|].
    change (be16 0 32) with 32. cbn. lia.
  - erewrite parse_attrs_header; [|exact Hdrop|done]. change (be16 0 0) with 0.
    rewrite decide_False by lia. rewrite decide_False by lia. cbn [mbind result_bind Z.to_nat].
    rewrite Nat.add_0_r. assert (drop (i + 4) data = 32 :: 0 :: l :: 0 :: x0 :: x1 :: x) as Hd2.
    { rewrite <- drop_drop, Hdrop. done. }
    pose proof (length_drop data (i + 4)) as Hl3. rewrite Hd2 in Hl3.
    erewrite parse_attrs_header; [|exact Hd2|done]. rewrite decide_True; [done|].
    destruct Hl2 as [-> | ->]; [change (be16 8 0) with 2048|change (be16 20 0) with 5120]; cbn in *; lia.
Qed.

Lemma stun_padding_lost hdr pre t w family ip port :
  length hdr = 20%nat -> Forall aligned_attr pre -> other_attr (t, w) -> (length w `mod` 4 <> 0)%nat ->
  family_len family (length ip) -> 0 <= port < 65536 ->
  (length (stun_response hdr (pre ++ [(t, w)]) family ip port []) < 2048)%nat ->
  parseStunResponse (stun_response hdr (pre ++ [(t, w)]) family ip port []) = Ok (mkStun None 0 "unknown").
Proof.
  intros Hh Hpre (Ht & Hne20 & Hw) Hpad Hfam Hport Hmax. unfold parseStunResponse. cbn [fst snd] in *.
  pose proof (xor_mapped_length hdr family ip port Hh Hfam) as Hv. set (v := xor_mapped hdr family ip port) in *.
  set (data := stun_response hdr (pre ++ [(t, w)]) family ip port []) in *. set (k := padding (length w)).
  assert (data = hdr ++ concat (enc_attr <$> pre) ++ enc_attr (t, w) ++ replicate k 0 ++ enc_attr (0x0020, v)) as Hdata.
  { unfold data, stun_response. fold v. rewrite fmap_app, concat_app, concat_aligned by done.
    cbn [fmap list_fmap concat]. rewrite !app_nil_r, (enc_padded_aligned (_, v));
      [|cbn [snd]; rewrite Hv; by destruct Hfam as [[_ ->]|[_ ->]]].
    unfold enc_padded. by rewrite <- !app_assoc. }
  pose proof (concat_attrs_length pre) as Hle.
  assert (1 <= k <= 3)%nat as Hk.
  { unfold k, padding. pose proof (Nat.mod_upper_bound (length w) 4 ltac:(lia)).
    rewrite Nat.mod_small by lia. lia. }
  assert (length data = 20 + (length (concat (enc_attr <$> pre)) + (4 + length w + (k + (8 + length ip)))))%nat as Hlen.
  { rewrite Hdata, !length_app, !enc_attr_length, length_replicate, Hv, Hh. lia. }
  rewrite decide_False by lia.
  replace (length data) with (length pre + S (S (S (length data - length pre - 3))))%nat at 1 by lia.
  erewrite parse_attrs_skip; [|rewrite Hdata, <- Hh; apply drop_app_length|done|by apply aligned_other].
  set (i := (20 + length (concat (enc_attr <$> pre)))%nat).
  assert (drop i data = enc_attr (t, w) ++ replicate k 0 ++ enc_attr (0x0020, v)) as Hdrop.
  { rewrite Hdata, app_assoc. unfold i. rewrite <- Hh, <- length_app. apply drop_app_length. }
  erewrite parse_attrs_step; [|exact Hdrop| |done..].
  2: { intros H. apply app_eq_nil in H as [_ H]. apply app_eq_nil in H as [_ H]. done. }
  rewrite decide_False by tauto. cbn [mbind result_bind].
  assert (drop (i + 4 + length w) data = replicate k 0 ++ enc_attr (0x0020, v)) as Hd2.
  { rewrite <- Nat.add_assoc, <- drop_drop, Hdrop. rewrite <- enc_attr_length with (t := t). apply drop_app_length. }
  unfold v, xor_mapped in Hd2. cbn [app] in Hd2. eapply parse_attrs_padding; [exact Hk|exact Hd2| |done].
  cbn [length app] in *. unfold v, xor_mapped in Hv. cbn [length app] in Hv. destruct Hfam as [[_ E]|[_ E]]; rewrite E in Hv; lia.
Qed.


(** An IPv6 address attribute of 8 to 19 bytes at the end of a datagram makes the parser
    panic. *)
Theorem stun_short_ipv6_panics hdr v :
  length hdr = 20%nat -> (8 <= length v < 20)%nat -> v !! 1%nat = Some 2 ->
  parseStunResponse (hdr ++ enc_attr (0x0020, v)) = Panic IndexOutOfRange.
Proof.
  intros Hh Hv Hfam. unfold parseStunResponse.
  set (data := hdr ++ enc_attr (0x0020, v)).
  assert (length data = 24 + length v)%nat as Hlen
    by (unfold data; rewrite length_app, enc_attr_length; lia).
  assert (drop 20 data = enc_attr (0x0020, v) ++ []) as Hdrop.
  { rewrite app_nil_r. unfold data. rewrite <- Hh. apply drop_app_length. }
  rewrite decide_False by lia. rewrite Hlen. change (24 + length v)%nat with (S (23 + length v)).
  erewrite parse_attrs_step; [|exact Hdrop| |lia..].
  2: { intros H. apply app_eq_nil in H as [-> _]. cbn in Hv. lia. }
  rewrite decide_True by lia.
  assert (byte_at data (24 + 1) = Ok 2) as Hf.
  { apply byte_at_Ok. replace (24 + 1)%nat with (20 + 5)%nat by lia.
    rewrite <- lookup_drop, Hdrop, app_nil_r. done. }
  unfold parse_xor_mapped. change (20 + 4)%nat with 24%nat.
  destruct (byte_at_ok data (24 + 2)) as (p0 & Hp0), (byte_at_ok data 4) as (c0 & Hc0),
    (byte_at_ok data (24 + 3)) as (p1 & Hp1), (byte_at_ok data 5) as (c1 & Hc1); [lia..|].
  rewrite Hf, Hp0, Hc0, Hp1, Hc1. cbn [mbind result_bind].
  rewrite decide_False, decide_True by done. by rewrite xor_ip_panic by lia.
Qed.

(** A result holds a port, and an address of four or sixteen bytes if any. *)
Definition stun_ok (r : StunResult) : Prop :=
  0 <= r.(sr_PublicPort) < 65536 /\
  (forall ip, r.(sr_PublicIP) = Some ip -> length ip = 4%nat \/ length ip = 16%nat).

Lemma xor_ip_length data i j n ip : xor_ip data i j n = Ok ip -> length ip = n.
Proof.
  revert j ip. induction n as [|n IH]; intros j ip H; cbn [xor_ip] in H; res_inv; [done|].
  f_equal. eauto.
Qed.

Lemma parse_xor_mapped_shape data i r r' :
  Forall byte_range data -> stun_ok r -> parse_xor_mapped data i r = Ok r' -> stun_ok r'.
Proof.
  intros Hd [_ Hip] H. unfold parse_xor_mapped in H.
  apply bind_ok in H as (f & _ & H). apply bind_ok in H as (p0 & Hp0 & H).
  apply bind_ok in H as (c0 & Hc0 & H). apply bind_ok in H as (p1 & Hp1 & H).
  apply bind_ok in H as (c1 & Hc1 & H). apply bind_ok in H as (ip & Hi & H). simplify_eq.
  apply byte_at_range in Hp0, Hc0, Hp1, Hc1; [|done..]. split; cbn.
  - pose proof (lxor_bound p0 c0 8 ltac:(lia) Hp0 Hc0) as B0.
    pose proof (lxor_bound p1 c1 8 ltac:(lia) Hp1 Hc1) as B1.
    rewrite be16_value by done. unfold byte_range in *. lia.
  - intros ip' ->. repeat case_decide.
    + destruct (xor_ip data i 0 4) eqn:E; [|done..].
      injection Hi as <-. left. apply (xor_ip_length _ _ _ _ _ E).
    + destruct (xor_ip data i 0 16) eqn:E; [|done..].
      injection Hi as <-. right. apply (xor_ip_length _ _ _ _ _ E).
    + injection Hi as Hi. auto.
Qed.

Lemma parse_attrs_shape fuel data i r r' :
  Forall byte_range data -> stun_ok r -> parse_attrs fuel data i r = Ok r' -> stun_ok r'.
Proof.
  intros Hd. revert i r. induction fuel as [|fuel IH]; intros i r Hr H; [done|].
  cbn [parse_attrs] in H. case_decide; [|by simplify_eq].
  do 4 apply bind_ok in H as (? & _ & H). case_decide; [by simplify_eq|].
  apply bind_ok in H as (r1 & Hr1 & H). eapply IH; [|exact H].
  case_decide; [|by simplify_eq]. eapply parse_xor_mapped_shape; [exact Hd|exact Hr|exact Hr1].
Qed.

Lemma parse_shape data r :
  Forall byte_range data -> parseStunResponse data = Ok r -> stun_ok r.
Proof.
  intros Hd H. unfold parseStunResponse in H.
  assert (stun_ok (mkStun None 0 "unknown")) as H0 by (split; cbn; [lia|done]).
  case_decide; [by simplify_eq|]. by eapply parse_attrs_shape.
Qed.

(** The request is a well-formed STUN binding request header. *)
Theorem stun_request_header :
  length buildStunRequest = 20%nat /\ Forall byte_range buildStunRequest /\
  be16 (nth 0 buildStunRequest 0) (nth 1 buildStunRequest 0) = 0x0001 /\
  be16 (nth 2 buildStunRequest 0) (nth 3 buildStunRequest 0) =
    Z.of_nat (length buildStunRequest) - 20 /\
  be_value (take 4 (drop 4 buildStunRequest)) = 0x2112A442.
Proof.
  split_and!; [done| |done..].
  repeat (constructor; [unfold byte_range; vm_compute; split; congruence|]). constructor.
Qed.

(** C36: Parsing any datagram ends, with a port below 65536 and an address of 4 or 16 bytes
    if any, unless the datagram ends inside an IPv6 address attribute, when it panics. *)
Theorem stun_parse_total data :
  Forall byte_range data ->
  (exists r, parseStunResponse data = Ok r /\ stun_ok r) \/
  (parseStunResponse data = Panic IndexOutOfRange /\
   exists v, mapped_attr_at data v /\ data !! (v + 1)%nat = Some 2 /\ (length data < v + 20)%nat).
Proof.
  intros Hd. destruct (parse_cases data Hd) as [(r & Hr)|?]; [left|by right].
  exists r. split; [done|]. by eapply parse_shape.
Qed.
