(* ===== verification/Predict.v ===== *)
(** * Symmetric NAT port prediction ([pkg/nat/predict.go])

    [PortPredictor] samples the external ports a NAT assigns and, when they
    advance by a constant step, predicts the next one.  [int] arithmetic is
    64-bit. *)

From S2P Require Import Prelude.
From S2P Require Import GoBytes.
From S2P Require Import GoStrings.
From S2P Require Import Stun.
Local Open Scope Z_scope.

Record PortPredictor := mkPredictor {
  pp_stunAddrs : list string;
  pp_conn : bool;               (* the probe socket is not nil *)
  pp_samples : list Z;
  pp_step : Z;
  pp_probeIdx : Z;
  pp_lastProbe : Z;
}.

#[export] Instance PortPredictor_eq_dec : EqDecision PortPredictor.
Proof. solve_decision. Defined.

(** ** Address lists *)

Definition is_list_sep (r : Z) : bool := bool_decide (r = 44) || bool_decide (r = 32).

(** The body of the rune loop of [splitList]: the output so far and [cur]. *)
Definition split_list_step (s : list (list ascii) * list ascii) (c : Z * list ascii) :
    list (list ascii) * list ascii :=
  let '(out, cur) := s in
  if is_list_sep c.1 then
    if decide (cur = []) then (out, cur) else (out ++ [cur], [])
  else (out, cur ++ rune_string c).

Definition splitList (s : string) : list string :=
  let '(out, cur) := foldl split_list_step ([], []) (runes (chars s)) in
  of_chars <$> (if decide (cur = []) then out else out ++ [cur]).

Definition NewPortPredictor (stunAddrs : string) (conn : bool) : PortPredictor :=
  let addrs := filter (fun s => s <> "") (splitList stunAddrs) in
  let addrs := if decide (addrs = []) then [defaultStunServer] else addrs in
  mkPredictor addrs conn [] 0 0 0.

(** ** Probing *)

Inductive probe_error := ProbeNilConn | ProbeResolve | ProbeWrite | ProbeRead | ProbeNoPort.

(** [p.stunAddrs[p.probeIdx%len(p.stunAddrs)]]; Go's remainder truncates, so
    a negative index panics. *)
Definition next_target (p : PortPredictor) : result string :=
  let n := Z.of_nat (length p.(pp_stunAddrs)) in
  let i := Z.rem p.(pp_probeIdx) n in
  if decide (n = 0 \/ i < 0) then Panic IndexOutOfRange
  else match p.(pp_stunAddrs) !! Z.to_nat i with
       | Some addr => Ok addr
       | None => Panic IndexOutOfRange
       end.

Definition advance (p : PortPredictor) : PortPredictor :=
  mkPredictor p.(pp_stunAddrs) p.(pp_conn) p.(pp_samples) p.(pp_step)
    (wrap64 (p.(pp_probeIdx) + 1)) p.(pp_lastProbe).

Definition record_sample (p : PortPredictor) (port now : Z) : PortPredictor :=
  mkPredictor p.(pp_stunAddrs) p.(pp_conn) (p.(pp_samples) ++ [port]) p.(pp_step)
    p.(pp_probeIdx) now.

(** [Probe]; the socket and the clock are arguments. *)
Definition Probe {Addr} (resolve : string -> option Addr) (write : Addr -> list Z -> bool)
    (read : option (list Z)) (now : Z) (p : PortPredictor) :
    result (PortPredictor * option probe_error) :=
  if negb p.(pp_conn) then Ok (p, Some ProbeNilConn)
  else
    addr ← next_target p;
    let p := advance p in
    match resolve addr with
    | None => Ok (p, Some ProbeResolve)
    | Some serverAddr =>
        if negb (write serverAddr buildStunRequest) then Ok (p, Some ProbeWrite)
        else match read with
             | None => Ok (p, Some ProbeRead)
             | Some datagram =>
                 res ← parseStunResponse (take 1024 datagram);
                 if decide (res.(sr_PublicPort) = 0) then Ok (p, Some ProbeNoPort)
                 else Ok (record_sample p res.(sr_PublicPort) now, None)
             end
    end.

(** ** Analysis and prediction *)

Definition set_step (p : PortPredictor) (step : Z) : PortPredictor :=
  mkPredictor p.(pp_stunAddrs) p.(pp_conn) p.(pp_samples) step p.(pp_probeIdx) p.(pp_lastProbe).

(** The loop over [i >= 2]: every delta equals the first. *)
Fixpoint stable_from (delta prev : Z) (rest : list Z) : bool :=
  match rest with
  | [] => true
  | x :: rest => if decide (wrap64 (x - prev) = delta) then stable_from delta x rest else false
  end.

Definition Analyze (p : PortPredictor) : PortPredictor * bool :=
  match p.(pp_samples) with
  | s0 :: s1 :: rest =>
      let firstDelta := wrap64 (s1 - s0) in
      if negb (stable_from firstDelta s1 rest) || bool_decide (firstDelta = 0)
      then (set_step p 0, false)
      else (set_step p firstDelta, true)
  | _ => (set_step p 0, false)
  end.

Definition in_port_range (next : Z) : Z := if decide (next > 65535 \/ next < 1024) then 0 else next.

Definition Predict (p : PortPredictor) : Z :=
  match last p.(pp_samples) with
  | Some s => if decide (p.(pp_step) = 0) then 0 else in_port_range (wrap64 (s + p.(pp_step)))
  | None => 0
  end.

Definition PredictForTarget (p : PortPredictor) (offset : Z) : Z :=
  match last p.(pp_samples) with
  | Some s => if decide (p.(pp_step) = 0) then 0
              else in_port_range (wrap64 (s + wrap64 (p.(pp_step) * offset)))
  | None => 0
  end.

Definition Reset (p : PortPredictor) : PortPredictor :=
  mkPredictor p.(pp_stunAddrs) p.(pp_conn) [] 0 p.(pp_probeIdx) p.(pp_lastProbe).

Definition LastSample (p : PortPredictor) : Z := default 0 (last p.(pp_samples)).
Definition Predictable (p : PortPredictor) : bool := bool_decide (p.(pp_step) <> 0).
Definition Step (p : PortPredictor) : Z := p.(pp_step).

(** The cases of [predict_test.go]. *)
Definition with_samples (l : list Z) : PortPredictor :=
  mkPredictor ["stun.a:3478"; "stun.b:3478"] true l 0 0 0.

Example analyze_sequential :
  let (p, ok) := Analyze (with_samples [40000; 40002; 40004]) in
  ok = true /\ Step p = 2 /\ Predict p = 40006 /\ PredictForTarget p 1 = 40006 /\
  PredictForTarget p 2 = 40008.
Proof. vm_compute. done. Qed.
Example analyze_unstable :
  let (p, ok) := Analyze (with_samples [40000; 40002; 40005]) in
  ok = false /\ Predictable p = false /\ Predict p = 0.
Proof. vm_compute. done. Qed.
Example analyze_cone : snd (Analyze (with_samples [40000; 40000; 40000])) = false.
Proof. vm_compute. done. Qed.
Example predict_out_of_range :
  let (p, ok) := Analyze (with_samples [65534; 65535]) in ok = true /\ Predict p = 0.
Proof. vm_compute. done. Qed.
Example split_list_example : splitList "a:1, b:2 ,c:3" = ["a:1"; "b:2"; "c:3"] /\ splitList "" = [].
Proof. vm_compute. done. Qed.

(** ** Lemmas *)

Definition is_port (z : Z) : Prop := 1 <= z <= 65535.

(** What a NAT that allocates sequentially hands out: [n] ports from [base]. *)
Fixpoint progression (base step : Z) (n : nat) : list Z :=
  match n with
  | O => []
  | S n => base :: progression (base + step) step n
  end.

Lemma progression_length base step n : length (progression base step n) = n.
Proof. revert base. induction n as [|n IH]; intros base; cbn; [done|]. by rewrite IH. Qed.

Lemma progression_last base step n :
  last (progression base step (S n)) = Some (base + step * Z.of_nat n).
Proof.
  revert base. induction n as [|n IH]; intros base; [cbn; f_equal; lia|].
  change (progression base step (S (S n))) with (base :: progression (base + step) step (S n)).
  rewrite last_cons, IH. f_equal. lia.
Qed.

Lemma wrap64_sub_ports x y : is_port x -> is_port y -> wrap64 (x - y) = x - y.
Proof.
  unfold is_port. intros. apply wrap64_id. unfold int64_range, min_int64, max_int64. lia.
Qed.

Lemma stable_from_spec delta prev rest :
  is_port prev -> Forall is_port rest ->
  stable_from delta prev rest = true <-> rest = progression (prev + delta) delta (length rest).
Proof.
  intros Hprev Hrest. revert prev Hprev. induction Hrest as [|x rest Hx Hrest IH]; intros prev Hprev;
    cbn [stable_from progression length]; [done|].
  rewrite wrap64_sub_ports by done. case_decide as Hd.
  - rewrite IH by done. replace (prev + delta) with x by lia. split; [by intros <-|by intros [= ?]].
  - split; [done|]. intros [= -> _]. lia.
Qed.

(** The samples advance by a constant step, not zero. *)
Definition sequential (l : list Z) (step : Z) : Prop :=
  step <> 0 /\ (2 <= length l)%nat /\ exists base, l = progression base step (length l).

(** [Analyze] recognises exactly the sequential samples. *)
Lemma Analyze_cases p p' ok :
  Forall is_port p.(pp_samples) -> Analyze p = (p', ok) ->
  (ok = true <-> exists step, sequential p.(pp_samples) step) /\
  (ok = true -> sequential p.(pp_samples) p'.(pp_step)) /\
  (ok = false -> p'.(pp_step) = 0) /\
  p'.(pp_samples) = p.(pp_samples) /\ p'.(pp_stunAddrs) = p.(pp_stunAddrs).
Proof.
  intros Hp H. unfold Analyze in H. destruct p.(pp_samples) as [|s0 [|s1 rest]] eqn:Hs.
  1-2: simplify_eq; cbn; rewrite Hs; split_and!; [|done..];
    split; [done|intros (d & _ & Hl & _); cbn in Hl; lia].
  apply Forall_cons in Hp as [H0 Hp]. apply Forall_cons in Hp as [H1 Hp].
  rewrite wrap64_sub_ports in H by done.
  pose proof (stable_from_spec (s1 - s0) s1 rest H1 Hp) as Hst.
  assert (forall d, sequential (s0 :: s1 :: rest) d <->
    d = s1 - s0 /\ d <> 0 /\ stable_from (s1 - s0) s1 rest = true) as Hseq.
  { intros d. rewrite Hst. unfold sequential. cbn [length progression]. split.
    - intros (Hd & _ & base & [= -> -> Hr]). replace (base + d - base) with d by lia. done.
    - intros (-> & Hd & Hr). split_and!; [done|lia|]. exists s0.
      replace (s0 + (s1 - s0)) with s1 by lia. by rewrite <- Hr. }
  destruct (stable_from (s1 - s0) s1 rest); cbn [negb orb] in H; [case_bool_decide as Hz|];
    simplify_eq; cbn [set_step pp_step pp_samples pp_stunAddrs]; rewrite Hs; split_and!; try done.
  - split; [done|]. intros (d & (-> & Hd & _)%Hseq). done.
  - split; [|done]. intros _. exists (s1 - s0). by rewrite Hseq.
  - intros _. by rewrite Hseq.
  - split; [done|]. by intros (d & (_ & _ & ?)%Hseq).
Qed.

Lemma in_port_range_spec z : in_port_range z = 0 \/ 1024 <= in_port_range z <= 65535.
Proof. unfold in_port_range. case_decide; [by left|right; lia]. Qed.

(** A prediction is 0 or a port between 1024 and 65535. *)
Theorem predict_range p offset :
  (Predict p = 0 \/ 1024 <= Predict p <= 65535) /\
  (PredictForTarget p offset = 0 \/ 1024 <= PredictForTarget p offset <= 65535).
Proof.
  unfold Predict, PredictForTarget.
  destruct (last p.(pp_samples)); [|auto]. case_decide; [auto|].
  split; apply in_port_range_spec.
Qed.

(** C28: Analyze succeeds exactly when the samples form an arithmetic progression with a
    non-zero step, and then stores that step; when it fails nothing is predicted;
    samples are kept. *)
Theorem Analyze_spec p p' ok :
  Forall is_port p.(pp_samples) -> Analyze p = (p', ok) ->
  (ok = true <-> exists step, sequential p.(pp_samples) step) /\
  (ok = true -> sequential p.(pp_samples) p'.(pp_step)) /\
  (ok = false -> Predict p' = 0 /\ forall offset, PredictForTarget p' offset = 0) /\
  p'.(pp_samples) = p.(pp_samples).
Proof.
  intros Hp H. destruct (Analyze_cases p p' ok Hp H) as (H1 & H2 & H3 & H4 & _).
  split_and!; [done..| |done]. intros Hz%H3. unfold Predict, PredictForTarget. rewrite Hz.
  destruct (last p'.(pp_samples)); done.
Qed.

Lemma progression_step base step step' n :
  progression base step (S (S n)) = progression base step' (S (S n)) -> step = step'.
Proof. cbn. intros [=]. lia. Qed.

Lemma Analyze_progression p base step n :
  p.(pp_samples) = progression base step (S (S n)) -> Forall is_port p.(pp_samples) -> step <> 0 ->
  Analyze p = (set_step p step, true).
Proof.
  intros Hs Hp Hstep. unfold Analyze. rewrite Hs in Hp |- *. cbn [progression] in Hp |- *.
  apply Forall_cons in Hp as [H0 Hp]. apply Forall_cons in Hp as [H1 Hp].
  rewrite wrap64_sub_ports by done. replace (base + step - base) with step by lia.
  assert (stable_from step (base + step) (progression (base + step + step) step n) = true) as ->.
  { apply stable_from_spec; [done..|]. by rewrite progression_length. }
  by rewrite bool_decide_eq_false_2.
Qed.

(** On the samples of a NAT that allocates sequentially, Predict returns the next port of
    the progression and PredictForTarget the one offset steps after the last sample, or
    0 outside 1024..65535. *)
Theorem predict_sequential p base step n offset :
  p.(pp_samples) = progression base step (S (S n)) -> Forall is_port p.(pp_samples) ->
  step <> 0 -> - 2 ^ 40 <= offset <= 2 ^ 40 ->
  let p' := fst (Analyze p) in
  Predict p' = in_port_range (base + step * Z.of_nat (S (S n))) /\
  PredictForTarget p' offset = in_port_range (base + step * (Z.of_nat (S n) + offset)).
Proof.
  intros Hs Hp Hstep Hoff. erewrite Analyze_progression by done. cbn [fst].
  unfold Predict, PredictForTarget. cbn [set_step pp_samples pp_step].
  assert (is_port (base + step * Z.of_nat (S n))) as Hlast.
  { rewrite Forall_forall in Hp. apply Hp, last_Some_elem_of. rewrite Hs. apply progression_last. }
  assert (-65535 < step < 65535) as Hsb.
  { rewrite Hs in Hp. cbn in Hp. apply Forall_cons in Hp as [H0 Hp].
    apply Forall_cons in Hp as [H1 _]. unfold is_port in *. lia. }
  rewrite Hs, progression_last, !decide_False by done. unfold is_port in Hlast.
  split; f_equal.
  - rewrite wrap64_id by (unfold int64_range, min_int64, max_int64; lia). lia.
  - assert (Z.abs (step * offset) <= 65535 * 2 ^ 40) as Hb.
    { rewrite Z.abs_mul. apply Z.mul_le_mono_nonneg; lia. }
    rewrite (wrap64_id (step * offset)) by (unfold int64_range, min_int64, max_int64; lia).
    rewrite Z.mul_add_distr_l, Z.add_assoc.
    apply wrap64_id. revert Hlast Hb.
    generalize (step * offset), (base + step * Z.of_nat (S n)). intros x y.
    unfold int64_range, min_int64, max_int64. lia.
Qed.

(** ** Probing *)

Record pred_wf (p : PortPredictor) : Prop := {
  pw_addrs : p.(pp_stunAddrs) <> [];
  pw_idx : 0 <= p.(pp_probeIdx) <= max_int64;
  pw_samples : Forall is_port p.(pp_samples);
}.

Lemma NewPortPredictor_wf addrs conn : pred_wf (NewPortPredictor addrs conn).
Proof.
  unfold NewPortPredictor. split; cbn [pp_stunAddrs pp_probeIdx pp_samples].
  - by case_decide.
  - by vm_compute.
  - constructor.
Qed.

Lemma next_target_rotates p :
  pred_wf p ->
  exists addr, next_target p = Ok addr /\
    p.(pp_stunAddrs) !! (Z.to_nat (p.(pp_probeIdx) `mod` Z.of_nat (length p.(pp_stunAddrs)))) = Some addr.
Proof.
  intros [Ha Hi _]. unfold next_target. set (n := Z.of_nat (length p.(pp_stunAddrs))).
  assert (0 < n) as Hn. { unfold n. destruct p.(pp_stunAddrs); [done|cbn; lia]. }
  rewrite Z.rem_mod_nonneg by lia. pose proof (Z.mod_pos_bound p.(pp_probeIdx) n Hn).
  rewrite decide_False by lia.
  destruct (lookup_lt_is_Some_2 p.(pp_stunAddrs) (Z.to_nat (p.(pp_probeIdx) `mod` n))) as (addr & Haddr).
  { unfold n in *. lia. }
  rewrite Haddr. eauto.
Qed.

(** A probe either panics in the STUN parser or keeps the predictor well formed: it appends
    exactly one valid port on success, keeps the samples on every error, and advances to
    the next target. *)
Theorem Probe_spec {Addr} (resolve : string -> option Addr) write read now p :
  pred_wf p -> p.(pp_probeIdx) < max_int64 ->
  (forall d, read = Some d -> Forall byte_range d) ->
  (exists d, read = Some d /\ parseStunResponse (take 1024 d) = Panic IndexOutOfRange /\
     Probe resolve write read now p = Panic IndexOutOfRange) \/
  (exists p' err, Probe resolve write read now p = Ok (p', err) /\ pred_wf p' /\
     p'.(pp_stunAddrs) = p.(pp_stunAddrs) /\ p'.(pp_step) = p.(pp_step) /\
     (err = None -> exists port, is_port port /\ p'.(pp_samples) = p.(pp_samples) ++ [port]) /\
     (err <> None -> p'.(pp_samples) = p.(pp_samples)) /\
     p'.(pp_probeIdx) = if p.(pp_conn) then p.(pp_probeIdx) + 1 else p.(pp_probeIdx)).
Proof.
  intros Hwf Hidx Hread. unfold Probe. destruct (p.(pp_conn)) eqn:Hconn; cbn [negb].
  2: { right. eexists _, _. by split_and!. }
  destruct (next_target_rotates p Hwf) as (addr & -> & _). cbn [mbind result_bind].
  assert (pp_probeIdx (advance p) = p.(pp_probeIdx) + 1) as Hadv.
  { cbn. destruct Hwf as [_ Hi _]. apply wrap64_id.
    unfold int64_range, min_int64, max_int64 in *. lia. }
  assert (pred_wf (advance p)) as Hwf'.
  { destruct Hwf as [Ha Hi Hs]. split; [done|rewrite Hadv; lia|done]. }
  assert (forall err : option probe_error, err <> None -> exists p' err', Ok (advance p, err) = Ok (p', err') /\ pred_wf p' /\
     p'.(pp_stunAddrs) = p.(pp_stunAddrs) /\ p'.(pp_step) = p.(pp_step) /\
     (err' = None -> exists port, is_port port /\ p'.(pp_samples) = p.(pp_samples) ++ [port]) /\
     (err' <> None -> p'.(pp_samples) = p.(pp_samples)) /\
     p'.(pp_probeIdx) = p.(pp_probeIdx) + 1) as Herr.
  { intros err Hne. eexists _, _. by split_and!. }
  destruct (resolve addr) as [sa|]; [|right; by apply Herr].
  destruct (write sa buildStunRequest); cbn [negb]; [|right; by apply Herr].
  destruct read as [d|]; [|right; by apply Herr].
  assert (Forall byte_range (take 1024 d)) as Hd by (apply Forall_take; by apply Hread).
  destruct (parse_cases (take 1024 d) Hd) as [(r & Hr)|[Hr _]]; rewrite Hr; cbn [mbind result_bind].
  2: { left. eauto. }
  right. case_decide as Hport; [by apply Herr|].
  destruct (parse_shape _ _ Hd Hr) as [Hrange _].
  assert (is_port r.(sr_PublicPort)) as Hp by (unfold is_port; lia).
  eexists _, _. split_and!; [done| |done..|eauto|done|done].
  destruct Hwf' as [Ha Hi Hs]. split; [done|done|]. cbn. by apply Forall_app_2; [|constructor].
Qed.
