(* ===== verification/MeshState.v ===== *)
(** * The peer registry ([pkg/mesh/state.go])

    [State.peers] maps a public key to a pointer; [GetPeer], [Peers] and
    [ConnectedPeers] hand these pointers out, so the records live in a heap
    that callers share.  Iteration over a Go map has no fixed order: the
    operations that range over the map take the order as an argument. *)

From S2P Require Import Prelude.

Record PeerState := mkPeer {
  ps_PublicKey : string;
  ps_VirtualIP : string;
  ps_Endpoints : list string;
  ps_LastSeen : Z;
  ps_Latency : Z;
  ps_IsConnected : bool;
  ps_SoftwareVer : string;
}.

#[export] Instance PeerState_eq_dec : EqDecision PeerState.
Proof. solve_decision. Defined.

Definition zero_peer (pk : string) : PeerState := mkPeer pk "" [] 0 0 false "".

Definition seen_at (now : Z) (p : PeerState) : PeerState :=
  mkPeer p.(ps_PublicKey) p.(ps_VirtualIP) p.(ps_Endpoints) now p.(ps_Latency)
    p.(ps_IsConnected) p.(ps_SoftwareVer).

Definition set_connected (b : bool) (p : PeerState) : PeerState :=
  mkPeer p.(ps_PublicKey) p.(ps_VirtualIP) p.(ps_Endpoints) p.(ps_LastSeen) p.(ps_Latency)
    b p.(ps_SoftwareVer).

(** Pointers to peer records, and the records they point to. *)
Notation ptr := positive (only parsing).

Record State := mkState {
  st_heap : gmap ptr PeerState;
  st_peers : gmap string ptr;
  st_self : ptr;
}.

Definition NewState (selfKey : string) (now : Z) : State :=
  mkState {[ 1%positive := seen_at now (zero_peer selfKey) ]} ∅ 1%positive.

Definition Self (s : State) : ptr := s.(st_self).

(** [update] is the caller's closure on the record. *)
Definition UpsertPeer (s : State) (pk : string) (update : PeerState -> PeerState) (now : Z) : State :=
  match s.(st_peers) !! pk with
  | Some l =>
      mkState (alter (fun p => seen_at now (update p)) l s.(st_heap)) s.(st_peers) s.(st_self)
  | None =>
      let l := fresh (dom s.(st_heap)) in
      mkState (<[l := seen_at now (update (zero_peer pk))]> s.(st_heap))
        (<[pk := l]> s.(st_peers)) s.(st_self)
  end.

Definition RemovePeer (s : State) (pk : string) : State :=
  mkState s.(st_heap) (delete pk s.(st_peers)) s.(st_self).

(** A nil pointer is [None]. *)
Definition GetPeer (s : State) (pk : string) : option ptr := s.(st_peers) !! pk.

(** The copied map: the same pointers. *)
Definition Peers (s : State) : gmap string ptr := s.(st_peers).

(** What a pointer obtained from the registry reads. *)
Definition deref (s : State) (l : ptr) : option PeerState := s.(st_heap) !! l.

Definition get_record (s : State) (pk : string) : option PeerState := GetPeer s pk ≫= deref s.

(** An iteration order of the map. *)
Definition range_order (s : State) (ks : list string) : Prop := ks ≡ₚ (map_to_list s.(st_peers)).*1.

Definition is_connected (s : State) (l : ptr) : bool :=
  match deref s l with Some p => p.(ps_IsConnected) | None => false end.

Definition ConnectedPeers (s : State) (ks : list string) : list ptr :=
  filter (fun l => is_connected s l = true) (omap (fun k => s.(st_peers) !! k) ks).

(** The loop of [PeerCount]. *)
Definition count_step (s : State) (acc : Z * Z) (k : string) : Z * Z :=
  match s.(st_peers) !! k with
  | Some l => (acc.1 + 1, if is_connected s l then acc.2 + 1 else acc.2)%Z
  | None => acc
  end.

Definition PeerCount (s : State) (ks : list string) : Z * Z := foldl (count_step s) (0, 0)%Z ks.

(** ** Invariant *)

Record state_wf (s : State) : Prop := {
  sw_alloc pk l : s.(st_peers) !! pk = Some l -> is_Some (s.(st_heap) !! l);
  sw_inj pk1 pk2 l : s.(st_peers) !! pk1 = Some l -> s.(st_peers) !! pk2 = Some l -> pk1 = pk2;
  sw_selfptr : is_Some (s.(st_heap) !! s.(st_self));
  sw_self pk : s.(st_peers) !! pk <> Some s.(st_self);
}.

(** The operations that change a registry; [update] must leave the key alone. *)
Inductive state_step (s : State) : State -> Prop :=
  | step_upsert pk update now :
      (forall p, (update p).(ps_PublicKey) = p.(ps_PublicKey)) ->
      state_step s (UpsertPeer s pk update now)
  | step_remove pk : state_step s (RemovePeer s pk).

(** Every record is filed under its own key. *)
Definition keys_match (s : State) : Prop :=
  forall pk p, get_record s pk = Some p -> p.(ps_PublicKey) = pk.

Lemma NewState_wf k now : state_wf (NewState k now).
Proof. split; cbn; [done|done|by rewrite lookup_singleton_eq|by intros pk [=]]. Qed.

Lemma fresh_lookup (h : gmap ptr PeerState) : h !! fresh (dom h) = None.
Proof. apply not_elem_of_dom, is_fresh. Qed.

Lemma UpsertPeer_wf s pk update now : state_wf s -> state_wf (UpsertPeer s pk update now).
Proof.
  intros [Ha Hi Hsp Hs]. pose proof (fresh_lookup s.(st_heap)) as Hf. unfold UpsertPeer.
  destruct (s.(st_peers) !! pk) as [l|] eqn:Hpk; split; cbn.
  - intros k l' Hk. rewrite lookup_alter_is_Some. eauto.
  - eauto.
  - by rewrite lookup_alter_is_Some.
  - done.
  - intros k l' [[<- <-]|[Hne Hk]]%lookup_insert_Some.
    + by rewrite lookup_insert_eq.
    + rewrite lookup_insert_ne; [eauto|]. intros <-. destruct (Ha _ _ Hk). congruence.
  - intros k1 k2 l'. set (l := fresh _) in *.
    assert (forall k, s.(st_peers) !! k <> Some l) as Hfk.
    { intros k Hk. destruct (Ha _ _ Hk). congruence. }
    intros [[<- <-]|[Hn1 H1]]%lookup_insert_Some [[<- ?]|[Hn2 H2]]%lookup_insert_Some; subst; try done.
    + by apply Hfk in H2.
    + by apply Hfk in H1.
    + eauto.
  - destruct Hsp as (p & Hp). rewrite lookup_insert_ne; [eauto|]. intros E. by rewrite E in Hf; simplify_eq.
  - intros k [[_ E]|[_ Hk]]%lookup_insert_Some; [|by apply Hs in Hk].
    destruct Hsp as (p & Hp). rewrite <- E in Hp. congruence.
Qed.

Lemma RemovePeer_wf s pk : state_wf s -> state_wf (RemovePeer s pk).
Proof.
  intros [Ha Hi Hsp Hs]. split; cbn.
  - intros k l [_ Hk]%lookup_delete_Some. eauto.
  - intros k1 k2 l [_ H1]%lookup_delete_Some [_ H2]%lookup_delete_Some. eauto.
  - done.
  - intros k [_ Hk]%lookup_delete_Some. by apply Hs in Hk.
Qed.

(** ** The registry as a map from keys to records *)

Definition abs (s : State) : gmap string PeerState := omap (deref s) s.(st_peers).

Lemma lookup_abs s pk : abs s !! pk = get_record s pk.
Proof. unfold abs, get_record, GetPeer. by rewrite lookup_omap. Qed.

Lemma abs_upsert s pk update now :
  state_wf s ->
  abs (UpsertPeer s pk update now)
  = <[pk := seen_at now (update (default (zero_peer pk) (abs s !! pk)))]> (abs s).
Proof.
  intros [Ha Hi _ _]. pose proof (fresh_lookup s.(st_heap)) as Hf. apply map_eq. intros k.
  rewrite lookup_abs. unfold get_record, GetPeer, UpsertPeer.
  destruct (s.(st_peers) !! pk) as [l|] eqn:Hpk; unfold deref; cbn.
  - destruct (Ha _ _ Hpk) as (p & Hp). rewrite lookup_abs. unfold get_record, GetPeer, deref.
    rewrite Hpk; cbn. rewrite Hp; cbn. destruct (decide (k = pk)) as [->|Hne].
    + rewrite Hpk, lookup_insert_eq; cbn. by rewrite lookup_alter_eq, Hp.
    + rewrite lookup_insert_ne, lookup_abs by done. unfold get_record, GetPeer, deref.
      destruct (s.(st_peers) !! k) as [l'|] eqn:Hk; cbn; [|done].
      apply lookup_alter_ne. intros ->. by eapply Hne, Hi.
  - rewrite lookup_abs. unfold get_record, GetPeer. rewrite Hpk; cbn.
    destruct (decide (k = pk)) as [->|Hne].
    + by rewrite !lookup_insert_eq; cbn; rewrite lookup_insert_eq.
    + rewrite !lookup_insert_ne, lookup_abs by done. unfold get_record, GetPeer, deref.
      destruct (s.(st_peers) !! k) as [l'|] eqn:Hk; cbn; [|done].
      apply lookup_insert_ne. intros <-. destruct (Ha _ _ Hk). congruence.
Qed.

Lemma abs_remove s pk : abs (RemovePeer s pk) = delete pk (abs s).
Proof. unfold abs, RemovePeer; cbn. unfold deref; cbn. by rewrite omap_delete. Qed.

Lemma step_wf s s' : state_step s s' -> state_wf s -> state_wf s'.
Proof. destruct 1; [apply UpsertPeer_wf|apply RemovePeer_wf]. Qed.

Lemma step_keys s s' : state_step s s' -> state_wf s -> keys_match s -> keys_match s'.
Proof.
  unfold keys_match. setoid_rewrite <- lookup_abs. intros Hst Hwf Hk.
  destruct Hst as [pk update now Hu|pk].
  - rewrite abs_upsert by done. intros k p [[<- <-]|[_ Hp]]%lookup_insert_Some; [|by apply Hk].
    cbn. rewrite Hu. destruct (abs s !! pk) as [q|] eqn:Hq; cbn; [by apply Hk|done].
  - rewrite abs_remove. intros k p [_ Hp]%lookup_delete_Some. by apply Hk.
Qed.

(** ** Counting *)

Lemma range_order_lookups s ks :
  range_order s ks -> omap (fun k => s.(st_peers) !! k) ks ≡ₚ (map_to_list s.(st_peers)).*2.
Proof.
  unfold range_order. intros Hks. rewrite Hks. clear Hks ks.
  assert (forall l : list (string * ptr), (forall k v, (k, v) ∈ l -> s.(st_peers) !! k = Some v) ->
    omap (fun k => s.(st_peers) !! k) l.*1 = l.*2) as Hl.
  { induction l as [|[k v] l IH]; intros Hin; cbn; [done|].
    rewrite (Hin k v) by left. f_equal. apply IH. intros k' v' ?. apply Hin. by right. }
  rewrite Hl; [done|]. intros k v. apply elem_of_map_to_list.
Qed.

Lemma count_fold s ks t c :
  foldl (count_step s) (t, c) ks
  = (t + Z.of_nat (length (omap (fun k => s.(st_peers) !! k) ks)),
     c + Z.of_nat (length (ConnectedPeers s ks)))%Z.
Proof.
  unfold ConnectedPeers. revert t c. induction ks as [|k ks IH]; intros t c.
  - by rewrite !Z.add_0_r.
  - cbn [foldl omap list_omap]. unfold count_step at 2.
    destruct (s.(st_peers) !! k) as [l|]; cbn [fst snd]; [|apply IH].
    rewrite IH, filter_cons. destruct (is_connected s l); simpl; f_equal; lia.
Qed.

(** ** Theorems *)

(** C24: The registry of pointers implements a map from keys to records: UpsertPeer applies
    the update to the record of the key (a fresh one if there is none) and stamps it,
    RemovePeer deletes it, other records and the node's own are untouched. *)
Theorem registry_refines (s : State) (pk : string) (update : PeerState -> PeerState) (now : Z) :
  state_wf s ->
  let rec := seen_at now (update (default (zero_peer pk) (get_record s pk))) in
  abs (UpsertPeer s pk update now) = <[pk := rec]> (abs s) /\
  abs (RemovePeer s pk) = delete pk (abs s) /\
  get_record (UpsertPeer s pk update now) pk = Some rec /\
  GetPeer (RemovePeer s pk) pk = None /\
  deref (UpsertPeer s pk update now) (Self s) = deref s (Self s).
Proof.
  intros Hwf rec. rewrite abs_remove, <- (lookup_abs (UpsertPeer _ _ _ _)), abs_upsert by done.
  unfold rec. rewrite lookup_abs, lookup_insert_eq.
  split; [done|]. split; [done|]. split; [done|]. split; [apply lookup_delete_eq|].
  destruct Hwf as [Ha _ (q & Hq) Hs]. unfold deref, Self, UpsertPeer.
  destruct (s.(st_peers) !! pk) as [l|] eqn:Hpk; cbn.
  - apply lookup_alter_ne. intros E. apply (Hs pk). by rewrite Hpk, E.
  - apply lookup_insert_ne. intros E. pose proof (fresh_lookup s.(st_heap)). congruence.
Qed.

Definition alice : PeerState -> PeerState :=
  fun p => mkPeer p.(ps_PublicKey) "10.0.0.2" ["198.51.100.7:51820"] p.(ps_LastSeen) 30 true "1".

Lemma registry_refines_witness :
  get_record (UpsertPeer (NewState "self" 5) "alice" alice 9) "alice"
  = Some (mkPeer "alice" "10.0.0.2" ["198.51.100.7:51820"] 9 30 true "1").
Proof. apply (registry_refines (NewState "self" 5) "alice" alice 9 (NewState_wf _ _)). Defined.

(** Every registry reachable from [NewState] by updates that leave keys alone and by
    removals is well formed. *)
Theorem registry_reachable (selfKey : string) (now : Z) (s : State) :
  rtc state_step (NewState selfKey now) s ->
  state_wf s /\ keys_match s /\
  (exists p, deref s (Self s) = Some p /\ p.(ps_PublicKey) = selfKey).
Proof.
  assert (forall s s', rtc state_step s s' ->
    state_wf s -> keys_match s -> forall p, deref s (Self s) = Some p ->
    state_wf s' /\ keys_match s' /\ deref s' (Self s') = Some p) as Hrun.
  { induction 1 as [|s1 s2 s3 Hst _ IH]; intros Hwf Hk p Hp; [done|].
    apply IH; [by eapply step_wf|by eapply step_keys|]. rewrite <- Hp.
    destruct Hwf as [Ha _ _ Hs]. destruct Hst as [pk u t Hu|pk]; [|done].
    unfold deref, Self, UpsertPeer. destruct (s1.(st_peers) !! pk) as [l|] eqn:Hpk; cbn.
    - apply lookup_alter_ne. intros E. apply (Hs pk). by rewrite Hpk, E.
    - apply lookup_insert_ne. intros E. pose proof (fresh_lookup s1.(st_heap)).
      unfold deref, Self in Hp. congruence. }
  intros Hr. destruct (Hrun _ _ Hr (NewState_wf _ _)) with (p := seen_at now (zero_peer selfKey))
    as (Hwf & Hk & Hp); [by intros pk p [=]| |eauto]. done.
Qed.

Lemma registry_reachable_witness :
  state_wf (RemovePeer (UpsertPeer (NewState "self" 5) "alice" alice 9) "alice").
Proof.
  eapply (registry_reachable "self" 5). eapply rtc_l; [by apply (step_upsert _ "alice" alice 9)|].
  eapply rtc_once, step_remove.
Defined.

(** A snapshot of the registry shares its records: later updates of a key show through it,
    removals do not. *)
Theorem snapshot_shares_records (s : State) (pk k : string) (l : ptr)
    (update : PeerState -> PeerState) (now : Z) :
  state_wf s -> Peers s !! k = Some l ->
  deref (UpsertPeer s pk update now) l
  = (fun p => if decide (k = pk) then seen_at now (update p) else p) <$> deref s l /\
  deref (RemovePeer s pk) l = deref s l.
Proof.
  intros [Ha Hi _ _] Hk. split; [|done]. unfold Peers in Hk. unfold deref, UpsertPeer.
  destruct (Ha _ _ Hk) as (p & Hp). rewrite Hp; cbn.
  destruct (decide (k = pk)) as [->|Hne].
  - rewrite Hk; cbn. by rewrite lookup_alter_eq, Hp.
  - destruct (s.(st_peers) !! pk) as [l'|] eqn:Hpk; cbn.
    + rewrite lookup_alter_ne; [done|]. intros ->. eauto.
    + rewrite lookup_insert_ne; [done|]. intros <-. pose proof (fresh_lookup s.(st_heap)). congruence.
Qed.

Lemma snapshot_shares_records_witness :
  let s := UpsertPeer (NewState "self" 5) "alice" alice 9 in
  deref (UpsertPeer s "alice" (set_connected false) 12) 2%positive
  = Some (mkPeer "alice" "10.0.0.2" ["198.51.100.7:51820"] 12 30 false "1").
Proof.
  apply (fun H1 H2 => proj1 (snapshot_shares_records (UpsertPeer (NewState "self" 5) "alice" alice 9)
    "alice" "alice" 2 (set_connected false) 12 H1 H2)).
  - apply UpsertPeer_wf, NewState_wf.
  - vm_compute. reflexivity.
Defined.

(** [PeerCount] counts all and the connected peers, whatever the order of iteration. *)
Theorem PeerCount_spec (s : State) (ks : list string) :
  range_order s ks ->
  PeerCount s ks = (Z.of_nat (size s.(st_peers)), Z.of_nat (length (ConnectedPeers s ks))) /\
  (length (ConnectedPeers s ks) <= size s.(st_peers))%nat /\
  (forall ks', range_order s ks' ->
     PeerCount s ks' = PeerCount s ks /\ ConnectedPeers s ks' ≡ₚ ConnectedPeers s ks).
Proof.
  intros Hks. pose proof (range_order_lookups _ _ Hks) as Hl.
  assert (length (omap (fun k => s.(st_peers) !! k) ks) = size s.(st_peers)) as Hlen.
  { rewrite Hl, length_fmap. apply length_map_to_list. }
  unfold PeerCount. rewrite count_fold, Hlen, !Z.add_0_l. split; [done|]. split.
  - rewrite <- Hlen. apply length_filter.
  - intros ks' Hks'. pose proof (range_order_lookups _ _ Hks') as Hl'.
    assert (ConnectedPeers s ks' ≡ₚ ConnectedPeers s ks) as HC.
    { unfold ConnectedPeers. by rewrite Hl, Hl'. }
    rewrite count_fold, !Z.add_0_l, HC, Hl', length_fmap, length_map_to_list. done.
Qed.

Lemma PeerCount_spec_witness :
  PeerCount (UpsertPeer (NewState "self" 5) "alice" alice 9) ["alice"] = (1, 1)%Z.
Proof.
  rewrite (proj1 (PeerCount_spec (UpsertPeer (NewState "self" 5) "alice" alice 9) ["alice"]
    ltac:(vm_compute; reflexivity))).
  vm_compute. reflexivity.
Defined.
