(* ===== verification/Pex.v ===== *)
(** * Peer exchange ([pkg/pex/protocol.go])

    The gossip protocol keeps the first entry it hears for each key.  The
    handlers run in goroutines of their own and take the lock once per
    entry, so a critical section is the unit of interleaving: the handlers
    are loops over [learn_entry], and the last part of the file runs any
    number of such loops concurrently. *)

From S2P Require Import Prelude GoNet.

Definition MsgTypePexRequest : Z := 0.
Definition MsgTypePexResponse : Z := 1.
Definition MsgTypePing : Z := 2.
Definition MsgTypePong : Z := 3.

Record PeerEntry := mkEntry {
  pe_PublicKey : string;
  pe_Endpoints : list string;
  pe_LatencyMs : Z;
}.

Record PexMessage := mkPexMsg {
  pm_Type : Z;
  pm_Sender : string;
  pm_Entries : list PeerEntry;
  pm_Seq : Z;
}.

#[export] Instance PeerEntry_eq_dec : EqDecision PeerEntry.
Proof. solve_decision. Defined.
#[export] Instance PexMessage_eq_dec : EqDecision PexMessage.
Proof. solve_decision. Defined.

(** The fields the operations read or write.  [peers] is created empty and
    never written; [stopCh] is represented by whether it is closed. *)
Record Protocol := mkProto {
  p_publicKey : string;
  p_entries : gmap string PeerEntry;
  p_listenAddr : string;
  p_seq : Z;
  p_stopped : bool;
  p_started : bool;
}.

(** What an operation does besides changing the state: goroutines it
    launches and messages it writes to the connection at hand. *)
Inductive pex_event :=
  | GoConnect (publicKey endpoint : string)
  | GoSend (endpoint : string) (msg : PexMessage)
  | Write (msg : PexMessage)
  | GoAcceptLoop
  | GoGossipLoop.

#[export] Instance pex_event_eq_dec : EqDecision pex_event.
Proof. solve_decision. Defined.

Definition with_entries (p : Protocol) (es : gmap string PeerEntry) : Protocol :=
  mkProto p.(p_publicKey) es p.(p_listenAddr) p.(p_seq) p.(p_stopped) p.(p_started).

Definition with_seq (p : Protocol) (seq : Z) : Protocol :=
  mkProto p.(p_publicKey) p.(p_entries) p.(p_listenAddr) seq p.(p_stopped) p.(p_started).

(** [listening] tells whether [net.Listen] succeeded. *)
Definition NewProtocol (publicKey listen : string) (listening : bool) : option Protocol :=
  if listening then Some (mkProto publicKey ∅ listen 0 false false) else None.

Definition Start (p : Protocol) : Protocol * list pex_event :=
  if p.(p_started) then (p, [])
  else (mkProto p.(p_publicKey) p.(p_entries) p.(p_listenAddr) p.(p_seq) p.(p_stopped) true,
        [GoAcceptLoop; GoGossipLoop]).

Definition Stop (p : Protocol) : result Protocol :=
  if p.(p_stopped) then Panic CloseOfClosedChannel
  else Ok (mkProto p.(p_publicKey) p.(p_entries) p.(p_listenAddr) p.(p_seq) true p.(p_started)).

(** One iteration of the loops over received entries, whose body is one
    critical section. *)
Definition learn_entry (p : Protocol) (entry : PeerEntry) : Protocol * list pex_event :=
  if decide (entry.(pe_PublicKey) = p.(p_publicKey)) then (p, [])
  else match p.(p_entries) !! entry.(pe_PublicKey), entry.(pe_Endpoints) with
       | None, ep :: _ =>
           (with_entries p (<[entry.(pe_PublicKey) := entry]> p.(p_entries)),
            [GoConnect entry.(pe_PublicKey) ep])
       | _, _ => (p, [])
       end.

Definition learn_step (s : Protocol * list pex_event) (entry : PeerEntry) : Protocol * list pex_event :=
  let '(p', evs) := learn_entry s.1 entry in (p', s.2 ++ evs).

Definition learn_all (p : Protocol) (entries : list PeerEntry) : Protocol * list pex_event :=
  foldl learn_step (p, []) entries.

(** [known] is what the [knownPeers] callback returns. *)
Definition handleRequest (p : Protocol) (known : list PeerEntry) (msg : PexMessage) :
    Protocol * list pex_event :=
  let '(p', evs) := learn_all p msg.(pm_Entries) in
  (p', evs ++ [Write (mkPexMsg MsgTypePexResponse p'.(p_publicKey) known 0)]).

Definition handleResponse (p : Protocol) (msg : PexMessage) : Protocol * list pex_event :=
  learn_all p msg.(pm_Entries).

Definition handlePing (p : Protocol) : Protocol * list pex_event :=
  (p, [Write (mkPexMsg MsgTypePong p.(p_publicKey) [] 0)]).

Definition handle_msg (p : Protocol) (known : list PeerEntry) (msg : PexMessage) :
    Protocol * list pex_event :=
  if decide (msg.(pm_Type) = MsgTypePexRequest) then handleRequest p known msg
  else if decide (msg.(pm_Type) = MsgTypePexResponse) then handleResponse p msg
  else if decide (msg.(pm_Type) = MsgTypePing) then handlePing p
  else (p, []).

(** [handleConn] serves the messages one decoder delivers; [known n] is the
    result of [knownPeers] while the [n]-th message is served. *)
Fixpoint serve (p : Protocol) (known : nat -> list PeerEntry) (n : nat) (msgs : list PexMessage) :
    Protocol * list pex_event :=
  match msgs with
  | [] => (p, [])
  | msg :: msgs =>
      let '(p1, evs1) := handle_msg p (known n) msg in
      let '(p2, evs2) := serve p1 known (S n) msgs in
      (p2, evs1 ++ evs2)
  end.

Definition handleConn (p : Protocol) (known : nat -> list PeerEntry) (stream : list (frame PexMessage)) :
    Protocol * list pex_event :=
  serve p known 0 (decode_all false stream).

(** The frames a handler's writes put on the connection: each reply has an
    encoder of its own. *)
Definition written (evs : list pex_event) : list (frame PexMessage) :=
  concat (omap (fun e => match e with Write m => Some (encode_fresh m) | _ => None end) evs).

(** One round of [gossip]. *)
Definition gossip (p : Protocol) (known : list PeerEntry) : Protocol * list pex_event :=
  match known with
  | [] => (p, [])
  | _ =>
      let p' := with_seq p (wrap_u64 (p.(p_seq) + 1)) in
      let msg := mkPexMsg MsgTypePexRequest p'.(p_publicKey) known p'.(p_seq) in
      (p', concat ((fun peer => (fun ep => GoSend ep msg) <$> peer.(pe_Endpoints)) <$> known))
  end.

(** The loop of [sendMessage]: as [learn_entry], with a log that slices the
    key inside the critical section. *)
Definition learn_logged (s : Protocol * list pex_event) (entry : PeerEntry) :
    result (Protocol * list pex_event) :=
  let '(p', evs) := learn_entry s.1 entry in
  match evs with
  | [] => Ok (p', s.2)
  | _ => _ ← slice_to entry.(pe_PublicKey) 16; Ok (p', s.2 ++ evs)
  end.

(** [sendMessage]: [reply] is what arrives on the connection, [None] when the
    dial failed.  The frames written are [encode_fresh msg]. *)
Definition sendMessage (p : Protocol) (reply : option (list (frame PexMessage))) :
    result (Protocol * list pex_event) :=
  match reply ≫= decode false with
  | Some (resp, _) =>
      if decide (resp.(pm_Type) = MsgTypePexResponse)
      then for_range learn_logged resp.(pm_Entries) (p, [])
      else Ok (p, [])
  | None => Ok (p, [])
  end.

(** [SendPing]: the frames written, or [None] for the dial error. *)
Definition SendPing (p : Protocol) (dialled : bool) : option (list (frame PexMessage)) :=
  if dialled then Some (encode_fresh (mkPexMsg MsgTypePing p.(p_publicKey) [] 0)) else None.

(** [order] is the iteration order of the map. *)
Definition DiscoveredPeers (p : Protocol) (order : list string) : list PeerEntry :=
  omap (fun k => p.(p_entries) !! k) order.

(** ** Sequential meaning of the loops *)

(** An entry the loops may store: another node's, with an endpoint. *)
Definition learnable (self : string) (e : PeerEntry) : Prop :=
  e.(pe_PublicKey) <> self /\ e.(pe_Endpoints) <> [].

#[export] Instance learnable_dec self e : Decision (learnable self e).
Proof. unfold learnable. apply _. Defined.

(** What a list of entries teaches a node that knows nothing: the first
    learnable entry of each key. *)
Definition learned (self : string) (es : list PeerEntry) : gmap string PeerEntry :=
  list_to_map ((fun e => (e.(pe_PublicKey), e)) <$> filter (learnable self) es).

(** The connection attempt that learning an entry starts. *)
Definition connect_of (ke : string * PeerEntry) : pex_event :=
  GoConnect ke.1 (hd "" ke.2.(pe_Endpoints)).

Lemma learn_entry_cases p e :
  (learn_entry p e = (p, []) /\
   (learnable p.(p_publicKey) e -> is_Some (p.(p_entries) !! e.(pe_PublicKey)))) \/
  (learnable p.(p_publicKey) e /\ p.(p_entries) !! e.(pe_PublicKey) = None /\
   learn_entry p e = (with_entries p (<[e.(pe_PublicKey) := e]> p.(p_entries)),
                      [connect_of (e.(pe_PublicKey), e)])).
Proof.
  unfold learn_entry, learnable, connect_of. destruct (decide (_ = _)) as [E|E]; [naive_solver|].
  destruct (p.(p_entries) !! e.(pe_PublicKey)) eqn:Hp; cbn; [left; naive_solver|].
  destruct (pe_Endpoints e) eqn:He; cbn; [left; naive_solver|]. right. naive_solver.
Qed.

Lemma learned_cons self e es :
  learned self (e :: es)
  = if decide (learnable self e) then <[e.(pe_PublicKey) := e]> (learned self es) else learned self es.
Proof. unfold learned. rewrite filter_cons. by destruct (decide (learnable self e)). Qed.

Lemma with_entries_id p : with_entries p p.(p_entries) = p.
Proof. by destruct p. Qed.

Lemma insert_union_fresh {A} (m1 m2 : gmap string A) k x :
  m1 !! k = None -> <[k := x]> m1 ∪ m2 = m1 ∪ <[k := x]> m2.
Proof.
  intros Hk. apply map_eq. intros i. rewrite !lookup_union.
  destruct (decide (i = k)) as [->|Hne].
  - rewrite !lookup_insert_eq, Hk. by destruct (m2 !! k).
  - by rewrite !lookup_insert_ne by done.
Qed.

Lemma insert_union_known {A} (m1 m2 : gmap string A) k x :
  is_Some (m1 !! k) -> m1 ∪ <[k := x]> m2 = m1 ∪ m2.
Proof.
  intros [y Hk]. apply map_eq. intros i. rewrite !lookup_union.
  destruct (decide (i = k)) as [->|Hne].
  - rewrite lookup_insert_eq, Hk. by destruct (m2 !! k).
  - by rewrite lookup_insert_ne by done.
Qed.

Lemma learn_fold p evs es :
  (foldl learn_step (p, evs) es).1
  = with_entries p (p.(p_entries) ∪ learned p.(p_publicKey) es).
Proof.
  revert p evs. induction es as [|e es IH]; intros p evs; cbn [foldl].
  - cbn. by rewrite map_union_empty, with_entries_id.
  - unfold learn_step at 2; cbn [fst snd]. rewrite learned_cons.
    destruct (learn_entry_cases p e) as [[-> Hk]|(Hl & Hn & ->)]; rewrite IH; cbn.
    + destruct (decide (learnable _ e)) as [Hl|]; [|done].
      by rewrite insert_union_known by auto.
    + rewrite decide_True by done. by rewrite insert_union_fresh by done.
Qed.

Lemma learn_all_state p es :
  (learn_all p es).1 = with_entries p (p.(p_entries) ∪ learned p.(p_publicKey) es).
Proof. apply learn_fold. Qed.

(** Learning writes nothing to the connection. *)
Lemma learn_all_written p es : written (learn_all p es).2 = [].
Proof.
  unfold learn_all. assert (written (p, @nil pex_event).2 = []) as H0 by done. revert H0.
  generalize (p, @nil pex_event). induction es as [|e es IH]; intros s Hs; cbn; [done|].
  apply IH. unfold learn_step. destruct (learn_entry_cases s.1 e) as [[-> _]|(_ & _ & ->)]; cbn.
  - by rewrite app_nil_r.
  - unfold written in *. by rewrite omap_app, concat_app, Hs.
Qed.

(** A key whose learning makes [sendMessage] slice out of range. *)
Definition short_new (p : Protocol) (e : PeerEntry) : Prop :=
  learnable p.(p_publicKey) e /\ p.(p_entries) !! e.(pe_PublicKey) = None /\
  (String.length e.(pe_PublicKey) < 16)%nat.

Lemma learn_logged_range es p evs :
  (for_range learn_logged es (p, evs) = Ok (foldl learn_step (p, evs) es) /\
   Forall (fun e => ~ short_new p e) es) \/
  (for_range learn_logged es (p, evs) = Panic SliceOutOfRange /\ Exists (short_new p) es).
Proof.
  revert p evs. induction es as [|e es IH]; intros p evs; [by left|].
  cbn [for_range foldl].
  assert (learn_logged (p, evs) e =
    let '(p', evs') := learn_entry p e in
    match evs' with [] => Ok (p', evs)
    | _ => _ ← slice_to e.(pe_PublicKey) 16; Ok (p', evs ++ evs') end) as -> by done.
  assert (learn_step (p, evs) e = let '(p', evs') := learn_entry p e in (p', evs ++ evs')) as -> by done.
  destruct (learn_entry_cases p e) as [[-> Hk]|(Hl & Hn & ->)]; cbn [mbind result_bind].
  - rewrite app_nil_r. assert (~ short_new p e) as Hs.
    { intros (Hl & Hn & _). destruct (Hk Hl). congruence. }
    destruct (IH p evs) as [[-> HF]|[-> HE]]; [left; auto|right; auto].
  - destruct (decide (16 <= String.length e.(pe_PublicKey))%nat) as [Hlen|Hlen].
    + destruct (slice_to_ok _ _ Hlen) as [x ->]. cbn [mbind result_bind].
      assert (~ short_new p e) as Hs by (intros (_ & _ & ?); lia).
      set (p' := with_entries p _).
      assert (forall e', short_new p e' <-> short_new p' e') as Hiff.
      { intros e'. unfold short_new, p'; cbn. rewrite lookup_insert_None.
        split; [|naive_solver]. intros (? & ? & ?). repeat (split; [done|]). split; [|done].
        split; [done|]. intros E. rewrite E in Hlen. lia. }
      destruct (IH p' (evs ++ [connect_of (e.(pe_PublicKey), e)])) as [[-> HF]|[-> HE]]; [left|right].
      * split; [done|]. constructor; [done|]. eapply Forall_impl; [done|]. intros e' He'. by rewrite Hiff.
      * split; [done|]. right. eapply Exists_impl; [done|]. intros e' He'. by rewrite Hiff.
    + rewrite slice_to_panic by lia. cbn. right. split; [done|]. left. split; [done|]. split; [done|lia].
Qed.
