(* ===== verification/PexConc.v ===== *)
(** * Peer exchange: interleavings and rounds

    Every request, response and reply is served by a goroutine whose loop
    over the received entries takes the lock once per entry.  A
    configuration holds the shared protocol state, the connection attempts
    started so far and, for each goroutine, the entries it has still to
    look at; a step runs one critical section of one goroutine. *)

From S2P Require Import Prelude GoNet Pex.

Record config := mkConfig {
  cf_proto : Protocol;
  cf_log : list pex_event;
  cf_threads : list (list PeerEntry);
}.

Inductive sched : config -> config -> Prop :=
  | sched_learn p log ts i e rest p' evs :
      ts !! i = Some (e :: rest) ->
      learn_entry p e = (p', evs) ->
      sched (mkConfig p log ts) (mkConfig p' (log ++ evs) (<[i := rest]> ts)).

Definition pending (c : config) : nat := length (concat c.(cf_threads)).
Definition finished (c : config) : Prop := Forall (fun t => t = []) c.(cf_threads).

(** ** Threads *)

Lemma concat_pop {A} (ts : list (list A)) i e rest :
  ts !! i = Some (e :: rest) -> concat ts ≡ₚ e :: concat (<[i := rest]> ts).
Proof.
  revert i. induction ts as [|t ts IH]; intros [|i] Hi; simplify_eq/=; [done|].
  rewrite (IH _ Hi). by rewrite <- Permutation_middle.
Qed.

Lemma concat_nonempty {A} (ts : list (list A)) :
  Forall (fun t => t = []) ts \/ exists i e rest, ts !! i = Some (e :: rest).
Proof.
  induction ts as [|[|e t] ts IH]; [by left| |by right; exists 0, e, t].
  destruct IH as [?|(i & e & rest & ?)]; [left; auto|right; by exists (S i), e, rest].
Qed.

Lemma sched_pending c c' : sched c c' -> pending c = S (pending c').
Proof. destruct 1 as [p log ts i e rest p' evs Hi _]. unfold pending; cbn. by rewrite (concat_pop _ _ _ _ Hi). Qed.

Lemma finished_concat c : finished c -> concat c.(cf_threads) = [].
Proof. unfold finished. induction 1 as [|t ts -> _ IH]; [done|]. apply IH. Qed.

(** ** The invariant of a run *)

(** [p0] is the state the run started from, [es] the entries its goroutines
    were given. *)
Record run_inv (p0 : Protocol) (es : list PeerEntry) (c : config) : Prop := {
  ri_frame : c.(cf_proto) = with_entries p0 c.(cf_proto).(p_entries);
  ri_mono : p0.(p_entries) ⊆ c.(cf_proto).(p_entries);
  ri_log : c.(cf_log) ≡ₚ connect_of <$> map_to_list (c.(cf_proto).(p_entries) ∖ p0.(p_entries));
  ri_new k e : (c.(cf_proto).(p_entries) ∖ p0.(p_entries)) !! k = Some e ->
    e.(pe_PublicKey) = k /\ learnable p0.(p_publicKey) e /\ e ∈ es;
  ri_done : exists seen, seen ++ concat c.(cf_threads) ≡ₚ es /\
    Forall (fun e => learnable p0.(p_publicKey) e ->
      is_Some (c.(cf_proto).(p_entries) !! e.(pe_PublicKey))) seen;
}.

Lemma run_inv_init p ts : run_inv p (concat ts) (mkConfig p [] ts).
Proof.
  split; cbn.
  - by rewrite with_entries_id.
  - done.
  - by rewrite map_difference_diag, map_to_list_empty.
  - intros k e. by rewrite map_difference_diag, lookup_empty.
  - by exists [].
Qed.

Lemma run_inv_step p0 es c c' : sched c c' -> run_inv p0 es c -> run_inv p0 es c'.
Proof.
  destruct 1 as [p log ts i e rest p' evs Hi Hlearn]. intros [Hf Hm Hl Hn (seen & Hp & Hd)]; cbn in *.
  assert (p.(p_publicKey) = p0.(p_publicKey)) as Hkey by by rewrite Hf.
  assert (e ∈ es) as Hin.
  { rewrite <- Hp, (concat_pop _ _ _ _ Hi). apply elem_of_app. right. left. }
  assert ((seen ++ [e]) ++ concat (<[i:=rest]> ts) ≡ₚ es) as Hp'.
  { rewrite <- Hp, (concat_pop _ _ _ _ Hi), <- app_assoc. done. }
  destruct (learn_entry_cases p e) as [[Heq Hk]|(Hle & Hnone & Heq)]; rewrite Heq in Hlearn; simplify_eq.
  - rewrite app_nil_r. split; cbn; try done. exists (seen ++ [e]). split; [done|].
    apply Forall_app. split; [done|]. apply Forall_singleton. by rewrite <- Hkey.
  - rewrite Hkey in Hle. set (k := e.(pe_PublicKey)) in *.
    assert (p0.(p_entries) !! k = None) as Hn0 by (eapply lookup_weaken_None; [exact Hnone|done]).
    assert (<[k := e]> p.(p_entries) ∖ p0.(p_entries) = <[k := e]> (p.(p_entries) ∖ p0.(p_entries))) as Hdiff.
    { apply map_eq. intros j. rewrite lookup_difference. destruct (decide (j = k)) as [->|Hne].
      - by rewrite Hn0, !lookup_insert_eq.
      - by rewrite !lookup_insert_ne, lookup_difference by done. }
    split; cbn.
    + rewrite Hf at 1. done.
    + etrans; [exact Hm|]. by apply insert_subseteq.
    + rewrite Hdiff, map_to_list_insert, Hl; cbn; [by rewrite Permutation_app_comm|].
      rewrite lookup_difference, Hn0. exact Hnone.
    + rewrite Hdiff. intros j e' [[<- <-]|[_ Hj]]%lookup_insert_Some; [done|by apply Hn].
    + exists (seen ++ [e]). split; [done|]. apply Forall_app. split.
      * eapply Forall_impl; [exact Hd|]. cbn. intros e' H1 H2. apply lookup_insert_is_Some'. auto.
      * apply Forall_singleton. intros _. by rewrite lookup_insert_eq.
Qed.

Lemma run_inv_rtc p0 es c c' : rtc sched c c' -> run_inv p0 es c -> run_inv p0 es c'.
Proof. induction 1; eauto using run_inv_step. Qed.

(** A handler on its own is one schedule. *)
Lemma learn_all_sched p log es :
  rtc sched (mkConfig p log [es])
    (mkConfig (foldl learn_step (p, log) es).1 (foldl learn_step (p, log) es).2 [[]]).
Proof.
  revert p log. induction es as [|e es IH]; intros p log; cbn [foldl]; [done|].
  destruct (learn_entry p e) as [p' evs] eqn:He.
  assert (learn_step (p, log) e = (p', log ++ evs)) as -> by (unfold learn_step; cbn; by rewrite He).
  eapply rtc_l; [|apply IH]. by apply (sched_learn p log [e :: es] 0 e es).
Qed.

(** ** A whole connection *)

(** The entries the messages of a connection teach. *)
Definition taught (msgs : list PexMessage) : list PeerEntry :=
  concat (pm_Entries <$>
    filter (fun m => m.(pm_Type) = MsgTypePexRequest \/ m.(pm_Type) = MsgTypePexResponse) msgs).

Definition reply_to (p : Protocol) (known : list PeerEntry) (m : PexMessage) : option PexMessage :=
  if decide (m.(pm_Type) = MsgTypePexRequest)
  then Some (mkPexMsg MsgTypePexResponse p.(p_publicKey) known 0)
  else if decide (m.(pm_Type) = MsgTypePing) then Some (mkPexMsg MsgTypePong p.(p_publicKey) [] 0)
  else None.

Definition is_connect (e : pex_event) : bool :=
  match e with GoConnect _ _ => true | _ => false end.

Definition connects (evs : list pex_event) : list pex_event :=
  filter (fun e => is_connect e = true) evs.

Definition writes (evs : list pex_event) : list PexMessage :=
  omap (fun e => match e with Write m => Some m | _ => None end) evs.

Lemma learn_fold_log p log es :
  foldl learn_step (p, log) es = ((learn_all p es).1, log ++ (learn_all p es).2).
Proof.
  unfold learn_all. revert p log. induction es as [|e es IH]; intros p log; cbn; [by rewrite app_nil_r|].
  unfold learn_step at 2 4 6; cbn. destruct (learn_entry p e) as [p' evs].
  rewrite IH, (IH _ evs). cbn. by rewrite app_assoc.
Qed.

Lemma learn_all_app p es1 es2 :
  learn_all p (es1 ++ es2)
  = ((learn_all (learn_all p es1).1 es2).1,
     (learn_all p es1).2 ++ (learn_all (learn_all p es1).1 es2).2).
Proof.
  unfold learn_all at 1. rewrite foldl_app, (learn_fold_log p [] es1), learn_fold_log. done.
Qed.

Lemma learn_all_events p es :
  connects (learn_all p es).2 = (learn_all p es).2 /\ writes (learn_all p es).2 = [].
Proof.
  assert (Forall (fun e => is_connect e = true) (learn_all p es).2) as HF.
  { revert p. induction es as [|e es IH]; intros p; [constructor|].
    change (e :: es) with ([e] ++ es). rewrite learn_all_app. apply Forall_app. split; [|apply IH].
    unfold learn_all; cbn. unfold learn_step; cbn.
    destruct (learn_entry_cases p e) as [[-> _]|(_ & _ & ->)]; repeat constructor. }
  split; [by apply filter_all|]. unfold writes. induction HF as [|[]]; done.
Qed.

Lemma handle_msg_spec p known m :
  let '(p', evs) := handle_msg p known m in
  p' = (learn_all p (taught [m])).1 /\ connects evs = (learn_all p (taught [m])).2 /\
  writes evs = option_list (reply_to p known m).
Proof.
  unfold handle_msg, taught, reply_to. rewrite filter_cons, filter_nil.
  destruct (decide (m.(pm_Type) = MsgTypePexRequest)) as [E|E]; [|
  destruct (decide (m.(pm_Type) = MsgTypePexResponse)) as [E'|E']; [|
  destruct (decide (m.(pm_Type) = MsgTypePing)) as [E''|E'']]].
  - rewrite decide_True by auto. unfold handleRequest. cbn [fmap list_fmap concat]. rewrite app_nil_r.
    destruct (learn_all_events p m.(pm_Entries)) as [Hc Hw]. pose proof (learn_all_state p m.(pm_Entries)) as Hs.
    destruct (learn_all p m.(pm_Entries)) as [p' evs]. cbn in *. unfold connects, writes in *.
    rewrite filter_app, omap_app, Hc, Hw. split; [done|]. split; [apply app_nil_r|]. by rewrite Hs.
  - rewrite decide_True by auto. unfold handleResponse. cbn [fmap list_fmap concat]. rewrite app_nil_r.
    destruct (learn_all_events p m.(pm_Entries)) as [Hc Hw].
    destruct (learn_all p m.(pm_Entries)) as [p' evs]. cbn in *.
    rewrite decide_False by (rewrite E'; done). done.
  - rewrite decide_False by tauto. done.
  - rewrite decide_False by tauto. done.
Qed.

Lemma taught_cons m ms : taught (m :: ms) = taught [m] ++ taught ms.
Proof. unfold taught. change (m :: ms) with ([m] ++ ms). by rewrite filter_app, fmap_app, concat_app. Qed.

Lemma serve_spec p known n msgs :
  let '(p', evs) := serve p known n msgs in
  p' = (learn_all p (taught msgs)).1 /\ connects evs = (learn_all p (taught msgs)).2 /\
  writes evs = omap id (imap (fun i => reply_to p (known (n + i))) msgs).
Proof.
  revert p n. induction msgs as [|m ms IH]; intros p n; cbn [serve]; [done|].
  pose proof (handle_msg_spec p (known n) m) as Hm. destruct (handle_msg p (known n) m) as [p1 evs1].
  destruct Hm as (H1 & H2 & H3). specialize (IH p1 (S n)).
  destruct (serve p1 known (S n) ms) as [p2 evs2]. destruct IH as (I1 & I2 & I3).
  rewrite taught_cons, learn_all_app, <- H1, <- H2. cbn [fst snd]. split; [done|]. split.
  - unfold connects in *. by rewrite filter_app, I2.
  - unfold writes in *. rewrite omap_app, H3, I3, imap_cons, Nat.add_0_r. cbn.
    assert (p1.(p_publicKey) = p.(p_publicKey)) as Hk by by rewrite H1, learn_all_state.
    assert (imap (fun i => reply_to p1 (known (S (n + i)))) ms
      = imap ((fun i => reply_to p (known (n + i))) ∘ S) ms) as ->.
    { apply imap_ext. intros i x _. cbn. unfold reply_to. by rewrite Hk, Nat.add_succ_r. }
    by destruct (reply_to p (known n) m).
Qed.

(** ** Theorems *)

(** C5: However the critical sections of any number of handlers interleave: known entries
    are never overwritten, exactly one connection attempt is started per new entry, to
    its first endpoint, new entries are learnable entries that were received, never the
    node's own; and when all handlers are done the known keys are the old ones plus all
    learnable ones, whatever the schedule. *)
Theorem pex_interleaving (p : Protocol) (ts : list (list PeerEntry)) (c : config) :
  rtc sched (mkConfig p [] ts) c ->
  let new := c.(cf_proto).(p_entries) ∖ p.(p_entries) in
  p.(p_entries) ⊆ c.(cf_proto).(p_entries) /\
  c.(cf_log) ≡ₚ connect_of <$> map_to_list new /\
  map_Forall (fun k e => e.(pe_PublicKey) = k /\ learnable p.(p_publicKey) e /\ e ∈ concat ts) new /\
  (finished c ->
   dom c.(cf_proto).(p_entries) = dom p.(p_entries) ∪ dom (learned p.(p_publicKey) (concat ts))).
Proof.
  intros Hrun. destruct (run_inv_rtc _ _ _ _ Hrun (run_inv_init p ts)) as [Hf Hm Hl Hn (seen & Hp & Hd)].
  cbn. split; [done|]. split; [done|]. split; [intros k e; apply Hn|].
  intros Hfin. rewrite (finished_concat _ Hfin), app_nil_r in Hp. apply set_eq. intros k.
  assert (k ∈ dom (learned p.(p_publicKey) (concat ts)) <->
    exists e, e ∈ concat ts /\ learnable p.(p_publicKey) e /\ e.(pe_PublicKey) = k) as Hlearned.
  { unfold learned. rewrite dom_list_to_map, elem_of_list_to_set, <- list_fmap_compose, list_elem_of_fmap.
    setoid_rewrite list_elem_of_filter. cbn. naive_solver. }
  rewrite elem_of_union, Hlearned, !elem_of_dom. split.
  - intros [e He]. destruct (p.(p_entries) !! k) as [e'|] eqn:Hk; [left; eauto|right].
    exists e. destruct (Hn k e) as (? & ? & ?); [|done]. rewrite lookup_difference, Hk. done.
  - intros [[e He]|(e & Hin & Hle & <-)].
    + exists e. by eapply lookup_weaken.
    + rewrite Forall_forall in Hd. apply Hd; [|done]. by rewrite Hp.
Qed.

(** Every schedule of the handlers' critical sections ends: each step uses up one entry. *)
Theorem pex_schedules_terminate (c : config) :
  (forall n c', nsteps sched n c c' -> n + pending c' = pending c) /\
  (forall c', rtc sched c c' -> (exists c'', sched c' c'') \/ finished c') /\
  (exists c', nsteps sched (pending c) c c' /\ finished c').
Proof.
  assert (forall c', (exists c'', sched c' c'') \/ finished c') as Hprog.
  { intros [p log ts]. destruct (concat_nonempty ts) as [?|(i & e & rest & Hi)]; [by right|left].
    destruct (learn_entry p e) as [p' evs] eqn:He. eexists. by eapply sched_learn. }
  split; [|split].
  - intros n. revert c. induction n as [|n IH]; intros c c' Hn; inversion Hn as [|? ? c1 ? Hs Hn']; subst; [done|].
    rewrite (sched_pending _ _ Hs), <- (IH _ _ Hn'). done.
  - auto.
  - remember (pending c) as n eqn:Hn. revert c Hn. induction n as [|n IH]; intros c Hn.
    + exists c. split; [constructor|]. destruct (Hprog c) as [(c' & Hs)|?]; [|done].
      apply sched_pending in Hs. lia.
    + destruct (Hprog c) as [(c1 & Hs)|Hf].
      * destruct (IH c1) as (c' & ? & ?); [apply sched_pending in Hs; lia|].
        exists c'. split; [by econstructor|done].
      * apply finished_concat in Hf. unfold pending in Hn. by rewrite Hf in Hn.
Qed.

(** A reply brings the process down exactly when it is a response with a new learnable entry
    whose key is shorter than 16. *)
Theorem sendMessage_panics_iff (p : Protocol) (resp : PexMessage) :
  is_panic (sendMessage p (Some (encode_fresh resp))) <->
  resp.(pm_Type) = MsgTypePexResponse /\ Exists (short_new p) resp.(pm_Entries).
Proof.
  unfold sendMessage; cbn -[for_range]. destruct (decide (pm_Type resp = _)) as [E|E].
  - destruct (learn_logged_range resp.(pm_Entries) p []) as [[-> HF]|[-> HE]].
    + split; [by intros [? ?]|]. intros [_ HE]. exfalso.
      apply Exists_exists in HE as (e & Hin & Hs). rewrite Forall_forall in HF. by apply (HF e).
    + split; [done|]. intros _. by eexists.
  - split; [by intros [? ?]|naive_solver].
Qed.

(** A round sends one request per endpoint, all with the same sequence number, and none
    without endpoints. *)
Theorem gossip_spec (p : Protocol) (known : list PeerEntry) :
  let '(p', sends) := gossip p known in
  p'.(p_entries) = p.(p_entries) /\
  (known = [] -> p' = p) /\
  (known <> [] -> p'.(p_seq) = (p.(p_seq) + 1) `mod` 2 ^ 64)%Z /\
  sends = (fun ep => GoSend ep (mkPexMsg MsgTypePexRequest p.(p_publicKey) known p'.(p_seq)))
          <$> concat (pe_Endpoints <$> known) /\
  (sends = [] <-> Forall (fun e => e.(pe_Endpoints) = []) known).
Proof.
  assert (concat (pe_Endpoints <$> known) = [] <-> Forall (fun e => e.(pe_Endpoints) = []) known) as Hc.
  { induction known as [|e es IH]; cbn; [done|]. rewrite Forall_cons, <- IH. apply app_nil. }
  assert (forall m, concat ((fun peer => (fun ep => GoSend ep m) <$> peer.(pe_Endpoints)) <$> known)
    = (fun ep => GoSend ep m) <$> concat (pe_Endpoints <$> known)) as Hm.
  { intros m. clear Hc. induction known as [|e es IH]; cbn; [done|]. by rewrite fmap_app, <- IH. }
  unfold gossip. destruct known as [|e es]; [done|]. rewrite Hm.
  split; [done|]. split; [done|]. split; [done|]. split; [done|].
  rewrite <- Hc. split; [apply fmap_nil_inv|]. by intros ->.
Qed.

(** For any stream on an accepted connection the node learns what the messages teach,
    connects once per new entry and answers each request and ping, in order. *)
Theorem pex_connection_spec (p : Protocol) (known : nat -> list PeerEntry)
    (stream : list (frame PexMessage)) :
  let msgs := decode_all false stream in
  let '(p', evs) := handleConn p known stream in
  p' = with_entries p (p.(p_entries) ∪ learned p.(p_publicKey) (taught msgs)) /\
  connects evs ≡ₚ connect_of <$> map_to_list (p'.(p_entries) ∖ p.(p_entries)) /\
  writes evs = omap id (imap (fun i => reply_to p (known i)) msgs).
Proof.
  cbn zeta. unfold handleConn. set (msgs := decode_all false stream).
  pose proof (serve_spec p known 0 msgs) as Hs. destruct (serve p known 0 msgs) as [p' evs].
  destruct Hs as (-> & Hc & Hw). split; [apply learn_all_state|]. split; [|exact Hw].
  rewrite Hc. pose proof (learn_all_sched p [] (taught msgs)) as Hrun.
  apply (ri_log _ _ _ (run_inv_rtc _ _ _ _ Hrun (run_inv_init p _))).
Qed.

(** What a handler answers to a request. *)
Lemma request_answered b known req :
  req.(pm_Type) = MsgTypePexRequest ->
  let '(b', out) := handleConn b (fun _ => known) (encode_fresh req) in
  b' = with_entries b (b.(p_entries) ∪ learned b.(p_publicKey) req.(pm_Entries)) /\
  written out = encode_fresh (mkPexMsg MsgTypePexResponse b.(p_publicKey) known 0).
Proof.
  intros Hty. unfold handleConn; cbn [encode_fresh decode_all serve].
  assert (handle_msg b known req = handleRequest b known req) as ->.
  { unfold handle_msg. by rewrite decide_True. }
  unfold handleRequest. pose proof (learn_all_state b req.(pm_Entries)) as Hs.
  pose proof (learn_all_written b req.(pm_Entries)) as Hw. destruct (learn_all b _) as [b' out] eqn:Hb.
  cbn [fst snd] in Hs, Hw. subst b'. split; [done|]. rewrite app_nil_r. cbn [p_publicKey with_entries].
  unfold written in *. by rewrite omap_app, concat_app, Hw.
Qed.

(** C20: One round of gossip between two nodes, for any states and any lists of known peers:
    a request goes to exactly the endpoints of the known peers; whoever serves such a
    request learns the sender's known peers, keeping what it knew and taking the first
    learnable entry per key; from the reply written to it the sender learns the
    receiver's known peers in the same way, or panics exactly when one of them is new to
    it, learnable and has a key shorter than 16. *)
Theorem pex_exchange (a b : Protocol) (knownA knownB : list PeerEntry) :
  let '(a1, sends) := gossip a knownA in
  (forall ep, (exists req, GoSend ep req ∈ sends) <-> exists e, e ∈ knownA /\ ep ∈ e.(pe_Endpoints)) /\
  (forall ep req, GoSend ep req ∈ sends ->
   let '(b', out) := handleConn b (fun _ => knownB) (encode_fresh req) in
   b' = with_entries b (b.(p_entries) ∪ learned b.(p_publicKey) knownA) /\
   (Forall (fun e => ~ short_new a e) knownB ->
    exists evs, sendMessage a1 (Some (written out))
      = Ok (with_entries a1 (a.(p_entries) ∪ learned a.(p_publicKey) knownB), evs)) /\
   (Exists (short_new a) knownB -> sendMessage a1 (Some (written out)) = Panic SliceOutOfRange)).
Proof.
  pose proof (gossip_spec a knownA) as Hg.
  assert ((gossip a knownA).1.(p_publicKey) = a.(p_publicKey)) as Hkey
    by (unfold gossip; by destruct knownA).
  destruct (gossip a knownA) as [a1 sends]. destruct Hg as (He & _ & _ & -> & _). cbn in Hkey. split.
  - intros ep. setoid_rewrite list_elem_of_fmap. setoid_rewrite list_elem_of_In. setoid_rewrite in_concat.
    setoid_rewrite <- list_elem_of_In. setoid_rewrite list_elem_of_fmap. split.
    + intros (req & ep' & [= -> ->] & l & (e & -> & Hin) & Hep). eauto.
    + intros (e & Hin & Hep). eexists _, ep. split; [done|]. eauto.
  - intros ep req (ep' & [= -> ->] & _)%list_elem_of_fmap. set (req := mkPexMsg _ _ _ _).
    pose proof (request_answered b knownB req eq_refl) as Hr. destruct (handleConn b _ _) as [b' out].
    destruct Hr as [-> ->]. split; [done|]. unfold sendMessage. cbn -[for_range].
    assert (forall e, short_new a1 e <-> short_new a e) as Hs by (intros e; unfold short_new; by rewrite He, Hkey).
    destruct (learn_logged_range knownB a1 []) as [[-> HF]|[-> HE]]; split.
    + intros _. exists (foldl learn_step (a1, []) knownB).2. rewrite <- He, <- Hkey, <- (learn_fold a1 []).
      by destruct (foldl learn_step (a1, []) knownB).
    + intros (e & Hin & He')%Exists_exists. rewrite Forall_forall in HF. exfalso. by apply (HF e Hin), Hs.
    + intros HF. exfalso. apply Exists_exists in HE as (e & Hin & He'). rewrite Forall_forall in HF.
      by apply (HF e Hin), Hs.
    + done.
Qed.
