(* ===== verification/Host.v ===== *)
(** * The machine the daemon runs on

    Processes, sockets, the clock and cancellation are not code of the
    repository: [Host W] is the interface through which the modelled code
    uses them, over an arbitrary type [W] of machine states.  Code that uses
    the host is written in the monad [io W]: it passes the machine along and
    may panic. *)

From S2P Require Import Prelude.

Definition io (W A : Type) : Type := W -> result (A * W).

#[export] Instance io_ret {W} : MRet (io W) := fun A a w => Ok (a, w).
#[export] Instance io_bind {W} : MBind (io W) := fun A B f m w =>
  match m w with
  | Ok (a, w') => f a w'
  | Panic p => Panic p
  | NoFuel => NoFuel
  end.

(** A computation that does not use the host. *)
Definition lift {W A} (r : result A) : io W A := fun w => a ← r; Ok (a, w).
(** A host operation, which never panics. *)
Definition call {W A} (f : W -> A * W) : io W A := fun w => Ok (f w).

(** What running a process yields: its standard output, its standard output
    and error together, and the error of [exec.Cmd], if any. *)
Record exec_result := mkExec {
  ex_stdout : string;
  ex_combined : string;
  ex_err : option string;
}.

Class Host (W : Type) := {
  run_command : string -> list string -> W -> exec_result * W;
  (** [net.DialTimeout("unix", path, _)] succeeds? *)
  dial_unix : string -> W -> bool * W;
  (** Writing the request to the socket at a path succeeds? *)
  write_unix : string -> string -> W -> bool * W;
  (** [ReadString('\n')] on the socket: the line, and whether it is complete. *)
  read_unix : string -> W -> (string * bool) * W;
  (** What [time.Now()] reads: the wall clock, in nanoseconds since the
      epoch, and the monotonic clock. *)
  clock : W -> (Z * Z) * W;
  (** [time.Sleep] or waiting for a timer. *)
  sleep : Z -> W -> unit * W;
  (** Is [ctx.Done()] closed? *)
  cancelled : W -> bool * W;
}.

(** ** Times ([time.Time])

    A time that [time.Now] returned carries both readings; the comparisons
    use the monotonic ones when both times have one. *)

Record Time := mkTime {
  t_wall : Z;
  t_mono : option Z;
}.

(** Differences of times saturate. *)
Definition saturate (d : Z) : Z := Z.max min_int64 (Z.min d max_int64).

(** [t.Add(d)]: a monotonic reading that overflows is dropped. *)
Definition Add (t : Time) (d : Z) : Time :=
  mkTime (t.(t_wall) + d)
    (m ← t.(t_mono); if decide (int64_range (m + d)) then Some (m + d)%Z else None).

(** [t.Before(u)]; [u.After(t)] is the same. *)
Definition Before (t u : Time) : bool :=
  match t.(t_mono), u.(t_mono) with
  | Some a, Some b => bool_decide (a < b)%Z
  | _, _ => bool_decide (t.(t_wall) < u.(t_wall))%Z
  end.

(** [t.Sub(u)]; [time.Since(u)] is [time.Now().Sub(u)]. *)
Definition Sub (t u : Time) : Z :=
  saturate (match t.(t_mono), u.(t_mono) with
            | Some a, Some b => a - b
            | _, _ => t.(t_wall) - u.(t_wall)
            end)%Z.

(** [time.Now()]. *)
Definition Now {W} {host : Host W} : io W Time :=
  '(wall, mono) ← call clock; mret (mkTime wall (Some mono)).

(** Reads the machine without changing it. *)
Definition ask {W A} (f : W -> A) : io W A := fun w => Ok (f w, w).

(** An error value: its text, or nil. *)
Notation error := (option string) (only parsing).

(** [for range] over a list, in [io]. *)
Fixpoint io_range {W S A} (f : S -> A -> io W S) (l : list A) (s : S) : io W S :=
  match l with
  | [] => mret s
  | x :: l => f s x ≫= io_range f l
  end.

Lemma io_bind_ok {W A B} (m : io W A) (f : A -> io W B) w b w2 :
  (m ≫= f) w = Ok (b, w2) <-> exists a w1, m w = Ok (a, w1) /\ f a w1 = Ok (b, w2).
Proof.
  unfold mbind, io_bind. destruct (m w) as [[a w1]| |].
  - split; [eauto|]. by intros (? & ? & [= <- <-] & ?).
  - split; [done|]. by intros (? & ? & ? & ?).
  - split; [done|]. by intros (? & ? & ? & ?).
Qed.

Lemma io_bind_of_ok {W A B} (m : io W A) (f : A -> io W B) w a w1 :
  m w = Ok (a, w1) -> (m ≫= f) w = f a w1.
Proof. unfold mbind, io_bind. by intros ->. Qed.

(** Loop rules, as for [for_range]. *)
Lemma io_range_inv {W S A} (P : S -> Prop) (f : S -> A -> io W S) l s w s' w' :
  (forall s x w s' w', x ∈ l -> P s -> f s x w = Ok (s', w') -> P s') ->
  P s -> io_range f l s w = Ok (s', w') -> P s'.
Proof.
  revert s w. induction l as [|x l IH]; intros s w Hstep HP; cbn [io_range].
  - by intros [= <- _].
  - intros (s1 & w1 & H1 & H2)%io_bind_ok. apply (IH s1 w1); [|by eapply Hstep; [left|..]|done].
    intros s2 y w2 s3 w3 Hy. apply Hstep. by right.
Qed.

Lemma io_range_total {W S A} (P : S -> Prop) (f : S -> A -> io W S) l s w :
  (forall s x w, x ∈ l -> P s -> is_ok (f s x w)) ->
  (forall s x w s' w', x ∈ l -> P s -> f s x w = Ok (s', w') -> P s') ->
  P s -> is_ok (io_range f l s w).
Proof.
  revert s w. induction l as [|x l IH]; intros s w Hok Hinv HP; cbn [io_range]; [by eexists|].
  destruct (Hok s x w) as [[s1 w1] H1]; [left|done|]. rewrite (io_bind_of_ok _ _ _ _ _ H1).
  apply IH; [intros; apply Hok; [by right|done]|intros s2 y w2 s3 w3 Hy; apply Hinv; by right|].
  eapply Hinv; [left|done..].
Qed.

Lemma call_ok {W A} (f : W -> A * W) w : exists a w', call f w = Ok (a, w').
Proof. unfold call. destruct (f w) as [a w']. eauto. Qed.

Lemma lift_ok {W A} (r : result A) (w : W) a w' : lift r w = Ok (a, w') -> r = Ok a.
Proof. unfold lift. destruct r; [|done..]. by intros [= ->]. Qed.

Lemma lift_slice_ok {W} s n (w : W) : (n <= String.length s)%nat -> exists x, lift (slice_to s n) w = Ok (x, w).
Proof. intros H. destruct (slice_to_ok s n H) as [x Hx]. exists x. unfold lift. by rewrite Hx. Qed.

(** Runs a computation that is known to return. *)
Ltac io_run H := rewrite (io_bind_of_ok _ _ _ _ _ H).
(** ** Totality

    That a computation returns is shown by walking through its binds; the
    lemmas of the components it calls are hints of [wgmesh]. *)

Lemma io_bind_total {W A B} (m : io W A) (f : A -> io W B) w :
  is_ok (m w) -> (forall a w', m w = Ok (a, w') -> is_ok (f a w')) -> is_ok ((m ≫= f) w).
Proof. intros [[a w'] H] Hf. io_run H. by apply Hf. Qed.

Lemma call_total {W A} (f : W -> A * W) w : is_ok (call f w).
Proof. by eexists. Qed.

Lemma mret_total {W A} (a : A) (w : W) : is_ok ((mret a : io W A) w).
Proof. by eexists. Qed.

Lemma lift_slice_total {W} s n (w : W) : (n <= String.length s)%nat -> is_ok (lift (slice_to s n) w).
Proof. intros H. destruct (lift_slice_ok s n w H) as [x Hx]. by eexists. Qed.

Lemma Now_ok {W} {host : Host W} (w : W) :
  Now w = Ok (mkTime (clock w).1.1 (Some (clock w).1.2), (clock w).2).
Proof. unfold Now, call, mbind, io_bind. by destruct (clock w) as [[wall mono] w']. Qed.

Lemma Now_total {W} {host : Host W} (w : W) : is_ok (Now w).
Proof. rewrite Now_ok. by eexists. Qed.

Lemma ask_total {W A} (f : W -> A) w : is_ok (ask f w).
Proof. by eexists. Qed.

#[export] Hint Resolve call_total mret_total lift_slice_total Now_total ask_total : wgmesh.

Ltac io_total :=
  repeat match goal with
  | |- is_ok ((_ ≫= _) _) => apply io_bind_total; [|intros ? ? _]
  | |- is_ok ((if ?b then _ else _) _) => destruct b
  | |- is_ok ((match ?x with _ => _ end) _) => destruct x
  end; eauto with wgmesh.

(** The documented behaviour of the monotonic clock: it does not go back,
    whatever the daemon does, and a sleep lasts at least as long as asked.
    The wall clock may be set at any time. *)
Class HostTime (W : Type) {host : Host W} := {
  time_of : W -> Z;
  clock_time w : (time_of w <= (clock w).1.2 <= time_of (clock w).2)%Z;
  sleep_time d w : (0 <= d)%Z -> (time_of w + d <= time_of (sleep d w).2)%Z;
  run_time prog args w : (time_of w <= time_of (run_command prog args w).2)%Z;
  dial_time path w : (time_of w <= time_of (dial_unix path w).2)%Z;
  write_time path s w : (time_of w <= time_of (write_unix path s w).2)%Z;
  read_time path w : (time_of w <= time_of (read_unix path w).2)%Z;
}.

(** Nobody sets the wall clock: it differs from the monotonic one by a
    constant. *)
Definition wall_steady {W} (host : Host W) (offset : Z) : Prop :=
  forall w, ((clock w).1.1 = (clock w).1.2 + offset)%Z.
