(* ===== verification/Uapi.v ===== *)
(** * The WireGuard client ([pkg/uapi/client.go])

    The client drives the [wg] command and, for fast endpoint changes, the
    UAPI socket of the interface.  Both are reached through [Host]. *)

From S2P Require Import Prelude GoBytes GoStrings Host.

(** ** Standard base64 ([encoding/base64]) *)

Definition b64_char (v : Z) : ascii :=
  ascii_of (if decide (v < 26) then 65 + v else if decide (v < 52) then 71 + v
            else if decide (v < 62) then v - 4 else if decide (v = 62) then 43 else 47)%Z.

Definition b64_val (a : ascii) : option Z :=
  let b := byte_of a in
  (if decide (65 <= b <= 90) then Some (b - 65)
   else if decide (97 <= b <= 122) then Some (b - 71)
   else if decide (48 <= b <= 57) then Some (b + 4)
   else if decide (b = 43) then Some 62
   else if decide (b = 47) then Some 63 else None)%Z.

Definition b64_bytes (a b c d : Z) : list Z :=
  let v := (a * 2 ^ 18 + b * 2 ^ 12 + c * 2 ^ 6 + d)%Z in
  [(v / 2 ^ 16) `mod` 256; (v / 2 ^ 8) `mod` 256; v `mod` 256]%Z.

(** Quanta of four characters; padding only at the end. *)
Fixpoint b64_quanta (l : list ascii) : option (list Z) :=
  match l with
  | [] => Some []
  | c1 :: c2 :: c3 :: c4 :: rest =>
      v1 ← b64_val c1; v2 ← b64_val c2;
      match b64_val c3, b64_val c4 with
      | Some v3, Some v4 => bs ← b64_quanta rest; Some (b64_bytes v1 v2 v3 v4 ++ bs)
      | Some v3, None =>
          if decide (c4 = "="%char /\ rest = []) then Some (take 2 (b64_bytes v1 v2 v3 0)) else None
      | None, _ =>
          if decide (c3 = "="%char /\ c4 = "="%char /\ rest = [])
          then Some (take 1 (b64_bytes v1 v2 0 0)) else None
      end
  | _ => None
  end.

(** [base64.StdEncoding.DecodeString]: line ends are skipped. *)
Definition DecodeString (s : string) : option (list Z) :=
  b64_quanta (filter (fun a => a <> newline /\ a <> "013"%char) (chars s)).

(** [base64.StdEncoding.EncodeToString]: how keys are written. *)
Fixpoint EncodeToString (bs : list Z) : string :=
  match bs with
  | [] => ""
  | [x] =>
      let v := (x * 2 ^ 16)%Z in
      String (b64_char (v / 2 ^ 18)) (String (b64_char ((v / 2 ^ 12) `mod` 64)) "==")
  | [x; y] =>
      let v := (x * 2 ^ 16 + y * 2 ^ 8)%Z in
      String (b64_char (v / 2 ^ 18)) (String (b64_char ((v / 2 ^ 12) `mod` 64))
        (String (b64_char ((v / 2 ^ 6) `mod` 64)) "="))
  | x :: y :: z :: bs =>
      let v := (x * 2 ^ 16 + y * 2 ^ 8 + z)%Z in
      String (b64_char (v / 2 ^ 18)) (String (b64_char ((v / 2 ^ 12) `mod` 64))
        (String (b64_char ((v / 2 ^ 6) `mod` 64)) (String (b64_char (v `mod` 64)) (EncodeToString bs))))
  end.

(** ** Data *)

Record PeerConfig := mkCfg {
  cfg_PublicKey : string;
  cfg_Endpoint : string;
  cfg_AllowedIPs : string;
  cfg_KeepAlive : Z;
}.

Record PeerInfo := mkInfo {
  pi_PublicKey : string;
  pi_PresharedKey : string;
  pi_Endpoint : string;
  pi_AllowedIPs : string;
  pi_LatestHandshake : Z;
  pi_TransferRx : Z;
  pi_TransferTx : Z;
  pi_PersistentKeepalive : Z;
}.

Record Client := mkClient {
  cl_iface : string;
  cl_wgBinary : string;
}.

#[export] Instance PeerInfo_eq_dec : EqDecision PeerInfo.
Proof. solve_decision. Defined.

(** [goos] is [runtime.GOOS], [home] the result of [os.UserHomeDir] and
    [exists_file] whether [os.Stat] finds a path. *)
Definition NewClient (goos home : string) (exists_file : string -> bool) (interfaceName : string) : Client :=
  let wgBin :=
    if decide (goos = "darwin") then
      match filter (fun p => exists_file p = true)
        [home +:+ "/.local/bin/wg"; "/opt/homebrew/bin/wg"; "/opt/homebrew/sbin/wg"; "/usr/local/bin/wg"] with
      | p :: _ => "/usr/bin/sudo -n " +:+ p
      | [] => "/usr/bin/sudo -n wg"
      end
    else "wg" in
  mkClient interfaceName wgBin.

(** [strings.Fields(c.wgBinary)] as [parts[0]] and [parts[1:]]. *)
Definition wg_parts (c : Client) : result (string * list string) :=
  match Fields c.(cl_wgBinary) with
  | [] => Panic SliceOutOfRange
  | p :: ps => Ok (p, ps)
  end.

Definition buildArgs (c : Client) (cfg : PeerConfig) : result (list string) :=
  '(_, pre) ← wg_parts c;
  Ok (pre ++ ["set"; c.(cl_iface); "peer"; cfg.(cfg_PublicKey); "endpoint"; cfg.(cfg_Endpoint)]
      ++ (if decide (cfg.(cfg_AllowedIPs) = "") then [] else ["allowed-ips"; cfg.(cfg_AllowedIPs)])
      ++ (if decide (0 < cfg.(cfg_KeepAlive))%Z
          then ["persistent-keepalive"; Itoa cfg.(cfg_KeepAlive)] else [])).

(** ** Reading the dump *)

(** One line of the loop of [ListPeers]: short lines are skipped, and a
    number that does not parse is replaced by what [strconv] returns beside
    the error. *)
Definition parse_line (line : string) : option PeerInfo :=
  match Split tab line with
  | p0 :: p1 :: p2 :: p3 :: p4 :: p5 :: p6 :: p7 :: _ =>
      Some (mkInfo p0 p1 p2 p3 (ParseInt p4).1 (ParseInt p5).1 (ParseInt p6).1 (Atoi p7).1)
  | _ => None
  end.

Definition parse_dump (dump : string) : list PeerInfo :=
  let lines := Split newline (TrimSpace dump) in
  if decide (length lines < 2) then [] else omap parse_line (tail lines).

Section client.
Context {W : Type} {host : Host W}.

(** [exec.Command(parts[0], args...)] and the error of its run. *)
Definition wg_run (c : Client) (what : string) (args : list string) : io W error :=
  '(prog, _) ← lift (wg_parts c);
  r ← call (run_command prog args);
  mret ((fun err => what +:+ ": " +:+ TrimSpace r.(ex_combined) +:+ ": " +:+ err) <$> r.(ex_err)).

Definition SetPeer (c : Client) (cfg : PeerConfig) : io W error :=
  args ← lift (buildArgs c cfg);
  wg_run c "wg set peer" args.

Definition RemovePeer (c : Client) (publicKey : string) : io W error :=
  '(_, pre) ← lift (wg_parts c);
  wg_run c "wg remove peer" (pre ++ ["set"; c.(cl_iface); "peer"; publicKey; "remove"]).

(** The dump, or the error. *)
Definition ShowDump (c : Client) : io W (string + string) :=
  '(prog, pre) ← lift (wg_parts c);
  r ← call (run_command prog (pre ++ ["show"; c.(cl_iface); "dump"]));
  mret (match r.(ex_err) with
        | Some err => inr ("wg show dump: " +:+ err)
        | None => inl r.(ex_stdout)
        end).

Definition ListPeers (c : Client) : io W (list PeerInfo + string) :=
  d ← ShowDump c;
  mret (match d with inl dump => inl (parse_dump dump) | inr err => inr err end).

Definition SetEndpoint (c : Client) (publicKey endpoint : string) : io W error :=
  '(_, pre) ← lift (wg_parts c);
  wg_run c "wg set endpoint" (pre ++ ["set"; c.(cl_iface); "peer"; publicKey; "endpoint"; endpoint]).

Definition uapi_request (keyBytes : list Z) (endpoint : string) : string :=
  "set=1" +:+ String newline ("public_key=" +:+ hex_encode keyBytes +:+
  String newline ("endpoint=" +:+ endpoint +:+ String newline (String newline ""))).

(** The loop of [SetEndpointFast] over the socket paths; leaving the loop
    ends in [SetEndpoint]. *)
Fixpoint fast_paths (c : Client) (publicKey endpoint : string) (paths : list string) : io W error :=
  match paths with
  | [] => SetEndpoint c publicKey endpoint
  | path :: paths =>
      dialled ← call (dial_unix path);
      if (dialled : bool) then
        match DecodeString publicKey with
        | Some keyBytes =>
            if decide (length keyBytes = 32) then
              sent ← call (write_unix path (uapi_request keyBytes endpoint));
              if (sent : bool) then
                '(line, complete) ← call (read_unix path);
                if (complete : bool) && bool_decide (TrimSpace line = "errno=0") then mret None
                else SetEndpoint c publicKey endpoint
              else SetEndpoint c publicKey endpoint
            else SetEndpoint c publicKey endpoint
        | None => SetEndpoint c publicKey endpoint
        end
      else fast_paths c publicKey endpoint paths
  end.

Definition uapi_paths (c : Client) : list string :=
  ["/var/run/wireguard/" +:+ c.(cl_iface) +:+ ".sock"; "/run/wireguard/" +:+ c.(cl_iface) +:+ ".sock"].

Definition SetEndpointFast (c : Client) (publicKey endpoint : string) : io W error :=
  fast_paths c publicKey endpoint (uapi_paths c).
End client.

Example b64_key :
  length <$> DecodeString "xTIBA5rboUvnH4htodjb6e697QjLERt1NAB4mZqp8Dg=" = Some 32.
Proof. vm_compute. reflexivity. Qed.
Example b64_bad : DecodeString "xTIB=5rb" = None.
Proof. vm_compute. reflexivity. Qed.
