(* ===== verification/UapiProps.v ===== *)
(** * The WireGuard client: theorems *)

From S2P Require Import Prelude GoBytes GoStrings Host Uapi.

(** ** Base64 round trip *)

Open Scope Z_scope.

Lemma b64_table v :
  0 <= v < 64 ->
  b64_val (b64_char v) = Some v /\ b64_char v <> newline /\ b64_char v <> "013"%char /\ b64_char v <> "="%char.
Proof.
  intros Hv.
  assert (Forall (fun n => b64_val (b64_char (Z.of_nat n)) = Some (Z.of_nat n) /\
    b64_char (Z.of_nat n) <> newline /\ b64_char (Z.of_nat n) <> "013"%char /\
    b64_char (Z.of_nat n) <> "="%char) (seq 0 64)) as HF.
  { repeat (constructor; [done|]). constructor. }
  rewrite Forall_forall in HF. specialize (HF (Z.to_nat v)). rewrite Z2Nat.id in HF by lia.
  apply HF, elem_of_seq. lia.
Qed.

Lemma b64_bytes_split x y z :
  byte_range x -> byte_range y -> byte_range z ->
  let v := x * 2 ^ 16 + y * 2 ^ 8 + z in
  b64_bytes (v / 2 ^ 18) ((v / 2 ^ 12) `mod` 64) ((v / 2 ^ 6) `mod` 64) (v `mod` 64) = [x; y; z] /\
  0 <= v / 2 ^ 18 < 64.
Proof.
  intros Hx Hy Hz v. unfold byte_range in Hx, Hy, Hz.
  assert (v / 2 ^ 18 * 2 ^ 18 + (v / 2 ^ 12) `mod` 64 * 2 ^ 12 + (v / 2 ^ 6) `mod` 64 * 2 ^ 6 + v `mod` 64 = v) as Hv.
  { Z.to_euclidean_division_equations. lia. }
  split; [|unfold v; Z.to_euclidean_division_equations; lia].
  unfold b64_bytes. cbn zeta. rewrite Hv. unfold v. f_equal; [|f_equal; [|f_equal]];
    Z.to_euclidean_division_equations; lia.
Qed.

Definition b64_plain (a : ascii) : Prop := a <> newline /\ a <> "013"%char.

Lemma b64_plain_char v : 0 <= v < 64 -> b64_plain (b64_char v).
Proof. intros (_ & ? & ? & _)%b64_table. by split. Qed.

Lemma EncodeToString_plain bs : Forall byte_range bs -> Forall b64_plain (chars (EncodeToString bs)).
Proof.
  revert bs. fix IH 1. intros bs H. destruct bs as [|x [|y [|z bs]]]; cbn [EncodeToString].
  - constructor.
  - apply Forall_cons in H as [Hx _]. destruct (b64_bytes_split x 0 0) as [_ Hv]; [done..|].
    rewrite !Z.mul_0_l, !Z.add_0_r in Hv.
    repeat (constructor; [first [by split | apply b64_plain_char; first [exact Hv | apply Z.mod_pos_bound; lia]]|]).
    constructor.
  - apply Forall_cons in H as [Hx [Hy _]%Forall_cons]. destruct (b64_bytes_split x y 0) as [_ Hv]; [done..|].
    rewrite !Z.add_0_r in Hv.
    repeat (constructor; [first [by split | apply b64_plain_char; first [exact Hv | apply Z.mod_pos_bound; lia]]|]).
    constructor.
  - apply Forall_cons in H as [Hx [Hy [Hz Hbs]%Forall_cons]%Forall_cons].
    destruct (b64_bytes_split x y z) as [_ Hv]; [done..|].
    do 4 (constructor; [apply b64_plain_char; first [exact Hv | apply Z.mod_pos_bound; lia]|]). by apply IH.
Qed.

Lemma b64_quanta_encode bs :
  Forall byte_range bs -> b64_quanta (chars (EncodeToString bs)) = Some bs.
Proof.
  revert bs. fix IH 1. intros bs H. destruct bs as [|x [|y [|z bs]]]; cbn [EncodeToString].
  - done.
  - apply Forall_cons in H as [Hx _]. destruct (b64_bytes_split x 0 0) as [Hs Hv]; [done..|].
    rewrite !Z.mul_0_l, !Z.add_0_r in Hs, Hv. cbn [chars b64_quanta].
    rewrite (proj1 (b64_table _ Hv)), (proj1 (b64_table _ (Z.mod_pos_bound _ 64 ltac:(lia)))). cbn [mbind option_bind].
    change (b64_val "=") with (@None Z). rewrite decide_True by done. f_equal.
    assert ((x * 2 ^ 16 / 2 ^ 6) `mod` 64 = 0 /\ (x * 2 ^ 16) `mod` 64 = 0) as [H6 H0]
      by (Z.to_euclidean_division_equations; lia).
    rewrite H6, H0 in Hs. by rewrite Hs.
  - apply Forall_cons in H as [Hx [Hy _]%Forall_cons]. destruct (b64_bytes_split x y 0) as [Hs Hv]; [done..|].
    rewrite !Z.add_0_r in Hs, Hv. cbn [chars b64_quanta].
    rewrite (proj1 (b64_table _ Hv)), !(proj1 (b64_table _ (Z.mod_pos_bound _ 64 ltac:(lia)))). cbn [mbind option_bind].
    change (b64_val "=") with (@None Z). rewrite decide_True by done. f_equal.
    assert ((x * 2 ^ 16 + y * 2 ^ 8) `mod` 64 = 0) as H0 by (Z.to_euclidean_division_equations; lia).
    rewrite H0 in Hs. by rewrite Hs.
  - apply Forall_cons in H as [Hx [Hy [Hz Hbs]%Forall_cons]%Forall_cons].
    destruct (b64_bytes_split x y z) as [Hs Hv]; [done..|]. cbn [chars b64_quanta].
    rewrite (proj1 (b64_table _ Hv)), !(proj1 (b64_table _ (Z.mod_pos_bound _ 64 ltac:(lia)))). cbn [mbind option_bind].
    rewrite Hs, IH by done. done.
Qed.

Lemma Decode_Encode bs : Forall byte_range bs -> DecodeString (EncodeToString bs) = Some bs.
Proof.
  intros H. unfold DecodeString. rewrite filter_all; [by apply b64_quanta_encode|].
  by apply EncodeToString_plain.
Qed.

Close Scope Z_scope.

(** ** The text of a dump *)

(** What [wg show <iface> dump] prints: a line for the interface, then a
    line of tab-separated fields per peer, with [off] for no keepalive. *)
Definition ka_field (ka : Z) : string := if decide (ka = 0%Z) then "off" else Itoa ka.

Definition peer_fields (p : PeerInfo) : list string :=
  [p.(pi_PublicKey); p.(pi_PresharedKey); p.(pi_Endpoint); p.(pi_AllowedIPs);
   Itoa p.(pi_LatestHandshake); Itoa p.(pi_TransferRx); Itoa p.(pi_TransferTx)]
  ++ [ka_field p.(pi_PersistentKeepalive)].

Definition peer_line (p : PeerInfo) : string := Join tab (peer_fields p).

Definition wg_dump (iface_line : string) (ps : list PeerInfo) : string :=
  Join newline (iface_line :: (peer_line <$> ps)) +:+ String newline "".

Definition text_field (s : string) : Prop :=
  ascii_text s /\ has_byte tab s = false /\ has_byte newline s = false.

Record info_ok (p : PeerInfo) : Prop := {
  io_pk : text_field p.(pi_PublicKey);
  io_psk : text_field p.(pi_PresharedKey);
  io_ep : text_field p.(pi_Endpoint);
  io_ips : text_field p.(pi_AllowedIPs);
  io_hs : int64_range p.(pi_LatestHandshake);
  io_rx : int64_range p.(pi_TransferRx);
  io_tx : int64_range p.(pi_TransferTx);
  io_ka : int64_range p.(pi_PersistentKeepalive);
}.

(** The last byte is not white space. *)
Definition ends_ok (s : string) : Prop :=
  exists u b, s = u +:+ String b "" /\ byte_space b = false.

Record iface_ok (s : string) : Prop := {
  if_text : ascii_text s;
  if_line : has_byte newline s = false;
  if_edges : exists a m, s = String a m /\ byte_space a = false /\ ends_ok m;
}.

Lemma ends_ok_app u s : ends_ok s -> ends_ok (u +:+ s).
Proof. intros (v & b & -> & ?). exists (u +:+ v), b. by rewrite str_app_assoc. Qed.

Lemma ends_ok_sep u c s : ends_ok s -> ends_ok (u +:+ String c s).
Proof. intros H. apply ends_ok_app. by apply (ends_ok_app (String c "")). Qed.

Lemma ends_ok_Join sep ps p : ends_ok p -> ends_ok (Join sep (ps ++ [p])).
Proof.
  intros Hp. induction ps as [|q ps IH]; [done|]. cbn [app].
  destruct (ps ++ [p]) as [|r rs] eqn:E; [by destruct ps|].
  rewrite Join_cons. by apply ends_ok_sep.
Qed.

Lemma ascii_text_app s1 s2 : ascii_text (s1 +:+ s2) <-> ascii_text s1 /\ ascii_text s2.
Proof. unfold ascii_text. by rewrite chars_app, Forall_app. Qed.

Lemma ascii_text_Join sep ps :
  is_ascii sep = true -> Forall ascii_text ps -> ascii_text (Join sep ps).
Proof.
  intros Hsep. induction ps as [|p ps IH]; [constructor|]. intros [Hp Hps]%Forall_cons.
  destruct ps as [|q ps]; [done|]. rewrite Join_cons. apply ascii_text_app. split; [done|].
  constructor; [done|]. by apply IH.
Qed.

Lemma digit_byte n :
  is_ascii (ascii_of (48 + n `mod` 10)) = true /\ byte_space (ascii_of (48 + n `mod` 10)) = false.
Proof.
  pose proof (Z.mod_pos_bound n 10 ltac:(lia)). unfold is_ascii, byte_space, is_space.
  rewrite byte_of_ascii_of by (unfold byte_range; lia).
  split; [apply bool_decide_eq_true; lia|].
  repeat (apply orb_false_iff; split); apply bool_decide_eq_false; lia.
Qed.

Lemma dec_digits_text fuel n acc :
  ascii_text acc -> ends_ok acc ->
  ascii_text (dec_digits fuel n acc) /\ ends_ok (dec_digits fuel n acc).
Proof.
  revert n acc. induction fuel as [|fuel IH]; intros n acc Ha He; cbn [dec_digits]; [done|].
  destruct (digit_byte n) as [H1 H2].
  assert (ascii_text (String (ascii_of (48 + n `mod` 10)) acc)) as Ht by by constructor.
  assert (ends_ok (String (ascii_of (48 + n `mod` 10)) acc)) as Hk by by apply (ends_ok_app (String _ "")).
  destruct (decide (n < 10)%Z); auto.
Qed.

Lemma Itoa_text n : ascii_text (Itoa n) /\ ends_ok (Itoa n).
Proof.
  assert (forall fuel m, ascii_text (dec_digits (S fuel) m "") /\ ends_ok (dec_digits (S fuel) m "")) as Hd.
  { intros fuel m. cbn [dec_digits]. destruct (digit_byte m) as [H1 H2].
    assert (ascii_text (String (ascii_of (48 + m `mod` 10)) "")) by (constructor; [done|constructor]).
    assert (ends_ok (String (ascii_of (48 + m `mod` 10)) "")) by by eexists "", _.
    destruct (decide (m < 10)%Z); [done|]. by apply dec_digits_text. }
  unfold Itoa. destruct (decide (n < 0)%Z); [|apply Hd].
  destruct (Hd 19 (- n)%Z) as [? ?]. split; [by constructor|]. by apply (ends_ok_app "-").
Qed.

Lemma Itoa_field n : text_field (Itoa n).
Proof. split; [apply Itoa_text|]. split; by apply Itoa_bytes. Qed.

Lemma ka_field_text ka : text_field (ka_field ka) /\ ends_ok (ka_field ka).
Proof.
  unfold ka_field. destruct (decide (ka = 0)%Z).
  - split; [split; [repeat constructor|done]|]. by exists "of", "f"%char.
  - split; [apply Itoa_field|apply Itoa_text].
Qed.

Lemma ka_field_value ka : int64_range ka -> (Atoi (ka_field ka)).1 = ka.
Proof. intros H. unfold ka_field. destruct (decide (ka = 0)%Z) as [->|]; [done|]. by rewrite Atoi_Itoa. Qed.

Lemma peer_fields_text p : info_ok p -> Forall text_field (peer_fields p).
Proof.
  intros []. unfold peer_fields. repeat (constructor; [by auto using Itoa_field|]).
  constructor; [apply ka_field_text|constructor].
Qed.

Lemma peer_line_text p : info_ok p -> ascii_text (peer_line p) /\ has_byte newline (peer_line p) = false /\ ends_ok (peer_line p).
Proof.
  intros Hp%peer_fields_text. unfold peer_line. split; [|split].
  - apply ascii_text_Join; [done|]. eapply Forall_impl; [exact Hp|]. by intros ? [].
  - apply has_byte_Join; [done|]. eapply Forall_impl; [exact Hp|]. by intros ? (_ & _ & ?).
  - apply ends_ok_Join, ka_field_text.
Qed.

Lemma parse_peer_line p : info_ok p -> parse_line (peer_line p) = Some p.
Proof.
  intros Hp. unfold parse_line, peer_line. rewrite Split_Join.
  - destruct Hp. cbn -[Itoa ka_field Atoi ParseInt]. rewrite ka_field_value by done.
    assert (forall n, int64_range n -> (ParseInt (Itoa n)).1 = n) as Hn.
    { intros n Hn. change (ParseInt (Itoa n)) with (Atoi (Itoa n)). by rewrite Atoi_Itoa. }
    rewrite !Hn by done. by destruct p.
  - done.
  - eapply Forall_impl; [by apply peer_fields_text|]. by intros ? (_ & ? & _).
Qed.

(** A trimmed dump loses only its final line end. *)
Lemma TrimSpace_lines s :
  ascii_text s -> (exists a m, s = String a m /\ byte_space a = false /\ ends_ok m) ->
  TrimSpace (s +:+ String newline "") = s.
Proof.
  intros Ht (a & m & -> & Ha & u & b & -> & Hb).
  assert (String a (u +:+ String b "") +:+ String newline "" = of_chars (a :: chars u ++ b :: [newline])) as ->.
  { rewrite <- (String.string_of_list_ascii_of_string (_ +:+ _)). f_equal.
    rewrite str_app_cons, str_app_assoc. cbn. by rewrite chars_app. }
  rewrite TrimSpace_ascii; [|..|by repeat constructor].
  - change (a :: chars u ++ [b]) with (chars (String a "") ++ (chars u ++ chars (String b ""))).
    rewrite <- !chars_app. apply String.string_of_list_ascii_of_string.
  - unfold ascii_text in Ht. cbn in Ht. rewrite chars_app in Ht. apply Forall_cons in Ht as [? [? Hb']%Forall_app].
    constructor; [done|]. apply Forall_app. split; [done|]. apply Forall_cons in Hb' as [? _].
    repeat (constructor; [done|]). constructor.
  - done.
  - done.
Qed.

Lemma wg_dump_lines iface ps :
  iface_ok iface -> Forall info_ok ps ->
  Split newline (TrimSpace (wg_dump iface ps)) = iface :: (peer_line <$> ps).
Proof.
  intros [Ht Hl (a & m & -> & Ha & Hm)] Hps. unfold wg_dump.
  assert (Forall (fun l => ascii_text l /\ has_byte newline l = false /\ ends_ok l) (peer_line <$> ps)) as Hls.
  { apply Forall_fmap. eapply Forall_impl; [exact Hps|]. apply peer_line_text. }
  rewrite TrimSpace_lines.
  - apply Split_Join; [done|]. constructor; [done|]. eapply Forall_impl; [exact Hls|]. by intros ? (_ & ? & _).
  - apply ascii_text_Join; [done|]. constructor; [done|]. eapply Forall_impl; [exact Hls|]. by intros ? (? & _).
  - destruct (peer_line <$> ps) as [|l ls]; [by exists a, m|].
    exists a, (m +:+ String newline (Join newline (l :: ls))). split; [done|]. split; [done|].
    apply ends_ok_sep. destruct (exists_last (l := l :: ls)) as (ls' & l' & E); [done|].
    rewrite E. apply ends_ok_Join. rewrite E in Hls. by apply Forall_app in Hls as [_ [(_ & _ & ?) _]%Forall_cons].
Qed.

(** ** Theorems *)

(** C10: Parsing the dump that wg prints (interface line, then a line of eight tab-separated
    fields per peer, 'off' for no keepalive) gives back exactly the peers it lists, for
    every list of peers with ASCII fields and 64-bit numbers. *)
Theorem dump_roundtrip (iface_line : string) (ps : list PeerInfo) :
  iface_ok iface_line -> Forall info_ok ps -> parse_dump (wg_dump iface_line ps) = ps.
Proof.
  intros Hi Hps. unfold parse_dump. rewrite wg_dump_lines by done. cbn [length tail].
  rewrite length_fmap. destruct (decide _) as [Hlen|_].
  - symmetry. apply nil_length_inv. lia.
  - induction Hps as [|p ps Hp _ IH]; [done|].
    cbn [fmap list_fmap omap list_omap]. rewrite parse_peer_line by done. by f_equal.
Qed.

Lemma ascii_text_b s : forallb is_ascii (chars s) = true -> ascii_text s.
Proof. intros H. apply Forall_forall. intros a Ha. rewrite forallb_forall in H. by apply H, list_elem_of_In. Qed.

Definition demo_info : PeerInfo :=
  mkInfo "xTIBA5rboUvnH4htodjb6e697QjLERt1NAB4mZqp8Dg=" "(none)" "198.51.100.7:51820" "10.0.0.2/32"
    1700000000 92 148 25.
Definition demo_iface : string :=
  Join tab ["cHJpdmF0ZQ=="; "cHVibGlj"; "51820"; "off"].

Lemma dump_roundtrip_witness : parse_dump (wg_dump demo_iface [demo_info]) = [demo_info].
Proof.
  apply (dump_roundtrip demo_iface [demo_info]).
  - split.
    + apply ascii_text_b. vm_compute. reflexivity.
    + vm_compute. reflexivity.
    + eexists _, _. split; [vm_compute; reflexivity|]. split; [vm_compute; reflexivity|].
      exists "HJpdmF0ZQ==	cHVibGlj	51820	of", "f"%char. split; vm_compute; reflexivity.
  - constructor; [|constructor]. split.
    1-4: split; [apply ascii_text_b|split]; vm_compute; reflexivity.
    all: vm_compute; split; discriminate.
Defined.

(** ** Commands *)

Lemma NewClient_parts goos home exists_file iface :
  exists prog pre, wg_parts (NewClient goos home exists_file iface) = Ok (prog, pre) /\
    ((goos <> "darwin" /\ prog = "wg" /\ pre = []) \/ (goos = "darwin" /\ prog = "/usr/bin/sudo" /\ exists path,
       pre = "-n" :: Fields path)).
Proof.
  assert (forall path, Fields ("/usr/bin/sudo -n " +:+ path) = "/usr/bin/sudo" :: "-n" :: Fields path) as Hs.
  { intros path. change ("/usr/bin/sudo -n " +:+ path) with ("/usr/bin/sudo" +:+ String " " ("-n" +:+ String " " path)).
    rewrite !Fields_word; [done|..]; (split; [done|]); repeat (constructor; [done|]); constructor. }
  unfold NewClient, wg_parts. destruct (decide (goos = "darwin")) as [->|Hg]; cbn [cl_wgBinary].
  - destruct (filter _ _) as [|p ps].
    + change "/usr/bin/sudo -n wg" with ("/usr/bin/sudo -n " +:+ "wg"). rewrite Hs. naive_solver.
    + rewrite Hs. naive_solver.
  - change (Fields "wg") with ["wg"]. naive_solver.
Qed.

Section commands.
Context {W : Type} {host : Host W}.

Lemma wg_run_ok c prog pre what args w :
  wg_parts c = Ok (prog, pre) ->
  let '(r, w') := run_command prog args w in
  exists e, wg_run c what args w = Ok (e, w') /\ (e = None <-> r.(ex_err) = None).
Proof.
  intros Hp. unfold wg_run, lift, call. rewrite Hp. unfold mbind, io_bind; cbn.
  destruct (run_command prog args w) as [r w']. eexists. split; [done|]. apply fmap_None.
Qed.

Lemma SetEndpoint_run c prog pre pk ep w :
  wg_parts c = Ok (prog, pre) ->
  SetEndpoint c pk ep w = wg_run c "wg set endpoint" (pre ++ ["set"; c.(cl_iface); "peer"; pk; "endpoint"; ep]) w.
Proof. intros Hp. unfold SetEndpoint, lift. rewrite Hp. done. Qed.

Lemma SetPeer_run c prog pre cfg args w :
  wg_parts c = Ok (prog, pre) -> buildArgs c cfg = Ok args ->
  SetPeer c cfg w = wg_run c "wg set peer" args w.
Proof. intros Hp Ha. unfold SetPeer, lift. rewrite Ha. done. Qed.

Lemma buildArgs_ok c prog pre cfg :
  wg_parts c = Ok (prog, pre) -> exists args, buildArgs c cfg = Ok args.
Proof. intros Hp. unfold buildArgs. rewrite Hp. cbn. eauto. Qed.

(** How a successful [SetEndpoint] ends. *)
Lemma SetEndpoint_nil c prog pre pk ep w w' :
  wg_parts c = Ok (prog, pre) -> SetEndpoint c pk ep w = Ok (None, w') ->
  exists r, run_command prog (pre ++ ["set"; c.(cl_iface); "peer"; pk; "endpoint"; ep]) w = (r, w') /\ r.(ex_err) = None.
Proof.
  intros Hp. rewrite (SetEndpoint_run c prog pre) by done.
  pose proof (wg_run_ok c prog pre "wg set endpoint" (pre ++ ["set"; c.(cl_iface); "peer"; pk; "endpoint"; ep]) w Hp) as H.
  destruct (run_command _ _ w) as [r w1]. destruct H as (e & -> & He). intros [= -> ->]. exists r. tauto.
Qed.

(** ** Total commands *)

Lemma fast_paths_total c prog pre pk ep paths w :
  wg_parts c = Ok (prog, pre) -> is_ok (fast_paths c pk ep paths w).
Proof.
  intros Hp. assert (forall w, is_ok (SetEndpoint c pk ep w)) as Hs.
  { intros w'. rewrite (SetEndpoint_run c prog pre) by done.
    pose proof (wg_run_ok c prog pre "wg set endpoint" (pre ++ ["set"; c.(cl_iface); "peer"; pk; "endpoint"; ep]) w' Hp) as H.
    destruct (run_command _ _ w') as [r w1]. destruct H as (e & -> & _). by eexists. }
  revert w. induction paths as [|path paths IH]; intros w; cbn [fast_paths]; [apply Hs|].
  unfold mbind, io_bind, call. destruct (dial_unix path w) as [[] w1]; [|apply IH].
  destruct (DecodeString pk) as [kb|]; [|apply Hs]. destruct (decide _); [|apply Hs].
  destruct (write_unix _ _ w1) as [[] w2]; [|apply Hs].
  destruct (read_unix path w2) as [[line complete] w3]. destruct (_ && _); [by eexists|apply Hs].
Qed.

(** A client whose command line names a program. *)
Definition client_ok (c : Client) : Prop := is_ok (wg_parts c).

Lemma wg_run_total c what args (w : W) : client_ok c -> is_ok (wg_run c what args w).
Proof.
  intros [[prog pre] Hp]. pose proof (wg_run_ok c prog pre what args w Hp) as H.
  destruct (run_command prog args w) as [r w1]. destruct H as (e & -> & _). by eexists.
Qed.

Lemma SetPeer_total c cfg (w : W) : client_ok c -> is_ok (SetPeer c cfg w).
Proof.
  intros Hc. pose proof Hc as [[prog pre] Hp]. destruct (buildArgs_ok c prog pre cfg Hp) as (args & Ha).
  rewrite (SetPeer_run c prog pre cfg args) by done. by apply wg_run_total.
Qed.

Lemma ShowDump_total c (w : W) : client_ok c -> is_ok (ShowDump c w).
Proof.
  intros [[prog pre] Hp]. unfold ShowDump, lift, mbind, io_bind, call. rewrite Hp. cbn.
  destruct (run_command _ _ w). by eexists.
Qed.

Lemma ListPeers_total c (w : W) : client_ok c -> is_ok (ListPeers c w).
Proof.
  intros Hc. unfold ListPeers. apply io_bind_total; [by apply ShowDump_total|]. io_total.
Qed.

Lemma RemovePeer_total c pk (w : W) : client_ok c -> is_ok (RemovePeer c pk w).
Proof.
  intros Hc. pose proof Hc as [[prog pre] Hp]. unfold RemovePeer, lift, mbind, io_bind.
  rewrite Hp. by apply wg_run_total.
Qed.

Lemma SetEndpoint_total c pk ep (w : W) : client_ok c -> is_ok (SetEndpoint c pk ep w).
Proof.
  intros Hc. pose proof Hc as [[prog pre] Hp]. rewrite (SetEndpoint_run c prog pre) by done.
  by apply wg_run_total.
Qed.

Lemma SetEndpointFast_total c pk ep (w : W) : client_ok c -> is_ok (SetEndpointFast c pk ep w).
Proof. intros [[prog pre] Hp]. by apply (fast_paths_total c prog pre). Qed.

(** The commands of a client made by [NewClient] never panic. *)
Theorem client_commands_total goos home exists_file iface (cfg : PeerConfig) (pk ep : string) (w : W) :
  let c := NewClient goos home exists_file iface in
  is_ok (SetPeer c cfg w) /\ is_ok (RemovePeer c pk w) /\ is_ok (ShowDump c w) /\
  is_ok (ListPeers c w) /\ is_ok (SetEndpoint c pk ep w) /\ is_ok (SetEndpointFast c pk ep w).
Proof.
  intros c. assert (client_ok c) as Hc.
  { destruct (NewClient_parts goos home exists_file iface) as (prog & pre & Hp & _). by eexists. }
  split_and!; eauto using SetPeer_total, RemovePeer_total, ShowDump_total, ListPeers_total,
    SetEndpoint_total, SetEndpointFast_total.
Qed.

(** C37: SetEndpointFast returns nil only if a UAPI socket of the interface answered errno=0
    to a request with the decoded 32-byte key and this endpoint, or the wg command for
    this endpoint succeeded. *)
Theorem SetEndpointFast_nil_acknowledged (c : Client) prog pre (pk ep : string) (w w' : W) :
  wg_parts c = Ok (prog, pre) ->
  SetEndpointFast c pk ep w = Ok (None, w') ->
  (exists path kb w1 w2 line,
     path ∈ uapi_paths c /\ DecodeString pk = Some kb /\ length kb = 32 /\
     write_unix path (uapi_request kb ep) w1 = (true, w2) /\
     read_unix path w2 = ((line, true), w') /\ TrimSpace line = "errno=0") \/
  (exists w1 r,
     run_command prog (pre ++ ["set"; c.(cl_iface); "peer"; pk; "endpoint"; ep]) w1 = (r, w') /\
     r.(ex_err) = None).
Proof.
  intros Hp. unfold SetEndpointFast. revert w.
  assert (forall w, SetEndpoint c pk ep w = Ok (None, w') -> exists w1 r,
     run_command prog (pre ++ ["set"; c.(cl_iface); "peer"; pk; "endpoint"; ep]) w1 = (r, w') /\
     r.(ex_err) = None) as Hs.
  { intros w H. eapply SetEndpoint_nil in H as (r & ? & ?); eauto. }
  induction (uapi_paths c) as [|path paths IH]; intros w; cbn [fast_paths]; [eauto|].
  unfold mbind, io_bind, call. destruct (dial_unix path w) as [[] w1].
  - destruct (DecodeString pk) as [kb|] eqn:Hk; [|eauto].
    destruct (decide (length kb = 32)) as [Hlen|]; [|eauto].
    destruct (write_unix _ _ w1) as [[] w2] eqn:Hw; [|eauto].
    destruct (read_unix path w2) as [[line complete] w3] eqn:Hr.
    destruct complete; cbn [andb]; [|eauto]. destruct (bool_decide _) eqn:Hb; [|eauto].
    apply bool_decide_eq_true in Hb. intros [= ->]. left. exists path, kb, w1, w2, line.
    split; [left|]. done.
  - intros H. destruct (IH _ H) as [(p & kb & w2 & w3 & line & Hin & ?)|?]; [|auto].
    left. exists p, kb, w2, w3, line. split; [by right|done].
Qed.

(** With a base64 key of 32 bytes and an open first socket, the request carries the key as
    64 hexadecimal digits; any failure falls back to the command. *)
Theorem SetEndpointFast_request (c : Client) (key : list Z) (ep : string) (w : W) :
  Forall byte_range key -> length key = 32 ->
  let pk := EncodeToString key in
  let path := "/var/run/wireguard/" +:+ c.(cl_iface) +:+ ".sock" in
  let req := uapi_request key ep in
  hex_decode (hex_encode key) = key /\ String.length (hex_encode key) = 64 /\
  forall w1, dial_unix path w = (true, w1) ->
  SetEndpointFast c pk ep w =
    (let '(sent, w2) := write_unix path req w1 in
     if (sent : bool) then
       let '((line, complete), w3) := read_unix path w2 in
       if (complete : bool) && bool_decide (TrimSpace line = "errno=0") then Ok (None, w3)
       else SetEndpoint c pk ep w3
     else SetEndpoint c pk ep w2).
Proof.
  intros Hb Hl. cbn zeta. split; [by apply hex_decode_encode|].
  split; [rewrite hex_encode_length, Hl; done|].
  intros w1 Hd. unfold SetEndpointFast, uapi_paths. cbn [fast_paths]. unfold mbind, io_bind at 1, call at 1.
  rewrite Hd, Decode_Encode, decide_True by done. unfold io_bind, call.
  destruct (write_unix _ _ w1) as [[] w2]; [|done].
  destruct (read_unix _ w2) as [[line complete] w3]. by destruct (complete && _).
Qed.
End commands.

#[export] Hint Resolve SetPeer_total RemovePeer_total ShowDump_total ListPeers_total SetEndpoint_total
  SetEndpointFast_total : wgmesh.

(** Setting a peer with empty allowed-ips issues the command that sets only its endpoint:
    routes are not cleared. *)
Theorem empty_allowed_ips_same_command (c : Client) prog pre (pk ep ips : string) (ka : Z) :
  wg_parts c = Ok (prog, pre) ->
  let endpoint_args := pre ++ ["set"; c.(cl_iface); "peer"; pk; "endpoint"; ep] in
  let ka_args := if decide (0 < ka)%Z then ["persistent-keepalive"; Itoa ka] else [] in
  buildArgs c (mkCfg pk ep "" ka) = Ok (endpoint_args ++ ka_args) /\
  (ips <> "" -> buildArgs c (mkCfg pk ep ips ka)
                = Ok (endpoint_args ++ ["allowed-ips"; ips] ++ ka_args)).
Proof.
  intros Hp. unfold buildArgs. rewrite Hp. cbn [mbind result_bind cfg_AllowedIPs cfg_KeepAlive cfg_PublicKey cfg_Endpoint].
  split.
  - by rewrite decide_True, <- app_assoc by done.
  - intros Hi. by rewrite decide_False, <- app_assoc by done.
Qed.
