(* ===== verification/Ports.v ===== *)
(** * Candidate ports of a blind scan ([prioritizedPorts] in [cmd/wg-meshd/main.go])

    The ports to try, nearest to the last known one first.  Sums wrap around
    as [int] does.  The third loop counts up to [center + 4096] and does not
    end when that is the largest [int]; it runs on fuel. *)

From S2P Require Import Prelude.
Open Scope Z_scope.

(** The values of [i] in [for i := lo; i <= hi; i++], for a [hi] that is not
    the largest [int]. *)
Fixpoint range_from (lo : Z) (n : nat) : list Z :=
  match n with
  | O => []
  | S n => lo :: range_from (lo + 1) n
  end.
Definition up_to (lo hi : Z) : list Z := range_from lo (Z.to_nat (hi - lo + 1)).

(** The closure's variables [seen] and [out]. *)
Record scan_state := mkScan {
  sc_seen : gset Z;
  sc_out : list Z;
}.

Definition add (count : Z) (st : scan_state) (p : Z) : scan_state :=
  if decide ((1 <= p /\ p <= 65535) /\ p ∉ st.(sc_seen) /\ Z.of_nat (length st.(sc_out)) < count)
  then mkScan ({[p]} ∪ st.(sc_seen)) (st.(sc_out) ++ [p])
  else st.

Definition clamp_count (count : Z) : Z :=
  if decide (count <= 0 \/ 65535 < count) then 65535 else count.

(** [for p := p; p <= hi; p++ { f(p) }]. *)
Fixpoint for_upto {S} (fuel : nat) (f : S -> Z -> S) (p hi : Z) (s : S) : result S :=
  if decide (p <= hi) then
    match fuel with
    | O => NoFuel
    | Datatypes.S fuel => for_upto fuel f (wrap64 (p + 1)) hi (f s p)
    end
  else Ok s.

Definition prioritizedPorts_fuel (fuel : nat) (center count : Z) : result (list Z) :=
  let count := clamp_count count in
  let add := add count in
  let st := mkScan ∅ [] in
  let st := foldl (fun st d =>
    let st := add st (wrap64 (center - d)) in
    if decide (d <> 0) then add st (wrap64 (center + d)) else st) st (up_to 0 512) in
  let st := foldl (fun st d => add (add st (wrap64 (center - d))) (wrap64 (center + d))) st (up_to 513 4096) in
  st ← for_upto fuel add (wrap64 (center - 4096)) (wrap64 (center + 4096)) st;
  let st := foldl add st (up_to 1 65535) in
  Ok st.(sc_out).

(** The third loop has at most 8193 iterations if it ends. *)
Definition prioritizedPorts (center count : Z) : result (list Z) := prioritizedPorts_fuel 8193 center count.

Example ports_near_edge : prioritizedPorts 2 6 = Ok [2; 1; 3; 4; 5; 6].
Proof. vm_compute. reflexivity. Qed.

(** ** Reference definition *)

Definition port_ok (p : Z) : Prop := 1 <= p <= 65535.

(** The valid ports of a candidate list, each at its first occurrence,
    without those already seen. *)
Fixpoint uniq (seen : gset Z) (cs : list Z) : list Z :=
  match cs with
  | [] => []
  | p :: cs =>
      if decide ((1 <= p /\ p <= 65535) /\ p ∉ seen) then p :: uniq ({[p]} ∪ seen) cs else uniq seen cs
  end.

(** The two ports at a distance; they come before all farther ones. *)
Definition at_distance (center d : Z) : list Z :=
  if decide (d = 0) then [wrap64 center] else [wrap64 (center - d); wrap64 (center + d)].
Definition near (center : Z) : list Z := concat (at_distance center <$> up_to 0 4096).

Lemma range_from_seqZ lo n : range_from lo n = seqZ lo (Z.of_nat n).
Proof.
  revert lo. induction n as [|n IH]; intros lo; [done|].
  rewrite Nat2Z.inj_succ, seqZ_cons, Z.pred_succ by lia. cbn. by rewrite IH.
Qed.

Lemma elem_of_up_to lo hi i : i ∈ up_to lo hi <-> lo <= i <= hi.
Proof. unfold up_to. rewrite range_from_seqZ, elem_of_seqZ. lia. Qed.

Lemma up_to_NoDup lo hi : NoDup (up_to lo hi).
Proof. unfold up_to. rewrite range_from_seqZ. apply NoDup_seqZ. Qed.

Lemma up_to_length lo hi : length (up_to lo hi) = Z.to_nat (hi - lo + 1).
Proof. unfold up_to. rewrite range_from_seqZ, length_seqZ. lia. Qed.

Lemma add_full count st cs :
  count <= Z.of_nat (length st.(sc_out)) -> foldl (add count) st cs = st.
Proof.
  intros Hf. induction cs as [|p cs IH]; [done|]. cbn [foldl].
  assert (add count st p = st) as ->; [|done]. unfold add. rewrite decide_False; [done|lia].
Qed.

Lemma add_uniq count seen out cs :
  Z.of_nat (length out) <= count ->
  (foldl (add count) (mkScan seen out) cs).(sc_out) = take (Z.to_nat count) (out ++ uniq seen cs).
Proof.
  revert seen out. induction cs as [|p cs IH]; intros seen out Hlen.
  - cbn. rewrite app_nil_r, take_ge by lia. done.
  - destruct (decide (Z.of_nat (length out) = count)) as [Hf|Hf].
    + rewrite add_full by (cbn; lia). cbn [sc_out]. rewrite take_app_le, take_ge by lia. done.
    + cbn [foldl uniq]. unfold add at 2; cbn [sc_seen sc_out].
      destruct (decide ((1 <= p /\ p <= 65535) /\ p ∉ seen)) as [[Hp Hs]|Hn].
      * rewrite decide_True by (split; [done|split; [done|lia]]).
        rewrite IH by (rewrite length_app; cbn; lia). by rewrite <- app_assoc.
      * rewrite decide_False by naive_solver. by apply IH.
Qed.

Lemma uniq_app seen cs1 cs2 :
  uniq seen (cs1 ++ cs2) = uniq seen cs1 ++ uniq (seen ∪ list_to_set (uniq seen cs1)) cs2.
Proof.
  revert seen. induction cs1 as [|p cs1 IH]; intros seen; cbn [app uniq].
  - f_equal. set_solver.
  - destruct (decide ((1 <= p /\ p <= 65535) /\ p ∉ seen)); rewrite IH; [|done].
    assert ({[p]} ∪ seen ∪ list_to_set (uniq ({[p]} ∪ seen) cs1)
      = seen ∪ list_to_set (p :: uniq ({[p]} ∪ seen) cs1)) as -> by set_solver. done.
Qed.

Lemma elem_of_uniq seen cs p : p ∈ uniq seen cs <-> p ∈ cs /\ port_ok p /\ p ∉ seen.
Proof.
  unfold port_ok. revert seen. induction cs as [|q cs IH]; intros seen; cbn [uniq]; [set_solver|].
  destruct (decide ((1 <= q /\ q <= 65535) /\ q ∉ seen)) as [Hq|Hq].
  - rewrite !elem_of_cons, IH. destruct (decide (p = q)) as [->|]; set_solver.
  - rewrite IH, elem_of_cons. destruct (decide (p = q)) as [->|]; [|naive_solver]. naive_solver lia.
Qed.

Lemma uniq_NoDup seen cs : NoDup (uniq seen cs).
Proof.
  revert seen. induction cs as [|p cs IH]; intros seen; cbn [uniq]; [constructor|].
  destruct (decide _); [|done]. constructor; [|done]. rewrite elem_of_uniq. set_solver.
Qed.

Lemma uniq_sublist seen cs : uniq seen cs `sublist_of` cs.
Proof.
  revert seen. induction cs as [|p cs IH]; intros seen; cbn [uniq]; [done|].
  destruct (decide _); by constructor.
Qed.

Lemma foldl_concat {A B S} (f : S -> B -> S) (g : A -> list B) l s :
  foldl (fun s x => foldl f s (g x)) s l = foldl f s (concat (g <$> l)).
Proof. revert s. induction l as [|x l IH]; intros s; cbn; [done|]. by rewrite foldl_app, <- IH. Qed.

(** The centre the scan passes. *)
Lemma port_wrap center d : port_ok center -> 0 <= d <= 4096 -> wrap64 (center - d) = center - d /\ wrap64 (center + d) = center + d.
Proof.
  unfold port_ok. intros Hc Hd. split; apply wrap64_id; unfold int64_range, min_int64, max_int64; lia.
Qed.

Lemma near_port center :
  port_ok center ->
  near center = concat ((fun d => if decide (d = 0) then [center] else [center - d; center + d]) <$> up_to 0 4096).
Proof.
  intros Hc. unfold near. f_equal. apply list_fmap_ext. intros i d Hd%list_elem_of_lookup_2%elem_of_up_to.
  unfold at_distance. destruct (port_wrap center d Hc Hd) as [-> ->]. case_decide; [|done].
  destruct (port_wrap center 0 Hc ltac:(lia)) as [Hw _]. rewrite Z.sub_0_r in Hw. by rewrite Hw.
Qed.

Lemma elem_of_near center p : port_ok center -> p ∈ near center <-> Z.abs (p - center) <= 4096.
Proof.
  intros Hc. rewrite (near_port _ Hc), list_elem_of_In, in_concat. setoid_rewrite <- list_elem_of_In.
  setoid_rewrite list_elem_of_fmap. setoid_rewrite elem_of_up_to. split.
  - intros (l & (d & -> & Hd) & Hp). destruct (decide (d = 0)); set_solver by lia.
  - intros Hp. eexists. split; [exists (Z.abs (p - center)); split; [done|lia]|].
    destruct (decide _); [|destruct (decide (p < center))]; set_solver by lia.
Qed.

(** Distances never decrease along [near]. *)
Lemma near_sorted center :
  port_ok center -> StronglySorted (fun p q => Z.abs (p - center) <= Z.abs (q - center)) (near center).
Proof.
  intros Hc. rewrite (near_port _ Hc). clear Hc. set (g := fun d => if decide (d = 0) then _ else _).
  assert (forall n s, 0 <= s ->
    StronglySorted (fun p q => Z.abs (p - center) <= Z.abs (q - center)) (concat (g <$> range_from s n)) /\
    Forall (fun q => s <= Z.abs (q - center)) (concat (g <$> range_from s n))) as H.
  { induction n as [|n IH]; intros s Hs; [by repeat constructor|].
    cbn [range_from fmap list_fmap concat]. destruct (IH (s + 1)) as [IH1 IH2]; [lia|].
    unfold g at 1 3. destruct (decide (s = 0)) as [->|]; cbn [app].
    - split; repeat constructor; try done; try lia; (eapply Forall_impl; [exact IH2|]); cbn; lia.
    - split; repeat constructor; try done; try lia; (eapply Forall_impl; [exact IH2|]); cbn; lia. }
  apply (H 4097%nat 0). lia.
Qed.

Lemma foldl_ext_in {A S} (f g : S -> A -> S) l s :
  (forall s x, x ∈ l -> f s x = g s x) -> foldl f s l = foldl g s l.
Proof.
  revert s. induction l as [|x l IH]; intros s H; cbn; [done|].
  rewrite H by left. apply IH. intros s' y ?. apply H. by right.
Qed.

Lemma StronglySorted_sublist {A} (R : relation A) l1 l2 :
  l1 `sublist_of` l2 -> StronglySorted R l2 -> StronglySorted R l1.
Proof.
  induction 1 as [|x l1 l2 Hs IH|x l1 l2 Hs IH]; rewrite ?StronglySorted_cons; [done| |naive_solver].
  intros [Hx Hl]. split; [|auto]. rewrite Forall_forall in Hx |- *.
  intros y Hy. apply Hx. by eapply elem_of_submseteq, sublist_submseteq.
Qed.

Lemma StronglySorted_lookup {A} (R : relation A) l i j x y :
  StronglySorted R l -> l !! i = Some x -> l !! j = Some y -> (i < j)%nat -> R x y.
Proof.
  intros Hs. revert i j. induction Hs as [|z l _ IH Hz]; intros i j Hi Hj Hij; [done|].
  destruct j as [|j]; [lia|]. destruct i as [|i]; simplify_eq/=; [|apply (IH i j); [done..|lia]].
  rewrite Forall_forall in Hz. by eapply Hz, list_elem_of_lookup_2.
Qed.

(** The first two loops try the ports of [near] in order. *)
Lemma near_loops count center st :
  foldl (fun st d => add count (add count st (wrap64 (center - d))) (wrap64 (center + d)))
    (foldl (fun st d => let st := add count st (wrap64 (center - d)) in
                        if decide (d <> 0) then add count st (wrap64 (center + d)) else st) st (up_to 0 512))
    (up_to 513 4096)
  = foldl (add count) st (near center).
Proof.
  unfold near. rewrite <- foldl_concat.
  assert (up_to 0 4096 = up_to 0 512 ++ up_to 513 4096) as -> by (vm_compute; reflexivity).
  pose proof (elem_of_up_to 0 512) as H1. pose proof (elem_of_up_to 513 4096) as H2.
  generalize dependent (up_to 0 512). generalize dependent (up_to 513 4096). intros l2 H2 l1 H1.
  rewrite foldl_app.
  rewrite (foldl_ext_in _ (fun st d => foldl (add count) st (at_distance center d)) l2).
  - f_equal. apply foldl_ext_in. intros s d Hd%H1. unfold at_distance.
    destruct (decide (d = 0)) as [->|]; [|by rewrite decide_True].
    rewrite decide_False by lia. by rewrite Z.sub_0_r.
  - intros s d Hd%H2. unfold at_distance. by rewrite decide_False by lia.
Qed.

Lemma range_from_up_to lo n : range_from lo n = up_to lo (lo + Z.of_nat n - 1).
Proof. unfold up_to. f_equal. lia. Qed.

#[local] Opaque up_to near.

(** A counting loop below the largest [int] visits its range and ends. *)
Lemma for_upto_range {S} (f : S -> Z -> S) n lo fuel s :
  min_int64 <= lo -> lo + Z.of_nat n <= max_int64 -> (n <= fuel)%nat ->
  for_upto fuel f lo (lo + Z.of_nat n - 1) s = Ok (foldl f s (range_from lo n)).
Proof.
  revert lo fuel s. induction n as [|n IH]; intros lo fuel s Hlo Hhi Hf.
  { destruct fuel; cbn [for_upto]; by rewrite decide_False by lia. }
  destruct fuel as [|fuel]; [lia|]. cbn [for_upto range_from foldl]. rewrite decide_True by lia.
  rewrite wrap64_id by (unfold int64_range; lia).
  replace (lo + Z.of_nat (Datatypes.S n) - 1) with (lo + 1 + Z.of_nat n - 1) by lia. apply IH; lia.
Qed.

(** Up to the largest [int] it never ends. *)
Lemma for_upto_diverges {S} (f : S -> Z -> S) fuel p s : p <= max_int64 -> for_upto fuel f p max_int64 s = NoFuel.
Proof.
  revert p s. induction fuel as [|fuel IH]; intros p s Hp; cbn [for_upto]; rewrite decide_True by done; [done|].
  apply IH. apply wrap64_range.
Qed.

(** The candidates of the third loop. *)
Definition middle (center : Z) : list Z :=
  if decide (min_int64 <= center - 4096 /\ center + 4096 < max_int64)
  then up_to (center - 4096) (center + 4096) else [].

Lemma middle_loop {S} (f : S -> Z -> S) fuel center s :
  int64_range center -> center <> max_int64 - 4096 -> (8193 <= fuel)%nat ->
  for_upto fuel f (wrap64 (center - 4096)) (wrap64 (center + 4096)) s = Ok (foldl f s (middle center)).
Proof.
  unfold int64_range, middle. intros Hc Hne Hf. destruct (decide _) as [[Hlo Hhi]|Hout].
  - rewrite !wrap64_id by (unfold int64_range; lia).
    assert (Z.of_nat 8193 = 8193) as Hn by (vm_compute; reflexivity).
    replace (center + 4096) with (center - 4096 + Z.of_nat 8193 - 1) by lia.
    by rewrite for_upto_range, range_from_up_to by lia.
  - assert (wrap64 (center + 4096) < wrap64 (center - 4096)) as Hlt.
    { unfold wrap64, min_int64, max_int64 in *. destruct (decide (center < 0)).
      - replace (center - 4096 + 2 ^ 63) with (center - 4096 + 2 ^ 63 + 2 ^ 64 + (-1) * 2 ^ 64) by lia.
        rewrite Z.mod_add, !Z.mod_small by lia. lia.
      - replace (center + 4096 + 2 ^ 63) with (center + 4096 - 2 ^ 63 + 1 * 2 ^ 64) by lia.
        rewrite Z.mod_add, !Z.mod_small by lia. lia. }
    destruct fuel; cbn [for_upto]; rewrite decide_False by lia; done.
Qed.

(** All candidates in order: every port is among them. *)
Definition candidates (center : Z) : list Z := near center ++ middle center ++ up_to 1 65535.

Lemma prioritizedPorts_uniq fuel center count :
  int64_range center -> center <> max_int64 - 4096 -> (8193 <= fuel)%nat ->
  prioritizedPorts_fuel fuel center count
  = Ok (take (Z.to_nat (clamp_count count)) (uniq ∅ (candidates center))).
Proof.
  intros Hc Hne Hf. assert (0 <= clamp_count count) as Hn by (unfold clamp_count; destruct (decide _); lia).
  unfold prioritizedPorts_fuel. cbn zeta. rewrite near_loops, middle_loop by done. cbn [mbind result_bind].
  by rewrite <- !foldl_app, add_uniq by done.
Qed.

Lemma all_ports_perm center : uniq ∅ (candidates center) ≡ₚ up_to 1 65535.
Proof.
  apply NoDup_Permutation; [apply uniq_NoDup|apply up_to_NoDup|].
  intros p. unfold candidates. rewrite elem_of_uniq, !elem_of_app, elem_of_up_to. unfold port_ok. set_solver.
Qed.

(** ** Theorems *)

(** C9: For a 64-bit centre other than 2^63-1-4096, and any count, prioritizedPorts ends
    (its third loop within 8193 iterations) and returns exactly the clamped count of
    distinct ports, all between 1 and 65535; with the full count a permutation of all
    ports; a smaller count gives a prefix of the list for a larger one. For the centre
    2^63-1-4096 the third loop never ends, since its variable wraps around at the bound;
    the caller only passes ports. *)
Theorem prioritizedPorts_complete (center count : Z) :
  int64_range center ->
  let n := clamp_count count in
  (center = max_int64 - 4096 -> forall fuel, prioritizedPorts_fuel fuel center count = NoFuel) /\
  (center <> max_int64 - 4096 ->
   exists ports,
     (forall fuel, (8193 <= fuel)%nat -> prioritizedPorts_fuel fuel center count = Ok ports) /\
     NoDup ports /\ Forall port_ok ports /\ Z.of_nat (length ports) = n /\
     (n = 65535 -> ports ≡ₚ up_to 1 65535) /\
     (forall count', n <= clamp_count count' ->
        exists ports', prioritizedPorts center count' = Ok ports' /\ ports `prefix_of` ports')).
Proof.
  intros Hr. cbn zeta. split.
  { intros -> fuel. unfold prioritizedPorts_fuel. cbn zeta. rewrite Z.sub_add, (wrap64_id max_int64) by (by vm_compute).
    by rewrite for_upto_diverges by apply wrap64_range. }
  intros Hne. pose proof (all_ports_perm center) as Hp. set (all := uniq ∅ (candidates center)) in *.
  assert (1 <= clamp_count count <= 65535) as Hc by (unfold clamp_count; destruct (decide _); lia).
  assert (NoDup all) as Hnd by (rewrite Hp; apply up_to_NoDup).
  assert (length all = Z.to_nat 65535) as Hlen by (rewrite Hp, up_to_length; done).
  exists (take (Z.to_nat (clamp_count count)) all).
  split; [intros fuel Hf; by apply prioritizedPorts_uniq|].
  split; [by eapply sublist_NoDup; [exact Hnd|apply sublist_take]|]. split; [|split; [|split]].
  - apply Forall_take, Forall_forall. intros p. rewrite Hp, elem_of_up_to. done.
  - rewrite length_take. lia.
  - intros ->. rewrite take_ge by lia. done.
  - intros count' Hle. eexists. split; [by apply prioritizedPorts_uniq|]. fold all.
    exists (take (Z.to_nat (clamp_count count') - Z.to_nat (clamp_count count)) (drop (Z.to_nat (clamp_count count)) all)).
    rewrite take_take_drop. f_equal. lia.
Qed.

(** For a centre that is a port there is a list. *)
Lemma prioritizedPorts_ok center count : port_ok center -> is_ok (prioritizedPorts center count).
Proof.
  unfold port_ok. intros Hc. eexists. apply prioritizedPorts_uniq; [|unfold max_int64; lia|done].
  unfold int64_range, min_int64, max_int64. lia.
Qed.

(** A candidate within 4096 ports of the centre is never preceded by one that is farther
    from it. *)
Theorem prioritizedPorts_nearest_first (center count p q : Z) (ports : list Z) (i j : nat) :
  port_ok center -> prioritizedPorts center count = Ok ports ->
  ports !! i = Some p -> ports !! j = Some q ->
  (i < j)%nat -> Z.abs (q - center) <= 4096 -> Z.abs (p - center) <= Z.abs (q - center).
Proof.
  intros Hc. unfold prioritizedPorts. rewrite prioritizedPorts_uniq;
    [|unfold port_ok, int64_range, min_int64, max_int64 in *; lia|unfold port_ok, max_int64 in *; lia|done].
  intros [= <-] [Hi _]%lookup_take_Some [Hj _]%lookup_take_Some Hij Hq.
  unfold candidates in Hi, Hj. rewrite uniq_app in Hi, Hj.
  destruct (decide (j < length (uniq ∅ (near center)))%nat) as [Hlt|Hge].
  - rewrite lookup_app_l in Hi, Hj by lia.
    refine (StronglySorted_lookup (fun p q => Z.abs (p - center) <= Z.abs (q - center)) _ i j p q _ Hi Hj Hij).
    eapply StronglySorted_sublist; [apply uniq_sublist|by apply near_sorted].
  - exfalso. rewrite lookup_app_r in Hj by lia. apply list_elem_of_lookup_2 in Hj.
    rewrite elem_of_uniq, elem_of_union, elem_of_list_to_set, elem_of_uniq, elem_of_near in Hj by done. set_solver.
Qed.
