(* ===== verification/Args.v ===== *)
(** * String helpers of the daemon ([cmd/wg-meshd/main.go])

    [split], [stringsTrim] and the functions built on them parse the
    [--seed] flag. *)

From S2P Require Import Prelude GoStrings GoNet.

(** [s[i:j]] for [i <= j <= len(s)]. *)
Definition substr (s : string) (i j : nat) : string := str_take (j - i) (str_drop i s).

(** The loop of [split].  After a match the code sets [i = start - 1] and the
    loop increments it. *)
Fixpoint split_loop (fuel : nat) (s sep : string) (i start : nat) (acc : list string) :
    result (list string) :=
  match fuel with
  | O => NoFuel
  | S fuel =>
      if decide (i + String.length sep <= String.length s) then
        if decide (substr s i (i + String.length sep) = sep) then
          split_loop fuel s sep (i + String.length sep) (i + String.length sep) (acc ++ [substr s start i])
        else split_loop fuel s sep (S i) start acc
      else Ok (acc ++ [substr s start (String.length s)])
  end.

(** Each iteration advances [i] when [sep] is not empty, so this fuel is
    enough; with an empty separator the loop of the source never ends. *)
Definition split (s sep : string) : result (list string) :=
  split_loop (S (String.length s)) s sep 0 0 [].

(** ' ', '\t' and '\n'. *)
Definition is_blank (a : ascii) : bool :=
  bool_decide (a = " "%char) || bool_decide (a = tab) || bool_decide (a = newline).

Definition blank_at (s : string) (i : nat) : bool :=
  match String.get i s with Some a => is_blank a | None => false end.

(** The two loops of [stringsTrim]; [n] is [end - start]. *)
Fixpoint skip_start (n : nat) (s : string) (start : nat) : nat :=
  match n with
  | O => start
  | S n => if blank_at s start then skip_start n s (S start) else start
  end.

Fixpoint skip_end (n : nat) (s : string) (stop : nat) : nat :=
  match n with
  | O => stop
  | S n => if blank_at s (stop - 1) then skip_end n s (stop - 1) else stop
  end.

Definition stringsTrim (s : string) : string :=
  let stop := String.length s in
  let start := skip_start stop s 0 in
  let stop := skip_end (stop - start) s stop in
  substr s start stop.

Definition splitAndTrim (s sep : string) : result (list string) :=
  parts ← split s sep;
  Ok (filter (fun t => t <> "") (map stringsTrim parts)).

Definition splitHost (hostport : string) : string :=
  match SplitHostPort hostport with Some (h, _) => h | None => hostport end.

(** Times and durations in nanoseconds. *)
Definition isExpired (now t d : Z) : bool := bool_decide (d <= now - t)%Z.

Definition normalizedAllowedIPs (allowed : string) : string :=
  if decide (allowed = "" \/ allowed = "(none)") then "" else allowed.

(** One part of [--seed] as a key and an endpoint. *)
Definition seed_of (s : string) : result (option (string * string)) :=
  parts ← split s "@";
  match parts with
  | [p0; p1] =>
      let pk := stringsTrim p0 in
      let ep := stringsTrim p1 in
      Ok (if decide (pk <> "" /\ ep <> "") then Some (pk, ep) else None)
  | _ => Ok None
  end.

Fixpoint seeds_of (ss : list string) : result (list (string * string)) :=
  match ss with
  | [] => Ok []
  | s :: ss => o ← seed_of s; rest ← seeds_of ss; Ok (option_list o ++ rest)
  end.

(** The seeds named by the flag, in order. *)
Definition parse_seeds (seedPeers : string) : result (list (string * string)) :=
  if decide (seedPeers = "") then Ok [] else splitAndTrim seedPeers "," ≫= seeds_of.

Example seeds_example :
  parse_seeds " key1@1.2.3.4:51822 , bad, key2 @ host:1,@x" = Ok [("key1", "1.2.3.4:51822"); ("key2", "host:1")].
Proof. vm_compute. reflexivity. Qed.

(** ** Substrings *)

Lemma str_drop_drop i j s : str_drop i (str_drop j s) = str_drop (j + i) s.
Proof. revert s. induction j as [|j IH]; intros s; [done|]. destruct s as [|a s]; cbn; [by destruct i|]. apply IH. Qed.

Lemma str_take_drop i s : str_take i s +:+ str_drop i s = s.
Proof.
  revert s. induction i as [|i IH]; intros s; [done|]. destruct s as [|a s]; cbn; [done|].
  by rewrite str_app_cons, IH.
Qed.

Lemma str_length_drop i s : String.length (str_drop i s) = String.length s - i.
Proof. revert s. induction i as [|i IH]; intros [|a s]; cbn; auto. Qed.

Lemma str_take_ge i s : String.length s <= i -> str_take i s = s.
Proof.
  revert s. induction i as [|i IH]; intros [|a s] H; cbn in *; [done|lia|done|]. by rewrite IH by lia.
Qed.

Lemma str_take_take_drop i j s : str_take (i + j) s = str_take i s +:+ str_take j (str_drop i s).
Proof.
  revert s. induction i as [|i IH]; intros s; [done|]. destruct s as [|a s]; cbn; [by destruct j|].
  by rewrite str_app_cons, IH.
Qed.

(** Adjacent substrings. *)
Lemma substr_app s i j k : i <= j <= k -> substr s i j +:+ substr s j k = substr s i k.
Proof.
  intros H. unfold substr. replace (k - i) with ((j - i) + (k - j)) by lia.
  rewrite str_take_take_drop, str_drop_drop. do 3 f_equal. lia.
Qed.

Lemma substr_end s i : substr s i (String.length s) = str_drop i s.
Proof. unfold substr. apply str_take_ge. rewrite str_length_drop. lia. Qed.

Lemma substr_cons s i a t : str_drop i s = String a t -> substr s i (S i) = String a "" /\ str_drop (S i) s = t.
Proof.
  intros H. unfold substr. rewrite H. replace (S i - i) with 1 by lia. split; [by destruct t|].
  replace (S i) with (i + 1) by lia. by rewrite <- str_drop_drop, H.
Qed.

Lemma substr_nil s i : substr s i i = "".
Proof. unfold substr. by rewrite Nat.sub_diag. Qed.

(** ** Splitting *)

(** [strings.Join]. *)
Fixpoint join (sep : string) (ps : list string) : string :=
  match ps with
  | [] => ""
  | [p] => p
  | p :: ps => p +:+ sep +:+ join sep ps
  end.

Lemma join_snoc sep ps p :
  join sep (ps ++ [p]) = foldr (fun q r => q +:+ sep +:+ r) p ps.
Proof.
  induction ps as [|q ps IH]; [done|]. cbn [app foldr]. rewrite <- IH.
  destruct (ps ++ [p]) eqn:E; [by destruct ps|done].
Qed.

(** The pieces found so far and the separators after them are the text
    before [start]. *)
Lemma split_loop_join fuel s sep i start acc r :
  start <= i <= String.length s ->
  foldr (fun q r => q +:+ sep +:+ r) (str_drop start s) acc = s ->
  split_loop fuel s sep i start acc = Ok r -> join sep r = s.
Proof.
  revert i start acc. induction fuel as [|fuel IH]; intros i start acc Hi Hacc; cbn [split_loop]; [done|].
  destruct (decide (i + _ <= _)) as [Hle|Hle].
  - destruct (decide (substr s i (i + String.length sep) = sep)) as [Hm|Hm].
    + apply IH; [lia|]. rewrite foldr_app. cbn [foldr]. etransitivity; [|exact Hacc]. f_equal.
      rewrite <- !substr_end. rewrite <- (substr_app s start i (String.length s)) by lia. f_equal.
      rewrite <- (substr_app s i (i + String.length sep) (String.length s)) by lia. by rewrite Hm.
    + destruct (decide (i = String.length s)) as [->|].
      * assert (String.length sep = 0) as Hs by lia. exfalso. apply Hm.
        rewrite Hs. unfold substr. replace (String.length s + 0 - String.length s) with 0 by lia. by destruct sep.
      * apply IH; [lia|done].
  - intros [= <-]. by rewrite join_snoc, substr_end.
Qed.

Lemma split_loop_total fuel s sep i start acc :
  sep <> "" -> String.length s - i < fuel -> is_ok (split_loop fuel s sep i start acc).
Proof.
  intros Hsep. assert (0 < String.length sep) by (destruct sep; [done|cbn; lia]).
  revert i start acc. induction fuel as [|fuel IH]; intros i start acc Hf; [lia|]. cbn [split_loop].
  destruct (decide (i + _ <= _)); [|by eexists]. destruct (decide (substr _ _ _ = _)); apply IH; lia.
Qed.

Lemma split_loop_nonempty fuel s sep i start acc : split_loop fuel s sep i start acc <> Ok [].
Proof.
  revert i start acc. induction fuel as [|fuel IH]; intros i start acc; cbn [split_loop]; [done|].
  destruct (decide _); [destruct (decide _); apply IH|]. intros [= ?%app_nil]. naive_solver.
Qed.

(** With a one-byte separator: the pieces of the rest, the first of which
    extends the piece being scanned. *)
Lemma split_loop_byte fuel s c i start acc :
  start <= i <= String.length s -> String.length s - i < fuel ->
  split_loop fuel s (String c "") i start acc
  = Ok (acc ++ match Split c (str_drop i s) with
               | p :: ps => (substr s start i +:+ p) :: ps
               | [] => []
               end).
Proof.
  revert i start acc. induction fuel as [|fuel IH]; intros i start acc Hi Hf; [lia|].
  cbn [split_loop String.length]. destruct (decide (i + 1 <= String.length s)) as [Hle|Hle].
  - destruct (str_drop i s) as [|a t] eqn:Hd.
    { pose proof (str_length_drop i s) as Hl. rewrite Hd in Hl. cbn in Hl. lia. }
    destruct (substr_cons _ _ _ _ Hd) as [Ha Ht]. replace (i + 1) with (S i) by lia. rewrite Ha. cbn [Split].
    destruct (decide (a = c)) as [->|Hne].
    + rewrite decide_True by done. rewrite IH by lia. rewrite Ht, <- app_assoc, str_app_nil_r. cbn [app]. do 2 f_equal.
      destruct (Split c t) as [|p ps]; [done|]. by rewrite substr_nil.
    + rewrite decide_False by congruence. rewrite IH, Ht by lia. do 2 f_equal.
      destruct (Split c t) as [|p ps] eqn:E.
      { destruct t; cbn in E; [done|]. destruct (decide _); [done|]. by destruct (Split c t). }
      rewrite <- (substr_app s start i (S i)), Ha by lia. by rewrite str_app_assoc.
  - assert (i = String.length s) as -> by lia. rewrite <- (substr_end s (String.length s)).
    rewrite substr_nil. cbn. by rewrite str_app_nil_r.
Qed.

Lemma split_byte s c : split s (String c "") = Ok (Split c s).
Proof.
  unfold split. rewrite split_loop_byte by lia. cbn [app str_drop]. f_equal.
  destruct (Split c s) as [|p ps]; [done|]. by unfold substr.
Qed.

(** ** Trimming *)

Lemma skip_start_spec n s start :
  let a := skip_start n s start in
  start <= a <= start + n /\ (forall k, start <= k < a -> blank_at s k = true) /\
  (a < start + n -> blank_at s a = false).
Proof.
  revert start. induction n as [|n IH]; intros start; cbn [skip_start].
  - split; [lia|]. split; [lia|lia].
  - destruct (blank_at s start) eqn:Hb; cbn zeta.
    + destruct (IH (S start)) as (H1 & H2 & H3). split; [lia|]. split; [|intros; apply H3; lia].
      intros k Hk. destruct (decide (k = start)) as [->|]; [done|]. apply H2. lia.
    + split; [lia|]. split; [lia|]. done.
Qed.

Lemma skip_end_spec n s stop :
  n <= stop ->
  let b := skip_end n s stop in
  stop - n <= b <= stop /\ (forall k, b <= k < stop -> blank_at s k = true) /\
  (stop - n < b -> blank_at s (b - 1) = false).
Proof.
  revert stop. induction n as [|n IH]; intros stop Hn; cbn [skip_end].
  - split; [lia|]. split; [lia|lia].
  - destruct (blank_at s (stop - 1)) eqn:Hb; cbn zeta.
    + destruct (IH (stop - 1)) as (H1 & H2 & H3); [lia|]. split; [lia|]. split; [|intros; apply H3; lia].
      intros k Hk. destruct (decide (k = stop - 1)) as [->|]; [done|]. apply H2. lia.
    + split; [lia|]. split; [lia|]. done.
Qed.

Definition all_blank (s : string) : Prop := Forall (fun a => is_blank a = true) (chars s).

(** Neither end is blank. *)
Definition trimmed (s : string) : Prop :=
  s = "" \/ blank_at s 0 = false /\ blank_at s (String.length s - 1) = false.

Lemma get_drop i k s : String.get k (str_drop i s) = String.get (i + k) s.
Proof. revert s. induction i as [|i IH]; intros s; [done|]. destruct s as [|a s]; cbn; [by destruct k|]. apply IH. Qed.

Lemma get_take n k s : k < n -> String.get k (str_take n s) = String.get k s.
Proof.
  revert k s. induction n as [|n IH]; intros k s Hk; [lia|]. destruct s as [|a s]; [done|].
  destruct k as [|k]; [done|]. cbn. apply IH. lia.
Qed.

Lemma blank_at_substr s i j k : k < j - i -> blank_at (substr s i j) k = blank_at s (i + k).
Proof. intros Hk. unfold blank_at, substr. by rewrite get_take, get_drop by lia. Qed.

Lemma substr_length s i j : j <= String.length s -> String.length (substr s i j) = j - i.
Proof.
  intros Hj. unfold substr. pose proof (str_length_drop i s) as Hl. revert Hl. generalize (str_drop i s).
  assert (forall n t, n <= String.length t -> String.length (str_take n t) = n) as Hn.
  { induction n as [|n IH]; intros [|a t] Ht; cbn in *; [done..|lia|]. rewrite IH; lia. }
  intros t Ht. apply Hn. lia.
Qed.

Lemma all_blank_substr s i j :
  j <= String.length s -> (forall k, i <= k < j -> blank_at s k = true) -> all_blank (substr s i j).
Proof.
  intros Hj Hb. assert (forall k, k < String.length (substr s i j) -> blank_at (substr s i j) k = true) as Hk.
  { rewrite substr_length by done. intros k Hk. rewrite blank_at_substr by lia. apply Hb. lia. }
  revert Hk. generalize (substr s i j). clear. induction s as [|a s IH]; intros Hk; [constructor|].
  constructor; [apply (Hk 0); cbn; lia|]. apply IH. intros k Hl. apply (Hk (S k)). cbn. lia.
Qed.

Lemma stringsTrim_decompose s :
  exists a b, a <= b <= String.length s /\ stringsTrim s = substr s a b /\
    all_blank (substr s 0 a) /\ all_blank (substr s b (String.length s)) /\
    (a < b -> blank_at s a = false /\ blank_at s (b - 1) = false).
Proof.
  destruct (skip_start_spec (String.length s) s 0) as (A1 & A2 & A3).
  destruct (skip_end_spec (String.length s - skip_start (String.length s) s 0) s (String.length s)) as (B1 & B2 & B3); [lia|].
  eexists _, _. split; [|split; [unfold stringsTrim; reflexivity|split; [|split]]].
  - lia.
  - apply all_blank_substr; [lia|]. auto.
  - apply all_blank_substr; [lia|]. auto.
  - intros Hab. split; [apply A3; lia|apply B3; lia].
Qed.

Lemma stringsTrim_id s : trimmed s -> stringsTrim s = s.
Proof.
  intros Ht. destruct (stringsTrim_decompose s) as (a & b & Hab & -> & Hpre & Hpost & _).
  destruct Ht as [->|[H0 H1]].
  { cbn in Hab. replace a with 0 by lia. by replace b with 0 by lia. }
  assert (forall s, all_blank s -> s = "" \/ blank_at s 0 = true /\ blank_at s (String.length s - 1) = true) as Hblank.
  { intros t Ht. destruct t as [|x t]; [by left|]. right. split; [by apply Forall_cons in Ht as [? _]|].
    revert x Ht. induction t as [|y t IH]; intros x [Hx Ht]%Forall_cons; [done|].
    cbn [String.length]. replace (S (S (String.length t)) - 1) with (S (String.length t)) by lia.
    specialize (IH y Ht). cbn [String.length] in IH. replace (S (String.length t) - 1) with (String.length t) in IH by lia.
    done. }
  assert (a = 0) as ->.
  { destruct (Hblank _ Hpre) as [E|[E _]].
    - apply (f_equal String.length) in E. rewrite substr_length in E by lia. cbn in E. lia.
    - destruct (decide (a = 0)) as [|]; [done|]. rewrite blank_at_substr in E by lia. cbn in E. congruence. }
  assert (b = String.length s) as ->.
  { destruct (Hblank _ Hpost) as [E|[_ E]].
    - apply (f_equal String.length) in E. rewrite substr_length in E by lia. cbn in E. lia.
    - destruct (decide (b = String.length s)) as [|]; [done|]. rewrite substr_length in E by lia.
      rewrite blank_at_substr in E by lia. replace (b + (String.length s - b - 1)) with (String.length s - 1) in E by lia.
      congruence. }
  apply substr_end.
Qed.

(** ** Theorems *)

(** [split] with a non-empty separator returns pieces that join to the text; with one byte
    it is [strings.Split]. *)
Theorem split_spec (s sep : string) :
  sep <> "" ->
  (exists ps, split s sep = Ok ps /\ ps <> [] /\ join sep ps = s) /\
  (forall c, sep = String c "" -> split s sep = Ok (Split c s)).
Proof.
  intros Hsep. split; [|intros c ->; apply split_byte].
  destruct (split_loop_total (S (String.length s)) s sep 0 0 []) as [ps Hps]; [done|lia|].
  exists ps. split; [done|]. split.
  - intros ->. by eapply split_loop_nonempty.
  - eapply split_loop_join; [|..|exact Hps]; [lia|done].
Qed.

(** [stringsTrim] removes blanks from both ends and nothing else. *)
Theorem stringsTrim_spec (s : string) :
  (exists pre post, s = pre +:+ stringsTrim s +:+ post /\ all_blank pre /\ all_blank post) /\
  trimmed (stringsTrim s) /\ stringsTrim (stringsTrim s) = stringsTrim s.
Proof.
  destruct (stringsTrim_decompose s) as (a & b & Hab & E & Hpre & Hpost & Hends).
  assert (trimmed (stringsTrim s)) as Ht.
  { rewrite E. destruct (decide (a = b)) as [->|]; [left; apply substr_nil|]. right.
    rewrite substr_length, !blank_at_substr by lia. rewrite Nat.add_0_r.
    replace (a + (b - a - 1)) with (b - 1) by lia. apply Hends. lia. }
  split; [|split; [done|by apply stringsTrim_id]].
  exists (substr s 0 a), (substr s b (String.length s)). split; [|done].
  rewrite E, (substr_app s a b), (substr_app s 0 a) by lia. by rewrite substr_end.
Qed.

(** How a seed list is written. *)
Definition seed_text (sd : string * string) : string := sd.1 +:+ String "@" sd.2.

Definition seed_field (s : string) : Prop :=
  s <> "" /\ trimmed s /\ has_byte "," s = false /\ has_byte "@" s = false.

Lemma seed_text_split sd :
  has_byte "@" sd.1 = false -> has_byte "@" sd.2 = false -> Split "@" (seed_text sd) = [sd.1; sd.2].
Proof. intros H1 H2. unfold seed_text. by rewrite Split_app_sep, Split_no_sep. Qed.

Lemma seed_of_text sd : seed_field sd.1 -> seed_field sd.2 -> seed_of (seed_text sd) = Ok (Some sd).
Proof.
  intros (N1 & T1 & _ & A1) (N2 & T2 & _ & A2). unfold seed_of. rewrite split_byte. cbn [mbind result_bind].
  rewrite seed_text_split, !stringsTrim_id, decide_True by done. by destruct sd.
Qed.

Lemma blank_at_app_l s t : s <> "" -> blank_at (s +:+ t) 0 = blank_at s 0.
Proof. by destruct s. Qed.

Lemma get_app_r s t k : String.get (String.length s + k) (s +:+ t) = String.get k t.
Proof. induction s as [|a s IH]; [done|]. apply IH. Qed.

Lemma seed_text_trimmed sd : seed_field sd.1 -> seed_field sd.2 -> trimmed (seed_text sd).
Proof.
  intros (N1 & T1 & _) (N2 & T2 & _). right. unfold seed_text. rewrite blank_at_app_l by done.
  destruct T1 as [|[T1 _]]; [done|]. destruct T2 as [|[_ T2]]; [done|]. split; [done|].
  rewrite str_length_app. cbn [String.length].
  assert (0 < String.length sd.2) by (destruct sd.2; [done|cbn; lia]).
  unfold blank_at in *. replace (String.length sd.1 + S (String.length sd.2) - 1)
    with (String.length sd.1 + S (String.length sd.2 - 1)) by lia.
  by rewrite get_app_r.
Qed.

(** The seed flag written as comma-separated key@endpoint pairs is parsed back into exactly
    those pairs, in order. *)
Theorem parse_seeds_roundtrip (sds : list (string * string)) :
  sds <> [] -> Forall (fun sd => seed_field sd.1 /\ seed_field sd.2) sds ->
  parse_seeds (Join "," (seed_text <$> sds)) = Ok sds.
Proof.
  intros Hne Hsd. unfold parse_seeds. rewrite decide_False.
  2: { destruct sds as [|[k e] sds]; [done|]. apply Forall_cons in Hsd as [[(Hk & _) _] _].
       destruct k as [|a k]; [done|]. by destruct sds. }
  unfold splitAndTrim. rewrite split_byte, Split_Join; cycle 1.
  - by destruct sds.
  - apply Forall_fmap. eapply Forall_impl; [exact Hsd|]. cbn. intros sd [(_ & _ & H1 & _) (_ & _ & H2 & _)].
    unfold seed_text. rewrite has_byte_app, H1. cbn. by rewrite H2.
  - cbn [mbind result_bind]. clear Hne. induction Hsd as [|sd sds [H1 H2] _ IH]; [done|].
    cbn [fmap list_fmap map]. rewrite stringsTrim_id by (by apply seed_text_trimmed).
    rewrite filter_cons_True.
    2: { destruct H1 as (Hk & _). unfold seed_text. by destruct sd.1. }
    cbn [seeds_of]. rewrite seed_of_text by done. cbn [mbind result_bind].
    change (fmap seed_text sds) with (seed_text <$> sds). rewrite IH. done.
Qed.
