(* ===== verification/Scan.v ===== *)
(** * Blind endpoint scan ([blindScanEndpoint] in [cmd/wg-meshd/main.go])

    The scan tries the candidate ports of [Ports] one after the other and
    accepts an endpoint only when WireGuard reports a handshake on it. *)

From S2P Require Import Prelude GoStrings GoNet Host Uapi UapiProps Ports.
Open Scope Z_scope.

(** Durations are nanoseconds; [t.Unix()] is the wall clock in seconds. *)
Definition second : Z := 10 ^ 9.
Definition unix (t : Time) : Z := t.(t_wall) / second.

(** The acceptance test of the scan and of a punch plan. *)
Definition accepts (publicKey endpoint : string) (startedAt baselineRx : Z) (peer : PeerInfo) : bool :=
  bool_decide (peer.(pi_PublicKey) = publicKey) && bool_decide (peer.(pi_Endpoint) = endpoint) &&
  bool_decide (startedAt <= peer.(pi_LatestHandshake)) && bool_decide (baselineRx < peer.(pi_TransferRx)).

(** What stays fixed during one scan. *)
Record scan_params := mkParams {
  s_client : Client;
  s_publicKey : string;
  s_host : string;
  s_allowedIPs : string;
  s_keepAlive : Z;
  s_baselineRx : Z;
  s_rate : Z;
  s_started : Time;
  s_deadline : Time;
}.

Section scan.
Context {W : Type} {host : Host W}.

Definition check_candidate (sp : scan_params) (i : Z) (endpoint : string) : io W bool :=
  if decide (i = 0 \/ i `mod` 16 = 0) then
    r ← ListPeers sp.(s_client);
    mret (match r with
          | inl peers => existsb (accepts sp.(s_publicKey) endpoint (unix sp.(s_started)) sp.(s_baselineRx)) peers
          | inr _ => false
          end)
  else mret false.

(** Waits until candidate [i+1] is due; the result tells whether the scan was
    cancelled meanwhile. *)
Definition pace (sp : scan_params) (i : Z) : io W bool :=
  now ← Now;
  let target := Z.quot ((i + 1) * second) sp.(s_rate) in
  let wait := wrap64 (target - Sub now sp.(s_started)) in
  _ ← call (sleep (Z.max 0 wait));
  call cancelled.

(** The loop over the ports; [i] is the index of the first of [ports]. *)
Fixpoint scan_loop (sp : scan_params) (i : Z) (ports : list Z) : io W (option string) :=
  match ports with
  | [] => mret None
  | p :: ports =>
      now ← Now;
      if Before sp.(s_deadline) now then mret None else
      stop ← call cancelled;
      if (stop : bool) then mret None else
      let endpoint := JoinHostPort sp.(s_host) (Itoa p) in
      setErr ← (if decide (i = 0)
                then SetPeer sp.(s_client) (mkCfg sp.(s_publicKey) endpoint sp.(s_allowedIPs) sp.(s_keepAlive))
                else SetEndpointFast sp.(s_client) sp.(s_publicKey) endpoint);
      match (setErr : option string) with
      | Some _ => scan_loop sp (i + 1) ports
      | None =>
          found ← check_candidate sp i endpoint;
          if (found : bool) then mret (Some endpoint) else
          stop ← pace sp i;
          if (stop : bool) then mret None else scan_loop sp (i + 1) ports
      end
  end.

(** The guards of [blindScanEndpoint] on the old endpoint: the host and the
    centre port. *)
Definition scan_target (oldEndpoint : string) (count : Z) : option (string * Z) :=
  match SplitHostPort oldEndpoint with
  | None => None
  | Some (h, portText) =>
      match Atoi portText with
      | (center, None) =>
          if decide (center < 1 \/ 65535 < center \/ count <= 0) then None else Some (h, center)
      | (_, Some _) => None
      end
  end.

Definition blindScanEndpoint (c : Client) (publicKey oldEndpoint allowedIPs : string)
    (keepAlive baselineRx count rate budget : Z) : io W (option string) :=
  match scan_target oldEndpoint count with
  | None => mret None
  | Some (h, center) =>
      let count := if decide (65535 < count) then 65535 else count in
      let rate := if decide (rate <= 0) then 200 else rate in
      let budget := if decide (budget <= 0) then 330 * second else budget in
      scanStarted ← Now;
      ports ← lift (prioritizedPorts center count);
      _ ← lift (slice_to publicKey 16);
      scan_loop (mkParams c publicKey h allowedIPs keepAlive baselineRx rate scanStarted (Add scanStarted budget))
        0 ports
  end.

(** ** What a scan returns *)

Lemma scan_target_port old count h center : scan_target old count = Some (h, center) -> port_ok center.
Proof.
  unfold scan_target, port_ok. destruct (SplitHostPort old) as [[h' t]|]; [|done].
  destruct (Atoi t) as [n [e|]]; [done|]. case_decide; [done|]. intros [= <- <-]. lia.
Qed.

#[local] Opaque prioritizedPorts prioritizedPorts_fuel.

Lemma scan_loop_found sp i ports w ep w' :
  scan_loop sp i ports w = Ok (Some ep, w') ->
  exists k p peers w1, ports !! k = Some p /\ (i + Z.of_nat k) `mod` 16 = 0 /\
    ep = JoinHostPort sp.(s_host) (Itoa p) /\ ListPeers sp.(s_client) w1 = Ok (inl peers, w') /\
    existsb (accepts sp.(s_publicKey) ep (unix sp.(s_started)) sp.(s_baselineRx)) peers = true.
Proof.
  revert i w. induction ports as [|p ports IH]; intros i w; cbn [scan_loop]; [done|].
  assert (forall w0, scan_loop sp (i + 1) ports w0 = Ok (Some ep, w') ->
    exists k q peers w1, (p :: ports) !! k = Some q /\ (i + Z.of_nat k) `mod` 16 = 0 /\
    ep = JoinHostPort sp.(s_host) (Itoa q) /\ ListPeers sp.(s_client) w1 = Ok (inl peers, w') /\
    existsb (accepts sp.(s_publicKey) ep (unix sp.(s_started)) sp.(s_baselineRx)) peers = true) as Hrest.
  { intros w0 (k & q & peers & w1 & Hk & Hm & ?)%IH. exists (S k), q, peers, w1. split; [done|].
    split; [|done]. rewrite <- Hm. f_equal. lia. }
  intros (now & w1 & _ & H)%io_bind_ok. destruct (Before _ _); [done|].
  apply io_bind_ok in H as (stop & w2 & _ & H). destruct stop; [done|].
  apply io_bind_ok in H as (setErr & w3 & _ & H). destruct setErr; [eauto|].
  apply io_bind_ok in H as (found & w4 & Hc & H). destruct found.
  - injection H as <- <-. unfold check_candidate in Hc. destruct (decide _) as [Hi|]; [|done].
    apply io_bind_ok in Hc as (r & w5 & Hl & Hc). injection Hc as Hf <-. destruct r as [peers|]; [|done].
    exists 0%nat, p, peers, w3. split; [done|]. split; [|done].
    destruct Hi as [->|Hi]; [done|]. by rewrite Z.add_0_r.
  - apply io_bind_ok in H as (stop & w5 & _ & H). destruct stop; [done|]. eauto.
Qed.

Lemma check_candidate_total sp i ep w : client_ok sp.(s_client) -> is_ok (check_candidate sp i ep w).
Proof. intros Hc. unfold check_candidate. io_total. Qed.

Lemma pace_total sp i w : is_ok (pace sp i w).
Proof. unfold pace. io_total. Qed.

Lemma scan_loop_total sp i ports w : client_ok sp.(s_client) -> is_ok (scan_loop sp i ports w).
Proof.
  intros Hc. revert i w. induction ports as [|p ports IH]; intros i w; cbn [scan_loop];
    io_total; auto using check_candidate_total, pace_total.
Qed.

(** ** Theorems *)

(** C13: When a blind scan reports an endpoint, it is the old host with a candidate port
    whose index is a multiple of 16, and in the last dump read the peer has that
    endpoint, a handshake not older than the start of the scan and more received bytes
    than the baseline. *)
Theorem blind_scan_sound (c : Client) (pk old ips : string) (ka rx count rate budget : Z) (w w' : W) (ep : string) :
  blindScanEndpoint c pk old ips ka rx count rate budget w = Ok (Some ep, w') ->
  exists h center ports p k peers w1 peer,
    scan_target old count = Some (h, center) /\
    prioritizedPorts center (Z.min count 65535) = Ok ports /\ ports !! k = Some p /\ Z.of_nat k `mod` 16 = 0 /\
    ep = JoinHostPort h (Itoa p) /\
    ListPeers c w1 = Ok (inl peers, w') /\ peer ∈ peers /\
    peer.(pi_PublicKey) = pk /\ peer.(pi_Endpoint) = ep /\
    (clock w).1.1 / second <= peer.(pi_LatestHandshake) /\ rx < peer.(pi_TransferRx).
Proof.
  unfold blindScanEndpoint. destruct (scan_target old count) as [[h center]|]; [|done].
  intros (t & w1 & Ht & H)%io_bind_ok. rewrite Now_ok in Ht. injection Ht as <- <-.
  apply io_bind_ok in H as (ports & w2 & Hports%lift_ok & H). apply io_bind_ok in H as (x & w4 & _ & H).
  apply scan_loop_found in H as (k & p & peers & w3 & Hk & Hm & -> & Hl & Hex). cbn in *.
  apply existsb_exists in Hex as (peer & Hin & Ha).
  unfold accepts in Ha. rewrite !andb_true_iff, !bool_decide_eq_true in Ha.
  destruct Ha as [[[? ?] ?] ?]. exists h, center, ports, p, k, peers, w3, peer.
  assert ((if decide (65535 < count) then 65535 else count) = Z.min count 65535) as Hcnt
    by (destruct (decide _); lia).
  rewrite Hcnt in Hports.
  split_and!; first [assumption | by apply list_elem_of_In | reflexivity].
Qed.

(** A scan panics exactly when it gets past its guards with a key shorter than 16; otherwise
    it returns. *)
Theorem blind_scan_panics_iff (c : Client) (pk old ips : string) (ka rx count rate budget : Z) (w : W) :
  client_ok c ->
  let r := blindScanEndpoint c pk old ips ka rx count rate budget w in
  (is_panic r <-> is_Some (scan_target old count) /\ (String.length pk < 16)%nat) /\
  (is_panic r \/ is_ok r).
Proof.
  intros Hc. cbn zeta. unfold blindScanEndpoint. destruct (scan_target old count) as [[h center]|] eqn:Htg.
  2: { split; [split; [by intros [? ?]|by intros [[? ?] ?]]|right; by eexists]. }
  rewrite (io_bind_of_ok _ _ _ _ _ (Now_ok w)). set (t := mkTime _ _). set (w1 := (clock w).2).
  destruct (prioritizedPorts_ok center (if decide (65535 < count) then 65535 else count)
    (scan_target_port _ _ _ _ Htg)) as [ports Hports].
  rewrite (io_bind_of_ok _ _ _ ports w1) by (unfold lift; by rewrite Hports).
  destruct (decide (16 <= String.length pk)%nat) as [Hlen|Hlen].
  - destruct (slice_to_ok _ _ Hlen) as [x Hx]. rewrite (io_bind_of_ok _ _ _ x w1) by (unfold lift; by rewrite Hx).
    match goal with |- context [scan_loop ?sp ?i ?ps ?w] => destruct (scan_loop_total sp i ps w Hc) as [r ->] end.
    split; [split; [by intros [? ?]|lia]|right; by eexists].
  - unfold lift at 1 2 3, mbind, io_bind. rewrite slice_to_panic by lia. cbn.
    split; [split; [intros _; split; [done|lia]|intros _; by eexists]|left; by eexists].
Qed.
End scan.
Close Scope Z_scope.
