(* ===== verification/Monitor.v ===== *)
(** * Handshake monitor ([runHandshakeMonitor] in [cmd/wg-meshd/main.go])

    The monitor watches the peers WireGuard reports, marks those whose
    handshake is stale, and tries to recover them by a blind scan or by
    restoring the endpoint it remembers.  It is the only code of the daemon
    that writes to the peer registry. *)

From S2P Require Import Prelude GoStrings GoFloat Host Uapi UapiProps Ports Scan Args MeshState.
Open Scope Z_scope.

Record savedPeer := mkSaved {
  sv_PublicKey : string;
  sv_Endpoint : string;
  sv_AllowedIPs : string;
  sv_KeepAlive : Z;
  sv_BaselineRx : Z;
  sv_removedAt : Time;
}.

Definition removed_now (sv : savedPeer) (t : Time) : savedPeer :=
  mkSaved sv.(sv_PublicKey) sv.(sv_Endpoint) sv.(sv_AllowedIPs) sv.(sv_KeepAlive) sv.(sv_BaselineRx) t.

(** The variables the closure [check] shares between its runs. *)
Record monitor := mkMonitor {
  mn_saved : gmap string savedPeer;
  mn_state : State;
}.

(** The parameters of [runHandshakeMonitor]. *)
Record mon_cfg := mkMonCfg {
  mc_client : Client;
  mc_hub : string;
  mc_timeout : Z;
  mc_restore : Z;
  mc_blind : bool;
  mc_ports : Z;
  mc_rate : Z;
  mc_budget : Z;
}.

(** [int64(timeout.Seconds())]. *)
Definition timeout_seconds (timeout : Z) : Z := f64_trunc (Seconds timeout).

(** The peers phase 1 looks at. *)
Definition watched (hub : string) (p : PeerInfo) : bool :=
  negb (bool_decide (p.(pi_PublicKey) = hub)) &&
  negb (bool_decide (p.(pi_Endpoint) = "") || bool_decide (p.(pi_Endpoint) = "(none)")) &&
  negb (Contains p.(pi_AllowedIPs) "/24").

Section monitor.
Context {W : Type} {host : Host W}.
(** The order in which Go iterates over [savedPeers]: it may differ from one
    iteration over the same map to the next. *)
Context (range_keys : W -> gmap string savedPeer -> list string).

(** [state.UpsertPeer(pk, func(ps) { ps.IsConnected = b })]. *)
Definition mark (st : State) (pk : string) (b : bool) : io W State :=
  now ← Now;
  mret (UpsertPeer st pk (set_connected b) now.(t_wall)).

(** Phase 1 for one peer. *)
Definition phase1 (cfg : mon_cfg) (now : Z) (m : monitor) (p : PeerInfo) : io W monitor :=
  if negb (watched cfg.(mc_hub) p) then mret m else
  let age := wrap64 (now - p.(pi_LatestHandshake)) in
  match m.(mn_saved) !! p.(pi_PublicKey) with
  | Some _ => mret m
  | None =>
      if decide (timeout_seconds cfg.(mc_timeout) < age) then
        _ ← lift (slice_to p.(pi_PublicKey) 16);
        let normalized := normalizedAllowedIPs p.(pi_AllowedIPs) in
        _ ← (if decide (normalized <> "")
             then SetPeer cfg.(mc_client) (mkCfg p.(pi_PublicKey) p.(pi_Endpoint) "" p.(pi_PersistentKeepalive))
             else mret None);
        t ← Now;
        let sv := mkSaved p.(pi_PublicKey) p.(pi_Endpoint) normalized p.(pi_PersistentKeepalive)
                    p.(pi_TransferRx) t in
        st ← mark m.(mn_state) p.(pi_PublicKey) false;
        mret (mkMonitor (<[p.(pi_PublicKey) := sv]> m.(mn_saved)) st)
      else mret m
  end.

(** Restoring the remembered endpoint. *)
Definition restore (cfg : mon_cfg) (m : monitor) (pk : string) (sv : savedPeer) : io W monitor :=
  _ ← lift (slice_to pk 16);
  err ← SetPeer cfg.(mc_client) (mkCfg sv.(sv_PublicKey) sv.(sv_Endpoint) sv.(sv_AllowedIPs) sv.(sv_KeepAlive));
  match (err : option string) with
  | Some _ => mret m
  | None =>
      t ← Now;
      mret (mkMonitor (<[pk := removed_now sv t]> m.(mn_saved)) m.(mn_state))
  end.

(** Phase 2 for one key of the map. *)
Definition phase2 (cfg : mon_cfg) (m : monitor) (pk : string) : io W monitor :=
  match m.(mn_saved) !! pk with
  | None => mret m
  | Some sv =>
      now ← Now;
      if decide (Sub now sv.(sv_removedAt) < Z.quot cfg.(mc_restore) 2) then mret m else
      found ← (if cfg.(mc_blind)
               then blindScanEndpoint cfg.(mc_client) sv.(sv_PublicKey) sv.(sv_Endpoint) sv.(sv_AllowedIPs)
                      sv.(sv_KeepAlive) sv.(sv_BaselineRx) cfg.(mc_ports) cfg.(mc_rate) cfg.(mc_budget)
               else mret None);
      match (found : option string) with
      | Some _ =>
          _ ← lift (slice_to pk 16);
          st ← mark m.(mn_state) pk true;
          mret (mkMonitor (delete pk m.(mn_saved)) st)
      | None => restore cfg m pk sv
      end
  end.

Definition check (cfg : mon_cfg) (m : monitor) : io W monitor :=
  r ← ListPeers cfg.(mc_client);
  match r with
  | inr _ => mret m
  | inl peers =>
      now ← Now;
      m ← io_range (phase1 cfg (unix now)) peers m;
      keys ← ask (fun w => range_keys w m.(mn_saved));
      io_range (phase2 cfg) keys m
  end.

(** The first [n] runs of [check]: once at the start, then on every tick
    until the context is cancelled. *)
Fixpoint run_checks (cfg : mon_cfg) (n : nat) (m : monitor) : io W monitor :=
  match n with
  | O => mret m
  | S n => m ← check cfg m; run_checks cfg n m
  end.

Definition new_monitor (st : State) : monitor := mkMonitor ∅ st.

(** ** Invariant *)

(** A peer under recovery. *)
Record saved_ok (hub : string) (st : State) (k : string) (sv : savedPeer) : Prop := {
  so_key : sv.(sv_PublicKey) = k;
  so_hub : k <> hub;
  so_len : (16 <= String.length k)%nat;
  so_ep : sv.(sv_Endpoint) <> "" /\ sv.(sv_Endpoint) <> "(none)";
  so_ips : Contains sv.(sv_AllowedIPs) "/24" = false /\ sv.(sv_AllowedIPs) <> "(none)";
  so_rec : exists r, get_record st k = Some r /\ r.(ps_IsConnected) = false;
}.

(** What the monitor writes to the registry. *)
Record record_ok (hub pk : string) (r : PeerState) : Prop := {
  ro_key : r.(ps_PublicKey) = pk;
  ro_hub : pk <> hub;
  ro_eps : r.(ps_Endpoints) = [];
}.

Record mon_inv (hub : string) (m : monitor) : Prop := {
  mi_wf : state_wf m.(mn_state);
  mi_saved : map_Forall (saved_ok hub m.(mn_state)) m.(mn_saved);
  mi_recs pk r : get_record m.(mn_state) pk = Some r -> record_ok hub pk r;
}.

Lemma mark_record st pk b (w : W) st' w' :
  state_wf st -> mark st pk b w = Ok (st', w') ->
  state_wf st' /\ exists now, forall k, get_record st' k =
    if decide (k = pk) then Some (seen_at now (set_connected b (default (zero_peer pk) (get_record st pk))))
    else get_record st k.
Proof.
  intros Hwf (now & w1 & _ & H)%io_bind_ok. injection H as <- <-. split; [by apply UpsertPeer_wf|].
  exists now.(t_wall). intros k. rewrite <- !lookup_abs, abs_upsert by done.
  destruct (decide (k = pk)) as [->|]; [by rewrite lookup_insert_eq|by rewrite lookup_insert_ne].
Qed.

Lemma mark_total st pk b (w : W) : is_ok (mark st pk b w).
Proof. unfold mark. io_total. Qed.

Lemma mark_recs hub st pk b (w : W) st' w' :
  state_wf st -> mark st pk b w = Ok (st', w') -> pk <> hub ->
  (forall k r, get_record st k = Some r -> record_ok hub k r) ->
  forall k r, get_record st' k = Some r -> record_ok hub k r.
Proof.
  intros Hwf Hm Hhub Hr k r. destruct (mark_record _ _ _ _ _ _ Hwf Hm) as (_ & now & ->).
  destruct (decide (k = pk)) as [->|]; [|apply Hr]. intros [= <-].
  destruct (get_record st pk) as [q|] eqn:Hq; [|by split]. destruct (Hr _ _ Hq). by split.
Qed.

(** Marking another key leaves a saved peer as it is. *)
Lemma mark_saved hub st pk b (w : W) st' w' k sv :
  state_wf st -> mark st pk b w = Ok (st', w') -> (k <> pk \/ b = false) ->
  saved_ok hub st k sv -> saved_ok hub st' k sv.
Proof.
  intros Hwf Hm Hk [? ? ? ? ? (r & Hr & Hc)]. split; try done.
  destruct (mark_record _ _ _ _ _ _ Hwf Hm) as (_ & now & ->).
  destruct (decide (k = pk)) as [->|]; [|by exists r]. destruct Hk as [| ->]; [done|]. eexists. by split.
Qed.

Lemma watched_spec hub p :
  watched hub p = true <->
  p.(pi_PublicKey) <> hub /\ (p.(pi_Endpoint) <> "" /\ p.(pi_Endpoint) <> "(none)") /\
  Contains p.(pi_AllowedIPs) "/24" = false.
Proof.
  unfold watched. rewrite !andb_true_iff, !negb_true_iff, orb_false_iff, !bool_decide_eq_false. tauto.
Qed.

Lemma normalizedAllowedIPs_ok s :
  Contains s "/24" = false ->
  Contains (normalizedAllowedIPs s) "/24" = false /\ normalizedAllowedIPs s <> "(none)".
Proof. intros H. unfold normalizedAllowedIPs. destruct (decide _); [done|]. split; [done|tauto]. Qed.

(** The two ways phase 1 treats a peer. *)
Definition stale (cfg : mon_cfg) (now : Z) (p : PeerInfo) : Prop :=
  watched cfg.(mc_hub) p = true /\ timeout_seconds cfg.(mc_timeout) < wrap64 (now - p.(pi_LatestHandshake)).

Lemma phase1_cases cfg now m p w m' w' :
  phase1 cfg now m p w = Ok (m', w') ->
  (m' = m /\ (stale cfg now p -> is_Some (m.(mn_saved) !! p.(pi_PublicKey)))) \/
  (stale cfg now p /\ m.(mn_saved) !! p.(pi_PublicKey) = None /\ (16 <= String.length p.(pi_PublicKey))%nat /\
   exists t w1, m'.(mn_saved) = <[p.(pi_PublicKey) :=
       mkSaved p.(pi_PublicKey) p.(pi_Endpoint) (normalizedAllowedIPs p.(pi_AllowedIPs))
         p.(pi_PersistentKeepalive) p.(pi_TransferRx) t]> m.(mn_saved) /\
     mark m.(mn_state) p.(pi_PublicKey) false w1 = Ok (m'.(mn_state), w')).
Proof.
  unfold phase1, stale. destruct (watched cfg.(mc_hub) p) eqn:Hw; cbn [negb].
  2: { intros [= <- _]. left. split; [done|]. by intros [? _]. }
  destruct (m.(mn_saved) !! p.(pi_PublicKey)) as [sv|] eqn:Hs.
  { intros [= <- _]. left. split; [done|]. eauto. }
  destruct (decide (timeout_seconds _ < _)) as [Ha|Ha].
  2: { intros [= <- _]. left. split; [done|]. by intros [_ ?]. }
  intros (x & w1 & Hsl & H)%io_bind_ok. apply io_bind_ok in H as (e & w2 & _ & H).
  apply io_bind_ok in H as (t & w3 & _ & H). apply io_bind_ok in H as (st & w4 & Hm & H).
  injection H as <- <-. apply lift_ok, slice_to_inv in Hsl. right. split_and!; try done. by exists t, w3.
Qed.

Lemma phase1_inv cfg now m p w m' w' :
  mon_inv cfg.(mc_hub) m -> phase1 cfg now m p w = Ok (m', w') -> mon_inv cfg.(mc_hub) m'.
Proof.
  intros [Hwf Hsv Hrec] [[-> _]|([Hw _] & _ & Hlen & t & w1 & Hs & Hm)]%phase1_cases; [done|].
  apply watched_spec in Hw as (Hhub & Hep & Hips).
  destruct (mark_record _ _ _ _ _ _ Hwf Hm) as (Hwf' & tm & Hget). split; [done| |].
  2: { by apply (mark_recs _ _ _ _ _ _ _ Hwf Hm Hhub). }
  rewrite Hs. apply map_Forall_insert_2.
  - split; cbn; [done..|by apply normalizedAllowedIPs_ok|]. rewrite Hget, decide_True by done. eexists. by split.
  - intros k sv Hk. apply (mark_saved _ _ _ _ _ _ _ _ _ Hwf Hm); [by right|]. by apply Hsv.
Qed.

Lemma restore_cases cfg m pk sv w m' w' :
  restore cfg m pk sv w = Ok (m', w') ->
  (16 <= String.length pk)%nat /\ m'.(mn_state) = m.(mn_state) /\
  (m' = m \/ exists t, m'.(mn_saved) = <[pk := removed_now sv t]> m.(mn_saved)).
Proof.
  unfold restore. intros (x & w1 & Hsl & H)%io_bind_ok. apply io_bind_ok in H as (e & w2 & _ & H).
  apply lift_ok, slice_to_inv in Hsl. destruct e.
  - injection H as <- <-. split_and!; [done..|by left].
  - apply io_bind_ok in H as (t & w3 & _ & H). injection H as <- <-. split_and!; [done..|]. right. by exists t.
Qed.

Lemma phase2_inv cfg m pk w m' w' :
  mon_inv cfg.(mc_hub) m -> phase2 cfg m pk w = Ok (m', w') -> mon_inv cfg.(mc_hub) m'.
Proof.
  intros [Hwf Hsv Hrec]. unfold phase2. destruct (m.(mn_saved) !! pk) as [sv|] eqn:Hpk.
  2: { by intros [= <- _]. }
  intros (now & w1 & _ & H)%io_bind_ok. destruct (decide _); [by injection H as <- <-|].
  apply io_bind_ok in H as (found & w2 & _ & H). destruct found.
  - apply io_bind_ok in H as (x & w3 & _ & H). apply io_bind_ok in H as (st & w4 & Hm & H). injection H as <- <-.
    pose proof (Hsv _ _ Hpk) as Hpkok. destruct (mark_record _ _ _ _ _ _ Hwf Hm) as (Hwf' & _).
    split; cbn; [done| |apply (mark_recs _ _ _ _ _ _ _ Hwf Hm); [apply Hpkok|done]].
    intros k sv' [Hne Hk]%lookup_delete_Some. apply (mark_saved _ _ _ _ _ _ _ _ _ Hwf Hm); [by left|]. by apply Hsv.
  - apply restore_cases in H as (_ & Hst & [->|(t & Hs)]); [done|]. split; rewrite Hst; [done| |done].
    rewrite Hs. apply map_Forall_insert_2; [|done]. by destruct (Hsv _ _ Hpk).
Qed.

Lemma check_inv cfg m w m' w' :
  mon_inv cfg.(mc_hub) m -> check cfg m w = Ok (m', w') -> mon_inv cfg.(mc_hub) m'.
Proof.
  intros Hi. unfold check. intros (r & w1 & _ & H)%io_bind_ok. destruct r as [peers|]; [|by injection H as <- <-].
  apply io_bind_ok in H as (now & w2 & _ & H). apply io_bind_ok in H as (m1 & w3 & H1 & H2).
  apply io_bind_ok in H2 as (keys & w4 & _ & H2). assert (mon_inv cfg.(mc_hub) m1) as Hm1.
  { eapply (io_range_inv (mon_inv cfg.(mc_hub))); [|exact Hi|exact H1]. intros. by eapply phase1_inv. }
  eapply (io_range_inv (mon_inv cfg.(mc_hub))); [|exact Hm1|exact H2]. intros. by eapply phase2_inv.
Qed.

Lemma new_monitor_inv hub selfKey t0 : mon_inv hub (new_monitor (NewState selfKey t0)).
Proof. split; cbn; [apply NewState_wf|done|]. intros pk r. done. Qed.

Lemma run_checks_inv cfg n m w m' w' :
  mon_inv cfg.(mc_hub) m -> run_checks cfg n m w = Ok (m', w') -> mon_inv cfg.(mc_hub) m'.
Proof.
  revert m w. induction n as [|n IH]; intros m w Hi; cbn [run_checks]; [by intros [= <- _]|].
  intros (m1 & w1 & H1 & H2)%io_bind_ok. eapply IH; [|exact H2]. by eapply check_inv.
Qed.

(** ** Totality *)

(** WireGuard keys are 44 base64 characters; the logs slice off 16. *)
Definition long_keys (c : Client) : Prop :=
  forall (w : W) peers w', ListPeers c w = Ok (inl peers, w') ->
    Forall (fun p => (16 <= String.length p.(pi_PublicKey))%nat) peers.

Lemma phase1_total cfg now m p (w : W) :
  client_ok cfg.(mc_client) -> (16 <= String.length p.(pi_PublicKey))%nat -> is_ok (phase1 cfg now m p w).
Proof.
  intros Hc Hlen. unfold phase1. io_total. apply mark_total.
Qed.

Lemma scan_total c pk old ips ka rx count rate budget (w : W) :
  client_ok c -> (16 <= String.length pk)%nat -> is_ok (blindScanEndpoint c pk old ips ka rx count rate budget w).
Proof.
  intros Hc Hlen. unfold blindScanEndpoint. destruct (scan_target old count) as [[h center]|] eqn:Ht; io_total.
  - destruct (prioritizedPorts_ok center (if decide (65535 < count) then 65535 else count)
      (scan_target_port _ _ _ _ Ht)) as [ports Hp]. exists (ports, w'). unfold lift. by rewrite Hp.
  - by apply scan_loop_total.
Qed.

Lemma phase2_total cfg m pk (w : W) :
  client_ok cfg.(mc_client) -> mon_inv cfg.(mc_hub) m -> is_ok (phase2 cfg m pk w).
Proof.
  intros Hc [_ Hsv _]. unfold phase2, restore. destruct (m.(mn_saved) !! pk) as [sv|] eqn:Hpk; [|io_total].
  destruct (Hsv _ _ Hpk) as [Hkey _ Hlen _ _ _]. io_total; [|apply mark_total].
  apply scan_total; [done|by rewrite Hkey].
Qed.

Lemma check_total cfg m (w : W) :
  client_ok cfg.(mc_client) -> long_keys cfg.(mc_client) -> mon_inv cfg.(mc_hub) m -> is_ok (check cfg m w).
Proof.
  intros Hc Hlong Hi. unfold check. destruct (ListPeers_total cfg.(mc_client) w Hc) as [[r w1] Hl]. io_run Hl.
  destruct r as [peers|]; [|by eexists]. specialize (Hlong _ _ _ Hl).
  destruct (Now_total w1) as [[t w2] Ht]. io_run Ht.
  assert (is_ok (io_range (phase1 cfg (unix t)) peers m w2)) as [[m1 w3] H1].
  { apply (io_range_total (mon_inv cfg.(mc_hub))); [|intros; by eapply phase1_inv|done].
    intros s p w3 Hp _. apply phase1_total; [done|]. rewrite Forall_forall in Hlong. by apply Hlong. }
  io_run H1. unfold ask at 1, mbind at 1, io_bind at 1. apply (io_range_total (mon_inv cfg.(mc_hub))).
  - intros. by apply phase2_total.
  - intros. by eapply phase2_inv.
  - eapply (io_range_inv (mon_inv cfg.(mc_hub))); [|exact Hi|exact H1]. intros. by eapply phase1_inv.
Qed.

(** ** Theorems *)

(** C4: After any number of runs of the handshake monitor's check, on any machine and in any
    map order: every peer under recovery is filed under its own key, is not the hub, has
    a usable endpoint and no /24 route, and is marked disconnected in the registry;
    every registry record is filed under its key, is not the hub's, and has no
    endpoints; the registry is well formed. *)
Theorem monitor_invariant (cfg : mon_cfg) (selfKey : string) (t0 : Z) (n : nat) (m : monitor) (w w' : W) :
  run_checks cfg n (new_monitor (NewState selfKey t0)) w = Ok (m, w') -> mon_inv cfg.(mc_hub) m.
Proof. apply run_checks_inv, new_monitor_inv. Qed.

(** The checks of the monitor always return, when the client names a program and [wg] lists
    keys of at least 16 characters. *)
Theorem monitor_total (cfg : mon_cfg) (selfKey : string) (t0 : Z) (n : nat) (w : W) :
  client_ok cfg.(mc_client) -> long_keys cfg.(mc_client) ->
  exists m w', run_checks cfg n (new_monitor (NewState selfKey t0)) w = Ok (m, w').
Proof.
  intros Hc Hlong. pose proof (new_monitor_inv cfg.(mc_hub) selfKey t0) as Hi. revert Hi.
  generalize (new_monitor (NewState selfKey t0)). revert w. induction n as [|n IH]; intros w m Hi; cbn [run_checks]; [by eexists _, _|].
  destruct (check_total cfg m w Hc Hlong Hi) as [[m1 w1] H1]. io_run H1. apply IH. by eapply check_inv.
Qed.

(** Phase 1 of a check puts exactly the stale watched peers under recovery, in addition to
    those already there, whose saved data it keeps. *)
Theorem phase1_saves_stale (cfg : mon_cfg) (now : Z) (peers : list PeerInfo) (m m' : monitor) (w w' : W) (k : string) :
  io_range (phase1 cfg now) peers m w = Ok (m', w') ->
  (is_Some (m'.(mn_saved) !! k) <->
   is_Some (m.(mn_saved) !! k) \/ Exists (fun p => p.(pi_PublicKey) = k /\ stale cfg now p) peers) /\
  (forall sv, m.(mn_saved) !! k = Some sv -> m'.(mn_saved) !! k = Some sv).
Proof.
  clear range_keys. revert m w. induction peers as [|p peers IH]; intros m w; cbn [io_range].
  - intros [= <- _]. rewrite Exists_nil. split; [tauto|done].
  - intros (m1 & w1 & H1 & H2)%io_bind_ok. destruct (IH _ _ H2) as [IH1 IH2]. rewrite Exists_cons, IH1.
    destruct (phase1_cases _ _ _ _ _ _ _ H1) as [[-> Hst]|(Hst & Hnone & _ & t & w2 & Hs & _)].
    + split; [|done]. split; [tauto|]. intros [?|[[<- ?]|?]]; auto.
    + rewrite Hs in IH2 |- *. rewrite lookup_insert_is_Some'. split; [naive_solver|].
      intros sv Hk. apply IH2. rewrite lookup_insert_ne; [done|]. intros E. rewrite E in Hnone. congruence.
Qed.
End monitor.
Close Scope Z_scope.
