(* ===== verification/Punch.v ===== *)
(** * Synchronized punching ([runPunchPlan] and [scheduleHubPunch] in
      [cmd/wg-meshd/main.go])

    A node that receives a plan waits for its start and tries the candidate
    endpoints in turn; the hub sends such plans to every pair of peers. *)

From S2P Require Import Prelude GoBytes GoStrings GoNet GoSort Table Node Host Uapi UapiProps Ports Scan.
Open Scope Z_scope.

Definition ms : Z := 10 ^ 6.

Section punch.
Context {W : Type} {host : Host W}.

(** The loop that waits for the start.  [time.UnixMilli] has no monotonic
    reading, so that [time.Until] compares wall clocks. *)
Fixpoint wait_start (fuel : nat) (startMs : Z) : io W unit :=
  match fuel with
  | O => fun _ => NoFuel
  | S fuel =>
      now ← Now;
      let remaining := Sub (mkTime (startMs * ms) None) now in
      if decide (remaining <= 0) then mret tt else
      _ ← call (sleep (if decide (50 * ms < remaining) then remaining - 25 * ms else remaining));
      wait_start fuel startMs
  end.

(** The inner loop for one endpoint: polls until the deadline. *)
Fixpoint poll (fuel : nat) (c : Client) (pk endpoint : string) (startedAt baselineRx : Z)
    (deadline : Time) : io W bool :=
  match fuel with
  | O => fun _ => NoFuel
  | S fuel =>
      now ← Now;
      if Before now deadline then
        r ← ListPeers c;
        let found := match r with
                     | inl peers => existsb (accepts pk endpoint startedAt baselineRx) peers
                     | inr _ => false
                     end in
        if (found : bool) then mret true else
        _ ← call (sleep (50 * ms));
        poll fuel c pk endpoint startedAt baselineRx deadline
      else mret false
  end.

(** Enough for a poll every 50 milliseconds of the window. *)
Definition poll_fuel (window : Z) : nat := Z.to_nat (window / (50 * ms)) + 2.

(** The loop over the candidates. *)
Fixpoint try_endpoints (c : Client) (pk : string) (window startedAt baselineRx : Z) (eps : list string) :
    io W (option string) :=
  match eps with
  | [] => mret None
  | endpoint :: eps =>
      err ← SetEndpointFast c pk endpoint;
      match (err : option string) with
      | Some _ => try_endpoints c pk window startedAt baselineRx eps
      | None =>
          now ← Now;
          found ← poll (poll_fuel window) c pk endpoint startedAt baselineRx (Add now window);
          if (found : bool) then mret (Some endpoint)
          else try_endpoints c pk window startedAt baselineRx eps
      end
  end.

Definition punch_window (plan : DhtMessage) : Z :=
  let window := wrap64 (plan.(m_PunchWindowMs) * ms) in
  if decide (window <= 0) then 500 * ms else window.

(** [baselineRx]: the bytes received from the first peer with the key. *)
Definition baseline (pk : string) (peers : list PeerInfo) : Z :=
  match filter (fun p => p.(pi_PublicKey) = pk) peers with
  | p :: _ => p.(pi_TransferRx)
  | [] => 0
  end.

(** What follows the wait. *)
Definition punch_now (plan : DhtMessage) (c : Client) : io W (option string) :=
  r ← ListPeers c;
  match r with
  | inr _ => mret None
  | inl peers =>
      let pk := plan.(m_TargetPublicKey) in
      now ← Now;
      try_endpoints c pk (punch_window plan) (unix now) (baseline pk peers) plan.(m_PunchPorts)
  end.

(** [fuel] bounds the readings of the clock during the wait. *)
Definition runPunchPlan (fuel : nat) (plan : DhtMessage) (c : Client) : io W (option string) :=
  _ ← wait_start fuel plan.(m_PunchStartUnix);
  punch_now plan c.
End punch.

(** ** The hub's schedule *)

Definition eligible (selfPK : string) (c : Contact) : Prop :=
  c.(c_PublicKey) <> "" /\ c.(c_PublicKey) <> selfPK /\ c.(c_PublicEndpoint) <> "".

#[export] Instance eligible_dec selfPK c : Decision (eligible selfPK c).
Proof. unfold eligible. apply _. Defined.

(** The pairs the two nested loops visit, in order. *)
Fixpoint punch_pairs (selfPK : string) (peers : list Contact) : list (Contact * Contact) :=
  match peers with
  | [] => []
  | a :: peers =>
      (if decide (eligible selfPK a) then (fun b => (a, b)) <$> filter (eligible selfPK) peers else [])
      ++ punch_pairs selfPK peers
  end.

(** What the clock and the network do for one pair: the time in nanoseconds,
    and the outcome of the two sends. *)
Record pair_env := mkPairEnv {
  pe_now : Z;
  pe_netA : net_outcome;
  pe_netB : net_outcome;
}.

(** [time.Now().Add(lead).UnixMilli()], on the wall clock. *)
Definition plan_start (lead : Z) (e : pair_env) : Z := (e.(pe_now) + lead) / ms.

Definition punch_id (startMs : Z) (a b : Contact) : result string :=
  pa ← slice_to a.(c_PublicKey) 8;
  pb ← slice_to b.(c_PublicKey) 8;
  Ok (Itoa startMs +:+ "-" +:+ pa +:+ "-" +:+ pb).

(** The body of the inner loop: the two plans, and the log that slices both
    keys. *)
Definition punch_pair (d : DHT) (env : Contact -> Contact -> pair_env) (window lead : Z)
    (out : list (destination * list (frame DhtMessage))) (ab : Contact * Contact) :
    result (list (destination * list (frame DhtMessage))) :=
  let '(a, b) := ab in
  let e := env a b in
  let start := plan_start lead e in
  id ← punch_id start a b;
  '(_, outA) ← SendPunchPlan d a b.(c_PublicKey) b.(c_PublicEndpoint) id start window
    [b.(c_PublicEndpoint)] e.(pe_netA);
  '(_, outB) ← SendPunchPlan d b a.(c_PublicKey) a.(c_PublicEndpoint) id start window
    [a.(c_PublicEndpoint)] e.(pe_netB);
  _ ← slice_to a.(c_PublicKey) 16;
  _ ← slice_to b.(c_PublicKey) 16;
  Ok (out ++ outA ++ outB).

(** One tick of [scheduleHubPunch]. *)
Definition hub_tick (d : DHT) (selfPK : string) (env : Contact -> Contact -> pair_env) (window lead : Z) :
    result (list (destination * list (frame DhtMessage))) :=
  let window := if decide (window <= 0) then 500 * ms else window in
  let lead := if decide (lead <= 0) then 750 * ms else lead in
  for_range (punch_pair d env window lead) (punch_pairs selfPK (KnownPeers d.(d_table))) [].
Close Scope Z_scope.
