(* ===== verification/PunchProps.v ===== *)
(** * Synchronized punching: theorems *)

From S2P Require Import Prelude GoBytes GoStrings GoNet GoSort Table Node Host Uapi UapiProps Ports Scan Punch NodeProps.
Open Scope Z_scope.

Section sound.
Context {W : Type} {host : Host W}.

(** A wait that ends, ends with a reading of the wall clock at or after the
    start. *)
Lemma wait_start_late fuel startMs (w : W) u w' :
  wait_start fuel startMs w = Ok (u, w') ->
  exists w0, startMs * ms <= (clock w0).1.1 /\ w' = (clock w0).2.
Proof.
  revert w. induction fuel as [|fuel IH]; intros w; cbn [wait_start]; [done|].
  intros (t & w1 & Ht & H)%io_bind_ok. rewrite Now_ok in Ht. injection Ht as <- <-.
  destruct (decide (Sub _ _ <= 0)) as [Hs|].
  - injection H as _ <-. exists w. split; [|done]. unfold Sub, saturate, max_int64 in Hs. cbn in Hs. lia.
  - apply io_bind_ok in H as (v & w2 & _ & H). eauto.
Qed.

Lemma poll_found fuel c pk ep started rx deadline (w w' : W) :
  poll fuel c pk ep started rx deadline w = Ok (true, w') ->
  exists w1 peers, ListPeers c w1 = Ok (inl peers, w') /\ existsb (accepts pk ep started rx) peers = true.
Proof.
  revert w. induction fuel as [|fuel IH]; intros w; cbn [poll]; [done|].
  intros (t & w1 & _ & H)%io_bind_ok. destruct (Before t deadline); [|done].
  apply io_bind_ok in H as (r & w2 & Hl & H). cbn zeta in H.
  destruct (match r with inl _ => _ | inr _ => _ end) eqn:Hf.
  - injection H as <-. destruct r as [peers|]; [|done]. eauto.
  - apply io_bind_ok in H as (u & w3 & _ & H). eauto.
Qed.

Lemma try_endpoints_found c pk window started rx eps (w w' : W) ep :
  try_endpoints c pk window started rx eps w = Ok (Some ep, w') ->
  ep ∈ eps /\ exists w1 peers, ListPeers c w1 = Ok (inl peers, w') /\ existsb (accepts pk ep started rx) peers = true.
Proof.
  revert w. induction eps as [|e eps IH]; intros w; cbn [try_endpoints]; [done|].
  intros (err & w1 & _ & H)%io_bind_ok. rewrite elem_of_cons.
  destruct err; [apply IH in H; tauto|].
  apply io_bind_ok in H as (t & w2 & _ & H). apply io_bind_ok in H as (b & w3 & Hp & H).
  destruct b; [|apply IH in H; tauto]. injection H as <- <-. split; [by left|]. by eapply poll_found.
Qed.

(** C30: On any machine, without assumptions on its clocks: when a punch plan reports an
    endpoint, it is one of the plan's candidates; the wall clock was read at or after
    the plan's start before the first dump; and the last dump shows the target with that
    endpoint, a handshake not older than the reading of the clock right after the first
    dump, and more received bytes than the first dump showed. *)
Theorem punch_sound (fuel : nat) (plan : DhtMessage) (c : Client) (w w' : W) (ep : string) :
  runPunchPlan fuel plan c w = Ok (Some ep, w') ->
  ep ∈ plan.(m_PunchPorts) /\
  exists w0 peers0 w1 w2 peers peer,
    (* the wait ends on a reading of the clock, then the first dump is read *)
    plan.(m_PunchStartUnix) * ms <= (clock w0).1.1 /\
    ListPeers c (clock w0).2 = Ok (inl peers0, w1) /\
    (* the last dump *)
    ListPeers c w2 = Ok (inl peers, w') /\ peer ∈ peers /\
    peer.(pi_PublicKey) = plan.(m_TargetPublicKey) /\ peer.(pi_Endpoint) = ep /\
    (clock w1).1.1 / second <= peer.(pi_LatestHandshake) /\
    baseline plan.(m_TargetPublicKey) peers0 < peer.(pi_TransferRx).
Proof.
  unfold runPunchPlan. intros (u & w0 & (wx & Hstart & ->)%wait_start_late & H)%io_bind_ok.
  unfold punch_now in H. apply io_bind_ok in H as (r & w1 & Hl & H).
  destruct r as [peers0|]; [|done]. apply io_bind_ok in H as (t & w2 & Ht & H).
  rewrite Now_ok in Ht. injection Ht as <- <-.
  apply try_endpoints_found in H as (Hin & w3 & peers & Hp & Hex). split; [done|].
  apply existsb_exists in Hex as (peer & Hpeer & Ha). unfold accepts in Ha.
  rewrite !andb_true_iff, !bool_decide_eq_true in Ha. destruct Ha as [[[? ?] ?] ?].
  exists wx, peers0, w1, w3, peers, peer. split_and!; try done. by apply list_elem_of_In.
Qed.
End sound.

(** ** Termination *)

Section time.
Context {W : Type} {host : Host W} {ht : HostTime W}.
(** Nobody sets the wall clock while the plan runs. *)
Context (offset : Z) (steady : wall_steady host offset).

Lemma call_sleep d w u (w' : W) : 0 <= d -> call (sleep d) w = Ok (u, w') -> time_of w + d <= time_of w'.
Proof. intros Hd [= H]. pose proof (sleep_time d w Hd). by rewrite H in *. Qed.

(** A command lets the time pass. *)
Lemma ListPeers_time c (w : W) r w' : ListPeers c w = Ok (r, w') -> time_of w <= time_of w'.
Proof.
  unfold ListPeers, ShowDump. intros (d & w1 & H & Hr)%io_bind_ok. injection Hr as _ <-.
  apply io_bind_ok in H as ([prog pre] & w2 & Hp & H). apply io_bind_ok in H as (x & w3 & Hx & H).
  injection H as _ <-. unfold lift in Hp. destruct (wg_parts c); [|done..]. injection Hp as _ <-.
  unfold call in Hx. injection Hx as Hx. pose proof (run_time prog (pre ++ ["show"; cl_iface c; "dump"]) w) as Ht.
  by rewrite Hx in Ht.
Qed.

(** The time left until the start, at most. *)
Definition time_left (startMs : Z) (w : W) : Z := startMs * ms - offset - time_of w.

(** One iteration of the wait: it ends after the start, or sleeps. *)
Lemma wait_step startMs (w : W) :
  (startMs * ms <= (clock w).1.1 /\ forall fuel, wait_start (S fuel) startMs w = Ok (tt, (clock w).2)) \/
  exists w2 d r, 0 < r <= time_left startMs w /\ d = Z.min r max_int64 /\
    time_left startMs w2 <= r - (if decide (50 * ms < d) then d - 25 * ms else d) /\
    forall fuel, wait_start (S fuel) startMs w = wait_start fuel startMs w2.
Proof.
  set (r := startMs * ms - (clock w).1.1). set (d := Sub (mkTime (startMs * ms) None) (mkTime (clock w).1.1 (Some (clock w).1.2))).
  assert (d = saturate r) as Hd by done. pose proof (clock_time w) as Hclk. pose proof (steady w) as Hst.
  destruct (decide (r <= 0)) as [Hr|Hr].
  - left. split; [lia|]. intros fuel. cbn [wait_start]. io_run (Now_ok w). fold d.
    rewrite decide_True; [done|]. rewrite Hd. unfold saturate, min_int64. lia.
  - right. assert (d = Z.min r max_int64) as Hd' by (rewrite Hd; unfold saturate, min_int64, max_int64; lia).
    assert (0 < d) as Hpos by (rewrite Hd'; unfold max_int64; lia).
    set (nap := if decide (50 * ms < d) then d - 25 * ms else d).
    assert (0 <= nap) as Hnap.
    { unfold nap. clearbody d. unfold ms. destruct (decide (50 * 10 ^ 6 < d)); lia. }
    destruct (call_ok (sleep nap) (clock w).2) as (u & w2 & H2). exists w2, d, r.
    pose proof (call_sleep _ _ _ _ Hnap H2) as Ht. unfold time_left, r in *.
    split_and!; [lia|lia|done|fold nap; lia|]. intros fuel. cbn [wait_start]. io_run (Now_ok w). fold d.
    rewrite decide_False by lia. fold nap. by io_run H2.
Qed.

(** The wait ends: after [n] long sleeps, one that leaves 25 milliseconds
    and one that leaves nothing. *)
Lemma wait_ends n startMs (w : W) :
  time_left startMs w <= max_int64 + Z.of_nat n * 2 ^ 62 ->
  exists w0, startMs * ms <= (clock w0).1.1 /\
    forall fuel, wait_start (3 + n + fuel) startMs w = Ok (tt, (clock w0).2).
Proof.
  assert (forall w2, time_left startMs w2 <= 0 -> exists w0, startMs * ms <= (clock w0).1.1 /\
    forall fuel, wait_start (1 + fuel) startMs w2 = Ok (tt, (clock w0).2)) as H0.
  { intros w2 Hl. destruct (wait_step startMs w2) as [[Hs Hf]|(? & ? & ? & ? & _)]; [eauto|lia]. }
  assert (forall w2, time_left startMs w2 <= 50 * ms -> exists w0, startMs * ms <= (clock w0).1.1 /\
    forall fuel, wait_start (2 + fuel) startMs w2 = Ok (tt, (clock w0).2)) as H1.
  { intros w2 Hl. destruct (wait_step startMs w2) as [[Hs Hf]|(w3 & d & r & Hr & -> & Hl3 & Hf)].
    { exists w2. split; [done|]. intros fuel. apply (Hf (S fuel)). }
    destruct (H0 w3) as (w0 & Hs & Hf0).
    { rewrite decide_False in Hl3 by (unfold ms, max_int64 in *; lia). unfold ms, max_int64 in *. lia. }
    exists w0. split; [done|]. intros fuel. cbn [Nat.add]. rewrite Hf. apply Hf0. }
  revert w. induction n as [|n IH]; intros w Hl.
  - destruct (wait_step startMs w) as [[Hs Hf]|(w2 & d & r & Hr & -> & Hl2 & Hf)].
    { exists w. split; [done|]. intros fuel. apply (Hf (S (S fuel))). }
    destruct (H1 w2) as (w0 & Hs & Hf0).
    { unfold ms, max_int64 in *. destruct (decide _); lia. }
    exists w0. split; [done|]. intros fuel. cbn [Nat.add]. rewrite Hf. apply Hf0.
  - destruct (wait_step startMs w) as [[Hs Hf]|(w2 & d & r & Hr & -> & Hl2 & Hf)].
    { exists w. split; [done|]. intros fuel. apply (Hf (S (S (S n + fuel)))). }
    destruct (IH w2) as (w0 & Hs & Hf0).
    { unfold ms, max_int64 in *. destruct (decide _); lia. }
    exists w0. split; [done|]. intros fuel. replace (3 + S n + fuel)%nat with (S (3 + n + fuel)) by lia.
    rewrite Hf. apply Hf0.
Qed.

(** Comparisons with a deadline agree on both clocks. *)
Lemma before_deadline w0 window (w : W) :
  Before (mkTime (clock w).1.1 (Some (clock w).1.2)) (Add (mkTime (clock w0).1.1 (Some (clock w0).1.2)) window)
  = bool_decide ((clock w).1.2 < (clock w0).1.2 + window).
Proof.
  unfold Before, Add; cbn. destruct (decide (int64_range _)); [done|]. rewrite (steady w), (steady w0).
  apply bool_decide_ext. lia.
Qed.

Lemma poll_total fuel c pk ep started rx w0 window (w : W) :
  client_ok c -> (clock w0).1.2 + window - time_of w <= 50 * ms * Z.of_nat fuel ->
  is_ok (poll (S fuel) c pk ep started rx (Add (mkTime (clock w0).1.1 (Some (clock w0).1.2)) window) w).
Proof.
  intros Hc. revert w. induction fuel as [|fuel IH]; intros w Hf; cbn [poll]; io_run (Now_ok w);
    rewrite before_deadline; pose proof (clock_time w) as Ht.
  { rewrite bool_decide_eq_false_2 by lia. by eexists. }
  case_bool_decide as Hlt; [|by eexists].
  destruct (ListPeers_total c (clock w).2 Hc) as [[r w2] H2]. pose proof (ListPeers_time _ _ _ _ H2) as Ht2. io_run H2.
  cbn zeta. destruct (match r with inl _ => _ | inr _ => _ end); [by eexists|].
  destruct (call_ok (sleep (50 * ms)) w2) as (u & w3 & H3).
  pose proof (call_sleep (50 * ms) _ _ _ ltac:(unfold ms; lia) H3) as Ht3. io_run H3.
  apply IH. unfold ms in *. lia.
Qed.

Lemma punch_window_pos plan : 0 < punch_window plan.
Proof. unfold punch_window. destruct (decide _); unfold ms in *; lia. Qed.

Lemma try_endpoints_total c pk window started rx eps (w : W) :
  client_ok c -> 0 < window -> is_ok (try_endpoints c pk window started rx eps w).
Proof.
  intros Hc Hw. revert w. induction eps as [|ep eps IH]; intros w; cbn [try_endpoints]; [by eexists|].
  destruct (SetEndpointFast_total c pk ep w Hc) as [[e w1] H1]. io_run H1. destruct e; [apply IH|].
  pose proof (clock_time w1) as Ht. io_run (Now_ok w1).
  unfold poll_fuel. rewrite (Nat.add_comm _ 2). cbn [Nat.add].
  destruct (poll_total (S (Z.to_nat (window / (50 * ms)))) c pk ep started rx w1 window (clock w1).2) as [[b w3] H3]; [done| |].
  - rewrite Nat2Z.inj_succ, Z2Nat.id by (apply Z.div_pos; unfold ms; lia).
    pose proof (Z.mul_succ_div_gt window (50 * ms) ltac:(unfold ms; lia)). lia.
  - io_run H3. destruct b; [by eexists|apply IH].
Qed.

Lemma punch_now_total plan c (w : W) : client_ok c -> is_ok (punch_now plan c w).
Proof.
  intros Hc. unfold punch_now. destruct (ListPeers_total c w Hc) as [[r w1] H1]. io_run H1.
  destruct r; [|by eexists]. io_run (Now_ok w1).
  apply try_endpoints_total; [done|apply punch_window_pos].
Qed.

(** C29: For a client that names a program, on a machine whose monotonic clock does not go
    back and whose wall clock runs with it (it is not set while the plan waits): the
    wait ends, after at most three readings of the clock when the start is at most 2^63
    nanoseconds ahead and after finitely many otherwise; the last reading of the wall
    clock is not before the start; and from there, where the first command is issued,
    the plan runs to its end. *)
Theorem punch_on_time (plan : DhtMessage) (c : Client) (w : W) :
  client_ok c ->
  exists n w0,
    plan.(m_PunchStartUnix) * ms <= (clock w0).1.1 /\
    is_ok (punch_now plan c (clock w0).2) /\
    (forall fuel, (n <= fuel)%nat -> runPunchPlan fuel plan c w = punch_now plan c (clock w0).2) /\
    (plan.(m_PunchStartUnix) * ms - (time_of w + offset) <= max_int64 -> n = 3%nat).
Proof.
  intros Hc. set (far := Z.max 0 (time_left plan.(m_PunchStartUnix) w - max_int64)).
  set (n := if decide (far = 0) then 0%nat else Z.to_nat (far / 2 ^ 62 + 1)).
  destruct (wait_ends n plan.(m_PunchStartUnix) w) as (w0 & Hs & Hf).
  { unfold n. destruct (decide (far = 0)); [unfold far in *; lia|].
    pose proof (Z.div_pos far (2 ^ 62) ltac:(lia) ltac:(lia)). rewrite Z2Nat.id by lia.
    pose proof (Z.mul_succ_div_gt far (2 ^ 62) ltac:(lia)). unfold far in *. lia. }
  exists (3 + n)%nat, w0. split_and!; [done|by apply punch_now_total| |].
  - intros fuel Hfuel. unfold runPunchPlan. replace fuel with (3 + n + (fuel - (3 + n)))%nat by lia.
    by io_run (Hf (fuel - (3 + n))%nat).
  - intros Hl. unfold n. rewrite decide_True; [done|]. unfold far, time_left. lia.
Qed.
End time.

(** ** The hub's schedule *)

Lemma elem_of_punch_pairs selfPK peers a b :
  (a, b) ∈ punch_pairs selfPK peers <->
  eligible selfPK a /\ eligible selfPK b /\
  exists i j, (i < j)%nat /\ peers !! i = Some a /\ peers !! j = Some b.
Proof.
  induction peers as [|c peers IH]; cbn [punch_pairs].
  - split; [intros H; by apply elem_of_nil in H|]. by intros (_ & _ & i & j & _ & Hi & _).
  - rewrite elem_of_app, IH. split.
    + intros [H|(? & ? & i & j & ? & ? & ?)].
      * destruct (decide (eligible selfPK c)) as [Hc|]; [|by apply elem_of_nil in H].
        apply list_elem_of_fmap in H as (b' & [= -> ->] & [Hb Hin]%list_elem_of_filter).
        apply list_elem_of_lookup in Hin as [j Hj]. split_and!; [done..|]. exists 0%nat, (S j). split; [lia|done].
      * split_and!; [done..|]. exists (S i), (S j). split; [lia|done].
    + intros (Ha & Hb & [|i] & [|j] & Hij & Hi & Hj); simplify_eq/=; [lia| |lia|].
      * left. rewrite decide_True by done. apply list_elem_of_fmap. exists b. split; [done|].
        apply list_elem_of_filter. split; [done|]. by eapply list_elem_of_lookup_2.
      * right. split_and!; [done..|]. exists i, j. split; [lia|done].
Qed.

Lemma punch_pairs_length selfPK peers :
  let n := length (filter (eligible selfPK) peers) in
  (2 * length (punch_pairs selfPK peers) = n * (n - 1))%nat.
Proof.
  induction peers as [|c peers IH]; cbn [punch_pairs]; [done|].
  rewrite filter_cons, length_app. destruct (decide (eligible selfPK c)); cbn [length] in *; [|exact IH].
  rewrite length_fmap. set (k := length (filter _ peers)) in *. destruct k; cbn in *; lia.
Qed.

(** The nested loops visit every pair of eligible peers once. *)
Theorem hub_pairs_complete (selfPK : string) (peers : list Contact) :
  (forall a b, (a, b) ∈ punch_pairs selfPK peers <->
     eligible selfPK a /\ eligible selfPK b /\
     exists i j, (i < j)%nat /\ peers !! i = Some a /\ peers !! j = Some b) /\
  (2 * length (punch_pairs selfPK peers)
   = length (filter (eligible selfPK) peers) * (length (filter (eligible selfPK) peers) - 1))%nat.
Proof. split; [apply elem_of_punch_pairs|apply punch_pairs_length]. Qed.

(** Where a plan for a peer goes: on its control connection, else on one
    dialled for it; [None] when nothing is sent. *)
Definition reached (d : DHT) (c : Contact) (net : net_outcome) : option destination :=
  match d.(d_controlConns) !! c.(c_PublicKey), net with
  | _, FirstWriteFails => None
  | Some conn, _ => Some (OnConn conn)
  | None, DialFails => None
  | None, _ => if decide (control_addr c = "") then None else Some (OnDial (control_addr c))
  end.

(** Keys long enough for the logs of a plan to [c]. *)
Definition loggable (d : DHT) (c : Contact) : Prop :=
  (16 <= String.length c.(c_PublicKey))%nat /\
  (is_Some (d.(d_controlConns) !! c.(c_PublicKey)) \/
   (32 <= String.length c.(c_PublicKey))%nat /\
   Forall (fun k => 16 <= String.length k)%nat (map_to_list d.(d_controlConns)).*1).

(** The plan to [to] that asks it to punch through to [about]. *)
Definition plan_about (d : DHT) (about : Contact) (id : string) (start window : Z) : DhtMessage := {|
  m_Type := MsgPunchPlan; m_SenderID := d.(d_table).(t_selfID); m_TargetID := ""; m_Contacts := [];
  m_PublicKey := d.(d_publicKey); m_WgEndpoint := about.(c_PublicEndpoint); m_PublicEndpoint := "";
  m_State := ""; m_ControlEndpoint := ""; m_PunchID := id; m_TargetPublicKey := about.(c_PublicKey);
  m_PunchStartUnix := start; m_PunchWindowMs := Z.quot window 1000000;
  m_PunchPorts := [about.(c_PublicEndpoint)] |}.

Definition plan_to (d : DHT) (to about : Contact) (net : net_outcome) (id : string) (start window : Z) :
    list (destination * list (frame DhtMessage)) :=
  match reached d to net with
  | Some dest => [(dest, encode_fresh (plan_about d about id start window))]
  | None => []
  end.

Lemma SendPunchPlan_to d to about net id start window :
  loggable d to -> exists err,
  SendPunchPlan d to about.(c_PublicKey) about.(c_PublicEndpoint) id start window [about.(c_PublicEndpoint)] net
  = Ok (err, plan_to d to about net id start window).
Proof.
  intros [_ Hl]. unfold SendPunchPlan, plan_to, reached.
  destruct (d_controlConns d !! c_PublicKey to) as [conn|].
  { destruct net; by eexists. }
  destruct Hl as [[? [=]]|[Hlen HF]]. rewrite slice_to_take by done.
  destruct (for_range _ _ tt) as [u|q|] eqn:Hf.
  - cbn. destruct (decide (control_addr to = "")); [destruct net; by eexists|]. destruct net; by eexists.
  - exfalso. assert (is_panic (Panic q : result unit)) as Hp by by eexists. rewrite <- Hf, slice_keys_panic in Hp.
    apply Exists_exists in Hp as (k & Hk & Hlt). rewrite Forall_forall in HF. apply HF in Hk. lia.
  - by apply slice_keys_NoFuel in Hf.
Qed.

(** What one pair gets. *)
Definition pair_out (d : DHT) (env : Contact -> Contact -> pair_env) (window lead : Z) (ab : Contact * Contact) :
    list (destination * list (frame DhtMessage)) :=
  let '(a, b) := ab in
  let start := ((env a b).(pe_now) + lead) / ms in
  let id := Itoa start +:+ "-" +:+ str_take 8 a.(c_PublicKey) +:+ "-" +:+ str_take 8 b.(c_PublicKey) in
  plan_to d a b (env a b).(pe_netA) id start window ++ plan_to d b a (env a b).(pe_netB) id start window.

Lemma punch_pair_out d env window lead out a b :
  loggable d a -> loggable d b ->
  punch_pair d env window lead out (a, b) = Ok (out ++ pair_out d env window lead (a, b)).
Proof.
  intros Ha Hb. unfold punch_pair, pair_out, punch_id. cbn zeta.
  rewrite !(slice_to_take _ 8) by (destruct Ha, Hb; lia). cbn [mbind result_bind].
  match goal with |- context [SendPunchPlan d a _ _ ?id ?st ?w _ ?n] =>
    destruct (SendPunchPlan_to d a b n id st w Ha) as [e1 ->] end. cbn [mbind result_bind].
  match goal with |- context [SendPunchPlan d b _ _ ?id ?st ?w _ ?n] =>
    destruct (SendPunchPlan_to d b a n id st w Hb) as [e2 ->] end. cbn [mbind result_bind].
  rewrite !(slice_to_take _ 16) by (destruct Ha, Hb; lia). done.
Qed.

Lemma punch_range_out d env window lead ps out :
  Forall (fun ab => loggable d ab.1 /\ loggable d ab.2) ps ->
  for_range (punch_pair d env window lead) ps out = Ok (out ++ concat (pair_out d env window lead <$> ps)).
Proof.
  intros HF. revert out. induction HF as [|[a b] ps [Ha Hb] _ IH]; intros out; [by rewrite app_nil_r|].
  cbn [for_range]. rewrite punch_pair_out by done. cbn [mbind result_bind]. rewrite IH. by rewrite <- app_assoc.
Qed.

Lemma elem_of_plan_to d to about net id start window x :
  x ∈ plan_to d to about net id start window <->
  exists dest, reached d to net = Some dest /\ x = (dest, encode_fresh (plan_about d about id start window)).
Proof.
  unfold plan_to. destruct (reached d to net) as [dest|]; [|split; [by intros ?%elem_of_nil|naive_solver]].
  rewrite list_elem_of_singleton. naive_solver.
Qed.

Lemma length_pair_out d env window lead ps :
  (length (concat (pair_out d env window lead <$> ps)) <= 2 * length ps)%nat /\
  (Forall (fun '(a, b) => is_Some (reached d a (env a b).(pe_netA)) /\ is_Some (reached d b (env a b).(pe_netB))) ps ->
   length (concat (pair_out d env window lead <$> ps)) = 2 * length ps)%nat.
Proof.
  induction ps as [|[a b] ps [IH1 IH2]]; [done|]. cbn [fmap list_fmap concat length]. rewrite length_app.
  unfold pair_out at 1 3. rewrite length_app. unfold plan_to. split.
  - destruct (reached d a (env a b).(pe_netA)), (reached d b (env a b).(pe_netB)); cbn; lia.
  - intros [[[? ->] [? ->]] HF]%Forall_cons. cbn. rewrite IH2 by done. lia.
Qed.

(** C38: When every eligible peer (a key, not the hub's own, a public endpoint) has a key
    long enough for the log lines (16 characters; without a control connection 32, and
    then all connected keys 16), a tick of the hub's scheduler returns, and what it
    sends is exactly: for every two eligible peers a before b of the table, a plan to a
    naming b and b's public endpoint and a plan to b naming a and a's public endpoint,
    with the same identifier, start and window, on the peer's control connection or else
    dialled, wherever the peer can be reached; at most n(n-1) plans for n eligible
    peers, and exactly that many when all can be reached. *)
Theorem hub_tick_plans (d : DHT) (selfPK : string) (env : Contact -> Contact -> pair_env) (window0 lead0 : Z) :
  let peers := KnownPeers d.(d_table) in
  let window := if decide (window0 <= 0) then 500 * ms else window0 in
  let lead := if decide (lead0 <= 0) then 750 * ms else lead0 in
  let n := length (filter (eligible selfPK) peers) in
  Forall (fun c => eligible selfPK c -> loggable d c) peers ->
  exists out, hub_tick d selfPK env window0 lead0 = Ok out /\
    (forall x, x ∈ out <-> exists i j a b, (i < j)%nat /\ peers !! i = Some a /\ peers !! j = Some b /\
       eligible selfPK a /\ eligible selfPK b /\
       let start := ((env a b).(pe_now) + lead) / ms in
       let id := Itoa start +:+ "-" +:+ str_take 8 a.(c_PublicKey) +:+ "-" +:+ str_take 8 b.(c_PublicKey) in
       (exists dest, reached d a (env a b).(pe_netA) = Some dest /\
          x = (dest, encode_fresh (plan_about d b id start window))) \/
       (exists dest, reached d b (env a b).(pe_netB) = Some dest /\
          x = (dest, encode_fresh (plan_about d a id start window)))) /\
    (length out <= n * (n - 1))%nat /\
    ((forall a b, a ∈ peers -> b ∈ peers -> eligible selfPK a -> eligible selfPK b ->
        is_Some (reached d a (env a b).(pe_netA)) /\ is_Some (reached d b (env a b).(pe_netB))) ->
     length out = n * (n - 1))%nat.
Proof.
  intros peers window lead n Hlog. set (ps := punch_pairs selfPK peers).
  assert (forall a b, (a, b) ∈ ps -> a ∈ peers /\ b ∈ peers /\ eligible selfPK a /\ eligible selfPK b) as Hps.
  { intros a b (Ha & Hb & i & j & _ & Hi & Hj)%elem_of_punch_pairs. split_and!; eauto using list_elem_of_lookup_2. }
  rewrite Forall_forall in Hlog. pose proof (punch_pairs_length selfPK peers) as Hlen.
  cbn zeta in Hlen. fold ps n in Hlen.
  exists (concat (pair_out d env window lead <$> ps)). split_and!.
  - unfold hub_tick. fold peers window lead ps. rewrite punch_range_out; [done|]. apply Forall_forall.
    intros [a b] (Ha & Hb & Hea & Heb)%Hps. cbn. auto.
  - intros x. rewrite list_elem_of_In, in_concat. setoid_rewrite <- list_elem_of_In.
    setoid_rewrite list_elem_of_fmap. split.
    + intros (l & ([a b] & -> & (Hea & Heb & i & j & Hij & Hi & Hj)%elem_of_punch_pairs) & Hx).
      exists i, j, a, b. split_and!; [done..|]. cbn zeta. unfold pair_out in Hx.
      by rewrite elem_of_app, !elem_of_plan_to in Hx.
    + intros (i & j & a & b & Hij & Hi & Hj & Hea & Heb & Hx). exists (pair_out d env window lead (a, b)). split.
      * exists (a, b). split; [done|]. apply elem_of_punch_pairs. eauto 10.
      * unfold pair_out. by rewrite elem_of_app, !elem_of_plan_to.
  - rewrite <- Hlen. apply length_pair_out.
  - intros Hr. rewrite <- Hlen. apply length_pair_out, Forall_forall. intros [a b] (Ha & Hb & Hea & Heb)%Hps. auto.
Qed.
Close Scope Z_scope.
