(* ===== verification/Daemon.v ===== *)
(** * The daemon ([main] and its helpers in [cmd/wg-meshd/main.go])

    The callbacks that tie the components together, the discovery of the
    public endpoint, the seeds and the start of the protocols. *)

From S2P Require Import Prelude GoBytes GoStrings GoNet GoSort Table Node Stun Host Uapi UapiProps.
From S2P Require Import MeshState Pex PexConc Args Ports Scan Monitor.

(** ** [net.IP.String] *)

Fixpoint hex_text (fuel : nat) (v : Z) (acc : string) : string :=
  match fuel with
  | O => acc
  | S fuel =>
      let acc := String (hex_digit (v `mod` 16)) acc in
      if decide (v < 16)%Z then acc else hex_text fuel (v `div` 16) acc
  end.

Fixpoint groups16 (ip : list Z) : list Z :=
  match ip with
  | x :: y :: ip => be16 x y :: groups16 ip
  | _ => []
  end.

Fixpoint zero_run (gs : list Z) : nat :=
  match gs with
  | g :: gs => if decide (g = 0%Z) then S (zero_run gs) else O
  | [] => O
  end.

(** The first longest run of zero groups: its position and length. *)
Fixpoint best_run (i : nat) (gs : list Z) : nat * nat :=
  match gs with
  | [] => (i, O)
  | _ :: gs' =>
      let '(j, n) := best_run (S i) gs' in
      if decide (n <= zero_run gs) then (i, zero_run gs) else (j, n)
  end.

Definition group_text (g : Z) : string := hex_text 4 g "".

Definition v4_text (ip : list Z) : string := Join "." (Itoa <$> ip).

Definition v6_text (ip : list Z) : string :=
  let gs := groups16 ip in
  let '(i, n) := best_run 0 gs in
  if decide (2 <= n)
  then Join ":" (group_text <$> take i gs) +:+ "::" +:+ Join ":" (group_text <$> drop (i + n) gs)
  else Join ":" (group_text <$> gs).

Definition IPString (ip : list Z) : string :=
  if decide (length ip = 4) then v4_text ip
  else if decide (length ip = 16) then
    if decide (take 12 ip = replicate 10 0%Z ++ [255; 255]%Z) then v4_text (drop 12 ip) else v6_text ip
  else "?" +:+ hex_encode ip.

Example ip4 : IPString [198; 51; 100; 7]%Z = "198.51.100.7".
Proof. vm_compute. reflexivity. Qed.
Example ip6 : IPString [32; 1; 13; 184; 0; 0; 0; 0; 0; 1; 0; 0; 0; 0; 0; 1]%Z = "2001:db8::1:0:0:1".
Proof. vm_compute. reflexivity. Qed.
Example ip6_loopback : IPString [0; 0; 0; 0; 0; 0; 0; 0; 0; 0; 0; 0; 0; 0; 0; 1]%Z = "::1".
Proof. vm_compute. reflexivity. Qed.

(** ** The public endpoint *)

(** The WireGuard port in the dump's first line, or the mesh port. *)
Definition wg_port (dump : string + string) (meshPort : Z) : Z :=
  let wgPort :=
    match dump with
    | inl text =>
        match Split newline (TrimSpace text) with
        | line :: _ =>
            match Split tab line with
            | _ :: _ :: p2 :: _ => (Atoi (TrimSpace p2)).1
            | _ => 0%Z
            end
        | [] => 0%Z
        end
    | inr _ => 0%Z
    end in
  if decide (wgPort = 0%Z) then meshPort else wgPort.

(** What a STUN exchange yields: [None] when the socket cannot be bound or
    the exchange fails, else the datagram received. *)
Definition stun_probe (datagram : option (list Z)) : result (option (list Z * Z * string)) :=
  match datagram with
  | None => Ok None
  | Some data =>
      r ← parseStunResponse (take 1024 data);
      Ok ((fun ip => (ip, r.(sr_PublicPort), r.(sr_NATType))) <$> r.(sr_PublicIP))
  end.

(** [discoverPublicEndpoint]: the exchange on the WireGuard port gives address
    and port; the fallback gives the address only. *)
Definition discover (wgPort : Z) (primary fallback : option (list Z)) : result (string * string) :=
  p ← stun_probe primary;
  match p with
  | Some (ip, port, natType) => Ok (JoinHostPort (IPString ip) (Itoa port), natType)
  | None =>
      f ← stun_probe fallback;
      Ok (match f with
          | Some (ip, _, natType) => (JoinHostPort (IPString ip) (Itoa wgPort), natType)
          | None => ("", "")
          end)
  end.

(** The endpoints [main] settles on before it creates the DHT node: the local
    one and the public one. *)
Definition endpoints (wgEndpoint vpsAddr : string) (discovered : string) : string * string :=
  let localWgEp := if decide (wgEndpoint = "") then vpsAddr else wgEndpoint in
  if decide (wgEndpoint = "") then (if decide (discovered = "") then "" else localWgEp, discovered)
  else (localWgEp, "").

Definition register_public (d : DHT) (localWgEp publicWgEp : string) : DHT :=
  if decide (publicWgEp <> "" /\ publicWgEp <> localWgEp) then SetPublicEndpoint d publicWgEp else d.

(** One tick of the refresh goroutine: the node, the endpoint it remembers,
    and the frames of [Refresh]. *)
Definition refresh_tick (wgEndpoint : string) (d : DHT) (publicWgEp : string) (wgPort : Z)
    (primary fallback : option (list Z)) (net : Contact -> net_outcome) :
    result (DHT * string * list outbound) :=
  '(d, publicWgEp) ← (if decide (wgEndpoint = "") then
       '(newEp, _) ← discover wgPort primary fallback;
       Ok (if decide (newEp <> "" /\ newEp <> publicWgEp)
           then (SetPublicEndpoint d newEp, newEp) else (d, publicWgEp))
     else Ok (d, publicWgEp));
  Ok (d, publicWgEp, Refresh d net).

(** ** Callbacks *)

Section callbacks.
Context {W : Type} {host : Host W}.

Definition observed_endpoint (c : Client) (pk : string) : io W string :=
  r ← ListPeers c;
  mret (match r with
        | inr _ => ""
        | inl peers =>
            match filter (fun p => p.(pi_PublicKey) = pk /\ p.(pi_Endpoint) <> "" /\ p.(pi_Endpoint) <> "(none)") peers with
            | p :: _ => p.(pi_Endpoint)
            | [] => ""
            end
        end).

(** The callback for a peer the DHT discovered; the two outcomes are those of
    [OpenControl] and [SendState]. *)
Definition on_peer (cl : Client) (d : DHT) (c : Contact) (netC netS : net_outcome) : io W (list outbound) :=
  if decide (c.(c_PublicKey) = "") then mret [] else
  let wgEp := if decide (c.(c_PublicEndpoint) = "") then c.(c_Endpoint) else c.(c_PublicEndpoint) in
  err ← SetPeer cl (mkCfg c.(c_PublicKey) wgEp "" 25);
  _ ← lift (slice_to c.(c_PublicKey) 16);
  match (err : option string) with
  | Some _ => mret []
  | None =>
      let opened := if decide (c.(c_ControlEndpoint) = "") then [] else (OpenControl d c netC).2 in
      reported ← lift (SendState d c.(c_PublicKey) "connected" wgEp netS);
      mret (opened ++ reported)
  end.

(** Does the punch-plan callback start a goroutine? *)
Definition on_plan (publicKey : string) (plan : DhtMessage) : bool :=
  negb (bool_decide (plan.(m_TargetPublicKey) = "") || bool_decide (plan.(m_TargetPublicKey) = publicKey)
        || bool_decide (plan.(m_PunchPorts) = [])).

(** The [connect] callback given to the peer exchange. *)
Definition pex_connect (cl : Client) (pk endpoint : string) : io W error :=
  _ ← lift (slice_to pk 16);
  SetPeer cl (mkCfg pk endpoint "" 25).

(** Installing the seeds in WireGuard. *)
Definition add_seed (cl : Client) (vpsAddr : string) (s : list Contact * string) (sd : string * string) :
    io W (list Contact * string) :=
  let '(seeds, hub) := s in
  let '(pk, ep) := sd in
  let hub := if decide (hub = "") then pk else hub in
  _ ← lift (slice_to pk 16);
  _ ← SetPeer cl (mkCfg pk (if decide (vpsAddr = "") then ep else vpsAddr) "10.200.200.0/24" 25);
  mret (seeds ++ [mkContact (NodeID pk) pk ep "" ""], hub).

Definition add_seeds (cl : Client) (vpsAddr seedPeers : string) : io W (list Contact * string) :=
  sds ← lift (parse_seeds seedPeers);
  io_range (add_seed cl vpsAddr) sds ([], "").
End callbacks.

(** The fallback seed through the tunnel. *)
Definition intra_seed (hubIntraIP hub : string) (seeds : list Contact) : option Contact :=
  if decide (hubIntraIP <> "" /\ hub <> "") then
    match seeds with
    | s :: _ =>
        match SplitHostPort s.(c_Endpoint) with
        | Some (_, port) =>
            if decide (port = "") then None
            else Some (mkContact (NodeID hub) hub (JoinHostPort hubIntraIP port) "" "")
        | None => None
        end
    | [] => None
    end
  else None.

(** The [knownPeers] callback: the connected peers of the registry, in the
    order Go iterates over it. *)
Definition pex_known (st : State) (order : list string) : list PeerEntry :=
  omap (fun l => (fun p => mkEntry p.(ps_PublicKey) p.(ps_Endpoints) 0) <$> deref st l) (ConnectedPeers st order).

(** [pexProto.Start()] and the rest of the start; [pexProto] is nil when
    [pex.NewProtocol] failed. *)
Definition start_pex (pexProto : option Protocol) : result (Protocol * list pex_event) :=
  match pexProto with
  | None => Panic NilDereference
  | Some p => Ok (Start p)
  end.

(** ** Start of the daemon *)

(** The flags the start depends on. *)
Record flags := mkFlags {
  f_publicKey : string;
  f_meshPort : Z;
  f_seedPeers : string;
  f_vpsAddr : string;
  f_interface : string;
  f_wgEndpoint : string;
  f_hubIntraIP : string;
}.

(** What the network does during the start: whether the exchange port can be
    bound, which port the DHT listener gets, the STUN datagrams, the outcome
    of the dials, and the endpoints WireGuard observes. *)
Record boot_env := mkBoot {
  be_pex : bool;
  be_listen : Z -> option Z;
  be_primary : option (list Z);
  be_fallback : option (list Z);
  be_net : Contact -> net_outcome;
  be_observed : string -> string;
}.

(** The running daemon. *)
Record daemon := mkDaemon {
  dm_state : State;
  dm_pex : Protocol;
  dm_dht : DHT;
  dm_hub : string;
  dm_public : string;
  dm_sent : list outbound;
}.

(** The DHT node with its callbacks, before the seeds are contacted. *)
Definition make_node (fl : flags) (env : boot_env) (localWgEp publicWgEp : string) : option DHT :=
  d ← NewDHT env.(be_listen) fl.(f_publicKey) (wrap64 (fl.(f_meshPort) + 1)) localWgEp;
  let d := if decide (fl.(f_interface) = "wg0") then SetObservedEndpoint d env.(be_observed) else d in
  let d := register_public d localWgEp publicWgEp in
  Some (SetPunchPlanCallback (SetPeerCallback d)).

Section startup.
Context {W : Type} {host : Host W}.

(** The public endpoint at the start: no discovery with [--wg-endpoint]. *)
Definition discover_at_start (fl : flags) (env : boot_env) (cl : Client) : io W string :=
  if decide (fl.(f_wgEndpoint) = "") then
    dump ← ShowDump cl;
    '(ep, _) ← lift (discover (wg_port dump fl.(f_meshPort)) env.(be_primary) env.(be_fallback));
    mret ep
  else mret "".

(** [Bootstrap] on the seeds and on the fallback through the tunnel. *)
Definition contact_seeds (fl : flags) (env : boot_env) (d : DHT) (seeds : list Contact) (hub : string) :
    result (DHT * list outbound) :=
  '(d, out) ← Bootstrap d ((fun s => (s, env.(be_net) s)) <$> seeds);
  match intra_seed fl.(f_hubIntraIP) hub seeds with
  | Some s => '(d, out') ← Bootstrap d [(s, env.(be_net) s)]; Ok (d, out ++ out')
  | None => Ok (d, out)
  end.

(** [main] up to the line that logs [wg-meshd running]; [None] is
    [os.Exit(1)]. *)
Definition startup (fl : flags) (env : boot_env) (cl : Client) : io W (option daemon) :=
  if decide (fl.(f_publicKey) = "") then mret None else
  _ ← lift (slice_to fl.(f_publicKey) 16);
  now ← Now;
  let state := NewState fl.(f_publicKey) now.(t_wall) in
  let pexProto := NewProtocol fl.(f_publicKey) ("0.0.0.0:" +:+ Itoa fl.(f_meshPort)) env.(be_pex) in
  discovered ← discover_at_start fl env cl;
  let '(localWgEp, publicWgEp) := endpoints fl.(f_wgEndpoint) fl.(f_vpsAddr) discovered in
  match make_node fl env localWgEp publicWgEp with
  | None => mret None
  | Some d =>
      '(seeds, hub) ← add_seeds cl fl.(f_vpsAddr) fl.(f_seedPeers);
      '(d, out) ← lift (contact_seeds fl env d seeds hub);
      '(p, _) ← lift (start_pex pexProto);
      mret (Some (mkDaemon state p d hub publicWgEp out))
  end.
End startup.
