(* ===== verification/DaemonProps.v ===== *)
(** * The daemon: theorems *)

From S2P Require Import Prelude GoBytes GoStrings GoNet GoSort Table Node Stun Host Uapi UapiProps.
From S2P Require Import MeshState Pex PexConc Args Ports Scan Monitor Daemon TableInv NodeInv.

(** ** Addresses *)

Definition no_brackets (s : string) : Prop := has_byte "[" s = false /\ has_byte "]" s = false.

Lemma no_brackets_app s t : no_brackets s -> no_brackets t -> no_brackets (s +:+ t).
Proof. intros [H1 H2] [H3 H4]. split; rewrite has_byte_app; [by rewrite H1|by rewrite H2]. Qed.

Lemma no_brackets_Join sep ps :
  sep <> "["%char -> sep <> "]"%char -> Forall no_brackets ps -> no_brackets (Join sep ps).
Proof.
  intros H1 H2 Hps. split; (apply has_byte_Join; [congruence|]); (eapply Forall_impl; [exact Hps|]); by intros ? [].
Qed.

Lemma hex_text_brackets fuel v acc : no_brackets acc -> no_brackets (hex_text fuel v acc).
Proof.
  revert v acc. induction fuel as [|fuel IH]; intros v acc Ha; cbn [hex_text]; [done|].
  assert (no_brackets (String (hex_digit (v `mod` 16)) acc)) as Hn.
  { pose proof (Z.mod_pos_bound v 16 ltac:(lia)) as Hv.
    assert (byte_of (hex_digit (v `mod` 16)) <> 91 /\ byte_of (hex_digit (v `mod` 16)) <> 93)%Z as [N1 N2].
    { unfold hex_digit. destruct (decide _); rewrite byte_of_ascii_of by (unfold byte_range; lia); lia. }
    destruct Ha as [A1 A2]. split; cbn; (rewrite bool_decide_eq_false_2; [done|]); intros E; [apply N1|apply N2];
      rewrite E; done. }
  destruct (decide _); auto.
Qed.

Lemma v4_brackets ip : no_brackets (v4_text ip).
Proof.
  apply no_brackets_Join; [done..|]. apply Forall_fmap, Forall_true. intros n. split; by apply Itoa_bytes.
Qed.

Lemma groups_brackets gs : no_brackets (Join ":" (group_text <$> gs)).
Proof. apply no_brackets_Join; [done..|]. apply Forall_fmap, Forall_true. intros g. by apply hex_text_brackets. Qed.

Lemma IPString_brackets ip : length ip = 4 \/ length ip = 16 -> no_brackets (IPString ip).
Proof.
  intros Hl. unfold IPString. destruct (decide (length ip = 4)); [apply v4_brackets|].
  destruct (decide (length ip = 16)); [|tauto]. destruct (decide _); [apply v4_brackets|].
  unfold v6_text. destruct (best_run 0 (groups16 ip)) as [i k].
  destruct (decide _); [|apply groups_brackets].
  apply no_brackets_app; [apply groups_brackets|]. apply no_brackets_app; [done|apply groups_brackets].
Qed.

Lemma stun_probe_shape data ip port nt :
  Forall byte_range data -> stun_probe (Some data) = Ok (Some (ip, port, nt)) ->
  (length ip = 4 \/ length ip = 16) /\ (0 <= port < 65536)%Z.
Proof.
  intros Hd. unfold stun_probe. intros (r & Hr & H)%bind_ok. injection H as H.
  apply fmap_Some in H as (ip' & Hip & [= -> -> ->]).
  destruct (parse_shape (take 1024 data) r) as [Hp Hi]; [by apply Forall_take|done|]. auto.
Qed.

(** The endpoint [discover] returns splits back into the address and port STUN reported, or
    into the address of the fallback exchange and the local WireGuard port. *)
Theorem discover_endpoint (wgPort : Z) (primary fallback : option (list Z)) (ep nt : string) :
  (forall data, primary = Some data \/ fallback = Some data -> Forall byte_range data) ->
  discover wgPort primary fallback = Ok (ep, nt) -> ep <> "" ->
  exists ip port, SplitHostPort ep = Some (IPString ip, Itoa port) /\
    (stun_probe primary = Ok (Some (ip, port, nt)) \/
     stun_probe primary = Ok None /\ port = wgPort /\
     exists p, stun_probe fallback = Ok (Some (ip, p, nt))).
Proof.
  intros Hb. unfold discover. intros (p & Hp & H)%bind_ok Hne.
  destruct p as [[[ip port] nt']|].
  - injection H as <- <-. exists ip, port. split; [|by left]. destruct primary as [data|]; [|done].
    destruct (stun_probe_shape data ip port nt') as [Hl _]; [by apply Hb; left|done|].
    destruct (IPString_brackets ip Hl). by apply Split_JoinHostPort_Itoa.
  - apply bind_ok in H as (f & Hf & H). destruct f as [[[ip p] nt']|]; injection H as <- <-; [|done].
    exists ip, wgPort. split; [|right; eauto]. destruct fallback as [data|]; [|done].
    destruct (stun_probe_shape data ip p nt') as [Hl _]; [by apply Hb; right|done|].
    destruct (IPString_brackets ip Hl). by apply Split_JoinHostPort_Itoa.
Qed.

(** ** The monitor, the registry and the gossip together *)

Lemma pex_known_no_endpoints hub m order :
  mon_inv hub m -> (forall k, k ∈ order -> is_Some (m.(mn_state).(st_peers) !! k)) ->
  Forall (fun e => e.(pe_Endpoints) = []) (pex_known m.(mn_state) order).
Proof.
  intros [_ _ Hrec] Horder. unfold pex_known. apply Forall_forall. intros e He.
  apply list_elem_of_omap in He as (l & Hl & He). apply fmap_Some in He as (r & Hr & ->).
  unfold ConnectedPeers in Hl. apply list_elem_of_filter in Hl as [_ Hl].
  apply list_elem_of_omap in Hl as (k & _ & Hk). destruct (Hrec k r) as [_ _ He]; [|done].
  unfold get_record, GetPeer. by rewrite Hk.
Qed.

Section system.
Context {W : Type} {host : Host W} (range_keys : W -> gmap string savedPeer -> list string).

(** C31: In every state the monitor can bring the registry to, a gossip round sends nothing:
    the known-peers callback offers only entries without endpoints, because no code
    fills the endpoints of a registry record. *)
Theorem gossip_never_sends (cfg : mon_cfg) (selfKey : string) (t0 : Z) (n : nat) (m : monitor) (w w' : W)
    (p : Protocol) (order : list string) :
  run_checks range_keys cfg n (new_monitor (NewState selfKey t0)) w = Ok (m, w') ->
  range_order m.(mn_state) order ->
  (gossip p (pex_known m.(mn_state) order)).2 = [].
Proof.
  intros Hrun Horder. assert (mon_inv cfg.(mc_hub) m) as Hi.
  { eapply run_checks_inv; [apply new_monitor_inv|exact Hrun]. }
  assert (Forall (fun e => e.(pe_Endpoints) = []) (pex_known m.(mn_state) order)) as HF.
  { eapply pex_known_no_endpoints; [exact Hi|]. intros k Hk. unfold range_order in Horder. rewrite Horder in Hk.
    apply list_elem_of_fmap in Hk as ([k' l] & -> & Hk%elem_of_map_to_list). by eexists. }
  revert HF. generalize (pex_known m.(mn_state) order). intros known HF. unfold gossip.
  destruct known as [|e es]; [done|]. cbn [snd].
  match goal with |- context [GoSend _ ?msg] => generalize msg end. intros msg.
  induction HF as [|e' es' He _ IH]; [done|]. cbn in *. by rewrite He.
Qed.

(** ** Peers the DHT discovers *)

(** For a contact with a key the discovery callback installs it in WireGuard, panics on a
    key shorter than 16, does nothing more when [wg] fails, and otherwise opens the
    control channel and reports to the seed. *)
Theorem on_peer_spec (cl : Client) prog pre (d : DHT) (c : Contact) (netC netS : net_outcome) (w : W) :
  wg_parts cl = Ok (prog, pre) -> c.(c_PublicKey) <> "" ->
  let wgEp := if decide (c.(c_PublicEndpoint) = "") then c.(c_Endpoint) else c.(c_PublicEndpoint) in
  let args := pre ++ ["set"; cl.(cl_iface); "peer"; c.(c_PublicKey); "endpoint"; wgEp; "persistent-keepalive"; "25"] in
  let '(r, w') := run_command prog args w in
  let out := on_peer cl d c netC netS w in
  let opened := if decide (c.(c_ControlEndpoint) = "") then [] else (OpenControl d c netC).2 in
  if decide (String.length c.(c_PublicKey) < 16) then out = Panic SliceOutOfRange
  else match r.(ex_err) with
       | Some _ => out = Ok ([], w')
       | None => out = ((fun o => (opened ++ o, w')) <$> SendState d c.(c_PublicKey) "connected" wgEp netS)
       end.
Proof.
  clear range_keys. intros Hp Hk. cbn zeta. unfold on_peer. rewrite (decide_False (P := c.(c_PublicKey) = "")) by done.
  set (wgEp := if decide (c.(c_PublicEndpoint) = "") then _ else _).
  assert (buildArgs cl (mkCfg c.(c_PublicKey) wgEp "" 25) =
    Ok (pre ++ ["set"; cl.(cl_iface); "peer"; c.(c_PublicKey); "endpoint"; wgEp; "persistent-keepalive"; "25"])) as Ha.
  { unfold buildArgs. by rewrite Hp. }
  set (args := pre ++ _) in *. pose proof (wg_run_ok cl prog pre "wg set peer" args w Hp) as Hrun.
  destruct (run_command prog args w) as [r w']. destruct Hrun as (e & Hrun & He).
  rewrite <- (SetPeer_run cl prog pre (mkCfg c.(c_PublicKey) wgEp "" 25) args w Hp Ha) in Hrun. io_run Hrun.
  destruct (decide (String.length c.(c_PublicKey) < 16)) as [Hs|Hs].
  - assert (lift (slice_to c.(c_PublicKey) 16) w' = Panic SliceOutOfRange) as Hl.
    { unfold lift. rewrite slice_to_panic by lia. reflexivity. }
    unfold mbind, io_bind at 1. by rewrite Hl.
  - destruct (lift_slice_ok c.(c_PublicKey) 16 w') as [x Hx]; [lia|]. io_run Hx.
    destruct (ex_err r) as [err|], e as [err'|]; try (exfalso; naive_solver congruence); [done|].
    unfold mbind, io_bind, lift. by destruct (SendState d c.(c_PublicKey) "connected" wgEp netS).
Qed.
(** ** Start *)

Definition seed_contact (sd : string * string) : Contact := mkContact (NodeID sd.1) sd.1 sd.2 "" "".

Lemma add_seed_range cl vpsAddr sds seeds hub (w : W) :
  client_ok cl -> Forall (fun sd => 16 <= String.length sd.1) sds ->
  exists w', io_range (add_seed cl vpsAddr) sds (seeds, hub) w
    = Ok (seeds ++ (seed_contact <$> sds),
          if decide (hub = "") then match sds with sd :: _ => sd.1 | [] => "" end else hub, w').
Proof.
  intros Hc HF. revert seeds hub w. induction HF as [|[pk ep] sds Hpk _ IH]; intros seeds hub w; cbn [io_range fst] in *.
  - exists w. rewrite app_nil_r. by destruct (decide (hub = "")) as [->|].
  - assert (exists w', add_seed cl vpsAddr (seeds, hub) (pk, ep) w
      = Ok (seeds ++ [seed_contact (pk, ep)], if decide (hub = "") then pk else hub, w')) as [w1 H1].
    { unfold add_seed. destruct (lift_slice_ok pk 16 w Hpk) as [x Hx]. io_run Hx.
      match goal with |- context [SetPeer ?c ?g] => destruct (SetPeer_total c g w Hc) as [[e w1] H1] end.
      io_run H1. by eexists. }
    io_run H1. destruct (IH (seeds ++ [seed_contact (pk, ep)]) (if decide (hub = "") then pk else hub) w1) as [w2 H2].
    exists w2. rewrite H2, <- app_assoc. cbn [app fmap list_fmap]. do 2 f_equal. f_equal.
    assert (pk <> "") by (intros ->; cbn in Hpk; lia).
    destruct (decide (hub = "")); [by rewrite decide_False by done|by rewrite decide_False by done].
Qed.

(** All seeds of the flag are installed and kept in order; the first one is the hub. *)
Theorem add_seeds_spec (cl : Client) (vpsAddr seedPeers : string) (sds : list (string * string)) (w : W) :
  client_ok cl -> parse_seeds seedPeers = Ok sds -> Forall (fun sd => 16 <= String.length sd.1) sds ->
  exists w', add_seeds cl vpsAddr seedPeers w
    = Ok (seed_contact <$> sds, match sds with sd :: _ => sd.1 | [] => "" end, w').
Proof.
  intros Hc Hs HF. unfold add_seeds. destruct (add_seed_range cl vpsAddr sds [] "" w Hc HF) as [w' H].
  exists w'. unfold mbind, io_bind, lift. rewrite Hs. exact H.
Qed.
(** ** The whole start *)

Lemma make_node_wf fl env local public d :
  make_node fl env local public = Some d ->
  node_wf d /\ d.(d_publicKey) = fl.(f_publicKey) /\ d.(d_onPeerDiscovered) = true /\ d.(d_onPunchPlan) = true.
Proof.
  unfold make_node. intros (d0 & H0 & H)%bind_Some. injection H as <-.
  assert (d0.(d_publicKey) = fl.(f_publicKey)) as Hk.
  { unfold NewDHT in H0. by apply bind_Some in H0 as (port & _ & [= <-]). }
  apply NewDHT_wf in H0 as [H1 H2]. unfold register_public.
  destruct (decide _), (decide _); (split; [by split|]); done.
Qed.

Lemma contact_seeds_ok fl env d seeds hub d' out :
  node_wf d -> contact_seeds fl env d seeds hub = Ok (d', out) ->
  node_wf d' /\ node_stable d d'.
Proof.
  intros Hwf H. unfold contact_seeds in H. apply bind_ok in H as ([d1 out1] & H1 & H).
  destruct (node_step_ok d d1 Hwf (step_bootstrap _ _ _ _ H1)) as [Hwf1 Hst1].
  destruct (intra_seed _ _ _) as [s|]; [|by injection H as <- <-].
  apply bind_ok in H as ([d2 out2] & H2 & H). injection H as <- <-.
  destruct (node_step_ok d1 d2 Hwf1 (step_bootstrap _ _ _ _ H2)) as [Hwf2 Hst2]. split; [done|by etrans].
Qed.

Lemma add_seed_inv cl vpsAddr sds seeds hub (w : W) seeds' hub' w' :
  io_range (add_seed cl vpsAddr) sds (seeds, hub) w = Ok (seeds', hub', w') ->
  Forall (fun sd => 16 <= String.length sd.1) sds /\
  hub' = if decide (hub = "") then match sds with sd :: _ => sd.1 | [] => "" end else hub.
Proof.
  revert seeds hub w. induction sds as [|[pk ep] sds IH]; intros seeds hub w; cbn [io_range].
  - intros [= _ <- _]. split; [constructor|]. by destruct (decide (hub = "")).
  - intros ([l' h'] & v & Hadd & Hrun)%io_bind_ok. unfold add_seed in Hadd.
    apply io_bind_ok in Hadd as (y & v1 & Hy%lift_ok%slice_to_inv & Hadd).
    apply io_bind_ok in Hadd as (e & v2 & _ & Hadd). injection Hadd as <- <- <-.
    destruct (IH _ _ _ Hrun) as [HF ->]. split; [by constructor|].
    assert (pk <> "") by (intros ->; cbn in Hy; lia).
    destruct (decide (hub = "")); by rewrite decide_False by done.
Qed.

(** What the start leaves behind. *)
Record started (fl : flags) (env : boot_env) (dm : daemon) : Prop := {
  sd_pex : env.(be_pex) = true;
  sd_started : dm.(dm_pex).(p_started) = true;
  sd_running : dm.(dm_pex).(p_stopped) = false /\ dm.(dm_dht).(d_stopped) = false;
  sd_wf : node_wf dm.(dm_dht);
  sd_key : dm.(dm_dht).(d_publicKey) = fl.(f_publicKey);
  sd_peers : dm.(dm_state).(st_peers) = ∅;
  sd_seeds : exists sds, parse_seeds fl.(f_seedPeers) = Ok sds /\
     Forall (fun sd => 16 <= String.length sd.1) sds /\
     dm.(dm_hub) = match sds with sd :: _ => sd.1 | [] => "" end;
  sd_public : fl.(f_wgEndpoint) <> "" -> dm.(dm_public) = "";
}.

Lemma make_node_stopped fl env local public d :
  make_node fl env local public = Some d -> d.(d_stopped) = false.
Proof.
  unfold make_node, NewDHT. intros (d0 & (port & _ & [= <-])%bind_Some & [= <-])%bind_Some.
  unfold register_public. by destruct (decide _), (decide _).
Qed.

Lemma startup_started (fl : flags) (env : boot_env) (cl : Client) (w w' : W) (dm : daemon) :
  startup fl env cl w = Ok (Some dm, w') -> started fl env dm.
Proof.
  unfold startup. destruct (decide (f_publicKey fl = "")) as [|Hpk]; [done|].
  intros (x & w1 & _ & H)%io_bind_ok. apply io_bind_ok in H as (now & w2 & _ & H).
  apply io_bind_ok in H as (disc & w3 & Hdisc & H). cbn zeta in H.
  destruct (endpoints _ _ disc) as [local public] eqn:Hep.
  destruct (make_node fl env local public) as [d|] eqn:Hd; [|done].
  pose proof (make_node_stopped _ _ _ _ _ Hd) as Hrun.
  apply make_node_wf in Hd as (Hwf & Hkey & _).
  apply io_bind_ok in H as ([seeds hub] & w4 & Hseeds & H).
  apply io_bind_ok in H as ([d' out] & w5 & Hboot%lift_ok & H).
  apply io_bind_ok in H as ([p evs] & w6 & Hpex%lift_ok & H). injection H as <- <-.
  destruct (contact_seeds_ok _ _ _ _ _ _ _ Hwf Hboot) as [Hwf' Hst].
  unfold start_pex, NewProtocol in Hpex. destruct env.(be_pex) eqn:Hbe; [|done]. injection Hpex as <- _.
  split; cbn; try done.
  - split; [done|]. by rewrite (ns_stop _ _ Hst).
  - rewrite <- Hkey. apply (ns_key _ _ Hst).
  - unfold add_seeds in Hseeds. apply io_bind_ok in Hseeds as (sds & w7 & Hsds%lift_ok & Hio).
    exists sds. split; [done|]. by apply add_seed_inv in Hio.
  - intros Hw. unfold endpoints in Hep. rewrite !(decide_False (P := f_wgEndpoint fl = "")) in Hep by done.
    by injection Hep as _ <-.
Qed.

(** When main gets to running: the peer exchange was available and is started, the DHT node
    is well formed and has the configured key, the registry is empty, the hub is the
    first seed of the flag, all seed keys have at least 16 characters, and with --wg-
    endpoint no public endpoint is announced. *)
Theorem startup_ready (fl : flags) (env : boot_env) (cl : Client) (w w' : W) (dm : daemon) :
  startup fl env cl w = Ok (Some dm, w') ->
  env.(be_pex) = true /\ dm.(dm_pex).(p_started) = true /\
  node_wf dm.(dm_dht) /\ dm.(dm_dht).(d_publicKey) = fl.(f_publicKey) /\
  dm.(dm_state).(st_peers) = ∅ /\
  (exists sds, parse_seeds fl.(f_seedPeers) = Ok sds /\
     Forall (fun sd => 16 <= String.length sd.1) sds /\
     dm.(dm_hub) = match sds with sd :: _ => sd.1 | [] => "" end) /\
  (fl.(f_wgEndpoint) <> "" -> dm.(dm_public) = "").
Proof. intros H%startup_started. destruct H. by split_and!. Qed.

(** If the exchange port cannot be bound, the daemon never gets to running. *)
Theorem startup_needs_pex (fl : flags) (env : boot_env) (cl : Client) (w : W) :
  env.(be_pex) = false ->
  forall dm w', startup fl env cl w <> Ok (Some dm, w').
Proof.
  intros Hp dm w'. unfold startup. destruct (decide (f_publicKey fl = "")) as [|Hpk]; [done|].
  intros (x & w1 & _ & H)%io_bind_ok. apply io_bind_ok in H as (now & w2 & _ & H).
  apply io_bind_ok in H as (disc & w3 & _ & H). cbn zeta in H.
  destruct (endpoints _ _ disc) as [local public]. destruct (make_node fl env local public) as [d|]; [|done].
  apply io_bind_ok in H as ([seeds hub] & w4 & _ & H). apply io_bind_ok in H as ([d' out] & w5 & _ & H).
  apply io_bind_ok in H as ([p evs] & w6 & Hpex%lift_ok & _). by rewrite Hp in Hpex.
Qed.
End system.
