(* ===== verification/Witnesses.v ===== *)
(** * Concrete runs

    The theorems with hypotheses, applied to concrete nodes, messages and
    machines: their hypotheses can hold together. *)

From S2P Require Import Prelude GoBytes GoStrings GoNet GoSort Table TableInv TableConc Closest Node NodeInv NodeProps.
From S2P Require Import Stun Predict MeshState Pex PexConc Host Uapi UapiProps Ports Args Scan Monitor Punch PunchProps.
From S2P Require Import Daemon DaemonProps.

(** ** Keys, contacts and nodes *)

#[local] Strategy 1000 [NodeID].

Definition key_a : string := "xTIBA5rboUvnH4htodjb6e697QjLERt1NAB4mZqp8Dg=".
Definition key_b : string := "TrMvSoP4jYQlY6RIzBgbssQqY3vxI2Pi+y71lOWWXX0=".
Definition key_c : string := "gN65BkIKy1eCE9pP1wdc8ROUtkHLF2PfAqYdyYBz6EA=".

Definition contact_of (pk ep : string) : Contact := mkContact (NodeID pk) pk ep "" "".
Definition cb : Contact := contact_of key_b "198.51.100.7:51820".
Definition cc : Contact := contact_of key_c "203.0.113.9:51820".

Definition or_table (r : result Table) : Table :=
  match r with Ok t => t | _ => new_table (NodeID key_a) end.
Definition table0 : Table := new_table (NodeID key_a).
Definition table1 : Table := or_table (insert table0 cb).
Definition table2 : Table := or_table (insert table1 cc).

Definition node0 : DHT :=
  mkDHT table0 key_a "192.0.2.1:51820" "" zero_contact 51822 false false ∅ None false.

Lemma node0_new : NewDHT Some key_a 51822 "192.0.2.1:51820" = Some node0.
Proof. reflexivity. Qed.

Lemma node0_wf : node_wf node0.
Proof. exact (NewDHT_wf Some key_a 51822 "192.0.2.1:51820" node0 node0_new). Qed.

Lemma id_ok pk : is_id (NodeID pk).
Proof. apply NodeID_is_id. Qed.

Lemma table0_wf : table_wf table0.
Proof. exact (new_table_wf (NodeID key_a) (id_ok key_a)). Qed.

Lemma insert_b : insert table0 cb = Ok table1.
Proof. vm_compute. reflexivity. Qed.
Lemma insert_c : insert table1 cc = Ok table2.
Proof. vm_compute. reflexivity. Qed.

Lemma insert_correct_witness :
  exists t', insert table0 cb = Ok t' /\ table_wf t' /\
    view t' = abs_insert table0.(t_selfID) (view table0) cb.
Proof. apply (insert_correct table0 cb table0_wf). vm_compute. lia. Defined.

Lemma closest_correct_witness :
  exists out rest, closest table2 (NodeID key_b) 1 = Ok out /\ out ++ rest ≡ₚ KnownPeers table2 /\ length out = 1.
Proof.
  destruct (proj2 (closest_correct table2 (NodeID key_b) 1)) as (out & rest & H1 & H2 & H3 & _).
  - vm_compute. discriminate.
  - exists out, rest. split; [exact H1|]. split; [exact H2|exact H3].
Defined.

Lemma table_run : rtc table_step table0 table2.
Proof. eapply rtc_l; [econstructor; exact insert_b|]. eapply rtc_once. econstructor. exact insert_c. Qed.

Lemma reachable_table_wf_witness : NoDup (IDs (KnownPeers table2)).
Proof. apply (reachable_table_wf key_a table2 table_run). Defined.

Lemma xorDist_metric_witness :
  exists d, xorDist (NodeID key_a) (NodeID key_b) = Ok d /\ xorDist (NodeID key_b) (NodeID key_a) = Ok d.
Proof.
  destruct (xorDist_metric (NodeID key_a) (NodeID key_b) (NodeID key_c) (id_ok key_a) (id_ok key_b) (id_ok key_c))
    as (dab & dba & dbc & dac & H1 & H2 & _ & _ & H & _).
  exists dab. split; [exact H1|]. rewrite H. exact H2.
Defined.

Lemma bucket_index_prefix_witness :
  exists d, xorDist (NodeID key_a) (NodeID key_b) = Ok d /\ (0 <= leadingZeros d <= 160)%Z.
Proof.
  destruct (xorDist (NodeID key_a) (NodeID key_b)) as [d| |] eqn:E; [|vm_compute in E; discriminate..].
  exists d. split; [reflexivity|]. exact (proj1 (bucket_index_prefix _ _ d (id_ok key_a) (id_ok key_b) E)).
Defined.

(** A scan of an unchanging table. *)
Lemma quiet_scan t n i acc :
  length t.(t_buckets) = i + n ->
  rtc scan_step (TableConc.mkScan t i acc) (TableConc.mkScan t (i + n) (acc ++ concat (drop i t.(t_buckets)))).
Proof.
  revert i acc. induction n as [|n IH]; intros i acc Hl.
  - rewrite Nat.add_0_r, drop_ge by lia. cbn. rewrite app_nil_r. apply rtc_refl.
  - destruct (lookup_lt_is_Some_2 t.(t_buckets) i) as [b Hb]; [lia|].
    rewrite (drop_S _ _ _ Hb). cbn [concat]. rewrite app_assoc. replace (i + S n) with (S i + n) by lia.
    eapply rtc_l; [by apply scan_read|]. apply IH. lia.
Qed.

Lemma scan_sandwich_witness : NoDup (IDs (concat table0.(t_buckets))).
Proof.
  apply (scan_sandwich table0 table0 (concat table0.(t_buckets)) table0_wf).
  exact (quiet_scan table0 160 0 [] eq_refl).
Defined.

(** ** The DHT node *)

Definition conn1 : Conn := mkConn 1 "198.51.100.7:40000".
Definition find_from_b : DhtMessage :=
  mkMsg MsgFindNode (NodeID key_b) (NodeID key_b) [] key_b "198.51.100.7:51820" "" "" "" "" "" 0 0 [].

Definition node1 : DHT :=
  match handleFindNode node0 conn1 find_from_b with Ok (d, _) => d | _ => node0 end.

Lemma node_reachable_witness : table_wf node1.(d_table).
Proof.
  apply (node_reachable Some key_a 51822 "192.0.2.1:51820" node0 node1 node0_new).
  eapply rtc_once, (step_conn _ conn1 (encode_fresh find_from_b)). vm_compute. reflexivity.
Defined.

Lemma handleFindNode_spec_witness :
  exists d' evs, handleFindNode node0 conn1 find_from_b = Ok (d', evs) /\
    view d'.(d_table) = abs_insert table0.(t_selfID) (view table0) (sender_contact node0 conn1 find_from_b).
Proof.
  destruct (handleFindNode node0 conn1 find_from_b) as [[d' evs]| |] eqn:E; [|vm_compute in E; discriminate..].
  exists d', evs. split; [reflexivity|]. exact (proj1 (handleFindNode_spec node0 conn1 find_from_b d' evs node0_wf E)).
Defined.

Definition resp_bc : DhtMessage := mkMsg MsgFindNodeResp (NodeID key_b) "" [cb; cc] "" "" "" "" "" "" "" 0 0 [].

Lemma handleFindNodeResp_spec_witness :
  exists d' evs, handleFindNodeResp (SetPeerCallback node0) resp_bc = Ok (d', evs) /\
    evs = EvPeerDiscovered <$> filter (fun c => c.(c_ID) <> NodeID key_a /\ true = true /\ c.(c_PublicKey) <> "") [cb; cc].
Proof.
  destruct (handleFindNodeResp (SetPeerCallback node0) resp_bc) as [[d' evs]| |] eqn:E; [|vm_compute in E; discriminate..].
  exists d', evs. split; [reflexivity|].
  refine (proj2 (handleFindNodeResp_spec (SetPeerCallback node0) resp_bc d' evs _ E)).
  split; apply node0_wf.
Defined.

Lemma handleFindNode_panics_iff_witness :
  is_panic (handleFindNode node0 conn1 (mkMsg MsgFindNode "ab" "" [] key_b "" "" "" "" "" "" 0 0 [])).
Proof. apply (handleFindNode_panics_iff _ _ _ node0_wf). left. vm_compute. lia. Defined.

Lemma own_streams_never_register_witness :
  exists hub' evs, Node.handleConn node0 conn1 (findNode node1 (NodeID key_c) cc AllSent) = Ok (hub', evs) /\
    hub'.(d_table) = node0.(d_table).
Proof.
  destruct (own_streams_never_register node0 conn1 (findNode node1 (NodeID key_c) cc AllSent)) as (h & e & H1 & H2 & _);
    [apply ds_find|]. exists h, e. split; [exact H1|exact H2].
Defined.

Definition hub_node : DHT := with_conns node0 {[ key_b := conn1 ]}.

Lemma plan_for_b id :
  plan_on_conn hub_node cb conn1 (encode_fresh (punch_msg hub_node key_c "203.0.113.9:51820" id 1000 500000000 ["203.0.113.9:51820"])).
Proof. exists key_c, "203.0.113.9:51820", id, 1000%Z, 500000000%Z, ["203.0.113.9:51820"], AllSent, None. reflexivity. Qed.

Lemma only_first_plan_delivered_witness :
  let plan id := encode_fresh (punch_msg hub_node key_c "203.0.113.9:51820" id 1000 500000000 ["203.0.113.9:51820"]) in
  control_reader (SetPunchPlanCallback node1) (plan "p1" ++ concat [plan "p2"])
  = control_reader (SetPunchPlanCallback node1) (plan "p1").
Proof.
  apply (only_first_plan_delivered hub_node cb conn1 _ _ (SetPunchPlanCallback node1) (plan_for_b "p1")).
  constructor; [exact (plan_for_b "p2")|constructor].
Defined.

Lemma Bootstrap_spec_witness :
  exists d' out, Bootstrap node0 [(cb, AllSent)] = Ok (d', out) /\ d'.(d_seedContact) = cb.
Proof.
  destruct (Bootstrap_spec node0 cb AllSent [] node0_wf eq_refl) as (d' & out & H1 & _ & H2 & _).
  - constructor; [vm_compute; lia|constructor].
  - constructor; [discriminate|constructor].
  - exists d', out. split; [exact H1|exact H2].
Defined.

(** ** STUN and port prediction *)

Definition stun_hdr : list Z := buildStunRequest.


Lemma stun_parse_total_witness :
  (exists r, parseStunResponse stun_hdr = Ok r /\ stun_ok r) \/
  (parseStunResponse stun_hdr = Panic IndexOutOfRange /\
   exists v, mapped_attr_at stun_hdr v /\ stun_hdr !! (v + 1) = Some 2%Z /\ length stun_hdr < v + 20).
Proof.
  apply (stun_parse_total stun_hdr).
  repeat (constructor; [unfold byte_range; vm_compute; split; congruence|]). constructor.
Defined.

Definition pred3 : PortPredictor := with_samples [40000; 40002; 40004]%Z.

Lemma ports3 : Forall Predict.is_port pred3.(pp_samples).
Proof. repeat (constructor; [unfold Predict.is_port; lia|]). constructor. Qed.

Lemma Analyze_spec_witness : exists step, sequential pred3.(pp_samples) step.
Proof.
  destruct (Analyze pred3) as [p' ok] eqn:E.
  destruct (Analyze_spec pred3 p' ok ports3 E) as ([H _] & _). apply H.
  vm_compute in E. injection E as <- <-. reflexivity.
Defined.

Lemma predict_sequential_witness :
  Predict (fst (Analyze pred3)) = 40006%Z /\ PredictForTarget (fst (Analyze pred3)) 2 = 40008%Z.
Proof. apply (predict_sequential pred3 40000 2 1 2); [reflexivity|exact ports3|lia|lia]. Defined.

Lemma Probe_spec_witness :
  exists p' err, Probe (fun _ => Some tt) (fun _ _ => true) None 7 (NewPortPredictor "a:1" true) = Ok (p', err) /\
    p'.(pp_samples) = [].
Proof.
  destruct (Probe_spec (fun _ => Some tt) (fun _ _ => true) None 7 (NewPortPredictor "a:1" true))
    as [(d & H & _)|(p' & err & H1 & _ & _ & _ & H2 & H3 & _)].
  - apply NewPortPredictor_wf.
  - vm_compute. reflexivity.
  - discriminate.
  - discriminate.
  - exists p', err. split; [exact H1|]. vm_compute in H1. injection H1 as <- <-. apply H3. discriminate.
Defined.

(** ** Peer exchange *)

Definition proto_a : Protocol := mkProto key_a ∅ "0.0.0.0:51821" 0 false true.
Definition proto_b : Protocol := mkProto key_b ∅ "0.0.0.0:51821" 0 false true.
Definition entry_b : PeerEntry := mkEntry key_b ["198.51.100.7:51821"] 0.
Definition entry_c : PeerEntry := mkEntry key_c ["203.0.113.9:51821"] 0.

Definition two_handlers : list (list PeerEntry) := [[entry_b]; [entry_b; entry_c]].

Definition after_bc : config :=
  mkConfig (with_entries proto_a {[ key_b := entry_b; key_c := entry_c ]})
    [connect_of (key_b, entry_b); connect_of (key_c, entry_c)] [[]; []].

Lemma handlers_run : rtc sched (mkConfig proto_a [] two_handlers) after_bc.
Proof.
  eapply rtc_l; [eapply (sched_learn _ _ _ 1 entry_b [entry_c]); [reflexivity|vm_compute; reflexivity]|].
  eapply rtc_l; [eapply (sched_learn _ _ _ 0 entry_b []); [reflexivity|vm_compute; reflexivity]|].
  eapply rtc_l; [eapply (sched_learn _ _ _ 1 entry_c []); [reflexivity|vm_compute; reflexivity]|].
  vm_compute. apply rtc_refl.
Qed.

Lemma pex_interleaving_witness :
  dom after_bc.(cf_proto).(p_entries) = dom proto_a.(p_entries) ∪ dom (Pex.learned key_a (concat two_handlers)).
Proof. apply (pex_interleaving _ _ _ handlers_run). repeat constructor. Defined.

Example pex_exchange_run :
  let '(a1, sends) := gossip proto_a [entry_b] in
  match sends with
  | [GoSend ep req] =>
      ep = "198.51.100.7:51821" /\
      sendMessage a1 (Some (written (Pex.handleConn proto_b (fun _ => [entry_c]) (encode_fresh req)).2))
      = Ok (with_entries a1 {[ key_c := entry_c ]}, [GoConnect key_c "203.0.113.9:51821"])
  | _ => False
  end.
Proof. vm_compute. split; reflexivity. Qed.

(** ** The seeds *)

Lemma parse_seeds_roundtrip_witness :
  parse_seeds (Join "," (seed_text <$> [(key_b, "198.51.100.7:51822"); (key_c, "h:1")]))
  = Ok [(key_b, "198.51.100.7:51822"); (key_c, "h:1")].
Proof.
  apply (parse_seeds_roundtrip [(key_b, "198.51.100.7:51822"); (key_c, "h:1")]).
  - discriminate.
  - repeat constructor; try discriminate; right; split; reflexivity.
Defined.

Lemma prioritizedPorts_nearest_first_witness : (Z.abs (40000 - 40000) <= Z.abs (39999 - 40000))%Z.
Proof.
  apply (prioritizedPorts_nearest_first 40000 4 40000 39999 [40000; 39999; 40001; 39998]%Z 0 1);
    [unfold port_ok; lia|vm_compute; reflexivity..|lia|lia].
Defined.

Lemma prioritizedPorts_complete_witness :
  exists ports, prioritizedPorts 40000 4 = Ok ports /\ length ports = 4.
Proof.
  destruct (prioritizedPorts_complete 40000 4) as [_ H].
  - unfold int64_range, min_int64, max_int64. lia.
  - destruct (H ltac:(unfold max_int64; lia)) as (ports & Hf & _ & _ & Hl & _). exists ports.
    split; [exact (Hf 8193 (le_n _))|]. apply Nat2Z.inj. rewrite Hl. reflexivity.
Defined.
