(* ===== verification/Machine.v ===== *)
(** * Concrete runs on a simulated machine

    A machine whose [wg] shows one dump before, and another after, the first
    [wg set]; it has no UAPI socket.  The theorems about the monitor, the
    scan, the punch plans and the daemon are applied to runs on it. *)

From S2P Require Import Prelude GoBytes GoStrings GoNet GoSort Table Node Stun MeshState Pex PexConc Host.
From S2P Require Import Uapi UapiProps Ports Args Scan Monitor Punch PunchProps Daemon TableInv NodeInv DaemonProps.

Record machine := mkMachine {
  mc_time : Z;
  mc_dump : string;
  mc_after : string;
}.

Definition sim_run (prog : string) (args : list string) (m : machine) : exec_result * machine :=
  if decide ("set" ∈ args) then (mkExec "" "" None, mkMachine m.(mc_time) m.(mc_after) m.(mc_after))
  else (mkExec m.(mc_dump) m.(mc_dump) None, m).

#[export] Instance sim_host : Host machine := {|
  run_command := sim_run;
  dial_unix _ m := (false, m);
  write_unix _ _ m := (false, m);
  read_unix _ m := (("", false), m);
  clock m := ((m.(mc_time), m.(mc_time)), m);
  sleep d m := (tt, mkMachine (m.(mc_time) + d) m.(mc_dump) m.(mc_after));
  cancelled m := (false, m);
|}.

#[export, refine] Instance sim_time : HostTime machine := {| time_of := mc_time |}.
Proof.
  - intros w. cbn. lia.
  - intros d w Hd. cbn. lia.
  - intros prog args w. cbn. unfold sim_run. by destruct (decide _).
  - intros path w. done.
  - intros path s w. done.
  - intros path w. done.
Defined.

Definition peer_key : string := "TrMvSoP4jYQlY6RIzBgbssQqY3vxI2Pi+y71lOWWXX0=".
Definition hub_key : string := "gN65BkIKy1eCE9pP1wdc8ROUtkHLF2PfAqYdyYBz6EA=".
Definition self_key : string := "xTIBA5rboUvnH4htodjb6e697QjLERt1NAB4mZqp8Dg=".
Definition peer_ep : string := "198.51.100.7:40000".

(** A peer that fell silent, and the same peer after a handshake. *)
Definition silent : PeerInfo := mkInfo peer_key "(none)" peer_ep "10.0.0.2/32" 1000 92 148 25.
Definition alive : PeerInfo := mkInfo peer_key "(none)" peer_ep "10.0.0.2/32" 2000 500 600 25.

Definition machine0 : machine :=
  mkMachine (2000 * second) (wg_dump demo_iface [silent]) (wg_dump demo_iface [alive]).

Definition wg0 : Client := NewClient "linux" "/root" (fun _ => false) "wg0".

Lemma wg0_parts : wg_parts wg0 = Ok ("wg", []).
Proof. reflexivity. Qed.

Lemma wg0_ok : client_ok wg0.
Proof. by eexists. Qed.

Lemma SetEndpointFast_nil_acknowledged_witness :
  exists w1 r, run_command "wg" ["set"; "wg0"; "peer"; peer_key; "endpoint"; peer_ep] w1
    = (r, mkMachine (2000 * second) machine0.(mc_after) machine0.(mc_after)) /\ r.(ex_err) = None.
Proof.
  destruct (SetEndpointFast_nil_acknowledged wg0 "wg" [] peer_key peer_ep machine0
    (mkMachine (2000 * second) machine0.(mc_after) machine0.(mc_after)) wg0_parts) as [H|H].
  - vm_compute. reflexivity.
  - destruct H as (path & kb & w1 & w2 & line & _ & _ & _ & H & _). discriminate H.
  - exact H.
Defined.

(** ** The scan and the plans *)

Lemma blind_scan_sound_witness :
  exists h center ports p k, scan_target peer_ep 1 = Some (h, center) /\
    prioritizedPorts center 1 = Ok ports /\ ports !! k = Some p /\ peer_ep = JoinHostPort h (Itoa p).
Proof.
  destruct (blind_scan_sound wg0 peer_key peer_ep "10.0.0.2/32" 25 92 1 230 0 machine0
    (mkMachine (2000 * second) machine0.(mc_after) machine0.(mc_after)) peer_ep)
    as (h & center & ports & p & k & peers & w1 & peer & H1 & H2 & H3 & _ & H4 & _).
  - vm_compute. reflexivity.
  - exists h, center, ports, p, k. split; [exact H1|]. split; [exact H2|]. split; [exact H3|exact H4].
Defined.

Definition plan0 : DhtMessage :=
  mkMsg MsgPunchPlan "" "" [] hub_key peer_ep "" "" "" "id" peer_key 2000500 500 [peer_ep].

Lemma sim_steady : wall_steady sim_host 0.
Proof. intros w. cbn. lia. Qed.

Lemma punch_on_time_witness :
  exists w0, (2000500 * ms <= (clock w0).1.1)%Z /\ runPunchPlan 3 plan0 wg0 machine0 = punch_now plan0 wg0 (clock w0).2.
Proof.
  destruct (punch_on_time 0 sim_steady plan0 wg0 machine0 wg0_ok) as (n & w0 & H1 & _ & H2 & H3).
  exists w0. split; [exact H1|]. apply H2. rewrite H3; [apply le_n|]. vm_compute. discriminate.
Defined.

(** The plan starts half a second later, when the peer's handshake is not
    older than the start. *)
Lemma punch_sound_witness : peer_ep ∈ plan0.(m_PunchPorts).
Proof.
  apply (punch_sound 3 plan0 wg0 machine0
    (mkMachine (2000 * second + 500 * ms) machine0.(mc_after) machine0.(mc_after)) peer_ep).
  vm_compute. reflexivity.
Defined.

Definition peer1 : Contact := mkContact (NodeID peer_key) peer_key peer_ep peer_ep "".
Definition peer2 : Contact := mkContact (NodeID self_key) self_key "203.0.113.9:51820" "203.0.113.9:51820" "".

Definition hub_table : Table :=
  let t0 := new_table (NodeID hub_key) in
  match insert t0 peer1 with
  | Ok t1 => match insert t1 peer2 with Ok t2 => t2 | _ => t1 end
  | _ => t0
  end.

Definition hub_node : DHT :=
  mkDHT hub_table hub_key "" "" zero_contact 51822 false false
    {[ peer_key := mkConn 1 "198.51.100.7:5000"; self_key := mkConn 2 "203.0.113.9:5000" ]} None false.

Lemma hub_peers : KnownPeers hub_table = [peer1; peer2] \/ KnownPeers hub_table = [peer2; peer1].
Proof. vm_compute. first [left; reflexivity | right; reflexivity]. Qed.

Definition env0 : Contact -> Contact -> pair_env := fun _ _ => mkPairEnv (2000 * second) AllSent AllSent.

Lemma hub_tick_plans_witness :
  exists out, hub_tick hub_node hub_key env0 (500 * ms) 0 = Ok out /\ length out = 2.
Proof.
  assert (Forall (fun c => eligible hub_key c -> loggable hub_node c) [peer1; peer2]) as HF.
  { constructor; [|constructor; [|constructor]]; intros _;
      (split; [vm_compute; lia|left; vm_compute; eexists; reflexivity]). }
  assert (Forall (fun c => eligible hub_key c -> loggable hub_node c) (KnownPeers hub_node.(d_table))) as HF'.
  { change (d_table hub_node) with hub_table. destruct hub_peers as [-> | ->]; [exact HF|].
    apply Forall_cons in HF as [H1 [H2 _]%Forall_cons]. constructor; [exact H2|]. constructor; [exact H1|constructor]. }
  destruct (hub_tick_plans hub_node hub_key env0 (500 * ms) 0 HF') as (out & H & _ & _ & Hlen).
  exists out. split; [exact H|]. vm_compute in H. injection H as <-. reflexivity.
Defined.

(** ** The monitor *)

Definition cfg0 : mon_cfg := mkMonCfg wg0 hub_key (120 * second) (300 * second) true 1 230 0.
Definition keys_in_order {W} (_ : W) (m : gmap string savedPeer) : list string := (map_to_list m).*1.
Definition start0 : monitor := new_monitor (NewState self_key 0).

Lemma monitor_invariant_witness :
  exists m w', run_checks keys_in_order cfg0 1 start0 machine0 = Ok (m, w') /\ mon_inv hub_key m /\
    is_Some (m.(mn_saved) !! peer_key).
Proof.
  destruct (run_checks keys_in_order cfg0 1 start0 machine0) as [[m w']| |] eqn:E; [|vm_compute in E; discriminate..].
  exists m, w'. split; [reflexivity|].
  split; [exact (monitor_invariant keys_in_order cfg0 self_key 0 1 m machine0 w' E)|].
  vm_compute in E. injection E as <- <-. vm_compute. eexists. reflexivity.
Defined.

Lemma phase1_saves_stale_witness :
  exists m' w', io_range (phase1 cfg0 2000) [silent] start0 machine0 = Ok (m', w') /\
    is_Some (m'.(mn_saved) !! peer_key).
Proof.
  destruct (io_range (phase1 cfg0 2000) [silent] start0 machine0) as [[m' w']| |] eqn:E; [|vm_compute in E; discriminate..].
  exists m', w'. split; [reflexivity|].
  apply (phase1_saves_stale cfg0 2000 [silent] start0 m' machine0 w' peer_key E). right. constructor.
  split; [reflexivity|]. split; vm_compute; reflexivity.
Defined.

Lemma gossip_never_sends_witness :
  exists m w', run_checks keys_in_order cfg0 2 start0 machine0 = Ok (m, w') /\
    (gossip (mkProto self_key ∅ "" 0 false true) (pex_known m.(mn_state) [peer_key])).2 = [].
Proof.
  destruct (run_checks keys_in_order cfg0 2 start0 machine0) as [[m w']| |] eqn:E; [|vm_compute in E; discriminate..].
  exists m, w'. split; [reflexivity|].
  apply (gossip_never_sends keys_in_order cfg0 self_key 0 2 m machine0 w' _ [peer_key] E).
  vm_compute in E. injection E as <- <-. vm_compute. reflexivity.
Defined.

(** A machine whose [wg] always shows the same dump. *)
#[export] Instance fixed_host : Host unit := {|
  run_command _ _ _ := (mkExec (wg_dump demo_iface [silent]) "" None, tt);
  dial_unix _ _ := (false, tt);
  write_unix _ _ _ := (false, tt);
  read_unix _ _ := (("", false), tt);
  clock _ := (((2000 * second)%Z, (2000 * second)%Z), tt);
  sleep _ _ := (tt, tt);
  cancelled _ := (false, tt);
|}.

Lemma fixed_long_keys : @long_keys unit fixed_host wg0.
Proof.
  intros [] peers [] H. vm_compute in H. injection H as <-. constructor; [vm_compute; lia|constructor].
Qed.

Lemma monitor_total_witness :
  exists m w', @run_checks unit fixed_host keys_in_order cfg0 3 start0 tt = Ok (m, w').
Proof. apply (monitor_total keys_in_order cfg0 self_key 0 3 tt wg0_ok fixed_long_keys). Defined.

(** ** The daemon *)

Definition stun_data : list Z := stun_response buildStunRequest [] 1 [198; 51; 100; 7]%Z 40000 [].

Lemma discover_endpoint_witness :
  exists ip port, SplitHostPort peer_ep = Some (IPString ip, Itoa port).
Proof.
  destruct (discover_endpoint 51820 (Some stun_data) None peer_ep "cone") as (ip & port & H & _).
  - intros data [[= <-]|[=]].
    assert (forallb (fun b => bool_decide (0 <= b < 256)%Z) stun_data = true) as Hb by (vm_compute; reflexivity).
    apply Forall_forall. intros b Hin%list_elem_of_In. rewrite forallb_forall in Hb.
    apply (bool_decide_eq_true_1 _ (Hb b Hin)).
  - vm_compute. reflexivity.
  - discriminate.
  - exists ip, port. exact H.
Defined.

Lemma on_peer_spec_witness :
  on_peer wg0 hub_node peer1 DialFails DialFails machine0
  = Ok ([], mkMachine (2000 * second) machine0.(mc_after) machine0.(mc_after)).
Proof. exact (on_peer_spec wg0 "wg" [] hub_node peer1 DialFails DialFails machine0 wg0_parts ltac:(discriminate)). Defined.

Definition flags0 : flags :=
  mkFlags self_key 51821 (hub_key +:+ "@192.0.2.9:51822") "192.0.2.9:51820" "utun4" "" "10.200.200.1".
Definition boot0 : boot_env := mkBoot true Some (Some stun_data) None (fun _ => AllSent) (fun _ => "").

Lemma startup_ready_witness :
  exists dm w', startup flags0 boot0 wg0 machine0 = Ok (Some dm, w') /\ node_wf dm.(dm_dht).
Proof.
  destruct (startup flags0 boot0 wg0 machine0) as [[[dm|] w']| |] eqn:E; [|vm_compute in E; discriminate..].
  exists dm, w'. split; [reflexivity|].
  destruct (startup_ready flags0 boot0 wg0 machine0 w' dm E) as (_ & _ & H & _). exact H.
Defined.
