(* ===== verification/Service.v ===== *)
(** * Listeners, accept loops and their stop

    The DHT node and the peer exchange are TCP services of the same make: a
    listener, goroutines that accept connections and launch a handler for
    each, a channel [stopCh] that is closed to stop them, and operations of
    the service's own.  [Service] is the interface to what the two packages
    write themselves; [perform] runs one atomic action of such a service,
    from the environment's (a connection arrives) to the goroutines' (an
    accept, a handler, a return).  A schedule is a list of actions.  The
    instances for the two packages are at the end. *)

From S2P Require Import Prelude.
From S2P Require Import GoNet Node.

(** What [listener.Accept()] returns, and what an iteration of an accept
    loop makes of it. *)
Inductive accept_result := Accepted (c : Conn) | AcceptError.
Inductive accept_action := Spawn (c : Conn) | Retry | Return.

(** The statements of a [Stop]. *)
Inductive stop_stmt := CloseStopCh | CloseListener.

(** [S] is the state of the service, [X] what a handler gets from its
    environment, [O] the service's own operations, [M] the messages on its
    connections and [E] the events it causes. *)
Class Service (S X O M E : Type) := {
  svc_stopped : S -> bool;
  svc_start : S -> S * nat;
  (** the body of [Stop], and what its [close(stopCh)] does *)
  svc_stop_body : list stop_stmt;
  svc_stop : S -> result S;
  svc_accept : S -> accept_result -> accept_action;
  svc_serve : X -> S -> Conn -> list (frame M) -> result (S * list E);
  svc_waits : list (frame M) -> bool;
  svc_op : O -> S -> result (S * list E);
  (** how a goroutine ends that an event launches to call out of the
      package; [None] for other events *)
  svc_go : E -> option (result unit);
}.

(** What the schedules rely on: only [Stop] closes the channel, before it
    closes the listener; an accept loop hands every connection to a handler
    and ends exactly on an error after the channel was closed. *)
Class ServiceOk (S X O M E : Type) {svc : Service S X O M E} := {
  start_stopped s : svc_stopped (svc_start s).1 = svc_stopped s;
  stop_body : svc_stop_body = [CloseStopCh; CloseListener];
  stop_open s : svc_stopped s = false -> exists s', svc_stop s = Ok s' /\ svc_stopped s' = true;
  stop_twice s : svc_stopped s = true -> svc_stop s = Panic CloseOfClosedChannel;
  accept_spawn s c : svc_accept s (Accepted c) = Spawn c;
  accept_error s : svc_accept s AcceptError = if svc_stopped s then Return else Retry;
  serve_stopped x s c fs s' es :
    svc_serve x s c fs = Ok (s', es) -> svc_stopped s' = svc_stopped s;
  op_stopped o s s' es : svc_op o s = Ok (s', es) -> svc_stopped s' = svc_stopped s;
}.

Section runtime.
Context {S X O M E : Type} {svc : Service S X O M E}.

Notation connection := (Conn * list (frame M))%type.

(** A service at run time.  [rt_backlog] are the connections the kernel has
    established and [Accept] has not returned yet; [rt_handlers] the
    goroutines that serve a connection; [rt_waiting] those that only wait
    for the stop; [rt_todo] are the statements a running [Stop] has left;
    [rt_gos] the goroutines that call out of the package.  The other fields
    record the past. *)
Record runtime := mkRt {
  rt_svc : S;
  rt_open : bool;
  rt_todo : list stop_stmt;
  rt_loops : nat;
  rt_backlog : list connection;
  rt_handlers : list connection;
  rt_waiting : list Conn;
  rt_arrived : list connection;
  rt_served : list connection;
  rt_reset : list connection;
  rt_log : list E;
  rt_gos : list E;
}.

(** [Stop] is between its statements. *)
Definition rt_closing (r : runtime) : bool := match r.(rt_todo) with [] => false | _ => true end.

(** The goroutines among the events. *)
Definition launched (es : list E) : list E := filter (fun e => is_Some (svc_go e)) es.

(** [New] has returned: the listener is open and nothing runs. *)
Definition boot (s : S) : runtime := mkRt s true [] 0 [] [] [] [] [] [] [] [].

Definition with_svc (r : runtime) (s : S) (es : list E) : runtime :=
  mkRt s r.(rt_open) r.(rt_todo) r.(rt_loops) r.(rt_backlog) r.(rt_handlers) r.(rt_waiting)
    r.(rt_arrived) r.(rt_served) r.(rt_reset) (r.(rt_log) ++ es) (r.(rt_gos) ++ launched es).

Definition with_loops (r : runtime) (n : nat) : runtime :=
  mkRt r.(rt_svc) r.(rt_open) r.(rt_todo) n r.(rt_backlog) r.(rt_handlers) r.(rt_waiting)
    r.(rt_arrived) r.(rt_served) r.(rt_reset) r.(rt_log) r.(rt_gos).

Definition with_queues (r : runtime) (backlog handlers : list connection) : runtime :=
  mkRt r.(rt_svc) r.(rt_open) r.(rt_todo) r.(rt_loops) backlog handlers r.(rt_waiting)
    r.(rt_arrived) r.(rt_served) r.(rt_reset) r.(rt_log) r.(rt_gos).

Inductive action :=
  | AStart                                    (* a call of Start *)
  | AStop                                     (* a call of Stop: its first statement *)
  | AStopNext                                 (* the next statement of a running Stop *)
  | AArrive (c : Conn) (fs : list (frame M))  (* a connection is established *)
  | AAccept                                   (* an accept loop: Accept returns *)
  | AFault                                    (* the same, with an error of an open listener *)
  | AServe (i : nat) (x : X)                  (* a handler runs *)
  | ARelease (i : nat) (day : bool)           (* a waiting goroutine returns *)
  | AOp (o : O)                               (* an operation of the service's own *)
  | AGo (i : nat).                            (* a launched goroutine runs *)

(** An iteration of an accept loop on what [Accept] returned; [backlog] is
    what is left in the queue, [fs] what the connection will deliver. *)
Definition iterate (r : runtime) (a : accept_result) (backlog : list connection)
    (fs : list (frame M)) : runtime :=
  match svc_accept r.(rt_svc) a with
  | Spawn c => with_queues r backlog (r.(rt_handlers) ++ [(c, fs)])
  | Retry => with_queues r backlog r.(rt_handlers)
  | Return => with_loops (with_queues r backlog r.(rt_handlers)) (pred r.(rt_loops))
  end.

(** A statement of [Stop], with those that follow it. *)
Definition exec_stop (st : stop_stmt) (rest : list stop_stmt) (r : runtime) : result runtime :=
  match st with
  | CloseStopCh =>
      s ← svc_stop r.(rt_svc);
      Ok (mkRt s r.(rt_open) rest r.(rt_loops) r.(rt_backlog) r.(rt_handlers) r.(rt_waiting)
            r.(rt_arrived) r.(rt_served) r.(rt_reset) r.(rt_log) r.(rt_gos))
  | CloseListener =>
      Ok (mkRt r.(rt_svc) false rest r.(rt_loops) [] r.(rt_handlers) r.(rt_waiting)
            r.(rt_arrived) r.(rt_served) (r.(rt_reset) ++ r.(rt_backlog)) r.(rt_log) r.(rt_gos))
  end.

(** One action; [None] when it is not enabled (the goroutine is blocked or
    does not exist). *)
Definition perform (a : action) (r : runtime) : option (result runtime) :=
  match a with
  | AStart =>
      let '(s, n) := svc_start r.(rt_svc) in
      Some (Ok (with_loops (with_svc r s []) (r.(rt_loops) + n)))
  | AStop =>
      match svc_stop_body with
      | [] => Some (Ok r)
      | st :: rest => Some (exec_stop st rest r)
      end
  | AStopNext =>
      match r.(rt_todo) with
      | [] => None
      | st :: rest => Some (exec_stop st rest r)
      end
  | AArrive c fs =>
      if r.(rt_open) then
        Some (Ok (mkRt r.(rt_svc) r.(rt_open) r.(rt_todo) r.(rt_loops) (r.(rt_backlog) ++ [(c, fs)])
                    r.(rt_handlers) r.(rt_waiting) (r.(rt_arrived) ++ [(c, fs)]) r.(rt_served)
                    r.(rt_reset) r.(rt_log) r.(rt_gos)))
      else None
  | AAccept =>
      if decide (r.(rt_loops) = 0) then None
      else if r.(rt_open) then
        match r.(rt_backlog) with
        | [] => None
        | (c, fs) :: rest => Some (Ok (iterate r (Accepted c) rest fs))
        end
      else Some (Ok (iterate r AcceptError r.(rt_backlog) []))
  | AFault =>
      if decide (r.(rt_loops) = 0) then None
      else if r.(rt_open) then Some (Ok (iterate r AcceptError r.(rt_backlog) [])) else None
  | AServe i x =>
      match r.(rt_handlers) !! i with
      | None => None
      | Some (c, fs) =>
          Some ('(s, es) ← svc_serve x r.(rt_svc) c fs;
                Ok (mkRt s r.(rt_open) r.(rt_todo) r.(rt_loops) r.(rt_backlog)
                      (delete i r.(rt_handlers))
                      (if svc_waits fs then r.(rt_waiting) ++ [c] else r.(rt_waiting))
                      r.(rt_arrived) (r.(rt_served) ++ [(c, fs)]) r.(rt_reset) (r.(rt_log) ++ es)
                      (r.(rt_gos) ++ launched es)))
      end
  | ARelease i day =>
      match r.(rt_waiting) !! i with
      | None => None
      | Some c =>
          if svc_stopped r.(rt_svc) || day then
            Some (Ok (mkRt r.(rt_svc) r.(rt_open) r.(rt_todo) r.(rt_loops) r.(rt_backlog)
                        r.(rt_handlers) (delete i r.(rt_waiting)) r.(rt_arrived) r.(rt_served)
                        r.(rt_reset) r.(rt_log) r.(rt_gos)))
          else None
      end
  | AOp o => Some ('(s, es) ← svc_op o r.(rt_svc); Ok (with_svc r s es))
  | AGo i =>
      match r.(rt_gos) !! i with
      | None => None
      | Some e =>
          Some (_ ← default (Ok tt) (svc_go e);
                Ok (mkRt r.(rt_svc) r.(rt_open) r.(rt_todo) r.(rt_loops) r.(rt_backlog) r.(rt_handlers)
                      r.(rt_waiting) r.(rt_arrived) r.(rt_served) r.(rt_reset) r.(rt_log)
                      (delete i r.(rt_gos))))
      end
  end.

(** A schedule, up to a panic. *)
Fixpoint run (acts : list action) (r : runtime) : option (result runtime) :=
  match acts with
  | [] => Some (Ok r)
  | a :: acts =>
      match perform a r with
      | Some (Ok r) => run acts r
      | other => other
      end
  end.
End runtime.
Arguments runtime : clear implicits.
Arguments action : clear implicits.

(** ** Invariants of schedules *)

Section theory.
Context {S X O M E : Type} {svc : Service S X O M E} {ok : ServiceOk S X O M E}.
Notation runtime := (runtime S M E).
Notation action := (action X O M).

Lemma run_app acts1 acts2 (r : runtime) :
  run (acts1 ++ acts2) r =
  match run acts1 r with
  | Some (Ok r') => run acts2 r'
  | other => other
  end.
Proof.
  revert r. induction acts1 as [|a acts1 IH]; intros r; cbn; [done|].
  by destruct (perform a r) as [[r'| |]|].
Qed.

(** A property that every action preserves holds at the end of a schedule. *)
Lemma run_ind (P : runtime -> Prop) acts (r r' : runtime) :
  (forall (a : action) r r', P r -> perform a r = Some (Ok r') -> P r') ->
  P r -> run acts r = Some (Ok r') -> P r'.
Proof.
  intros Hstep. revert r. induction acts as [|a acts IH]; intros r HP; cbn; [by intros [= <-]|].
  destruct (perform a r) as [[r1| |]|] eqn:Ha; [|done..]. apply IH. by eapply Hstep.
Qed.

(** An invariant of the service's state alone. *)
Record svc_preserved (P : S -> Prop) : Prop := {
  sp_start s : P s -> P (svc_start s).1;
  sp_stop s s' : P s -> svc_stop s = Ok s' -> P s';
  sp_serve (x : X) s c (fs : list (frame M)) s' (es : list E) : P s -> svc_serve x s c fs = Ok (s', es) -> P s';
  sp_op (o : O) s s' (es : list E) : P s -> svc_op o s = Ok (s', es) -> P s';
}.

Ltac perform_cases H :=
  repeat match type of H with
  | context [let '(_, _) := ?x in _] => let E := fresh "Hx" in destruct x eqn:E
  | context [if decide ?P then _ else _] => destruct (decide P)
  | (if ?b then _ else _) = _ => let E := fresh "Hb" in destruct b eqn:E
  | match ?x with _ => _ end = Some _ => let E := fresh "Hx" in destruct x eqn:E
  | Some _ = Some _ => injection H as H
  | None = Some _ => discriminate H
  end.

Lemma iterate_svc (r : runtime) a bl fs : (iterate r a bl fs).(rt_svc) = r.(rt_svc).
Proof. unfold iterate. by destruct (svc_accept _ _). Qed.

(** The call of [Stop] closes the channel and leaves the listener to close. *)
Lemma perform_stop (r : runtime) : perform (AStop : action) r = Some (exec_stop CloseStopCh [CloseListener] r).
Proof. cbn. by rewrite stop_body. Qed.

Lemma exec_stop_inv st rest (r r' : runtime) :
  exec_stop st rest r = Ok r' ->
  (st = CloseStopCh /\ exists s, svc_stop r.(rt_svc) = Ok s /\
     r' = mkRt s r.(rt_open) rest r.(rt_loops) r.(rt_backlog) r.(rt_handlers) r.(rt_waiting)
            r.(rt_arrived) r.(rt_served) r.(rt_reset) r.(rt_log) r.(rt_gos)) \/
  (st = CloseListener /\
     r' = mkRt r.(rt_svc) false rest r.(rt_loops) [] r.(rt_handlers) r.(rt_waiting)
            r.(rt_arrived) r.(rt_served) (r.(rt_reset) ++ r.(rt_backlog)) r.(rt_log) r.(rt_gos)).
Proof. destruct st; cbn; [|intros [= <-]; auto]. intros (s & Hs & [= <-])%bind_ok. eauto. Qed.

Lemma run_svc_inv (P : S -> Prop) (acts : list action) (r r' : runtime) :
  svc_preserved P -> P r.(rt_svc) -> run acts r = Some (Ok r') -> P r'.(rt_svc).
Proof.
  intros [Hst Hsp Hse Hop]. apply (run_ind (fun r => P r.(rt_svc))). intros a r0 r1 HP H.
  destruct a as [| | |c fs| | |i x|i day|o|i]; cbn in H; perform_cases H; simplify_eq;
    rewrite ?iterate_svc; try exact HP.
  - cbn. pose proof (Hst _ HP) as HP'. by rewrite Hx in HP'.
  - apply exec_stop_inv in H as [(_ & s' & H1 & ->)|[_ ->]]; [by eapply Hsp|done].
  - apply exec_stop_inv in H as [(_ & s' & H1 & ->)|[_ ->]]; [by eapply Hsp|done].
  - apply bind_ok in H as ([s es] & H1 & [= <-]). by eapply Hse.
  - apply bind_ok in H as ([s es] & H1 & [= <-]). by eapply Hop.
  - by apply bind_ok in H as ([] & _ & [= <-]).
Qed.

(** The order of the statements of [Stop], and the fate of connections: each
    one that arrived is in exactly one place. *)
Record rt_inv (r : runtime) : Prop := {
  ri_closed : r.(rt_open) = false -> svc_stopped r.(rt_svc) = true /\ r.(rt_backlog) = [];
  ri_closing : rt_closing r = true -> svc_stopped r.(rt_svc) = true;
  ri_stopped : svc_stopped r.(rt_svc) = true -> r.(rt_open) = true -> rt_closing r = true;
  ri_reset : r.(rt_open) = true -> r.(rt_reset) = [];
  ri_conns : r.(rt_arrived) ≡ₚ r.(rt_served) ++ r.(rt_handlers) ++ r.(rt_backlog) ++ r.(rt_reset);
  ri_waiting : r.(rt_waiting) ⊆ r.(rt_served).*1;
  ri_todo : r.(rt_todo) = [] \/ r.(rt_todo) = [CloseListener];
}.

Lemma boot_inv (s : S) : svc_stopped s = false -> rt_inv (boot s).
Proof. intros Hs. split; cbn; auto; by rewrite Hs. Qed.

Lemma delete_perm {A} (l : list A) i x : l !! i = Some x -> x :: delete i l ≡ₚ l.
Proof. intros H. symmetry. by apply delete_Permutation. Qed.

Lemma list_elem_of_perm {A} (l1 l2 : list A) x : l1 ≡ₚ l2 -> x ∈ l1 -> x ∈ l2.
Proof. by intros ->. Qed.

Lemma iterate_inv (r : runtime) a bl fs :
  rt_inv r ->
  (forall c, a = Accepted c -> r.(rt_open) = true /\ r.(rt_backlog) = (c, fs) :: bl) ->
  (a = AcceptError -> bl = r.(rt_backlog)) ->
  rt_inv (iterate r a bl fs).
Proof.
  intros [H1 H2 H3 H4 H5 H6 H7] Ha He. unfold iterate. destruct a as [c|].
  - destruct (Ha c eq_refl) as [Hopen Hbl]. rewrite accept_spawn. split; cbn; try done.
    + by rewrite Hopen.
    + rewrite H5, Hbl. by rewrite <- !app_assoc.
  - rewrite accept_error, He by done. destruct (svc_stopped r.(rt_svc)) eqn:Hs; split; cbn; rewrite ?Hs; auto.
Qed.

Lemma perform_inv (a : action) (r r' : runtime) : rt_inv r -> perform a r = Some (Ok r') -> rt_inv r'.
Proof.
  intros Hi H. pose proof Hi as [H1 H2 H3 H4 H5 H6 H7].
  destruct a as [| | |c fs| | |i x|i day|o|i]; [|rewrite perform_stop in H|..]; cbn -[exec_stop] in H;
    perform_cases H; simplify_eq.
  - pose proof (start_stopped r.(rt_svc)) as Hst. rewrite Hx in Hst; cbn in Hst.
    split; cbn; rewrite ?Hst; auto.
  - apply bind_ok in H as (s & Hs & [= <-]).
    destruct (svc_stopped r.(rt_svc)) eqn:Hs0; [by rewrite stop_twice in Hs|].
    destruct (stop_open _ Hs0) as (s' & Hs' & Hst). rewrite Hs in Hs'. injection Hs' as <-.
    split; cbn; auto. intros Ho. by destruct (H1 Ho).
  - destruct H7 as [H7|H7]; [congruence|]. assert (s = CloseListener /\ l = []) as [-> ->] by (split; congruence).
    assert (svc_stopped r.(rt_svc) = true) as Hst by (apply H2; unfold rt_closing; by rewrite Hx).
    apply exec_stop_inv in H as [(? & _)|[_ ->]]; [done|].
    split; cbn; auto; try done. rewrite H5. do 2 f_equiv. apply Permutation_app_comm.
  - split; cbn; auto; try congruence. rewrite H5. rewrite <- !app_assoc. do 3 f_equiv. apply Permutation_app_comm.
  - apply iterate_inv; [done| |done]. intros c' [= ->]. auto.
  - apply iterate_inv; done.
  - apply iterate_inv; done.
  - apply bind_ok in H as ([s es] & Hs & [= <-]). apply serve_stopped in Hs.
    split; cbn; rewrite ?Hs; auto.
    + rewrite H5, <- !app_assoc. f_equiv. rewrite app_assoc. symmetry.
      by rewrite app_assoc, (delete_perm _ _ _ Hx : [_] ++ _ ≡ₚ _), app_assoc.
    + rewrite fmap_app. intros c' Hc'. apply elem_of_app.
      destruct (svc_waits _); [apply elem_of_app in Hc' as [?|?]|]; auto.
  - split; cbn; auto. intros c' Hc'. apply H6. eapply list_elem_of_perm; [by apply delete_perm|]. by right.
  - apply bind_ok in H as ([s es] & Hs & [= <-]). apply op_stopped in Hs. split; cbn; rewrite ?Hs; auto.
  - apply bind_ok in H as ([] & _ & [= <-]). by split.
Qed.

Lemma run_rt_inv acts (r r' : runtime) : rt_inv r -> run acts r = Some (Ok r') -> rt_inv r'.
Proof. apply run_ind. intros a r1 r2. apply perform_inv. Qed.

(** ** Stopping *)

(** What the goroutines of a stopped service may still do. *)
Definition draining (a : action) : bool :=
  match a with AAccept | AFault | AServe _ _ | ARelease _ _ | AArrive _ _ => true | _ => false end.

(** An accept loop and a waiting goroutine have one step left, a handler at
    most two. *)
Definition work (r : runtime) : nat :=
  r.(rt_loops) + 2 * length r.(rt_handlers) + length r.(rt_waiting).

Lemma length_delete_lookup {A} (l : list A) i x : l !! i = Some x -> length l = Datatypes.S (length (delete i l)).
Proof. intros H. by rewrite <- (delete_perm _ _ _ H) at 1. Qed.

(** The listener is closed for good, and nothing new is accepted. *)
Record closed_step (r r' : runtime) : Prop := {
  cs_open : r'.(rt_open) = false;
  cs_arrived : r'.(rt_arrived) = r.(rt_arrived);
  cs_reset : r'.(rt_reset) = r.(rt_reset);
  cs_handlers : r'.(rt_handlers) ⊆ r.(rt_handlers);
}.

Lemma closed_step_trans r1 r2 r3 : closed_step r1 r2 -> closed_step r2 r3 -> closed_step r1 r3.
Proof. intros [? ? ? ?] [? ? ? ?]. split; [done|congruence..|]. by etrans. Qed.

Lemma drain_step (a : action) (r r' : runtime) :
  rt_inv r -> r.(rt_open) = false -> draining a = true -> perform a r = Some (Ok r') ->
  work r' < work r /\ closed_step r r'.
Proof.
  intros Hi Ho Ha H. destruct (ri_closed _ Hi Ho) as [Hst _].
  destruct a as [| | |c fs| | |i x|i day|o|i]; try done; cbn in H; rewrite ?Ho in H;
    perform_cases H; simplify_eq.
  - unfold iterate. rewrite accept_error, Hst. unfold work; cbn. split; [lia|by split].
  - apply bind_ok in H as ([s es] & Hs & [= <-]). unfold work; cbn.
    match goal with Hl : _ !! _ = Some _ |- _ => pose proof (length_delete_lookup _ _ _ Hl); pose proof (delete_perm _ _ _ Hl) as Hp end.
    split; [destruct (svc_waits _); rewrite ?length_app; cbn; lia|]. split; cbn; [done..|].
    intros y Hy. eapply list_elem_of_perm; [exact Hp|by right].
  - unfold work; cbn.
    match goal with Hl : _ !! _ = Some _ |- _ => pose proof (length_delete_lookup _ _ _ Hl) end.
    split; [lia|by split].
Qed.

Lemma drain_run (acts : list action) (r r' : runtime) :
  rt_inv r -> r.(rt_open) = false -> Forall (fun a => draining a = true) acts ->
  run acts r = Some (Ok r') -> length acts + work r' <= work r /\ closed_step r r'.
Proof.
  intros Hi Ho HF. revert r Hi Ho. induction HF as [|a acts Ha HF IH]; intros r Hi Ho; cbn.
  - intros [= <-]. split; [lia|]. by split.
  - destruct (perform a r) as [[r1| |]|] eqn:Hp; [|done..]. intros Hr.
    destruct (drain_step a r r1) as [Hw Hc]; [done..|].
    destruct (IH r1) as [Hw' Hc']; [by eapply perform_inv|by apply Hc|done|].
    split; [lia|by eapply closed_step_trans].
Qed.

(** As long as work is left, some goroutine can go on. *)
Lemma drain_progress (x : X) (r : runtime) :
  rt_inv r -> r.(rt_open) = false -> 0 < work r ->
  exists a, draining a = true /\ is_Some (perform a r).
Proof.
  intros Hi Ho Hw. destruct (ri_closed _ Hi Ho) as [Hst _]. unfold work in Hw.
  destruct (decide (r.(rt_loops) = 0)) as [Hl|Hl].
  - destruct r.(rt_handlers) as [|[c fs] hs] eqn:Hh.
    + destruct r.(rt_waiting) as [|c ws] eqn:Hws; [cbn in Hw; lia|].
      exists (ARelease 0 false). split; [done|]. cbn. rewrite Hws, Hst. by eexists.
    + exists (AServe 0 x). split; [done|]. cbn. rewrite Hh. by eexists.
  - exists AAccept. split; [done|]. cbn. rewrite decide_False, Ho by done. by eexists.
Qed.

Definition quiet (r : runtime) : Prop :=
  r.(rt_loops) = 0 /\ r.(rt_handlers) = [] /\ r.(rt_waiting) = [].

Lemma work_quiet (r : runtime) : work r = 0 <-> quiet r.
Proof.
  unfold work, quiet. rewrite <- !length_zero_iff_nil. lia.
Qed.

(** Every schedule of what is left after a stop is finite, and one that
    cannot be continued has ended all goroutines. *)
Lemma stop_drains (x : X) (acts : list action) (r r' : runtime) :
  rt_inv r -> r.(rt_open) = false -> Forall (fun a => draining a = true) acts ->
  run acts r = Some (Ok r') ->
  length acts <= work r /\ closed_step r r' /\
  ((forall a : action, draining a = true -> perform a r' = None) <-> quiet r').
Proof.
  intros Hi Ho HF Hr. destruct (drain_run acts r r' Hi Ho HF Hr) as [Hw Hc].
  assert (rt_inv r') as Hi' by by eapply run_rt_inv.
  split; [lia|]. split; [done|]. rewrite <- work_quiet. split.
  - intros Hn. destruct (decide (work r' = 0)) as [|Hne]; [done|].
    destruct (drain_progress x r' Hi' (cs_open _ _ Hc)) as (a & Ha & [v Hv]); [lia|].
    by rewrite Hn in Hv.
  - intros (Hl & Hh & Hws)%work_quiet a Ha. pose proof (cs_open _ _ Hc) as Ho'.
    destruct a; try done; cbn; rewrite ?Hl, ?Hh, ?Hws, ?Ho'; done.
Qed.

(** With the accept loop running, an open listener's connection gets to its
    handler. *)
Lemma accept_backlog bl (r : runtime) c fs rest :
  r.(rt_open) = true -> r.(rt_loops) <> 0 -> r.(rt_backlog) = bl ++ (c, fs) :: rest ->
  exists r', run (replicate (Datatypes.S (length bl)) (AAccept : action)) r = Some (Ok r') /\
    r'.(rt_svc) = r.(rt_svc) /\ r'.(rt_handlers) !! (length r.(rt_handlers) + length bl) = Some (c, fs).
Proof.
  revert r. induction bl as [|[c' fs'] bl IH]; intros r Ho Hl Hb; cbn [length replicate run].
  - cbn [perform]. rewrite decide_False, Ho, Hb by done. cbn [app]. unfold iterate. rewrite accept_spawn.
    eexists. split; [done|]. split; [done|]. cbn. rewrite Nat.add_0_r.
    by rewrite lookup_app_r, Nat.sub_diag by done.
  - cbn [perform]. rewrite decide_False, Ho, Hb by done. cbn [app]. unfold iterate. rewrite accept_spawn.
    set (r1 := with_queues _ _ _).
    destruct (IH r1) as (r' & Hr & Hs & Hh); [done..|]. exists r'. split; [exact Hr|]. split; [done|].
    unfold r1 in Hh; cbn in Hh. rewrite length_app in Hh. cbn in Hh. rewrite <- Hh. f_equal. cbn. lia.
Qed.

(** A connection whose handler panics ends the process. *)
Lemma connection_panics (x : X) (r : runtime) c fs p :
  r.(rt_open) = true -> r.(rt_loops) <> 0 -> svc_serve x r.(rt_svc) c fs = Panic p ->
  exists acts : list action, run (AArrive c fs :: acts) r = Some (Panic p).
Proof.
  intros Ho Hl Hp. set (r1 := mkRt r.(rt_svc) true r.(rt_todo) r.(rt_loops)
    (r.(rt_backlog) ++ [(c, fs)]) r.(rt_handlers) r.(rt_waiting) (r.(rt_arrived) ++ [(c, fs)])
    r.(rt_served) r.(rt_reset) r.(rt_log) r.(rt_gos)).
  destruct (accept_backlog r.(rt_backlog) r1 c fs []) as (r2 & Hr & Hs & Hh); [done..|].
  exists (replicate (Datatypes.S (length r.(rt_backlog))) AAccept ++
          [AServe (length r.(rt_handlers) + length r.(rt_backlog)) x]).
  cbn [run perform]. rewrite Ho. fold r1. rewrite run_app, Hr. cbn [run perform].
  cbn in Hh. rewrite Hh, Hs. cbn. by rewrite Hp.
Qed.

(** A panic happens at one action of the schedule. *)
Lemma run_panic (acts : list action) (r : runtime) p :
  run acts r = Some (Panic p) ->
  exists pre a post r1, acts = pre ++ a :: post /\ run pre r = Some (Ok r1) /\ perform a r1 = Some (Panic p).
Proof.
  revert r. induction acts as [|a acts IH]; intros r; cbn; [done|].
  destruct (perform a r) as [[r1|p1|]|] eqn:Ha; [|intros [= ->]|done..].
  - intros (pre & b & post & r2 & -> & Hr & Hb)%IH. exists (a :: pre), b, post, r2. cbn. by rewrite Ha.
  - by exists [], a, acts, r.
Qed.

(** The channel is closed by a [Stop] of the schedule. *)
Lemma stopped_by (acts : list action) (r r' : runtime) :
  rt_inv r -> svc_stopped r.(rt_svc) = false -> run acts r = Some (Ok r') -> svc_stopped r'.(rt_svc) = true ->
  AStop ∈ acts.
Proof.
  revert r. induction acts as [|a acts IH]; intros r Hi Hr; cbn [run]; [intros [= <-]; congruence|].
  destruct (perform a r) as [[r1| |]|] eqn:Ha; [|done..]. intros Hrun Hr'.
  destruct (decide (svc_stopped r1.(rt_svc) = true)) as [H1|H1%not_true_is_false].
  2: { right. eapply IH; [by eapply perform_inv|done..]. }
  assert (a = AStop) as ->; [|left].
  destruct a as [| | |c fs| | |i x|i day|o|i]; [|done|..]; cbn -[exec_stop] in Ha; perform_cases Ha; simplify_eq;
    rewrite ?iterate_svc in H1; cbn in H1; try congruence.
  - pose proof (start_stopped r.(rt_svc)) as Hst. rewrite Hx in Hst. cbn in Hst. congruence.
  - destruct (ri_todo _ Hi) as [Ht|Ht]; [congruence|].
    assert (s = CloseListener /\ l = []) as [-> ->] by (split; congruence).
    apply exec_stop_inv in Ha as [(? & _)|[_ ->]]; [done|]. cbn in H1. congruence.
  - apply bind_ok in Ha as ([s es] & Hs & [= <-]). apply serve_stopped in Hs. cbn in H1. congruence.
  - apply bind_ok in Ha as ([s es] & Hs & [= <-]). apply op_stopped in Hs. cbn in H1. congruence.
  - apply bind_ok in Ha as ([] & _ & [= <-]). cbn in H1. congruence.
Qed.

(** Actions other than the statements of [Start] and [Stop]. *)
Definition internal (a : action) : bool :=
  match a with AStart | AStop | AStopNext => false | _ => true end.

(** Where a service is between its start and the end of its stop. *)
Definition phase (r : runtime) : bool * bool * bool :=
  (svc_stopped r.(rt_svc), r.(rt_open), rt_closing r).

Lemma internal_phase (a : action) (r r' : runtime) :
  internal a = true -> perform a r = Some (Ok r') -> phase r' = phase r.
Proof.
  intros Ha H. destruct a as [| | |c fs| | |i x|i day|o|i]; try done; cbn in H; perform_cases H; simplify_eq;
    unfold phase, rt_closing; cbn; try congruence.
  - unfold iterate. by rewrite accept_spawn.
  - unfold iterate. rewrite accept_error. destruct (svc_stopped r.(rt_svc)) eqn:Hs0; cbn; by rewrite ?Hs0.
  - unfold iterate. rewrite accept_error. destruct (svc_stopped r.(rt_svc)) eqn:Hs0; cbn; by rewrite ?Hs0.
  - apply bind_ok in H as ([s es] & Hs & [= <-]). apply serve_stopped in Hs. cbn. congruence.
  - apply bind_ok in H as ([s es] & Hs & [= <-]). apply op_stopped in Hs. cbn. congruence.
  - apply bind_ok in H as ([] & _ & [= <-]). done.
Qed.
End theory.
