(* ===== verification/Listeners.v ===== *)
(** * The listeners of the DHT node and of the peer exchange

    The two packages as instances of [Service]: their accept loops, handlers
    and own operations, with what holds of them under every schedule. *)

From S2P Require Import Prelude.
From S2P Require Import GoBytes GoNet GoSort Table TableInv TableConc Closest Node NodeInv NodeProps.
From S2P Require Import Pex PexConc Host Uapi UapiProps Daemon Service.

(** ** DHT node *)

Module Dht.

(** One iteration of [acceptLoop] in [kademlia.go]. *)
Definition dht_acceptLoop (d : DHT) (a : accept_result) : accept_action :=
  match a with
  | AcceptError => if d.(d_stopped) then Return else Retry
  | Accepted conn => Spawn conn
  end.

(** The statements of [Stop] in [kademlia.go]. *)
Definition dht_stop_body : list stop_stmt := [CloseStopCh; CloseListener].

(** The operations of a node besides its handlers: the reader goroutine of a
    query, [Bootstrap] and the setters. *)
Inductive op :=
  | OpReader (stream : list (frame DhtMessage))
  | OpBootstrap (seeds : list (Contact * net_outcome))
  | OpPublicEndpoint (ep : string)
  | OpPeerCallback
  | OpPunchPlanCallback
  | OpObservedEndpoint (f : string -> string).

Section service.
Context {sort : SliceSort}.

Definition perform_op (o : op) (d : DHT) : result (DHT * list event) :=
  match o with
  | OpReader stream => findNode_reader d stream
  | OpBootstrap seeds => '(d', _) ← Bootstrap d seeds; Ok (d', [])
  | OpPublicEndpoint ep => Ok (SetPublicEndpoint d ep, [])
  | OpPeerCallback => Ok (SetPeerCallback d, [])
  | OpPunchPlanCallback => Ok (SetPunchPlanCallback d, [])
  | OpObservedEndpoint f => Ok (SetObservedEndpoint d f, [])
  end.

#[global] Instance service : Service DHT unit op DhtMessage event := {|
  svc_stopped := d_stopped;
  svc_start := Node.Start;
  svc_stop_body := dht_stop_body;
  svc_stop := Node.Stop;
  svc_accept := dht_acceptLoop;
  svc_serve _ := Node.handleConn;
  svc_waits := waits_for_stop;
  svc_op := perform_op;
  svc_go _ := None;
|}.

Lemma perform_op_step o d d' es : perform_op o d = Ok (d', es) -> node_step d d'.
Proof.
  destruct o; cbn; intros H.
  - by eapply step_reader.
  - apply bind_ok in H as ([d1 out] & H & [= <- <-]). by eapply step_bootstrap.
  - injection H as <- <-. apply step_public.
  - injection H as <- <-. apply step_peer_callback.
  - injection H as <- <-. apply step_punch_callback.
  - injection H as <- <-. apply step_observed.
Qed.

(** No operation but [Stop] touches the channel. *)
Lemma handleConn_stopped d conn fs d' es :
  Node.handleConn d conn fs = Ok (d', es) -> d'.(d_stopped) = d.(d_stopped).
Proof.
  unfold Node.handleConn. destruct (decode false fs) as [[msg rest]|]; [|by intros [= <- <-]].
  intros H. repeat case_decide; simplify_eq; try done.
  - unfold handleFindNode in H. by res_inv.
  - unfold Node.handlePing in H. by simplify_eq.
  - unfold handleReportState in H. case_decide; by res_inv.
Qed.

Lemma learn_contact_stopped s c s' : learn_contact s c = Ok s' -> s'.1.(d_stopped) = s.1.(d_stopped).
Proof. destruct s as [d evs]. intros H. unfold learn_contact in H. case_decide; res_inv; by simplify_eq/=. Qed.

Lemma reader_stopped d fs d' es : findNode_reader d fs = Ok (d', es) -> d'.(d_stopped) = d.(d_stopped).
Proof.
  intros H. unfold findNode_reader in H.
  apply (for_range_inv (fun s => s.1.(d_stopped) = d.(d_stopped))) in H; [done| |done].
  intros [d1 e1] m [d2 e2] _ Hd Hr. unfold read_reply in Hr. repeat case_decide; try by simplify_eq.
  apply bind_ok in Hr as ([d3 e3] & Hr & [= <- <-]). cbn in *. rewrite <- Hd.
  unfold handleFindNodeResp in Hr.
  apply (for_range_inv (fun s => s.1.(d_stopped) = d1.(d_stopped))) in Hr; [done| |done].
  intros s c s' _ Hs Hc. by rewrite (learn_contact_stopped _ _ _ Hc).
Qed.

Lemma bootstrap_stopped d seeds d' out : Bootstrap d seeds = Ok (d', out) -> d'.(d_stopped) = d.(d_stopped).
Proof.
  intros H. unfold Bootstrap in H.
  apply (for_range_inv (fun s => s.1.(d_stopped) = d.(d_stopped))) in H; [done| |done].
  intros [d1 e1] [seed net] [d2 e2] _ Hd Hr. unfold bootstrap_seed in Hr. res_inv.
  cbn in *. by case_decide.
Qed.

#[global] Instance service_ok : ServiceOk DHT unit op DhtMessage event.
Proof.
  split; cbn; try done.
  - intros d Hd. unfold Node.Stop. rewrite Hd. by eexists.
  - intros d Hd. unfold Node.Stop. by rewrite Hd.
  - intros _ d c fs d' es. apply handleConn_stopped.
  - intros [] d d' es; cbn; intros H; simplify_eq; try done.
    + by eapply reader_stopped.
    + apply bind_ok in H as ([d1 out] & H & [= <- <-]). by eapply bootstrap_stopped.
Qed.

Lemma node_preserved pk :
  svc_preserved (fun d => node_wf d /\ d.(d_publicKey) = pk).
Proof.
  split; cbn.
  - done.
  - intros d d' [Hwf Hk] H. unfold Node.Stop in H. destruct (d_stopped d); [done|].
    injection H as <-. split; [|done]. by destruct Hwf; split.
  - intros _ d c fs d' es [Hwf Hk] H. destruct (handleConn_ok _ _ _ _ _ Hwf H) as [Hwf' Hst].
    split; [done|]. by rewrite (ns_key _ _ Hst).
  - intros o d d' es [Hwf Hk] H%perform_op_step. destruct (node_step_ok _ _ Hwf H) as [Hwf' Hst].
    split; [done|]. by rewrite (ns_key _ _ Hst).
Qed.
End service.
End Dht.

(** ** Peer exchange *)

Module PexListener.

(** One iteration of [acceptLoop] in [protocol.go]. *)
Definition pex_acceptLoop (p : Protocol) (a : accept_result) : accept_action :=
  match a with
  | AcceptError => if p.(p_stopped) then Return else Retry
  | Accepted conn => Spawn conn
  end.

(** The statements of [Stop] in [protocol.go]; its loop over [p.peers] ranges
    over a map that is never written. *)
Definition pex_stop_body : list stop_stmt := [CloseStopCh; CloseListener].

(** How the goroutine [go p.connect(pk, endpoint)] ends: the callback [main]
    gives to the exchange slices the key before it calls [SetPeer], whose
    error the goroutine drops. *)
Definition connect (pk endpoint : string) : result unit := _ ← slice_to pk 16; Ok tt.

Definition go_connect (e : pex_event) : option (result unit) :=
  match e with
  | GoConnect pk endpoint => Some (connect pk endpoint)
  | _ => None
  end.

(** A round of the gossip loop with what [knownPeers] returns, and the
    goroutine of [sendMessage] with the reply it reads. *)
Inductive op :=
  | OpGossip (known : list PeerEntry)
  | OpSend (reply : option (list (frame PexMessage))).

Definition perform_op (o : op) (p : Protocol) : result (Protocol * list pex_event) :=
  match o with
  | OpGossip known => Ok (gossip p known)
  | OpSend reply => sendMessage p reply
  end.

Definition start (p : Protocol) : Protocol * nat :=
  let '(p', evs) := Pex.Start p in (p', length (filter (fun e => e = GoAcceptLoop) evs)).

#[global] Instance service : Service Protocol (nat -> list PeerEntry) op PexMessage pex_event := {|
  svc_stopped := p_stopped;
  svc_start := start;
  svc_stop_body := pex_stop_body;
  svc_stop := Pex.Stop;
  svc_accept := pex_acceptLoop;
  svc_serve known p _ fs := Ok (Pex.handleConn p known fs);
  svc_waits _ := false;
  svc_op := perform_op;
  svc_go := go_connect;
|}.

(** [connect] panics exactly as the callback does, on any machine. *)
Lemma connect_callback {W} {host : Host W} cl pk endpoint (w : W) q :
  client_ok cl -> pex_connect cl pk endpoint w = Panic q <-> connect pk endpoint = Panic q.
Proof.
  intros Hc. unfold pex_connect, connect, lift, mbind, io_bind.
  destruct (slice_to pk 16); cbn; [|naive_solver..].
  destruct (SetPeer_total cl (mkCfg pk endpoint "" 25) w Hc) as [[e w'] ->]. done.
Qed.

Lemma connect_panics pk endpoint q :
  connect pk endpoint = Panic q <-> q = SliceOutOfRange /\ String.length pk < 16.
Proof.
  unfold connect. destruct (decide (16 <= String.length pk)) as [Hl|Hl].
  - destruct (slice_to_ok _ _ Hl) as [x ->]. cbn. naive_solver lia.
  - rewrite slice_to_panic by lia. cbn. split; [intros [= <-]; split; [done|lia]|by intros [-> _]].
Qed.

(** The goroutines launched for what a node has learned. *)
Definition connecting (p : Protocol) (e : pex_event) : Prop :=
  exists k en, e = connect_of (k, en) /\ p.(p_entries) !! k = Some en.

Lemma launched_connects es : launched es = connects es.
Proof. apply list_filter_iff. intros []; cbn; split; try done; by intros [? ?]. Qed.

Lemma learn_all_connecting p es : Forall (connecting (learn_all p es).1) (learn_all p es).2.
Proof.
  pose proof (learn_all_sched p [] es) as Hrun.
  pose proof (ri_log _ _ _ (run_inv_rtc _ _ _ _ Hrun (run_inv_init p _))) as Hl. cbn in Hl.
  change (foldl learn_step (p, []) es) with (learn_all p es) in Hl. rewrite Hl.
  apply Forall_fmap, Forall_forall. intros [k en] Hin%elem_of_map_to_list. exists k, en. split; [done|].
  by apply lookup_difference_Some in Hin as [? _].
Qed.

Lemma handleConn_connecting p known fs p' es :
  Pex.handleConn p known fs = (p', es) -> Forall (connecting p') (launched es).
Proof.
  unfold Pex.handleConn. intros H. pose proof (serve_spec p known 0 (decode_all false fs)) as Hs.
  rewrite H in Hs. destruct Hs as (-> & Hc & _). rewrite launched_connects, Hc. apply learn_all_connecting.
Qed.

Lemma sendMessage_connecting p reply p' es :
  sendMessage p reply = Ok (p', es) -> Forall (connecting p') (launched es).
Proof.
  unfold sendMessage. destruct (reply ≫= decode false) as [[resp rest]|]; [|intros [= <- <-]; constructor].
  case_decide; [|intros [= <- <-]; constructor].
  destruct (learn_logged_range resp.(pm_Entries) p []) as [[-> _]|[-> _]]; [|done].
  intros [= Heq]. change (learn_all p resp.(pm_Entries) = (p', es)) in Heq.
  pose proof (learn_all_connecting p resp.(pm_Entries)) as HF.
  destruct (learn_all_events p resp.(pm_Entries)) as [Hc _]. rewrite launched_connects. rewrite Heq in HF, Hc.
  cbn [fst snd] in HF, Hc. by rewrite Hc.
Qed.

Lemma gossip_launched p known : launched (gossip p known).2 = [].
Proof.
  pose proof (gossip_spec p known) as Hg. destruct (gossip p known) as [p' es]; cbn [snd].
  destruct Hg as (_ & _ & _ & -> & _). rewrite launched_connects. by induction (concat _).
Qed.

(** What no operation but [Stop] and [Start] changes, and what is always
    true of the entries: each is filed under its key, is another node's and
    has an endpoint. *)
Definition entries_ok (p : Protocol) : Prop :=
  map_Forall (fun k e => e.(pe_PublicKey) = k /\ learnable p.(p_publicKey) e) p.(p_entries).

Record learns (p p' : Protocol) : Prop := {
  lr_key : p'.(p_publicKey) = p.(p_publicKey);
  lr_stopped : p'.(p_stopped) = p.(p_stopped);
  lr_started : p'.(p_started) = p.(p_started);
  lr_entries : p.(p_entries) ⊆ p'.(p_entries);
  lr_ok : entries_ok p -> entries_ok p';
}.

#[global] Instance learns_preorder : PreOrder learns.
Proof.
  split; [by split|]. intros p1 p2 p3 [? ? ? ? ?] [? ? ? ? ?]. split; try congruence; [by etrans|auto].
Qed.

Lemma learned_ok self es :
  map_Forall (fun k e => e.(pe_PublicKey) = k /\ learnable self e) (Pex.learned self es).
Proof.
  induction es as [|e es IH]; [apply map_Forall_empty|]. rewrite learned_cons.
  case_decide; [|done]. by apply map_Forall_insert_2.
Qed.

Lemma learn_fold_learns p evs es : learns p (foldl learn_step (p, evs) es).1.
Proof.
  rewrite learn_fold. split; try done; cbn; [by apply map_union_subseteq_l|].
  intros Hp. apply map_Forall_union_2; [done|apply learned_ok].
Qed.

Lemma handle_msg_learns p known m : learns p (handle_msg p known m).1.
Proof.
  unfold handle_msg. repeat case_decide; try done.
  - unfold handleRequest. pose proof (learn_fold_learns p [] m.(pm_Entries)) as Hl. unfold learn_all.
    by destruct (foldl _ _ _).
  - apply learn_fold_learns.
Qed.

Lemma serve_learns known n msgs p : learns p (serve p known n msgs).1.
Proof.
  revert n p. induction msgs as [|m msgs IH]; intros n p; cbn; [done|].
  pose proof (handle_msg_learns p (known n) m) as H1. destruct (handle_msg _ _ _) as [p1 e1].
  pose proof (IH (S n) p1) as H2. destruct (serve _ _ _ _) as [p2 e2]. by etrans.
Qed.

Lemma sendMessage_learns p reply p' es : sendMessage p reply = Ok (p', es) -> learns p p'.
Proof.
  unfold sendMessage. destruct (reply ≫= decode false) as [[resp rest]|]; [|by intros [= <- <-]].
  case_decide; [|by intros [= <- <-]].
  destruct (learn_logged_range resp.(pm_Entries) p []) as [[-> _]|[-> _]]; [|done].
  intros [= Heq]. pose proof (learn_fold_learns p [] resp.(pm_Entries)) as Hl. by rewrite Heq in Hl.
Qed.

Lemma gossip_learns p known : learns p (gossip p known).1.
Proof. unfold gossip. by destruct known. Qed.

Lemma perform_op_learns o p p' es : perform_op o p = Ok (p', es) -> learns p p'.
Proof.
  destruct o as [known|reply]; cbn; [|apply sendMessage_learns].
  intros [= H]. pose proof (gossip_learns p known) as Hl. by rewrite H in Hl.
Qed.

Lemma perform_op_connecting o p p' es : perform_op o p = Ok (p', es) -> Forall (connecting p') (launched es).
Proof.
  destruct o as [known|reply]; cbn; [|apply sendMessage_connecting].
  intros [= H]. pose proof (gossip_launched p known) as Hl. rewrite H in Hl. cbn [snd] in Hl. rewrite Hl. constructor.
Qed.

Lemma connecting_mono p p' e : p.(p_entries) ⊆ p'.(p_entries) -> connecting p e -> connecting p' e.
Proof. intros Hs (k & en & -> & Hk). exists k, en. split; [done|]. by eapply lookup_weaken. Qed.

#[global] Instance service_ok : ServiceOk Protocol (nat -> list PeerEntry) op PexMessage pex_event.
Proof.
  split; cbn; try done.
  - intros p. unfold start, Pex.Start. by destruct (p_started p).
  - intros p Hp. unfold Pex.Stop. rewrite Hp. by eexists.
  - intros p Hp. unfold Pex.Stop. by rewrite Hp.
  - intros known p _ fs p' es [= H]. pose proof (serve_learns known 0 (decode_all false fs) p) as Hl.
    unfold Pex.handleConn in H. rewrite H in Hl. apply Hl.
  - intros o p p' es H%perform_op_learns. apply H.
Qed.
End PexListener.

(** ** Theorems *)

Section theorems.
Context {sort : SliceSort}.

Lemma NewDHT_fresh listen pk port ep d :
  NewDHT listen pk port ep = Some d -> node_wf d /\ d.(d_publicKey) = pk /\ d.(d_stopped) = false.
Proof.
  intros H. split; [by eapply NewDHT_wf|]. unfold NewDHT in H.
  by apply bind_Some in H as (? & _ & [= <-]).
Qed.

Lemma dht_reach listen pk port ep d0 acts r :
  NewDHT listen pk port ep = Some d0 -> run acts (boot d0) = Some (Ok r) ->
  rt_inv r /\ node_wf r.(rt_svc) /\ r.(rt_svc).(d_publicKey) = pk.
Proof.
  intros (Hwf & Hpk & Hs)%NewDHT_fresh Hr. split.
  - by refine (run_rt_inv _ _ _ (boot_inv _ _) Hr).
  - by apply (run_svc_inv _ _ (boot d0) _ (Dht.node_preserved pk) (conj Hwf Hpk) Hr).
Qed.

(** C19: Under every schedule of a node's accept loops, handlers and operations: the node is
    well formed and keeps its key, a closed listener means a closed stop channel, so
    that an accept error then always ends the loop, and each connection that arrived is
    served, being served, waiting to be accepted or was reset by the close, exactly
    once. *)
Theorem dht_service_invariant listen pk port ep d0 acts r :
  NewDHT listen pk port ep = Some d0 -> run acts (boot d0) = Some (Ok r) ->
  node_wf r.(rt_svc) /\ r.(rt_svc).(d_publicKey) = pk /\
  (r.(rt_open) = false -> r.(rt_svc).(d_stopped) = true) /\
  (r.(rt_open) = false -> Dht.dht_acceptLoop r.(rt_svc) AcceptError = Return) /\
  r.(rt_arrived) ≡ₚ r.(rt_served) ++ r.(rt_handlers) ++ r.(rt_backlog) ++ r.(rt_reset) /\
  (r.(rt_open) = true -> r.(rt_reset) = []).
Proof.
  intros Hn Hr. destruct (dht_reach _ _ _ _ _ _ _ Hn Hr) as (Hi & Hwf & Hpk).
  assert (r.(rt_open) = false -> r.(rt_svc).(d_stopped) = true) as Hst by (intros Ho; by apply (ri_closed _ Hi)).
  split_and!; try done; [|apply Hi|apply Hi]. intros Ho. cbn. by rewrite Hst.
Qed.

(** C7: After Stop has closed the listener, every schedule of the node's accept loops,
    handlers and goroutines that wait for the stop is finite (one step per accept loop
    and waiting goroutine, two per handler), accepts nothing new, and can only be stuck
    when all of them have returned; a handler runs once its connection has delivered a
    message or ended. *)
Theorem dht_stop_drains listen pk port ep d0 acts r acts' r' :
  NewDHT listen pk port ep = Some d0 -> run acts (boot d0) = Some (Ok r) -> r.(rt_open) = false ->
  Forall (fun a => draining a = true) acts' -> run acts' r = Some (Ok r') ->
  length acts' <= work r /\
  r'.(rt_arrived) = r.(rt_arrived) /\ r'.(rt_handlers) ⊆ r.(rt_handlers) /\
  ((forall a, draining a = true -> perform a r' = None) <-> quiet r').
Proof.
  intros Hn Hr Ho HF Hr'. destruct (dht_reach _ _ _ _ _ _ _ Hn Hr) as (Hi & _ & _).
  destruct (stop_drains tt acts' r r' Hi Ho HF Hr') as (Hl & Hc & Hq).
  split_and!; [done|apply Hc|apply Hc|exact Hq].
Qed.

(** Whoever can connect to a started node can end the process with one [FindNode] request. *)
Theorem dht_request_crashes listen pk port ep d0 acts r conn msg :
  NewDHT listen pk port ep = Some d0 -> run acts (boot d0) = Some (Ok r) ->
  r.(rt_open) = true -> r.(rt_loops) <> 0 ->
  msg.(m_Type) = MsgFindNode -> length (hex_decode msg.(m_SenderID)) < 20 ->
  exists acts', run (AArrive conn (encode_fresh msg) :: acts') r = Some (Panic IndexOutOfRange).
Proof.
  intros Hn Hr Ho Hl Hty Hlen. destruct (dht_reach _ _ _ _ _ _ _ Hn Hr) as (_ & Hwf & _).
  apply (connection_panics tt); [done..|]. cbn. unfold Node.handleConn. cbn [decode encode_fresh].
  rewrite Hty. rewrite decide_False, decide_True by done. unfold handleFindNode.
  by rewrite (proj2 (insert_panics _ (sender_contact r.(rt_svc) conn msg) (nw_table _ Hwf)) Hlen).
Qed.

Notation pex_runtime := (runtime Protocol PexMessage pex_event).

(** One accept loop for a started exchange, and a goroutine for each
    connection attempt. *)
Lemma pex_step (a : action (nat -> list PeerEntry) PexListener.op PexMessage) (r r' : pex_runtime) :
  r.(rt_loops) <= (if r.(rt_svc).(p_started) then 1 else 0) ->
  Forall (PexListener.connecting r.(rt_svc)) r.(rt_gos) ->
  perform a r = Some (Ok r') ->
  r'.(rt_loops) <= (if r'.(rt_svc).(p_started) then 1 else 0) /\
  Forall (PexListener.connecting r'.(rt_svc)) r'.(rt_gos).
Proof.
  assert (forall st rest (r r' : pex_runtime), exec_stop st rest r = Ok r' ->
    r'.(rt_loops) = r.(rt_loops) /\ r'.(rt_svc).(p_started) = r.(rt_svc).(p_started) /\
    r'.(rt_gos) = r.(rt_gos) /\ r'.(rt_svc).(p_entries) = r.(rt_svc).(p_entries)) as Hstop.
  { intros st rest r1 r2 [(_ & s & Hs & ->)|[_ ->]]%exec_stop_inv; [|done]. cbn in Hs. unfold Pex.Stop in Hs.
    by destruct (p_stopped _); simplify_eq/=. }
  assert (forall p p' es gos, PexListener.learns p p' -> Forall (PexListener.connecting p) gos ->
    Forall (PexListener.connecting p') es -> Forall (PexListener.connecting p') (gos ++ es)) as Happ.
  { intros p p' es gos Hl HF He. apply Forall_app. split; [|done]. eapply Forall_impl; [exact HF|].
    intros e. apply PexListener.connecting_mono, Hl. }
  intros Hi Hg H. destruct a as [| | |c fs| | |i x|i day|o|i]; cbn -[exec_stop] in H.
  - unfold PexListener.start, Pex.Start in H.
    destruct (p_started (rt_svc r)) eqn:E; simplify_eq/=; rewrite ?E, app_nil_r; (split; [lia|done]).
  - injection H as H. apply (Hstop CloseStopCh [CloseListener]) in H as (-> & E & -> & He). rewrite E. split; [done|]. eapply Forall_impl; [exact Hg|].
    intros e. apply PexListener.connecting_mono. by rewrite He.
  - destruct (rt_todo r) as [|st rest]; [done|]. injection H as (-> & E & -> & He)%Hstop. rewrite E.
    split; [done|]. eapply Forall_impl; [exact Hg|]. intros e. apply PexListener.connecting_mono. by rewrite He.
  - destruct (rt_open r); by simplify_eq/=.
  - case_decide; [done|]. destruct (rt_open r).
    + destruct (rt_backlog r) as [|[c fs] rest]; by simplify_eq/=.
    + unfold iterate in H; cbn in H. destruct (p_stopped _); simplify_eq/=; [split; [lia|done]|done].
  - case_decide; [done|]. destruct (rt_open r); [|done].
    unfold iterate in H; cbn in H. destruct (p_stopped _); simplify_eq/=; [split; [lia|done]|done].
  - destruct (rt_handlers r !! i) as [[c fs]|]; [|done].
    pose proof (PexListener.serve_learns x 0 (decode_all false fs) (rt_svc r)) as Hl.
    destruct (Pex.handleConn (rt_svc r) x fs) as [p' es] eqn:E. cbn in H. injection H as <-. cbn.
    unfold Pex.handleConn in E. rewrite E in Hl. cbn in Hl. rewrite (PexListener.lr_started _ _ Hl).
    split; [done|]. eapply Happ; [done..|]. by eapply PexListener.handleConn_connecting.
  - destruct (rt_waiting r !! i); [|done]. destruct (_ || _); by simplify_eq/=.
  - injection H as H. apply bind_ok in H as ([p' es] & H & [= <-]). cbn.
    pose proof (PexListener.perform_op_learns _ _ _ _ H) as Hl.
    rewrite (PexListener.lr_started _ _ Hl). split; [done|]. eapply Happ; [done..|].
    by eapply PexListener.perform_op_connecting.
  - destruct (rt_gos r !! i); [|done]. injection H as H. apply bind_ok in H as ([] & _ & [= <-]). cbn.
    split; [done|]. by apply Forall_delete.
Qed.

Lemma pex_reach pk listen p0 acts r :
  NewProtocol pk listen true = Some p0 -> run acts (boot p0) = Some (Ok r) ->
  rt_inv r /\ PexListener.entries_ok r.(rt_svc) /\ r.(rt_svc).(p_publicKey) = pk /\
  r.(rt_loops) <= (if r.(rt_svc).(p_started) then 1 else 0) /\
  Forall (PexListener.connecting r.(rt_svc)) r.(rt_gos).
Proof.
  intros [= <-] Hr. assert (rt_inv r) as Hi by (by refine (run_rt_inv _ _ _ (boot_inv _ _) Hr)).
  split; [done|]. assert (PexListener.entries_ok r.(rt_svc) /\ r.(rt_svc).(p_publicKey) = pk) as [? ?].
  { revert Hr. apply (run_svc_inv (fun p => PexListener.entries_ok p /\ p.(p_publicKey) = pk));
      [|split; [apply map_Forall_empty|done]]. split; cbn.
    - intros p H. unfold PexListener.start, Pex.Start. by destruct (p_started p).
    - intros p p' H Hs. unfold Pex.Stop in Hs. destruct (p_stopped p); by simplify_eq.
    - intros known p _ fs p' es [H1 H2] [= H].
      pose proof (PexListener.serve_learns known 0 (decode_all false fs) p) as Hl.
      unfold Pex.handleConn in H. rewrite H in Hl; cbn in Hl. split; [by apply Hl|]. by rewrite (PexListener.lr_key _ _ Hl).
    - intros o p p' es [H1 H2] Hl%PexListener.perform_op_learns. split; [by apply Hl|].
      by rewrite (PexListener.lr_key _ _ Hl). }
  do 2 (split; [done|]). revert Hr. apply (run_ind (fun r =>
    r.(rt_loops) <= (if r.(rt_svc).(p_started) then 1 else 0) /\
    Forall (PexListener.connecting r.(rt_svc)) r.(rt_gos))).
  - intros a r1 r2 [Hl Hg]. by apply pex_step.
  - split; [done|constructor].
Qed.

(** C27: Under every schedule of the peer exchange: at most one accept loop runs, however
    often Start is called, every entry is filed under its key, is another node's and has
    an endpoint, accept errors after the close end the loop, and no connection is lost
    or served twice. *)
Theorem pex_service_invariant pk listen p0 acts r :
  NewProtocol pk listen true = Some p0 -> run acts (boot p0) = Some (Ok r) ->
  r.(rt_loops) <= 1 /\ r.(rt_svc).(p_publicKey) = pk /\
  map_Forall (fun k e => e.(pe_PublicKey) = k /\ k <> pk /\ e.(pe_Endpoints) <> []) r.(rt_svc).(p_entries) /\
  (r.(rt_open) = false -> PexListener.pex_acceptLoop r.(rt_svc) AcceptError = Return) /\
  r.(rt_arrived) ≡ₚ r.(rt_served) ++ r.(rt_handlers) ++ r.(rt_backlog) ++ r.(rt_reset).
Proof.
  intros Hn Hr. destruct (pex_reach _ _ _ _ _ Hn Hr) as (Hi & He & Hpk & Hl & _). split_and!.
  - by destruct (p_started _); lia.
  - done.
  - intros k e Hk. destruct (He k e Hk) as [<- [H1 H2]]. by rewrite Hpk in H1.
  - intros Ho. cbn. destruct (ri_closed _ Hi Ho) as [Hs _]. cbn in Hs. by rewrite Hs.
  - apply Hi.
Qed.

Lemma sendMessage_panic p reply q :
  sendMessage p reply = Panic q ->
  q = SliceOutOfRange /\ exists resp rest, reply ≫= decode false = Some (resp, rest) /\
    resp.(pm_Type) = MsgTypePexResponse /\ Exists (short_new p) resp.(pm_Entries).
Proof.
  unfold sendMessage. destruct (reply ≫= decode false) as [[resp rest]|]; [|done].
  case_decide; [|done]. destruct (learn_logged_range resp.(pm_Entries) p []) as [[-> _]|[-> HE]]; [done|].
  intros [= <-]. eauto 6.
Qed.

(** A request with a new short key launches a goroutine for it. *)
Lemma serve_launches_short p known req :
  req.(pm_Type) = MsgTypePexRequest -> Exists (short_new p) req.(pm_Entries) ->
  exists p' es j k ep, Pex.handleConn p known (encode_fresh req) = (p', es) /\
    launched es !! j = Some (GoConnect k ep) /\ String.length k < 16.
Proof.
  intros Hty Hex. apply Exists_exists in Hex as (e & Hin & Hle & Hnone & Hlen).
  pose proof (pex_connection_spec p known (encode_fresh req)) as Hs. cbn zeta in Hs.
  destruct (Pex.handleConn p known (encode_fresh req)) as [p' es]. destruct Hs as (Hp' & Hc & _).
  assert (is_Some (p'.(p_entries) !! e.(pe_PublicKey))) as [en Hen].
  { rewrite Hp'. cbn. rewrite lookup_union_r by done. apply elem_of_dom. unfold learned.
    rewrite dom_list_to_map, elem_of_list_to_set, <- list_fmap_compose. apply list_elem_of_fmap.
    exists e. split; [done|]. apply list_elem_of_filter. split; [done|]. unfold taught. cbn [decode_all encode_fresh].
    cbn. rewrite decide_True by auto. cbn. by rewrite app_nil_r. }
  assert (GoConnect e.(pe_PublicKey) (hd "" en.(pe_Endpoints)) ∈ launched es) as Hg.
  { rewrite PexListener.launched_connects, Hc. apply list_elem_of_fmap. exists (e.(pe_PublicKey), en).
    split; [done|]. apply elem_of_map_to_list, lookup_difference_Some. done. }
  apply list_elem_of_lookup in Hg as [j Hj]. eauto 10.
Qed.

(** C34: Under every schedule, goroutines launched by the exchange included, a panic of the
    peer exchange is one of three: a second Stop; a reply to its own request with a new
    learnable entry whose key is shorter than 16; or a goroutine connecting to a stored
    entry of another node, at its first endpoint, whose key is shorter than 16, which
    main's callback slices. *)
Theorem pex_panics_only pk listen p0 acts q :
  NewProtocol pk listen true = Some p0 -> run acts (boot p0) = Some (Panic q) ->
  exists pre a post r, acts = pre ++ a :: post /\ run pre (boot p0) = Some (Ok r) /\
    ((q = CloseOfClosedChannel /\ a = AStop /\ AStop ∈ pre) \/
     (q = SliceOutOfRange /\ exists reply resp rest,
        a = AOp (PexListener.OpSend reply) /\ reply ≫= decode false = Some (resp, rest) /\
        resp.(pm_Type) = MsgTypePexResponse /\ Exists (short_new r.(rt_svc)) resp.(pm_Entries)) \/
     (q = SliceOutOfRange /\ exists i k e ep eps,
        a = AGo i /\ r.(rt_gos) !! i = Some (GoConnect k ep) /\ String.length k < 16 /\ k <> pk /\
        r.(rt_svc).(p_entries) !! k = Some e /\ e.(pe_Endpoints) = ep :: eps)).
Proof.
  intros Hn (pre & a & post & r & -> & Hr & Ha)%run_panic. exists pre, a, post, r. do 2 (split; [done|]).
  assert (rt_inv (boot p0) /\ svc_stopped p0 = false) as [Hi0 Hs0].
  { unfold NewProtocol in Hn. injection Hn as <-. split; [by apply boot_inv|done]. }
  destruct (pex_reach _ _ _ _ _ Hn Hr) as (Hi & He & Hpk & _ & Hg).
  destruct a as [| | |c fs| | |i x|i day|o|i]; cbn in Ha.
  - by destruct (PexListener.start _).
  - left. unfold Pex.Stop in Ha. destruct (p_stopped r.(rt_svc)) eqn:Hs; [|done]. cbn in Ha.
    injection Ha as <-. split_and!; [done..|]. by apply (stopped_by _ (boot p0) _ Hi0 Hs0 Hr).
  - destruct (ri_todo _ Hi) as [Ht|Ht]; rewrite Ht in Ha; done.
  - by destruct (rt_open r).
  - case_decide; [done|]. destruct (rt_open r); [|done]. by destruct (rt_backlog r) as [|[]].
  - case_decide; [done|]. by destruct (rt_open r).
  - destruct (rt_handlers r !! i) as [[c fs]|]; [|done]. cbn in Ha. by destruct (Pex.handleConn _ _ _).
  - destruct (rt_waiting r !! i); [|done]. by destruct (_ || _).
  - right. left. destruct o as [known|reply]; cbn in Ha; [by destruct (gossip _ _)|].
    destruct (sendMessage (rt_svc r) reply) as [[p' es]|q'|] eqn:Hs; [done| |done].
    cbn in Ha. injection Ha as <-. destruct (sendMessage_panic _ _ _ Hs) as (-> & resp & rest & H1 & H2 & H3).
    eauto 10.
  - right. right. destruct (rt_gos r !! i) as [ev|] eqn:Hev; [|done].
    rewrite Forall_lookup in Hg. destruct (Hg _ _ Hev) as (k & e & -> & Hk).
    cbn -[PexListener.connect] in Ha. injection Ha as Ha.
    destruct (He k e Hk) as [Hkey [Hne Heps]]. rewrite Hkey, Hpk in Hne.
    destruct (PexListener.connect k (hd "" e.(pe_Endpoints))) as [[]|q'|] eqn:Hc; [done| |done].
    cbn in Ha. injection Ha as <-. apply PexListener.connect_panics in Hc as [-> Hlen].
    split; [done|]. destruct (pe_Endpoints e) as [|ep eps] eqn:Hep; [done|].
    exists i, k, e, ep, eps. unfold connect_of in Hev. cbn in Hev. rewrite Hep in Hev. done.
Qed.

(** Whoever can connect to a started exchange can end the process: a request
    that brings a new key shorter than 16 starts a goroutine that panics. *)
Theorem pex_request_crashes pk listen p0 acts r conn (known : nat -> list PeerEntry) req :
  NewProtocol pk listen true = Some p0 -> run acts (boot p0) = Some (Ok r) ->
  r.(rt_open) = true -> r.(rt_loops) <> 0 ->
  req.(pm_Type) = MsgTypePexRequest -> Exists (short_new r.(rt_svc)) req.(pm_Entries) ->
  exists acts', run (AArrive conn (encode_fresh req) :: acts') r = Some (Panic SliceOutOfRange).
Proof.
  intros Hn Hr Ho Hl Hty Hex. set (fs := encode_fresh req).
  set (r1 := mkRt r.(rt_svc) true r.(rt_todo) r.(rt_loops)
    (r.(rt_backlog) ++ [(conn, fs)]) r.(rt_handlers) r.(rt_waiting) (r.(rt_arrived) ++ [(conn, fs)])
    r.(rt_served) r.(rt_reset) r.(rt_log) r.(rt_gos)).
  destruct (accept_backlog r.(rt_backlog) r1 conn fs []) as (r2 & Hr2 & Hs2 & Hh); [done..|].
  destruct (serve_launches_short r2.(rt_svc) known req) as (p' & es & j & k & ep & Hsv & Hj & Hk);
    [done|by rewrite Hs2|].
  exists (replicate (S (length r.(rt_backlog))) AAccept ++
          [AServe (length r.(rt_handlers) + length r.(rt_backlog)) known; AGo (length r2.(rt_gos) + j)]).
  cbn [run perform]. rewrite Ho. fold fs r1. rewrite run_app, Hr2. cbn [run perform].
  cbn in Hh. rewrite Hh. cbn [svc_serve PexListener.service]. fold fs in Hsv. rewrite Hsv.
  cbn -[PexListener.connect launched].
  rewrite lookup_app_r by lia.
  replace (length (rt_gos r2) + j - length (rt_gos r2)) with j by lia. rewrite Hj.
  cbn -[PexListener.connect].
  by rewrite (proj2 (PexListener.connect_panics k ep SliceOutOfRange)).
Qed.
End theorems.
