(* ===== verification/Loops.v ===== *)
(** * Loops driven by a ticker

    [gossipLoop] of the peer exchange and the loop of [runHandshakeMonitor]
    select between a stop channel and a ticker.  A ticker's channel holds one
    tick: further ones are dropped while it is full.  When both channels are
    ready, Go picks either branch. *)

From S2P Require Import Prelude.
From S2P Require Import GoNet Pex PexConc Service Listeners.
From S2P Require Import Host Uapi UapiProps MeshState Monitor Punch Table Node.
Local Open Scope nat_scope.

(** [time.NewTicker(d)]. *)
Definition NewTicker (d : Z) : result unit :=
  if decide (d <= 0)%Z then Panic NonPositiveTicker else Ok tt.

Inductive branch := OnStop | OnTick.

#[export] Instance branch_eq_dec : EqDecision branch.
Proof. solve_decision. Defined.

(** Can [select] take a branch? *)
Definition ready (stop tick : bool) (b : branch) : bool :=
  match b with OnStop => stop | OnTick => tick end.

(** ** [gossipLoop] *)

(** One iteration after [select] has picked a branch: [None] is the return. *)
Definition gossipLoop (p : Protocol) (known : list PeerEntry) (b : branch) :
    option (Protocol * list pex_event) :=
  match b with
  | OnStop => None
  | OnTick => Some (gossip p known)
  end.

(** The loop with its ticker, the state it shares with the handlers, and the
    goroutines it has launched. *)
Record gossiping := mkGossiping {
  gs_proto : Protocol;
  gs_tick : bool;
  gs_running : bool;
  gs_sent : list pex_event;
}.

Inductive gossip_action :=
  | GTick                                               (* thirty seconds have passed *)
  | GSelect (b : branch) (known : list PeerEntry)
  | GServe (known : nat -> list PeerEntry) (fs : list (frame PexMessage))
  | GReply (reply : option (list (frame PexMessage)))
  | GStop.

Definition with_proto (g : gossiping) (p : Protocol) : gossiping :=
  mkGossiping p g.(gs_tick) g.(gs_running) g.(gs_sent).

(** [select] takes a ready branch, and a tick out of the ticker's channel. *)
Definition gossip_step (a : gossip_action) (g : gossiping) : option (result gossiping) :=
  match a with
  | GTick => Some (Ok (mkGossiping g.(gs_proto) true g.(gs_running) g.(gs_sent)))
  | GSelect b known =>
      if g.(gs_running) && ready g.(gs_proto).(p_stopped) g.(gs_tick) b then
        let tick := match b with OnStop => g.(gs_tick) | OnTick => false end in
        Some (Ok (match gossipLoop g.(gs_proto) known b with
                  | None => mkGossiping g.(gs_proto) tick false g.(gs_sent)
                  | Some (p, evs) => mkGossiping p tick true (g.(gs_sent) ++ evs)
                  end))
      else None
  | GServe known fs => Some (Ok (with_proto g (Pex.handleConn g.(gs_proto) known fs).1))
  | GReply reply => Some ('(p, _) ← sendMessage g.(gs_proto) reply; Ok (with_proto g p))
  | GStop => Some (p ← Pex.Stop g.(gs_proto); Ok (with_proto g p))
  end.

Fixpoint gossip_run (acts : list gossip_action) (g : gossiping) : option (result gossiping) :=
  match acts with
  | [] => Some (Ok g)
  | a :: acts =>
      match gossip_step a g with
      | Some (Ok g) => gossip_run acts g
      | other => other
      end
  end.

Definition start_gossip (p : Protocol) : gossiping := mkGossiping p false true [].

(** Ticks that arrive in a schedule, and the peer lists it gives to the
    ticks the loop takes. *)
Fixpoint ticks (acts : list gossip_action) : nat :=
  match acts with
  | [] => 0
  | GTick :: acts => S (ticks acts)
  | _ :: acts => ticks acts
  end.

Definition taken (acts : list gossip_action) : list (list PeerEntry) :=
  omap (fun a => match a with GSelect OnTick known => Some known | _ => None end) acts.

(** The requests of a round with number [seq]: one per endpoint. *)
Definition requests (pk : string) (seq : Z) (known : list PeerEntry) : list pex_event :=
  (fun ep => GoSend ep (mkPexMsg MsgTypePexRequest pk known (wrap_u64 seq))) <$> concat (pe_Endpoints <$> known).

(** The requests of all rounds: a round with nobody to tell has no number. *)
Definition rounds (acts : list gossip_action) : list (list PeerEntry) :=
  filter (fun known => known <> []) (taken acts).

Definition requests_from (pk : string) (n : nat) (ks : list (list PeerEntry)) : list pex_event :=
  concat (imap (fun i => requests pk (Z.of_nat (S (n + i)))) ks).

Lemma requests_from_cons pk n k ks :
  requests_from pk n (k :: ks) = requests pk (Z.of_nat (S n)) k ++ requests_from pk (S n) ks.
Proof.
  unfold requests_from. rewrite imap_cons. cbn [concat]. rewrite Nat.add_0_r. f_equal. f_equal.
  apply imap_ext. intros i x _. cbn. by rewrite Nat.add_succ_r.
Qed.

Lemma gossip_round p known :
  gossip p known
  = (if decide (known = []) then p else with_seq p (wrap_u64 (p.(p_seq) + 1)),
     requests p.(p_publicKey) (p.(p_seq) + 1) known).
Proof.
  pose proof (gossip_spec p known) as Hg. unfold gossip in *. destruct known as [|e es]; [done|].
  destruct Hg as (_ & _ & _ & -> & _). rewrite decide_False by done. done.
Qed.

(** What the handlers leave alone. *)
Lemma handleConn_seq p known fs : (Pex.handleConn p known fs).1.(p_seq) = p.(p_seq).
Proof.
  pose proof (pex_connection_spec p known fs) as H. cbn zeta in H.
  destruct (Pex.handleConn p known fs). by destruct H as [-> _].
Qed.

Lemma sendMessage_seq p reply p' es : sendMessage p reply = Ok (p', es) -> p'.(p_seq) = p.(p_seq).
Proof.
  unfold sendMessage. destruct (reply ≫= decode false) as [[resp rest]|]; [|by intros [= <- <-]].
  case_decide; [|by intros [= <- <-]].
  destruct (learn_logged_range resp.(pm_Entries) p []) as [[-> _]|[-> _]]; [|done].
  intros [= Heq]. pose proof (learn_fold p [] resp.(pm_Entries)) as Hl. rewrite Heq in Hl. cbn in Hl. by subst.
Qed.

(** What a step that is no round changes, and what a round does. *)
Definition same_round (g g' : gossiping) : Prop :=
  g'.(gs_proto).(p_seq) = g.(gs_proto).(p_seq) /\ g'.(gs_proto).(p_publicKey) = g.(gs_proto).(p_publicKey) /\
  g'.(gs_sent) = g.(gs_sent) /\ (g.(gs_proto).(p_stopped) = true -> g'.(gs_proto).(p_stopped) = true).

Lemma gossip_step_other a g g' :
  taken [a] = [] -> gossip_step a g = Some (Ok g') ->
  same_round g g' /\ g'.(gs_tick) = (match a with GTick => true | _ => g.(gs_tick) end) /\
  (g.(gs_running) = false -> g'.(gs_running) = false).
Proof.
  destruct a as [|b known|known fs|reply|]; cbn; intros Hk H.
  - injection H as <-. unfold same_round; cbn. done.
  - destruct (gs_running g); [|done]. destruct b; [|done]. cbn in H.
    destruct (p_stopped _) eqn:Hs; [|done]. injection H as <-. unfold same_round; cbn. done.
  - injection H as <-. unfold same_round; cbn. rewrite handleConn_seq.
    pose proof (PexListener.serve_learns known 0 (decode_all false fs) g.(gs_proto)) as Hl.
    unfold Pex.handleConn. by rewrite (PexListener.lr_stopped _ _ Hl), (PexListener.lr_key _ _ Hl).
  - injection H as H. apply bind_ok in H as ([p es] & H & [= <-]). unfold same_round; cbn.
    rewrite (sendMessage_seq _ _ _ _ H). apply PexListener.sendMessage_learns in H.
    by rewrite (PexListener.lr_stopped _ _ H), (PexListener.lr_key _ _ H).
  - injection H as H. unfold Pex.Stop in H. destruct (p_stopped _) eqn:Hs; [done|]. injection H as <-.
    unfold same_round; cbn. done.
Qed.

Lemma gossip_step_round known g g' :
  gossip_step (GSelect OnTick known) g = Some (Ok g') ->
  g.(gs_running) = true /\ g.(gs_tick) = true /\ g'.(gs_tick) = false /\
  g'.(gs_proto) = (gossip g.(gs_proto) known).1 /\ g'.(gs_sent) = g.(gs_sent) ++ (gossip g.(gs_proto) known).2.
Proof.
  cbn. destruct (gs_running g); [|done]. destruct (gs_tick g); [|done]. cbn.
  destruct (gossip _ _) as [p evs]. by intros [= <-].
Qed.

Definition pending_tick (g : gossiping) : nat := if g.(gs_tick) then 1 else 0.

Lemma gossip_run_spec pk acts g g' n :
  g.(gs_proto).(p_publicKey) = pk -> g.(gs_proto).(p_seq) = wrap_u64 (Z.of_nat n) ->
  gossip_run acts g = Some (Ok g') ->
  length (taken acts) + pending_tick g' <= pending_tick g + ticks acts /\
  g'.(gs_proto).(p_publicKey) = pk /\ g'.(gs_proto).(p_seq) = wrap_u64 (Z.of_nat (n + length (rounds acts))) /\
  g'.(gs_sent) = g.(gs_sent) ++ requests_from pk n (rounds acts) /\
  (g.(gs_proto).(p_stopped) = true -> g'.(gs_proto).(p_stopped) = true) /\
  (g.(gs_running) = false -> taken acts = []).
Proof.
  revert g n. induction acts as [|a acts IH]; intros g n Hk Hn; cbn [gossip_run].
  { intros [= <-]. unfold requests_from, rounds; cbn. rewrite app_nil_r. split_and!; auto; [lia|]. by rewrite Nat.add_0_r. }
  destruct (gossip_step a g) as [[g1| |]|] eqn:Ha; [|done..]. intros Hr.
  destruct (taken [a]) as [|known ks] eqn:Ht.
  - destruct (gossip_step_other a g g1 Ht Ha) as ((E1 & E2 & E3 & E4) & E5 & E6).
    destruct (IH g1 n) as (I1 & I2 & I3 & I4 & I5 & I6); [congruence..|done|].
    assert (taken (a :: acts) = taken acts) as Hta by (by destruct a as [|[] ?| | |]).
    unfold rounds. rewrite Hta. split_and!; auto; [|by rewrite I4, E3].
    unfold pending_tick in *. rewrite E5 in I1. destruct a, (gs_tick g); cbn [ticks]; lia.
  - assert (a = GSelect OnTick known) as -> by (destruct a as [|[] ?| | |]; cbn in Ht; by simplify_eq).
    destruct (gossip_step_round known g g1 Ha) as (R1 & R2 & R3 & R4 & R5).
    rewrite gossip_round in R4, R5. cbn [fst snd] in R4, R5.
    set (m := if decide (known = []) then n else S n).
    destruct (IH g1 m) as (I1 & I2 & I3 & I4 & I5 & I6); [rewrite R4; by case_decide| |done|].
    { rewrite R4. unfold m. case_decide; [done|]. cbn. rewrite Hn. unfold wrap_u64.
      rewrite Zplus_mod_idemp_l. f_equal. lia. }
    assert (rounds (GSelect OnTick known :: acts) = (if decide (known = []) then [] else [known]) ++ rounds acts) as Hro.
    { unfold rounds, taken. cbn [omap list_omap]. rewrite filter_cons. by repeat case_decide. }
    split_and!; [|done|..].
    + change (taken (GSelect OnTick known :: acts)) with (known :: taken acts). cbn [length ticks].
      unfold pending_tick in *. rewrite R2. rewrite R3 in I1. lia.
    + rewrite I3, Hro, length_app. unfold m. case_decide; cbn; f_equal; f_equal; lia.
    + rewrite I4, R5, Hro, <- app_assoc. f_equal. unfold m. case_decide as Hd; [by subst|].
      cbn [app]. rewrite requests_from_cons. f_equal. unfold requests. rewrite Hk, Hn. unfold wrap_u64.
      rewrite Zplus_mod_idemp_l. by replace (Z.of_nat n + 1)%Z with (Z.of_nat (S n)) by lia.
    + intros Hs. apply I5. rewrite R4. by case_decide.
    + congruence.
Qed.

(** C35: From NewProtocol on, under every schedule of ticks, handlers, replies and Stop: the
    gossip loop takes at most as many ticks as have arrived; what it has sent is
    exactly, for each tick taken with a non-empty list of known peers, one request per
    endpoint with consecutive sequence numbers (modulo 2^64), once per tick; after a
    stop at most one pending tick and the further ones are taken, the return is always
    enabled, and a loop that has returned sends nothing more and leaves the sequence
    number alone. *)
Theorem gossip_rounds_bounded pk listen p acts g :
  NewProtocol pk listen true = Some p -> gossip_run acts (start_gossip p) = Some (Ok g) ->
  length (taken acts) <= ticks acts /\
  g.(gs_sent) = requests_from pk 0 (rounds acts) /\
  g.(gs_proto).(p_seq) = wrap_u64 (Z.of_nat (length (rounds acts))) /\
  (g.(gs_proto).(p_stopped) = true ->
   (forall acts' g', gossip_run acts' g = Some (Ok g') -> length (taken acts') <= 1 + ticks acts') /\
   (forall known, g.(gs_running) = true ->
      exists g2, gossip_step (GSelect OnStop known) g = Some (Ok g2) /\
      forall acts' g', gossip_run acts' g2 = Some (Ok g') ->
        g'.(gs_sent) = g.(gs_sent) /\ g'.(gs_proto).(p_seq) = g.(gs_proto).(p_seq))).
Proof.
  intros Hp Hr. injection Hp as <-.
  set (g0 := start_gossip _) in Hr.
  apply (gossip_run_spec pk acts g0 g 0 eq_refl eq_refl) in Hr as (H1 & H2 & H3 & H4 & _ & _).
  cbn in H1, H4. split_and!; [lia|done..|]. intros Hs.
  set (n := length (rounds acts)) in *. split.
  - intros acts' g' Hr'. destruct (gossip_run_spec pk acts' g g' n H2 H3 Hr') as (H & _).
    unfold pending_tick in H. destruct (gs_tick g), (gs_tick g'); lia.
  - intros known Hrun. cbn [gossip_step]. rewrite Hrun, Hs. eexists. split; [done|]. intros acts' g' Hr'.
    cbn [gossipLoop] in Hr'. set (g2 := mkGossiping _ _ _ _) in Hr'.
    apply (gossip_run_spec pk acts' g2 g' n H2 H3) in Hr' as (_ & _ & Hq & Hse & _ & Hk).
    specialize (Hk eq_refl). unfold rounds in Hq, Hse. rewrite Hk in Hq, Hse. cbn in Hq, Hse.
    rewrite app_nil_r in Hse. rewrite Nat.add_0_r in Hq. split; [done|]. by rewrite Hq, H3.
Qed.

(** ** The monitor's loop *)

Section monitor.
Context {W : Type} {host : Host W} (range_keys : W -> gmap string savedPeer -> list string).

(** [for { select { case <-ctx.Done(): return; case <-ticker.C: check() } }] on
    the branches taken; the boolean tells whether it still runs. *)
Fixpoint monitor_loop (cfg : mon_cfg) (m : monitor) (bs : list branch) : io W (monitor * bool) :=
  match bs with
  | [] => mret (m, true)
  | OnStop :: _ => mret (m, false)
  | OnTick :: bs => m ← check range_keys cfg m; monitor_loop cfg m bs
  end.

Definition runHandshakeMonitor (cfg : mon_cfg) (interval : Z) (st : State) (bs : list branch) :
    io W (monitor * bool) :=
  _ ← lift (NewTicker interval);
  m ← check range_keys cfg (new_monitor st);
  monitor_loop cfg m bs.

(** The checks a list of branches runs. *)
Fixpoint checks_of (bs : list branch) : nat :=
  match bs with OnTick :: bs => S (checks_of bs) | _ => 0 end.

Lemma monitor_loop_checks cfg m bs (w : W) :
  monitor_loop cfg m bs w =
  (m' ← run_checks range_keys cfg (checks_of bs) m; mret (m', bool_decide (OnStop ∉ bs))) w.
Proof.
  revert m w. induction bs as [|[] bs IH]; intros m w.
  - done.
  - cbn [monitor_loop checks_of run_checks]. rewrite bool_decide_eq_false_2; [done|]. intros H. apply H. left.
  - cbn [monitor_loop checks_of run_checks]. unfold mbind, io_bind.
    destruct (check range_keys cfg m w) as [[m1 w1]| |]; [|done..]. rewrite IH. unfold mbind, io_bind.
    assert (bool_decide (OnStop ∉ OnTick :: bs) = bool_decide (OnStop ∉ bs)) as ->; [|done].
    apply bool_decide_ext. set_solver.
Qed.

(** C25: For a client that names a program, and a wg that lists keys of at least 16
    characters: runHandshakeMonitor panics exactly when the interval is not positive;
    otherwise it returns for every sequence of ticks and cancellation, and does what one
    check at the start and one per tick before the cancellation do. *)
Theorem monitor_runs (cfg : mon_cfg) (interval : Z) (selfKey : string) (t0 : Z) (bs : list branch) (w : W) :
  client_ok cfg.(mc_client) -> long_keys cfg.(mc_client) ->
  if decide (interval <= 0)%Z
  then runHandshakeMonitor cfg interval (NewState selfKey t0) bs w = Panic NonPositiveTicker
  else exists m w',
    runHandshakeMonitor cfg interval (NewState selfKey t0) bs w = Ok ((m, bool_decide (OnStop ∉ bs)), w') /\
    run_checks range_keys cfg (S (checks_of bs)) (new_monitor (NewState selfKey t0)) w = Ok (m, w') /\
    mon_inv cfg.(mc_hub) m.
Proof.
  intros Hc Hl. unfold runHandshakeMonitor, NewTicker, lift. case_decide; [done|].
  destruct (monitor_total range_keys cfg selfKey t0 (S (checks_of bs)) w Hc Hl) as (m & w' & Hr).
  exists m, w'. split; [|split; [done|eapply run_checks_inv; [apply new_monitor_inv|exact Hr]]].
  cbn [run_checks] in Hr. apply io_bind_ok in Hr as (m1 & w1 & H1 & Hr).
  unfold mbind, io_bind. cbn. rewrite H1, monitor_loop_checks. by io_run Hr.
Qed.
End monitor.
