(* ===== verification/Shutdown.v ===== *)
(** * The running daemon and its shutdown

    The end of [main]: the signal channel, the goroutine that refreshes the
    DHT registration, the start of the handshake monitor, and the statements
    that follow [<-sigCh].  [process] puts the two services and these
    goroutines side by side; an action is a step of one of them. *)

From S2P Require Import Prelude.
From S2P Require Import GoNet GoSort Table Node NodeInv NodeProps Pex PexConc Host Uapi MeshState Args Daemon DaemonProps.
From S2P Require Import Service Listeners.

(** Is the handshake monitor started?  Its log line slices the hub's key. *)
Definition start_monitor (relayAddr vpsHubPubKey : string) : result bool :=
  if decide (relayAddr <> "" /\ vpsHubPubKey <> "")
  then _ ← slice_to vpsHubPubKey 16; Ok true
  else Ok false.

(** Where [main] is: waiting for a signal, or before one of the statements
    [close(stopCh)] and [listener.Close()] of the two calls of [Stop]. *)
Inductive main_pc := Waiting | PexStop | PexClose | DhtStop | DhtClose | Exited.

#[export] Instance main_pc_eq_dec : EqDecision main_pc.
Proof. solve_decision. Defined.

Section process.
Context {sort : SliceSort}.

Record process := mkProcess {
  pr_pex : runtime Protocol PexMessage pex_event;
  pr_dht : runtime DHT DhtMessage event;
  pr_public : string;     (* publicWgEp *)
  pr_signal : bool;       (* sigCh holds a signal; its capacity is 1 *)
  pr_tick : bool;         (* refreshTicker.C holds a tick *)
  pr_refresh : bool;      (* the refresh goroutine runs *)
  pr_monitor : bool;      (* the context of the monitor is live *)
  pr_main : main_pc;
  pr_taken : nat;         (* signals received from sigCh so far *)
}.

(** The daemon after the start: the accept loop of the exchange was launched
    by the start, the one of the DHT by [dhtNode.Start()]. *)
Definition launch (relayAddr : string) (dm : daemon) : result process :=
  monitor ← start_monitor relayAddr dm.(dm_hub);
  let '(d, n) := Node.Start dm.(dm_dht) in
  Ok (mkProcess (with_loops (boot dm.(dm_pex)) 1) (with_loops (boot d) n) dm.(dm_public)
        false false true monitor Waiting 0).

Inductive proc_action :=
  | PSignal                     (* SIGINT or SIGTERM *)
  | PMainReceive                (* main: <-sigCh *)
  | PRefreshReceive             (* refresh goroutine: case <-sigCh *)
  | PTick                       (* five minutes have passed *)
  | PRefreshTick (wgEndpoint : string) (wgPort : Z) (primary fallback : option (list Z))
      (net : Contact -> net_outcome)
  | PMain                       (* the next statement of main *)
  | PPex (a : action (nat -> list PeerEntry) PexListener.op PexMessage)
  | PDht (a : action unit Dht.op DhtMessage).

Definition with_signal (pr : process) (b : bool) : process :=
  mkProcess pr.(pr_pex) pr.(pr_dht) pr.(pr_public) b pr.(pr_tick) pr.(pr_refresh) pr.(pr_monitor)
    pr.(pr_main) pr.(pr_taken).

Definition with_pex (pr : process) r : process :=
  mkProcess r pr.(pr_dht) pr.(pr_public) pr.(pr_signal) pr.(pr_tick) pr.(pr_refresh) pr.(pr_monitor)
    pr.(pr_main) pr.(pr_taken).

Definition with_dht (pr : process) r : process :=
  mkProcess pr.(pr_pex) r pr.(pr_public) pr.(pr_signal) pr.(pr_tick) pr.(pr_refresh) pr.(pr_monitor)
    pr.(pr_main) pr.(pr_taken).

Definition with_main (pr : process) (pc : main_pc) : process :=
  mkProcess pr.(pr_pex) pr.(pr_dht) pr.(pr_public) pr.(pr_signal) pr.(pr_tick) pr.(pr_refresh)
    pr.(pr_monitor) pc pr.(pr_taken).

(** [main] returns: the deferred [relayCancel()] runs and the process ends. *)
Definition exit_main (pr : process) : process :=
  mkProcess pr.(pr_pex) pr.(pr_dht) pr.(pr_public) pr.(pr_signal) pr.(pr_tick) pr.(pr_refresh)
    false Exited pr.(pr_taken).

(** The statements of [main] after [<-sigCh]: [pexProto.Stop()] and
    [dhtNode.Stop()], two statements each. *)
Definition main_step (pr : process) : option (result process) :=
  match pr.(pr_main) with
  | Waiting | Exited => None
  | PexStop => (fun o => r ← o; Ok (with_main (with_pex pr r) PexClose)) <$> perform AStop pr.(pr_pex)
  | PexClose => (fun o => r ← o; Ok (with_main (with_pex pr r) DhtStop)) <$> perform AStopNext pr.(pr_pex)
  | DhtStop => (fun o => r ← o; Ok (with_main (with_dht pr r) DhtClose)) <$> perform AStop pr.(pr_dht)
  | DhtClose => (fun o => r ← o; Ok (exit_main (with_dht pr r))) <$> perform AStopNext pr.(pr_dht)
  end.

(** One action; after [main] has returned there is none. *)
Definition proc_step (a : proc_action) (pr : process) : option (result process) :=
  if decide (pr.(pr_main) = Exited) then None else
  match a with
  | PSignal => Some (Ok (with_signal pr true))
  | PMainReceive =>
      if bool_decide (pr.(pr_main) = Waiting) && pr.(pr_signal) then
        Some (Ok (mkProcess pr.(pr_pex) pr.(pr_dht) pr.(pr_public) false pr.(pr_tick) pr.(pr_refresh)
                    pr.(pr_monitor) PexStop (S pr.(pr_taken))))
      else None
  | PRefreshReceive =>
      if pr.(pr_refresh) && pr.(pr_signal) then
        Some (Ok (mkProcess pr.(pr_pex) pr.(pr_dht) pr.(pr_public) false pr.(pr_tick) false
                    pr.(pr_monitor) pr.(pr_main) (S pr.(pr_taken))))
      else None
  | PTick =>
      Some (Ok (mkProcess pr.(pr_pex) pr.(pr_dht) pr.(pr_public) pr.(pr_signal) true pr.(pr_refresh)
                  pr.(pr_monitor) pr.(pr_main) pr.(pr_taken)))
  | PRefreshTick wgEndpoint wgPort primary fallback net =>
      if pr.(pr_refresh) && pr.(pr_tick) then
        Some ('(d, public, _) ← refresh_tick wgEndpoint pr.(pr_dht).(rt_svc) pr.(pr_public) wgPort
                                  primary fallback net;
              Ok (mkProcess pr.(pr_pex) (with_svc pr.(pr_dht) d []) public pr.(pr_signal) false
                    pr.(pr_refresh) pr.(pr_monitor) pr.(pr_main) pr.(pr_taken)))
      else None
  | PMain => main_step pr
  | PPex a =>
      if internal a then (fun o => r ← o; Ok (with_pex pr r)) <$> perform a pr.(pr_pex) else None
  | PDht a =>
      if internal a then (fun o => r ← o; Ok (with_dht pr r)) <$> perform a pr.(pr_dht) else None
  end.

Fixpoint proc_run (acts : list proc_action) (pr : process) : option (result process) :=
  match acts with
  | [] => Some (Ok pr)
  | a :: acts =>
      match proc_step a pr with
      | Some (Ok pr) => proc_run acts pr
      | other => other
      end
  end.
End process.

(** ** The invariant *)

Notation fresh := (false, true, false) (only parsing).
Notation closing := (true, true, true) (only parsing).
Notation closed := (true, false, false) (only parsing).

Section shutdown.
Context {sort : SliceSort}.

(** The phase of the two services at each point of [main]. *)
Definition stages (pc : main_pc) : (bool * bool * bool) * (bool * bool * bool) :=
  match pc with
  | Waiting | PexStop => (fresh, fresh)
  | PexClose => (closing, fresh)
  | DhtStop => (closed, fresh)
  | DhtClose => (closed, closing)
  | Exited => (closed, closed)
  end.

Record proc_inv (pr : process) : Prop := {
  pi_pex : rt_inv pr.(pr_pex);
  pi_dht : rt_inv pr.(pr_dht);
  pi_stages : (phase pr.(pr_pex), phase pr.(pr_dht)) = stages pr.(pr_main);
  pi_monitor : pr.(pr_main) = Exited -> pr.(pr_monitor) = false;
  pi_taken : pr.(pr_main) = Waiting -> pr.(pr_taken) = (if pr.(pr_refresh) then 0 else 1);
}.

Lemma refresh_tick_stopped wgEndpoint d public wgPort primary fallback net d' public' out :
  refresh_tick wgEndpoint d public wgPort primary fallback net = Ok (d', public', out) ->
  d'.(d_stopped) = d.(d_stopped).
Proof.
  unfold refresh_tick. intros ([d1 p1] & H1 & [= <- <- <-])%bind_ok. revert H1.
  case_decide; [|by intros [= <- <-]]. intros ([ep nt] & _ & [= H1])%bind_ok. by case_decide; simplify_eq.
Qed.

(** The three statements a service goes through. *)
Lemma phase_close_stop {S X O M E} `{ServiceOk S X O M E} (r r' : runtime S M E) :
  phase r = fresh -> perform AStop r = Some (Ok r') -> phase r' = closing.
Proof.
  unfold phase. intros [= Hs Ho Hc] Hp. rewrite perform_stop in Hp. injection Hp as Hp.
  apply bind_ok in Hp as (s & Hstop & [= <-]). cbn. rewrite Ho.
  destruct (stop_open _ Hs) as (s' & Hs' & Hst). rewrite Hs' in Hstop. injection Hstop as <-. by rewrite Hst.
Qed.

Lemma closing_todo {S X O M E} `{ServiceOk S X O M E} (r : runtime S M E) :
  rt_inv r -> phase r = closing -> r.(rt_todo) = [CloseListener].
Proof.
  intros Hi [= _ _ Hc]. destruct (ri_todo _ Hi) as [Ht|Ht]; [|done]. unfold rt_closing in Hc. by rewrite Ht in Hc.
Qed.

Lemma phase_close_listener {S X O M E} `{ServiceOk S X O M E} (r r' : runtime S M E) :
  rt_inv r -> phase r = closing -> perform AStopNext r = Some (Ok r') -> phase r' = closed.
Proof.
  intros Hi Hph Hp. cbn -[exec_stop] in Hp. rewrite (closing_todo _ Hi Hph) in Hp. injection Hp as <-.
  injection Hph as Hs Ho Hc. unfold phase. cbn. by rewrite Hs.
Qed.

Lemma close_stop_enabled {S X O M E} `{ServiceOk S X O M E} (r : runtime S M E) :
  phase r = fresh -> exists r', perform AStop r = Some (Ok r').
Proof.
  intros [= Hs _ _]. destruct (stop_open _ Hs) as (s' & Hs' & _). rewrite perform_stop. cbn. rewrite Hs'. by eexists.
Qed.

Lemma close_listener_enabled {S X O M E} `{ServiceOk S X O M E} (r : runtime S M E) :
  rt_inv r -> phase r = closing -> exists r', perform AStopNext r = Some (Ok r').
Proof. intros Hi Hph. cbn -[exec_stop]. rewrite (closing_todo _ Hi Hph). by eexists. Qed.

(** What is outside the service's own state, and the loops it counts, are
    independent of it. *)
Lemma with_svc_inv {S X O M E} `{ServiceOk S X O M E} (r : runtime S M E) s es :
  rt_inv r -> svc_stopped s = svc_stopped r.(rt_svc) -> rt_inv (with_svc r s es).
Proof. intros [? ? ? ? ? ? ?] Hs. split; cbn; rewrite ?Hs; auto. Qed.

Lemma with_loops_inv {S X O M E} `{ServiceOk S X O M E} (r : runtime S M E) n :
  rt_inv r -> rt_inv (with_loops r n).
Proof. by intros [? ? ? ? ? ? ?]. Qed.

Lemma fmap_ok_inv {A B} (o : option (result A)) (f : A -> result B) b :
  (fun x => a ← x; f a) <$> o = Some (Ok b) -> exists a, o = Some (Ok a) /\ f a = Ok b.
Proof. destruct o as [[a| |]|]; cbn; [|done..]. intros [= H]. eauto. Qed.

Lemma main_step_inv pr pr' : proc_inv pr -> main_step pr = Some (Ok pr') -> proc_inv pr'.
Proof.
  intros [Hip Hid Hs Hm Ht] H. unfold main_step in H. destruct (pr_main pr) eqn:Hpc; try done;
    apply pair_equal_spec in Hs as [Hpex Hdht]; apply fmap_ok_inv in H as (r & Hr & [= <-]);
    (split; cbn; try done; [by eapply perform_inv|apply pair_equal_spec; (split; [try done|try done])]).
  - by eapply phase_close_stop.
  - by eapply phase_close_listener.
  - by eapply phase_close_stop.
  - by eapply phase_close_listener.
Qed.

Lemma proc_step_inv a pr pr' : proc_inv pr -> proc_step a pr = Some (Ok pr') -> proc_inv pr'.
Proof.
  intros Hi H. unfold proc_step in H. destruct (decide (pr.(pr_main) = Exited)) as [|Hne]; [done|].
  pose proof Hi as [Hip Hid Hs Hm Ht]. destruct a as [| | | |wgEp port prim fb net| |a|a].
  - injection H as <-. by split.
  - destruct (bool_decide _) eqn:Hw; [|done]. apply bool_decide_eq_true in Hw.
    destruct (pr_signal pr); [|done]. injection H as <-. split; cbn; try done. by rewrite Hs, Hw.
  - destruct (pr_refresh pr) eqn:Hr; [|done]. destruct (pr_signal pr); [|done]. injection H as <-.
    split; cbn; try done. intros Hw. by rewrite Ht.
  - injection H as <-. by split.
  - destruct (pr_refresh pr && pr_tick pr); [|done]. injection H as H.
    apply bind_ok in H as ([[d public] out] & Hd%refresh_tick_stopped & [= <-]). split; cbn; try done.
    + by apply with_svc_inv.
    + rewrite <- Hs. unfold phase; cbn. by rewrite Hd.
  - by eapply main_step_inv.
  - destruct (internal a) eqn:Ha; [|done]. apply fmap_ok_inv in H as (r & Hr & [= <-]).
    split; cbn; try done; [by eapply perform_inv|]. by rewrite (internal_phase _ _ _ Ha Hr).
  - destruct (internal a) eqn:Ha; [|done]. apply fmap_ok_inv in H as (r & Hr & [= <-]).
    split; cbn; try done; [by eapply perform_inv|]. by rewrite (internal_phase _ _ _ Ha Hr).
Qed.

Lemma proc_run_ind (P : process -> Prop) (ok : proc_action -> Prop) acts pr pr' :
  (forall a pr pr', ok a -> P pr -> proc_step a pr = Some (Ok pr') -> P pr') ->
  Forall ok acts -> P pr -> proc_run acts pr = Some (Ok pr') -> P pr'.
Proof.
  intros Hstep HF. revert pr. induction HF as [|a acts Ha _ IH]; intros pr HP; cbn; [by intros [= <-]|].
  destruct (proc_step a pr) as [[pr1| |]|] eqn:H1; [|done..]. apply IH. by eapply Hstep.
Qed.

Lemma proc_run_inv acts pr pr' : proc_inv pr -> proc_run acts pr = Some (Ok pr') -> proc_inv pr'.
Proof.
  apply (proc_run_ind proc_inv (fun _ => True)); [|by apply Forall_true].
  intros a p1 p2 _. apply proc_step_inv.
Qed.

(** A daemon that has started can be launched. *)
Lemma launch_started fl env dm relayAddr :
  started fl env dm -> exists pr, launch relayAddr dm = Ok pr /\ proc_inv pr /\
    pr.(pr_main) = Waiting /\ pr.(pr_refresh) = true /\ pr.(pr_signal) = false /\
    pr.(pr_monitor) = bool_decide (relayAddr <> "" /\ dm.(dm_hub) <> "").
Proof.
  intros [_ _ [Hp Hd] _ _ _ (sds & _ & HF & Hhub) _]. unfold launch, start_monitor.
  assert (forall b, proc_inv (mkProcess (with_loops (boot dm.(dm_pex)) 1) (with_loops (boot dm.(dm_dht)) 1)
    dm.(dm_public) false false true b Waiting 0)) as Hi.
  { intros b. split; cbn; try done; [by apply with_loops_inv, boot_inv..|]. unfold phase; cbn. by rewrite Hp, Hd. }
  case_decide as Hm.
  - assert (16 <= String.length dm.(dm_hub)) as Hl.
    { destruct sds as [|sd sds]; rewrite Hhub in *; [by destruct Hm|]. by apply Forall_cons in HF as [? _]. }
    rewrite slice_to_take by done. cbn. eexists. split; [done|]. rewrite bool_decide_eq_true_2 by done. auto.
  - cbn. eexists. split; [done|]. rewrite bool_decide_eq_false_2 by done. auto.
Qed.

(** Statements [main] still has to run. *)
Definition statements_left (pc : main_pc) : nat :=
  match pc with Waiting => 5 | PexStop => 4 | PexClose => 3 | DhtStop => 2 | DhtClose => 1 | Exited => 0 end.

Lemma main_step_enabled pr :
  proc_inv pr -> pr.(pr_main) <> Waiting -> pr.(pr_main) <> Exited ->
  exists pr', main_step pr = Some (Ok pr') /\
    statements_left pr.(pr_main) = S (statements_left pr'.(pr_main)) /\ pr'.(pr_main) <> Waiting.
Proof.
  intros [Hip Hid Hs _ _] Hw He. unfold main_step. destruct (pr_main pr); try done;
    apply pair_equal_spec in Hs as [Hpex Hdht].
  - destruct (close_stop_enabled _ Hpex) as (r & Hr). rewrite Hr. by eexists.
  - destruct (close_listener_enabled _ Hip Hpex) as (r & Hr). rewrite Hr. by eexists.
  - destruct (close_stop_enabled _ Hdht) as (r & Hr). rewrite Hr. by eexists.
  - destruct (close_listener_enabled _ Hid Hdht) as (r & Hr). rewrite Hr. by eexists.
Qed.

Lemma main_finishes n pr :
  proc_inv pr -> pr.(pr_main) <> Waiting -> statements_left pr.(pr_main) = n ->
  exists pr', proc_run (replicate n PMain) pr = Some (Ok pr') /\ pr'.(pr_main) = Exited.
Proof.
  revert pr. induction n as [|n IH]; intros pr Hi Hw Hn.
  - exists pr. split; [done|]. by destruct (pr_main pr).
  - destruct (main_step_enabled pr Hi Hw) as (pr1 & H1 & Hl & Hw1); [by intros He; rewrite He in Hn|].
    destruct (IH pr1) as (pr' & Hr & He); [by eapply main_step_inv|done|lia|].
    exists pr'. split; [|done]. cbn [replicate proc_run]. unfold proc_step.
    rewrite decide_False by (intros He'; by rewrite He' in Hn). by rewrite H1.
Qed.

Context {W : Type} {host : Host W}.

(** C14: Under every schedule of the running daemon: while main waits both services run;
    once it has received a signal it reaches its end in at most four more statements,
    none of which panics, with both stop channels and listeners closed, each once, and
    the monitor's context cancelled. *)
Theorem shutdown_clean (fl : flags) (env : boot_env) (cl : Client) (relayAddr : string) (w w' : W) (dm : daemon) :
  startup fl env cl w = Ok (Some dm, w') ->
  exists pr0, launch relayAddr dm = Ok pr0 /\
  forall acts pr, proc_run acts pr0 = Some (Ok pr) ->
    (pr.(pr_main) = Waiting -> phase pr.(pr_pex) = fresh /\ phase pr.(pr_dht) = fresh) /\
    (pr.(pr_main) <> Waiting ->
       exists pr', proc_run (replicate (statements_left pr.(pr_main)) PMain) pr = Some (Ok pr') /\
         pr'.(pr_main) = Exited /\ phase pr'.(pr_pex) = closed /\ phase pr'.(pr_dht) = closed /\
         pr'.(pr_monitor) = false).
Proof.
  intros Hst%startup_started. destruct (launch_started _ _ _ relayAddr Hst) as (pr0 & Hl & Hi & _).
  exists pr0. split; [done|]. intros acts pr Hr. apply (proc_run_inv _ _ _ Hi) in Hr. split.
  - intros Hw. destruct Hr as [_ _ Hs _ _]. rewrite Hw in Hs. by apply pair_equal_spec in Hs.
  - intros Hw. destruct (main_finishes _ pr Hr Hw eq_refl) as (pr' & Hr' & He). exists pr'.
    apply (proc_run_inv _ _ _ Hr) in Hr' as Hi'. destruct Hi' as [_ _ Hs Hm _]. rewrite He in Hs.
    apply pair_equal_spec in Hs as [??]. split_and!; auto.
Qed.

(** Nothing but a signal, or its receipt, touches the channel. *)
Lemma waiting_signal a pr pr' :
  proc_step a pr = Some (Ok pr') -> pr'.(pr_main) = Waiting ->
  pr.(pr_main) = Waiting /\
  (pr.(pr_refresh) = false -> pr'.(pr_refresh) = false /\ (pr.(pr_signal) = true -> pr'.(pr_signal) = true)) /\
  (a <> PSignal -> pr.(pr_signal) = false -> pr'.(pr_signal) = false).
Proof.
  unfold proc_step. case_decide; [done|]. destruct a as [| | | |wgEp port prim fb net| |a|a]; intros Hp Hw.
  - injection Hp as <-. done.
  - destruct (bool_decide _); [|done]. destruct (pr_signal pr); [|done]. by injection Hp as <-.
  - destruct (pr_refresh pr) eqn:Hf; [|done]. destruct (pr_signal pr); [|done]. by injection Hp as <-.
  - injection Hp as <-. done.
  - destruct (pr_refresh pr && pr_tick pr) eqn:Hf; [|done]. injection Hp as Hp.
    apply bind_ok in Hp as ([[d public] out] & _ & [= <-]). done.
  - unfold main_step in Hp. destruct (pr_main pr); try done; apply fmap_ok_inv in Hp as (r & _ & [= <-]); done.
  - destruct (internal a); [|done]. apply fmap_ok_inv in Hp as (r & _ & [= <-]). done.
  - destruct (internal a); [|done]. apply fmap_ok_inv in Hp as (r & _ & [= <-]). done.
Qed.

(** Once the refresh goroutine has returned, a signal stays for [main]. *)
Lemma signal_stays acts pr pr' :
  pr.(pr_refresh) = false -> pr.(pr_signal) = true -> proc_run acts pr = Some (Ok pr') ->
  pr'.(pr_main) = Waiting -> pr'.(pr_signal) = true.
Proof.
  revert pr. induction acts as [|a acts IH]; intros pr Hf Hs; cbn; [by intros [= <-]|].
  destruct (proc_step a pr) as [[pr1| |]|] eqn:H1; [|done..]. intros Hr Hw.
  assert (pr1.(pr_main) = Waiting) as Hw1.
  { clear -Hr Hw. revert pr1 Hr. induction acts as [|b acts IH]; intros pr1; cbn; [by intros [= <-]|].
    destruct (proc_step b pr1) as [[pr2| |]|] eqn:H2; [|done..]. intros Hr. by apply (waiting_signal _ _ _ H2), IH. }
  destruct (waiting_signal _ _ _ H1 Hw1) as (_ & H & _). destruct (H Hf) as [Hf1 Hs1]. eauto.
Qed.

(** A signal after the first receipt gets to [main]. *)
Lemma second_signal_stops (fl : flags) (env : boot_env) (cl : Client) (relayAddr : string) (w w' : W)
    (dm : daemon) pr0 acts pr :
  startup fl env cl w = Ok (Some dm, w') -> launch relayAddr dm = Ok pr0 ->
  proc_run acts pr0 = Some (Ok pr) -> pr.(pr_main) = Waiting ->
  pr.(pr_taken) = (if pr.(pr_refresh) then 0 else 1) /\
  (pr.(pr_taken) = 1 -> forall acts' pr', proc_run (PSignal :: acts') pr = Some (Ok pr') ->
     pr'.(pr_main) = Waiting ->
     exists pr2, proc_step PMainReceive pr' = Some (Ok pr2) /\ pr2.(pr_main) = PexStop).
Proof.
  intros Hst%startup_started Hl Hr Hw. destruct (launch_started _ _ _ relayAddr Hst) as (pr1 & Hl1 & Hi & _).
  rewrite Hl in Hl1. injection Hl1 as <-. apply (proc_run_inv _ _ _ Hi) in Hr as [_ _ _ _ Ht].
  split; [auto|]. intros H1 acts' pr' Hr' Hw'. rewrite (Ht Hw) in H1.
  assert (pr'.(pr_signal) = true) as Hs.
  { cbn [proc_run] in Hr'. unfold proc_step at 1 in Hr'. rewrite decide_False in Hr' by (by rewrite Hw).
    apply (signal_stays acts' (with_signal pr true)); [|done..]. cbn. by destruct (pr_refresh pr). }
  unfold proc_step. rewrite decide_False, bool_decide_eq_true_2, Hs by (done || by rewrite Hw'). by eexists.
Qed.

(** The refresh goroutine may take the only signal. *)
Lemma first_signal_may_be_lost (fl : flags) (env : boot_env) (cl : Client) (relayAddr : string) (w w' : W)
    (dm : daemon) :
  startup fl env cl w = Ok (Some dm, w') ->
  exists pr0 pr, launch relayAddr dm = Ok pr0 /\
    proc_run [PSignal; PRefreshReceive] pr0 = Some (Ok pr) /\ pr.(pr_taken) = 1 /\
    forall acts pr', Forall (fun a => a <> PSignal) acts -> proc_run acts pr = Some (Ok pr') ->
      pr'.(pr_main) = Waiting /\ proc_step PMainReceive pr' = None.
Proof.
  intros Hst%startup_started.
  destruct (launch_started _ _ _ relayAddr Hst) as (pr0 & Hl & Hi & Hm & Hf & Hs & _).
  assert (proc_run [PSignal; PRefreshReceive] pr0 = Some (Ok (mkProcess pr0.(pr_pex) pr0.(pr_dht) pr0.(pr_public)
    false pr0.(pr_tick) false pr0.(pr_monitor) pr0.(pr_main) (S pr0.(pr_taken))))) as Hr.
  { cbn [proc_run]. unfold proc_step. rewrite decide_False by (by rewrite Hm). cbn.
    rewrite decide_False by (by rewrite Hm). by rewrite Hf. }
  eexists pr0, _. split; [done|]. split; [exact Hr|]. apply (proc_run_inv _ _ _ Hi) in Hr as [_ _ _ _ Ht].
  split; [by apply Ht|]. intros acts pr' HF Hrun.
  assert (pr'.(pr_main) = Waiting /\ pr'.(pr_signal) = false) as [Hw Hn].
  { revert Hrun. apply (proc_run_ind (fun p => p.(pr_main) = Waiting /\ p.(pr_signal) = false) (fun a => a <> PSignal));
      [|done|by split].
    clear. intros a pr pr' Ha [Hw Hs] Hp. assert (pr'.(pr_main) = Waiting) as Hw'.
    { unfold proc_step in Hp. rewrite decide_False in Hp by (by rewrite Hw).
      destruct a as [| | | |wgEp port prim fb net| |a|a].
      - by injection Hp as <-.
      - rewrite Hs, andb_false_r in Hp. done.
      - rewrite Hs, andb_false_r in Hp. done.
      - by injection Hp as <-.
      - destruct (_ && _); [|done]. injection Hp as Hp.
        by apply bind_ok in Hp as ([[d public] out] & _ & [= <-]).
      - unfold main_step in Hp. by rewrite Hw in Hp.
      - destruct (internal a); [|done]. by apply fmap_ok_inv in Hp as (r & _ & [= <-]).
      - destruct (internal a); [|done]. by apply fmap_ok_inv in Hp as (r & _ & [= <-]). }
    split; [done|]. by eapply waiting_signal. }
  split; [done|]. unfold proc_step. rewrite decide_False by (by rewrite Hw). by rewrite Hn, andb_false_r.
Qed.

(** C8: A single signal may be taken by the refresh goroutine, and then main waits forever
    unless another one comes; once one was taken, a further signal stays in the channel
    until main receives it and starts the shutdown. *)
Theorem signal_shutdown (fl : flags) (env : boot_env) (cl : Client) (relayAddr : string) (w w' : W) (dm : daemon) :
  startup fl env cl w = Ok (Some dm, w') ->
  exists pr0, launch relayAddr dm = Ok pr0 /\
  (exists pr, proc_run [PSignal; PRefreshReceive] pr0 = Some (Ok pr) /\
     forall acts pr', Forall (fun a => a <> PSignal) acts -> proc_run acts pr = Some (Ok pr') ->
       pr'.(pr_main) = Waiting /\ proc_step PMainReceive pr' = None) /\
  (forall acts pr acts' pr', proc_run acts pr0 = Some (Ok pr) -> pr.(pr_main) = Waiting ->
     pr.(pr_taken) <= 1 /\
     (pr.(pr_taken) = 1 -> proc_run (PSignal :: acts') pr = Some (Ok pr') -> pr'.(pr_main) = Waiting ->
        exists pr2, proc_step PMainReceive pr' = Some (Ok pr2) /\ pr2.(pr_main) = PexStop)).
Proof.
  intros Hst. destruct (first_signal_may_be_lost _ _ _ relayAddr _ _ _ Hst) as (pr0 & pr & Hl & Hr & _ & Hlost).
  exists pr0. split; [done|]. split; [eauto|]. intros acts pr1 acts' pr1' Hr1 Hw.
  destruct (second_signal_stops _ _ _ _ _ _ _ _ _ _ Hst Hl Hr1 Hw) as [Ht H2].
  split; [rewrite Ht; destruct (pr_refresh pr1); lia|]. eauto.
Qed.
End shutdown.
