(* ===== verification/Main.v ===== *)
(** * The command line and [main]

    The flags of the daemon ([main.go], [main]), the values the rest of [main]
    reads from them, and [main] from the arguments of the process to the point
    where it waits for a signal. *)

From S2P Require Import Prelude GoStrings GoFlag GoSort Node NodeInv Host Uapi UapiProps MeshState Pex.
From S2P Require Import Scan Args Monitor Daemon DaemonProps Punch Service Listeners Loops Shutdown.
Local Open Scope Z_scope.

Definition minute : Z := 60 * second.

(** The flags with their defaults. *)
Definition main_flags : flag_set :=
  list_to_map [
    ("public-key", VString "");
    ("mesh-port", VInt 51821);
    ("stun", VString "stun.miwifi.com:3478");
    ("seed", VString "");
    ("vps", VString "");
    ("interface", VString "wg0");
    ("wg-endpoint", VString "");
    ("relay", VString "");
    ("hub-intra-ip", VString "");
    ("handshake-timeout", VDuration (2 * minute));
    ("handshake-interval", VDuration (15 * second));
    ("restore-interval", VDuration (5 * minute));
    ("blind-scan", VBool true);
    ("blind-scan-ports", VInt 65535);
    ("blind-scan-rate", VInt 230);
    ("blind-scan-budget", VDuration (330 * second));
    ("sync-punch", VBool false);
    ("sync-punch-window", VDuration (500 * ms));
    ("sync-punch-lead", VDuration (750 * ms))].

(** The variables of [main] behind the flags. *)
Record options := mkOptions {
  o_publicKey : string;
  o_meshPort : Z;
  o_stunAddr : string;
  o_seedPeers : string;
  o_vpsAddr : string;
  o_interfaceName : string;
  o_wgEndpoint : string;
  o_relayAddr : string;
  o_hubIntraIP : string;
  o_hsTimeout : Z;
  o_hsInterval : Z;
  o_restoreIntv : Z;
  o_blindScan : bool;
  o_blindScanPorts : Z;
  o_blindScanRate : Z;
  o_blindScanBudget : Z;
  o_syncPunch : bool;
  o_syncPunchWindow : Z;
  o_syncPunchLead : Z;
}.

(** The pointers [flag.String], [flag.Int], [flag.Bool] and [flag.Duration]
    return, read after [flag.Parse]. *)
Definition string_flag (fs : flag_set) (n : string) : string :=
  match fs !! n with Some (VString s) => s | _ => "" end.
Definition int_flag (fs : flag_set) (n : string) : Z :=
  match fs !! n with Some (VInt z) => z | _ => 0 end.
Definition bool_flag (fs : flag_set) (n : string) : bool :=
  match fs !! n with Some (VBool b) => b | _ => false end.
Definition duration_flag (fs : flag_set) (n : string) : Z :=
  match fs !! n with Some (VDuration d) => d | _ => 0 end.

Definition options_of (fs : flag_set) : options := {|
  o_publicKey := string_flag fs "public-key";
  o_meshPort := int_flag fs "mesh-port";
  o_stunAddr := string_flag fs "stun";
  o_seedPeers := string_flag fs "seed";
  o_vpsAddr := string_flag fs "vps";
  o_interfaceName := string_flag fs "interface";
  o_wgEndpoint := string_flag fs "wg-endpoint";
  o_relayAddr := string_flag fs "relay";
  o_hubIntraIP := string_flag fs "hub-intra-ip";
  o_hsTimeout := duration_flag fs "handshake-timeout";
  o_hsInterval := duration_flag fs "handshake-interval";
  o_restoreIntv := duration_flag fs "restore-interval";
  o_blindScan := bool_flag fs "blind-scan";
  o_blindScanPorts := int_flag fs "blind-scan-ports";
  o_blindScanRate := int_flag fs "blind-scan-rate";
  o_blindScanBudget := duration_flag fs "blind-scan-budget";
  o_syncPunch := bool_flag fs "sync-punch";
  o_syncPunchWindow := duration_flag fs "sync-punch-window";
  o_syncPunchLead := duration_flag fs "sync-punch-lead";
|}.

Definition start_flags (o : options) : flags :=
  mkFlags o.(o_publicKey) o.(o_meshPort) o.(o_seedPeers) o.(o_vpsAddr) o.(o_interfaceName)
    o.(o_wgEndpoint) o.(o_hubIntraIP).

(** The arguments of [go runHandshakeMonitor(...)]: its parameters and the
    interval of its ticker. *)
Definition monitor_args (o : options) (cl : Client) (hub : string) : mon_cfg * Z :=
  (mkMonCfg cl hub o.(o_hsTimeout) o.(o_restoreIntv) o.(o_blindScan) o.(o_blindScanPorts)
     o.(o_blindScanRate) o.(o_blindScanBudget), o.(o_hsInterval)).

(** The arguments of [go scheduleHubPunch(...)], if it is started: the own
    key, the window and the lead. *)
Definition punch_args (o : options) : option (string * Z * Z) :=
  if decide (o.(o_syncPunch) = true /\ o.(o_interfaceName) = "wg0")
  then Some (o.(o_publicKey), o.(o_syncPunchWindow), o.(o_syncPunchLead))
  else None.

(** The process at [<-sigCh], with the arguments of the goroutines that were
    started beside the services. *)
Record running := mkRunning {
  rn_process : process;
  rn_monitor : option (mon_cfg * Z);
  rn_punch : option (string * Z * Z);
}.

Inductive outcome := Exit (code : Z) | Serving (r : running).

Section main.
Context {W : Type} {host : Host W} {sort : SliceSort}.
(** The machine: operating system, home directory and files; and what the
    network does for a given STUN server. *)
Context (goos home : string) (exists_file : string -> bool) (env : string -> boot_env).

(** [main] after [flag.Parse()]. *)
Definition run_main (o : options) : io W outcome :=
  let cl := NewClient goos home exists_file o.(o_interfaceName) in
  r ← startup (start_flags o) (env o.(o_stunAddr)) cl;
  match r with
  | None => mret (Exit 1)
  | Some dm =>
      pr ← lift (launch o.(o_relayAddr) dm);
      mret (Serving (mkRunning pr (if pr.(pr_monitor) then Some (monitor_args o cl dm.(dm_hub)) else None)
                       (punch_args o)))
  end.

Definition main (args : list string) : io W outcome :=
  parsed ← lift (parse_args main_flags args);
  match parsed with
  | inl e => mret (Exit (exit_code e))
  | inr (fs, _) => run_main (options_of fs)
  end.
End main.

(** ** What the command line promises *)

(** The daemon without arguments. *)
Definition default_options : options := {|
  o_publicKey := ""; o_meshPort := 51821; o_stunAddr := "stun.miwifi.com:3478"; o_seedPeers := "";
  o_vpsAddr := ""; o_interfaceName := "wg0"; o_wgEndpoint := ""; o_relayAddr := ""; o_hubIntraIP := "";
  o_hsTimeout := 120000000000; o_hsInterval := 15000000000; o_restoreIntv := 300000000000;
  o_blindScan := true; o_blindScanPorts := 65535; o_blindScanRate := 230; o_blindScanBudget := 330000000000;
  o_syncPunch := false; o_syncPunchWindow := 500000000; o_syncPunchLead := 750000000 |}.

(** The options under the names the user writes. *)
Definition named_options (o : options) : list (string * flag_val) := [
  ("public-key", VString o.(o_publicKey)); ("mesh-port", VInt o.(o_meshPort)); ("stun", VString o.(o_stunAddr));
  ("seed", VString o.(o_seedPeers)); ("vps", VString o.(o_vpsAddr)); ("interface", VString o.(o_interfaceName));
  ("wg-endpoint", VString o.(o_wgEndpoint)); ("relay", VString o.(o_relayAddr));
  ("hub-intra-ip", VString o.(o_hubIntraIP)); ("handshake-timeout", VDuration o.(o_hsTimeout));
  ("handshake-interval", VDuration o.(o_hsInterval)); ("restore-interval", VDuration o.(o_restoreIntv));
  ("blind-scan", VBool o.(o_blindScan)); ("blind-scan-ports", VInt o.(o_blindScanPorts));
  ("blind-scan-rate", VInt o.(o_blindScanRate)); ("blind-scan-budget", VDuration o.(o_blindScanBudget));
  ("sync-punch", VBool o.(o_syncPunch)); ("sync-punch-window", VDuration o.(o_syncPunchWindow));
  ("sync-punch-lead", VDuration o.(o_syncPunchLead))].

(** An assignment of an option to a value of its type. *)
Definition typed_assignment (a : assignment) : Prop :=
  exists v, (a.(as_name), v) ∈ named_options default_options /\ same_type v a.(as_value).

(** The value of an option after a list of assignments: the last one wins. *)
Definition assigned (asg : list assignment) (nd : string * flag_val) : string * flag_val :=
  (nd.1, foldl (fun v a => if decide (a.(as_name) = nd.1) then a.(as_value) else v) nd.2 asg).

Example some_command_lines :
  let parse args := r ← parse_args main_flags args; Ok (sum_map id (fun p => options_of p.1) r) in
  (exists o, parse ["-seed"; "a@b:1"; "--sync-punch"; "-mesh-port=0x10"; "rest"; "-vps=x"] = Ok (inr o) /\
     o.(o_seedPeers) = "a@b:1" /\ o.(o_syncPunch) = true /\ o.(o_meshPort) = 16 /\ o.(o_vpsAddr) = "") /\
  parse ["-blind-scan=no"] = Ok (inl (InvalidValue "blind-scan" "no")) /\
  parse ["-handshake-timeout=90"] = Ok (inl (InvalidValue "handshake-timeout" "90")) /\
  parse ["-publickey=x"] = Ok (inl (NotDefined "publickey")) /\
  parse ["-h"] = Ok (inl HelpRequested) /\ parse ["---seed"] = Ok (inl (BadSyntax "---seed")) /\
  parse ["-seed"] = Ok (inl (NeedsArgument "seed")).
Proof. vm_compute. split_and!; [eexists; split_and!; reflexivity|reflexivity..]. Qed.

(** ** Lemmas *)

(** Every flag can be written on the command line. *)
Lemma main_flags_names n v : main_flags !! n = Some v -> good_name n = true.
Proof.
  intros H. assert (map_Forall (fun n _ => good_name n = true) main_flags) as Hall; [|exact (Hall _ _ H)].
  apply (bool_decide_eq_true_1 (map_Forall _ _)). vm_compute. reflexivity.
Qed.

(** The flags are the named options with their defaults. *)
Lemma main_flags_defaults :
  Forall (fun nd => main_flags !! nd.1 = Some nd.2 /\ same_type nd.2 nd.2) (named_options default_options).
Proof.
  repeat (apply Forall_cons_2; [split; [vm_compute; reflexivity|vm_compute; repeat split; discriminate]|]).
  apply Forall_nil_2.
Qed.

Lemma typed_assignable a : typed_assignment a -> assignable main_flags a.
Proof.
  intros (v & Hv & Ht). pose proof main_flags_defaults as HF. rewrite Forall_forall in HF.
  destruct (HF _ Hv) as [Hm _]. split; [by eapply main_flags_names|eauto].
Qed.

Lemma assign_lookup fs asg n d :
  fs !! n = Some d -> assign fs asg !! n = Some (assigned asg (n, d)).2.
Proof.
  revert fs d. induction asg as [|a asg IH]; intros fs d Hn; [done|].
  unfold assign, assigned. cbn [foldl fst snd]. apply (IH (<[as_name a := as_value a]> fs)).
  case_decide as E; [by rewrite E, lookup_insert_eq|by rewrite lookup_insert_ne].
Qed.

Lemma assigned_type asg n d :
  Forall typed_assignment asg -> main_flags !! n = Some d -> same_type d d -> same_type d (assigned asg (n, d)).2.
Proof.
  intros HF Hn Hd. unfold assigned; cbn [fst snd].
  assert (forall v, same_type d v -> same_type d
    (foldl (fun v a => if decide (as_name a = n) then as_value a else v) v asg)) as Hgen; [|by apply Hgen].
  induction HF as [|a asg Ha _ IH]; intros v Hv; [done|]. cbn [foldl]. apply IH. case_decide as E; [|done].
  destruct (typed_assignable _ Ha) as [_ (v' & Hv' & Ht)]. rewrite E, Hn in Hv'. by injection Hv' as <-.
Qed.

(** Reading a flag at the type of its default. *)
Definition read_flag (fs : flag_set) (nd : string * flag_val) : string * flag_val :=
  (nd.1, match nd.2 with
         | VString _ => VString (string_flag fs nd.1)
         | VInt _ => VInt (int_flag fs nd.1)
         | VBool _ => VBool (bool_flag fs nd.1)
         | VDuration _ => VDuration (duration_flag fs nd.1)
         end).

Lemma options_read fs : named_options (options_of fs) = read_flag fs <$> named_options default_options.
Proof. reflexivity. Qed.

Lemma options_assigned asg :
  Forall typed_assignment asg ->
  named_options (options_of (assign main_flags asg)) = assigned asg <$> named_options default_options.
Proof.
  intros HF. rewrite options_read. apply list_fmap_ext. intros i [n d] Hi%list_elem_of_lookup_2.
  pose proof main_flags_defaults as Hd. rewrite Forall_forall in Hd. destruct (Hd _ Hi) as [Hn Ht]; cbn [fst snd] in *.
  pose proof (assign_lookup _ asg _ _ Hn) as Hl. pose proof (assigned_type asg n d HF Hn Ht) as Hty.
  unfold read_flag, string_flag, int_flag, bool_flag, duration_flag; cbn [fst snd]. rewrite Hl.
  change (assigned asg (n, d)) with (n, (assigned asg (n, d)).2) at 5. f_equal.
  by destruct d, (assigned asg _).2.
Qed.

(** The numbers of the options are 64-bit integers. *)
Definition option_numbers (o : options) : list Z :=
  [o.(o_meshPort); o.(o_hsTimeout); o.(o_hsInterval); o.(o_restoreIntv); o.(o_blindScanPorts);
   o.(o_blindScanRate); o.(o_blindScanBudget); o.(o_syncPunchWindow); o.(o_syncPunchLead)].

Definition number_ok (v : flag_val) : bool :=
  match v with
  | VInt n | VDuration n => bool_decide (int64_range n)
  | _ => true
  end.

Lemma kept_number v v' : number_ok v = true -> kept v v' -> number_ok v' = true.
Proof.
  intros Hv [->|H]; [done|]. destruct v, v'; cbn in *; try done; by apply bool_decide_eq_true.
Qed.

Lemma keeps_numbers fs n v : keeps main_flags fs -> fs !! n = Some v -> number_ok v = true.
Proof.
  intros Hk Hv. specialize (Hk n). rewrite Hv in Hk. inversion Hk as [v0 ? Hkv Hm|]; subst.
  eapply kept_number; [|exact Hkv].
  assert (map_Forall (fun _ v => number_ok v = true) main_flags) as Hall; [|by eapply Hall].
  apply (bool_decide_eq_true_1 (map_Forall _ _)). vm_compute. reflexivity.
Qed.

Lemma int64_zero : int64_range 0.
Proof. unfold int64_range, min_int64, max_int64. lia. Qed.

Lemma int_flag_range fs n : keeps main_flags fs -> int64_range (int_flag fs n).
Proof.
  intros Hk. unfold int_flag. destruct (fs !! n) as [[]|] eqn:Hn; try exact int64_zero.
  by apply (keeps_numbers _ _ _ Hk), bool_decide_eq_true in Hn.
Qed.

Lemma duration_flag_range fs n : keeps main_flags fs -> int64_range (duration_flag fs n).
Proof.
  intros Hk. unfold duration_flag. destruct (fs !! n) as [[]|] eqn:Hn; try exact int64_zero.
  by apply (keeps_numbers _ _ _ Hk), bool_decide_eq_true in Hn.
Qed.

Lemma options_numbers fs : keeps main_flags fs -> Forall int64_range (option_numbers (options_of fs)).
Proof.
  intros Hk. pose proof (fun n => int_flag_range fs n Hk). pose proof (fun n => duration_flag_range fs n Hk).
  unfold option_numbers, options_of; cbn [o_meshPort o_hsTimeout o_hsInterval o_restoreIntv o_blindScanPorts
    o_blindScanRate o_blindScanBudget o_syncPunchWindow o_syncPunchLead].
  by repeat (apply Forall_cons_2; [done|]); apply Forall_nil_2.
Qed.

Section main_props.
Context {W : Type} {host : Host W} {sort : SliceSort}.
Context (goos home : string) (exists_file : string -> bool) (env : string -> boot_env).
Notation main := (main goos home exists_file env).
Notation run_main := (run_main goos home exists_file env).

Lemma main_parsed args fs rest (w : W) :
  parse_args main_flags args = Ok (inr (fs, rest)) -> main args w = run_main (options_of fs) w.
Proof. intros H. unfold Main.main, lift, mbind, io_bind. by rewrite H. Qed.

(** C39: A command line that assigns options under their names values of their types, in any
    order, each with one dash or two and its value joined or in the next argument, runs
    main with the options it says: the last assignment of an option wins, the others
    have the default of a literal table, and what follows the first argument that is no
    flag is ignored. *)
Theorem command_line_roundtrip (asg : list assignment) (rest : list string) (w : W) :
  Forall typed_assignment asg ->
  match rest with [] => True | a :: _ => classify a = NoFlag end ->
  exists o, named_options o = assigned asg <$> named_options default_options /\
    main (concat (render <$> asg) ++ rest) w = run_main o w.
Proof.
  intros Hty Hrest. exists (options_of (assign main_flags asg)). split; [by apply options_assigned|].
  apply (main_parsed _ _ rest). rewrite parse_rendered; [by destruct rest as [|a rest]; cbn; [|rewrite Hrest]|].
  eapply Forall_impl; [done|]. exact typed_assignable.
Qed.

(** C16: Every command line is either refused, with exit status 0 for help and 2 for an
    error and nothing done, or parsed into options whose numbers are 64-bit integers,
    with which main goes on; without a public key it then exits with status 1, before it
    touches WireGuard or the network. *)
Theorem main_command_line (args : list string) (w : W) :
  (exists e, parse_args main_flags args = Ok (inl e) /\ main args w = Ok (Exit (exit_code e), w)) \/
  (exists fs rest, parse_args main_flags args = Ok (inr (fs, rest)) /\
     Forall int64_range (option_numbers (options_of fs)) /\
     main args w = run_main (options_of fs) w /\
     ((options_of fs).(o_publicKey) = "" -> main args w = Ok (Exit 1, w))).
Proof.
  destruct (parse_args_spec args main_flags) as ([e|[fs rest]] & Hp & Hk).
  - left. exists e. split; [done|]. unfold Main.main, lift, mbind, io_bind. by rewrite Hp.
  - right. exists fs, rest. split; [done|]. split; [by eapply options_numbers, Hk|].
    rewrite (main_parsed _ _ _ w Hp). split; [done|]. intros Hpk.
    unfold Main.run_main, startup, start_flags. cbn [f_publicKey]. unfold mbind, io_bind.
    by rewrite decide_True.
Qed.

Lemma startup_long_key fl benv cl (w w' : W) dm :
  startup fl benv cl w = Ok (Some dm, w') -> (16 <= String.length fl.(f_publicKey))%nat.
Proof.
  unfold startup. case_decide; [done|]. intros (x & w1 & Hx & _)%io_bind_ok.
  by apply lift_ok, slice_to_inv in Hx.
Qed.

(** C15: When main gets to waiting for a signal, the command line parsed, the key has at
    least 16 characters and the exchange port was bound; both services run, the exchange
    is started, the DHT node is well formed and has the configured key; all seed keys
    have at least 16 characters; the handshake monitor runs exactly if a relay and a
    seed are given, for the first seed's key and with the parameters of its flags; the
    punch scheduler runs exactly with --sync-punch on wg0. *)
Theorem main_serving (args : list string) (r : running) (w w' : W) :
  main args w = Ok (Serving r, w') ->
  exists fs rest sds, parse_args main_flags args = Ok (inr (fs, rest)) /\
    let o := options_of fs in
    (16 <= String.length o.(o_publicKey))%nat /\ (env o.(o_stunAddr)).(be_pex) = true /\
    parse_seeds o.(o_seedPeers) = Ok sds /\ Forall (fun sd => (16 <= String.length sd.1)%nat) sds /\
    r.(rn_process).(pr_main) = Waiting /\
    phase r.(rn_process).(pr_pex) = fresh /\ phase r.(rn_process).(pr_dht) = fresh /\
    r.(rn_process).(pr_pex).(rt_svc).(p_started) = true /\
    node_wf r.(rn_process).(pr_dht).(rt_svc) /\
    r.(rn_process).(pr_dht).(rt_svc).(d_publicKey) = o.(o_publicKey) /\
    r.(rn_monitor) =
      match sds with
      | sd :: _ => if decide (o.(o_relayAddr) = "") then None
                   else Some (monitor_args o (NewClient goos home exists_file o.(o_interfaceName)) sd.1)
      | [] => None
      end /\
    r.(rn_punch) = punch_args o.
Proof.
  intros Hm. destruct (parse_args_spec args main_flags) as ([e|[fs rest]] & Hp & Hk).
  { unfold Main.main, lift, mbind, io_bind in Hm. by rewrite Hp in Hm. }
  rewrite (main_parsed _ _ _ w Hp) in Hm. unfold Main.run_main in Hm.
  apply io_bind_ok in Hm as ([dm|] & w1 & Hs & Hm); [|done].
  apply io_bind_ok in Hm as (pr & w2 & Hl%lift_ok & Hm). injection Hm as <- <-. cbn [rn_process rn_monitor rn_punch].
  pose proof (startup_long_key _ _ _ _ _ _ Hs) as Hlong. apply startup_started in Hs.
  destruct (launch_started _ _ _ (o_relayAddr (options_of fs)) Hs) as (pr' & Hl' & [_ _ Hph _ _] & Hw & _ & _ & Hmon).
  rewrite Hl in Hl'. injection Hl' as <-. rewrite Hw in Hph. apply pair_equal_spec in Hph as [Hpex Hdht].
  destruct Hs as [Hbe Hst _ Hwf Hkey _ (sds & Hsds & HF & Hhub) _].
  exists fs, rest, sds. split; [done|]. cbn zeta. unfold launch in Hl. apply bind_ok in Hl as (b & _ & [= <-]).
  split_and!; try done. cbn [pr_monitor] in Hmon |- *. rewrite Hmon, Hhub. clear -HF. destruct sds as [|sd sds].
  - rewrite bool_decide_eq_false_2; [done|]. by intros [_ ?].
  - apply Forall_cons in HF as [Hsd _]. case_decide as Hr.
    + rewrite bool_decide_eq_false_2; [done|]. by intros [? _].
    + rewrite bool_decide_eq_true_2; [done|]. split; [done|]. intros E. rewrite E in Hsd. cbn in Hsd. lia.
Qed.
End main_props.
