(* ===== verification/Mesh.v ===== *)
(** * A mesh of DHT nodes

    Any number of nodes that all run this program, joined by a network that
    may delay, cut and reorder: a connection delivers a prefix of what was
    written to it.  [ms_dialled] are the streams nodes wrote on connections
    they dialled, [ms_replies] what they wrote on connections they accepted,
    [ms_log] the events their handlers caused. *)

From S2P Require Import Prelude.
From S2P Require Import GoBytes GoNet GoSort Table TableInv TableConc Closest Node NodeInv NodeProps.
From S2P Require Import Punch PunchProps.

Notation stream := (list (frame DhtMessage)).

Record mesh := mkMesh {
  ms_nodes : gmap nat DHT;
  ms_dialled : list stream;
  ms_replies : list stream;
  ms_log : list (nat * event);
}.

Definition empty_mesh : mesh := mkMesh ∅ [] [] [].

(** Where the frames of a punch plan go. *)
Definition to_dialled (out : list (destination * stream)) : list stream :=
  omap (fun o => match o.1 with OnDial _ => Some o.2 | OnConn _ => None end) out.
Definition to_replies (out : list (destination * stream)) : list stream :=
  omap (fun o => match o.1 with OnConn _ => Some o.2 | OnDial _ => None end) out.

(** What a handler writes on the connection it serves. *)
Definition answers (evs : list event) : list stream :=
  omap (fun e => match e with EvWrite _ fs => Some fs | _ => None end) evs.

Section mesh.
Context {sort : SliceSort}.
(** The seeds each node is configured with. *)
Context (seeds : nat -> list Contact).

Inductive mesh_step (m : mesh) : mesh -> Prop :=
  | mesh_new i listen pk port ep d :
      m.(ms_nodes) !! i = None -> NewDHT listen pk port ep = Some d ->
      mesh_step m (mkMesh (<[i := d]> m.(ms_nodes)) m.(ms_dialled) m.(ms_replies) m.(ms_log))
  | mesh_set i d d' :
      m.(ms_nodes) !! i = Some d ->
      (exists ep, d' = SetPublicEndpoint d ep) \/ d' = SetPeerCallback d \/ d' = SetPunchPlanCallback d \/
        (exists f, d' = SetObservedEndpoint d f) ->
      mesh_step m (mkMesh (<[i := d']> m.(ms_nodes)) m.(ms_dialled) m.(ms_replies) m.(ms_log))
  | mesh_bootstrap i d sns d' out :
      m.(ms_nodes) !! i = Some d -> Forall (fun sn => sn.1 ∈ seeds i) sns ->
      Bootstrap d sns = Ok (d', out) ->
      mesh_step m (mkMesh (<[i := d']> m.(ms_nodes)) (m.(ms_dialled) ++ out.*2) m.(ms_replies) m.(ms_log))
  | mesh_refresh i d net :
      m.(ms_nodes) !! i = Some d ->
      mesh_step m (mkMesh m.(ms_nodes) (m.(ms_dialled) ++ (Refresh d net).*2) m.(ms_replies) m.(ms_log))
  | mesh_state i d pk state ep net out :
      m.(ms_nodes) !! i = Some d -> SendState d pk state ep net = Ok out ->
      mesh_step m (mkMesh m.(ms_nodes) (m.(ms_dialled) ++ out.*2) m.(ms_replies) m.(ms_log))
  | mesh_control i d contact net :
      m.(ms_nodes) !! i = Some d ->
      mesh_step m (mkMesh m.(ms_nodes) (m.(ms_dialled) ++ (OpenControl d contact net).2.*2)
                     m.(ms_replies) m.(ms_log))
  | mesh_hub i d selfPK env window lead out :
      m.(ms_nodes) !! i = Some d -> hub_tick d selfPK env window lead = Ok out ->
      mesh_step m (mkMesh m.(ms_nodes) (m.(ms_dialled) ++ to_dialled out)
                     (m.(ms_replies) ++ to_replies out) m.(ms_log))
  | mesh_serve i d conn full fs d' evs :
      m.(ms_nodes) !! i = Some d -> full ∈ m.(ms_dialled) -> fs `prefix_of` full ->
      handleConn d conn fs = Ok (d', evs) ->
      mesh_step m (mkMesh (<[i := d']> m.(ms_nodes)) m.(ms_dialled) (m.(ms_replies) ++ answers evs)
                     (m.(ms_log) ++ (pair i <$> evs)))
  | mesh_reader i d parts fs d' evs :
      m.(ms_nodes) !! i = Some d -> parts ⊆ m.(ms_replies) -> fs `prefix_of` concat parts ->
      findNode_reader d fs = Ok (d', evs) ->
      mesh_step m (mkMesh (<[i := d']> m.(ms_nodes)) m.(ms_dialled) m.(ms_replies)
                     (m.(ms_log) ++ (pair i <$> evs)))
  | mesh_control_reader i d parts fs :
      m.(ms_nodes) !! i = Some d -> parts ⊆ m.(ms_replies) -> fs `prefix_of` concat parts ->
      mesh_step m (mkMesh m.(ms_nodes) m.(ms_dialled) m.(ms_replies)
                     (m.(ms_log) ++ (pair i <$> control_reader d fs))).

(** ** The invariant *)

(** A contact that is one of the node's seeds, without a public endpoint when
    the seeds have none. *)
Definition from_seed (i : nat) (c : Contact) : Prop :=
  (exists s, s ∈ seeds i /\ c.(c_ID) = s.(c_ID)) /\
  (Forall (fun s => s.(c_PublicEndpoint) = "") (seeds i) -> c.(c_PublicEndpoint) = "").

(** The first message of a stream, if there is one, is of certain types.  A
    silent stream begins with a hello or a report, an inert one also with a
    plan: no node takes it for a request. *)
Definition begins (ok : Z -> Prop) (fs : stream) : Prop :=
  forall m rest, decode false fs = Some (m, rest) -> ok m.(m_Type).
Definition silent : stream -> Prop := begins (fun t => t = MsgControlHello \/ t = MsgReportState).
Definition inert : stream -> Prop :=
  begins (fun t => t = MsgControlHello \/ t = MsgReportState \/ t = MsgPunchPlan).

Definition plan_frame (f : frame DhtMessage) : Prop :=
  match f with FTypes => True | FValue m => m.(m_Type) = MsgPunchPlan end.

Definition plan_event (e : event) : Prop := match e with EvPunchPlan _ => True | _ => False end.

Record node_inv (i : nat) (d : DHT) : Prop := {
  ni_wf : node_wf d;
  ni_seeds : Forall (from_seed i) (KnownPeers d.(d_table));
}.

Record mesh_inv (m : mesh) : Prop := {
  mi_nodes i d : m.(ms_nodes) !! i = Some d -> node_inv i d;
  mi_dialled : Forall inert m.(ms_dialled);
  mi_replies : Forall (Forall plan_frame) m.(ms_replies);
  mi_log : Forall (fun ie => plan_event ie.2) m.(ms_log);
}.

(** Insertion brings in nothing but its argument. *)
Lemma insert_known t c t' x :
  table_wf t -> insert t c = Ok t' -> x ∈ KnownPeers t' ->
  x ∈ KnownPeers t \/ x = c \/ exists e, e ∈ KnownPeers t /\ e.(c_ID) = c.(c_ID) /\ x = update_contact e c.
Proof.
  intros Hwf Hins Hx. pose proof (insert_cases t c Hwf) as Hc. rewrite Hins in Hc.
  inversion Hc as [|i Hbo Hi|i b b1 e b2 Hbo Hi Hb Hbe Hid|i b Hbo Hi Hb Hnew Hlt|i b Hbo Hi Hb Hnew Hge];
    subst; auto.
  - destruct (known_split t i _ Hwf Hb) as (pre & post & Hk & Hk' & _ & _). rewrite Hk' in Hx. rewrite Hk. set_solver.
  - destruct (known_split t i _ Hwf Hb) as (pre & post & Hk & Hk' & _ & _). rewrite Hk' in Hx. rewrite Hk. set_solver.
Qed.

Lemma insert_from_seed i t c t' :
  table_wf t -> insert t c = Ok t' -> c ∈ seeds i ->
  Forall (from_seed i) (KnownPeers t) -> Forall (from_seed i) (KnownPeers t').
Proof.
  intros Hwf Hins Hc HF. rewrite Forall_forall in HF |- *. intros x Hx.
  assert (from_seed i c) as Hcs by (split; [eauto|]; rewrite Forall_forall; auto).
  destruct (insert_known _ _ _ _ Hwf Hins Hx) as [?|[->|(e & He & Hid & ->)]]; [auto|done|].
  destruct (HF _ He) as [H1 H2]. split; [exact H1|]. intros Hs. cbn.
  destruct Hcs as [_ Hce]. rewrite (decide_True (P := c.(c_PublicEndpoint) = "")) by auto. auto.
Qed.

(** What nodes write on connections they dial, apart from plans. *)
Lemma findNode_silent d target contact net : silent (findNode d target contact net).
Proof. intros m rest. destruct net; cbn; [done..| |]; intros [= <- _]; auto. Qed.

Lemma Refresh_silent d net : Forall silent (Refresh d net).*2.
Proof.
  unfold Refresh. rewrite <- list_fmap_compose. apply Forall_fmap, Forall_true. intros c. apply findNode_silent.
Qed.

Lemma OpenControl_silent d contact net : Forall silent (OpenControl d contact net).2.*2.
Proof.
  unfold OpenControl. case_decide; [constructor|].
  destruct net; cbn; try apply Forall_nil_2; apply Forall_singleton; intros m rest [= <- _]; auto.
Qed.

Lemma SendState_silent d pk state ep net out : SendState d pk state ep net = Ok out -> Forall silent out.*2.
Proof.
  unfold SendState. case_decide; [by intros [= <-]|].
  destruct net; intros Hr; res_inv; cbn; try apply Forall_nil_2; apply Forall_singleton; intros m rest [= <- _]; auto.
Qed.

Lemma bootstrap_inv i d sns d' out :
  node_inv i d -> Forall (fun sn => sn.1 ∈ seeds i) sns -> Bootstrap d sns = Ok (d', out) ->
  node_inv i d' /\ Forall silent out.*2.
Proof.
  intros Hi Hs H. unfold Bootstrap in H.
  apply (for_range_inv (fun s => node_inv i s.1 /\ Forall silent s.2.*2)) in H; [done| |by split].
  intros [d1 o1] [seed net] [d2 o2] Hin [[Hwf HF] Hds] Hr. rewrite Forall_forall in Hs. specialize (Hs _ Hin).
  unfold bootstrap_seed in Hr. res_inv. cbn in *.
  match goal with Hins : insert _ _ = Ok ?t |- _ =>
    destruct (with_table_ok _ _ _ Hwf Hins) as [Hwf' _]; pose proof (insert_from_seed i _ _ _ (nw_table _ Hwf) Hins Hs HF) as HF' end.
  split.
  - split; [case_decide; [|done]; destruct Hwf'; by split|by case_decide].
  - rewrite fmap_app. apply Forall_app. split; [done|]. cbn. constructor; [|done]. apply findNode_silent.
Qed.

Lemma begins_prefix ok fs full : begins ok full -> fs `prefix_of` full -> begins ok fs.
Proof.
  intros Hf [tl ->] m rest Hm. destruct fs as [|[|?] [|[|?] fs]]; cbn in Hm; simplify_eq. by eapply Hf.
Qed.

Lemma silent_inert l : Forall silent l -> Forall inert l.
Proof. intros HF. eapply Forall_impl; [exact HF|]. intros fs H m rest Hm. destruct (H m rest Hm); auto. Qed.

Lemma handleConn_inert d conn fs d' evs :
  inert fs -> handleConn d conn fs = Ok (d', evs) ->
  d'.(d_table) = d.(d_table) /\ Forall plan_event evs /\ answers evs = [] /\ (silent fs -> evs = []).
Proof.
  intros Hf H. unfold handleConn in H. destruct (decode false fs) as [[m rest]|] eqn:Hd; [|by simplify_eq].
  assert (d_table d' = d_table d /\ (evs = [] \/ evs = punch_event d m /\ m.(m_Type) = MsgPunchPlan)) as [-> He].
  { destruct (Hf _ _ Hd) as [Hty|[Hty|Hty]]; rewrite Hty in H.
    - rewrite decide_True in H by done. case_decide; simplify_eq; auto.
    - rewrite !decide_False, decide_True in H by done. unfold handleReportState in H. case_decide; res_inv; auto.
    - rewrite !decide_False, decide_True in H by done. simplify_eq. auto. }
  split; [done|]. destruct He as [->|[-> Hty]]; [done|]. split_and!.
  - unfold punch_event. by destruct (d_onPunchPlan d); repeat constructor.
  - unfold punch_event. by destruct (d_onPunchPlan d).
  - intros Hs. destruct (Hs _ _ Hd) as [E|E]; by rewrite Hty in E.
Qed.

Lemma decode_all_plans seen fs :
  Forall plan_frame fs -> Forall (fun m => m.(m_Type) = MsgPunchPlan) (decode_all seen fs).
Proof.
  intros HF. revert seen. induction HF as [|f fs Hf HF IH]; intros seen; cbn; [constructor|].
  destruct f as [|m], seen; cbn in *; [constructor| |by constructor|constructor].
  destruct HF as [|[|m] fs Hm HF]; [constructor..|]. specialize (IH true). by cbn in IH.
Qed.

Lemma reader_plans d fs d' evs :
  Forall plan_frame fs -> findNode_reader d fs = Ok (d', evs) -> d' = d /\ Forall plan_event evs.
Proof.
  intros HF%(decode_all_plans false) H. unfold findNode_reader in H.
  apply (for_range_inv (fun s => s.1 = d /\ Forall plan_event s.2)) in H; [done| |done].
  intros [d1 e1] m [d2 e2] Hin [Hd1 He] Hr; cbn in Hd1, He; subst d1. rewrite Forall_forall in HF. specialize (HF _ Hin).
  unfold read_reply in Hr. rewrite HF in Hr. cbn in Hr. injection Hr as <- <-. split; [done|].
  apply Forall_app. split; [done|]. unfold punch_event. by destruct (d_onPunchPlan d); repeat constructor.
Qed.

Lemma control_reader_plans d fs : Forall plan_event (control_reader d fs).
Proof.
  unfold control_reader. induction (decode_all false fs) as [|m ms IH]; cbn; [constructor|].
  apply Forall_app. split; [|exact IH]. case_decide; [|constructor]. unfold punch_event. by destruct (d_onPunchPlan d); repeat constructor.
Qed.

Lemma prefix_plans fs parts replies :
  Forall (Forall plan_frame) replies -> parts ⊆ replies -> fs `prefix_of` concat parts -> Forall plan_frame fs.
Proof.
  intros HF Hsub [tl Htl]. assert (Forall plan_frame (concat parts)) as Hc.
  { apply Forall_concat, Forall_forall. intros p Hp. rewrite Forall_forall in HF. auto. }
  rewrite Htl in Hc. by apply Forall_app in Hc as [? _].
Qed.

(** A tick of the hub sends plans and nothing else. *)
Definition sends_plan (o : destination * stream) : Prop :=
  exists m, o.2 = encode_fresh m /\ m.(m_Type) = MsgPunchPlan.

Lemma SendPunchPlan_plans d contact tpk tep id start window ports net err out :
  SendPunchPlan d contact tpk tep id start window ports net = Ok (err, out) -> Forall sends_plan out.
Proof.
  assert (sends_plan (OnDial (control_addr contact), encode_fresh (punch_msg d tpk tep id start window ports))) as H1
    by (by eexists).
  assert (forall c, sends_plan (OnConn c, encode_fresh (punch_msg d tpk tep id start window ports))) as H2
    by (by eexists).
  unfold SendPunchPlan. destruct (d_controlConns d !! c_PublicKey contact) as [c|]; intros H.
  - destruct net; simplify_eq; auto.
  - res_inv. case_decide; simplify_eq; auto. destruct net; simplify_eq; auto.
Qed.

Lemma hub_tick_sends d selfPK env window lead out :
  hub_tick d selfPK env window lead = Ok out -> Forall sends_plan out.
Proof.
  unfold hub_tick. cbn zeta. set (wd := if decide _ then _ else window). set (ld := if decide _ then _ else lead).
  intros H.
  apply (for_range_inv (Forall sends_plan)) in H; [done| |constructor].
  intros o1 [a b] o2 _ Ho Hp. unfold punch_pair in Hp. cbn zeta in Hp.
  apply bind_ok in Hp as (id & _ & Hp). apply bind_ok in Hp as ([eA oA] & HA%SendPunchPlan_plans & Hp).
  apply bind_ok in Hp as ([eB oB] & HB%SendPunchPlan_plans & Hp). res_inv.
  rewrite !Forall_app. auto.
Qed.

Lemma sent_streams out :
  Forall sends_plan out -> Forall inert (to_dialled out) /\ Forall (Forall plan_frame) (to_replies out).
Proof.
  induction 1 as [|[[c|addr] fs] out (m & Hfs & Hm) _ [IH1 IH2]]; cbn in *; [done|..]; split; auto; subst;
    constructor; auto.
  - by repeat constructor.
  - intros m' rest [= <- <-]. auto.
Qed.

(** A handler that leaves the table alone keeps what is known of a node. *)
Lemma handleConn_node i d conn fs d' evs :
  node_inv i d -> inert fs -> handleConn d conn fs = Ok (d', evs) -> node_inv i d'.
Proof.
  intros [Hwf HF] Hf H. destruct (handleConn_inert _ _ _ _ _ Hf H) as (Ht & _).
  split; [by eapply handleConn_ok|by rewrite Ht].
Qed.

Lemma setter_node i d d' :
  (exists ep, d' = SetPublicEndpoint d ep) \/ d' = SetPeerCallback d \/ d' = SetPunchPlanCallback d \/
    (exists f, d' = SetObservedEndpoint d f) -> node_inv i d -> node_inv i d'.
Proof. intros Hd [[? ? ?] HF]. destruct Hd as [[ep ->]|[->|[->|[f ->]]]]; by split. Qed.

Lemma nodes_insert (m : mesh) i d :
  mesh_inv m -> node_inv i d -> forall j d', <[i := d]> m.(ms_nodes) !! j = Some d' -> node_inv j d'.
Proof. intros Hi Hd j d' [[<- <-]|[_ Hj]]%lookup_insert_Some; [done|by apply Hi]. Qed.

Lemma log_app (l : list (nat * event)) i evs :
  Forall (fun ie => plan_event ie.2) l -> Forall plan_event evs ->
  Forall (fun ie => plan_event ie.2) (l ++ (pair i <$> evs)).
Proof. intros. apply Forall_app. split; [done|]. by apply Forall_fmap. Qed.

Lemma mesh_step_inv m m' : mesh_inv m -> mesh_step m m' -> mesh_inv m'.
Proof.
  intros Hm Hstep. pose proof Hm as [Hn Hd Hr Hl].
  destruct Hstep as [i listen pk port ep d Hi Hnew|i d d' Hi Hset|i d sns d' out Hi Hs Hb|i d net Hi|
    i d pk st ep net out Hi Hs|i d contact net Hi|i d selfPK env window lead out Hi Ht|
    i d conn full fs d' evs Hi Hfull Hpre Hc|i d parts fs d' evs Hi Hparts Hpre Hc|i d parts fs Hi Hparts Hpre];
    split; cbn; try done; try (apply nodes_insert; [done|]); try (apply Forall_app; split; [done|]).
  - split; [by eapply NewDHT_wf|]. unfold NewDHT in Hnew. apply bind_Some in Hnew as (? & _ & [= <-]). cbn.
    apply Forall_concat, Forall_replicate. constructor.
  - by eapply setter_node; [|apply Hn].
  - by eapply bootstrap_inv; [apply Hn|..].
  - apply silent_inert. by eapply bootstrap_inv; [apply Hn|..].
  - apply silent_inert, Refresh_silent.
  - by eapply silent_inert, SendState_silent.
  - apply silent_inert, OpenControl_silent.
  - by apply sent_streams, (hub_tick_sends _ _ _ _ _ _ Ht).
  - by apply sent_streams, (hub_tick_sends _ _ _ _ _ _ Ht).
  - eapply handleConn_node; [by apply Hn| |exact Hc]. eapply begins_prefix; [|done].
    rewrite Forall_forall in Hd. by apply Hd.
  - destruct (handleConn_inert d conn fs d' evs) as (_ & _ & -> & _); [|done|constructor].
    eapply begins_prefix; [|done]. rewrite Forall_forall in Hd. by apply Hd.
  - apply Forall_fmap. eapply handleConn_inert; [|done].
    eapply begins_prefix; [|done]. rewrite Forall_forall in Hd. by apply Hd.
  - destruct (reader_plans d fs d' evs) as [-> _]; [by eapply prefix_plans|done|by apply Hn].
  - apply Forall_fmap. eapply reader_plans; [by eapply prefix_plans|done].
  - apply Forall_fmap, control_reader_plans.
Qed.

Lemma mesh_reach_inv m : rtc mesh_step empty_mesh m -> mesh_inv m.
Proof.
  assert (mesh_inv empty_mesh) as H0 by (split; cbn; [done|constructor..]).
  intros Hr. revert H0. induction Hr; eauto using mesh_step_inv.
Qed.

(** ** Seeds without a public endpoint, as [main] makes them *)

Definition plain_seeds : Prop := forall i, Forall (fun s => s.(c_PublicEndpoint) = "") (seeds i).

Lemma no_pairs selfPK peers :
  Forall (fun c => c.(c_PublicEndpoint) = "") peers -> punch_pairs selfPK peers = [].
Proof.
  induction 1 as [|c peers Hc HF IH]; cbn; [done|]. rewrite decide_False; [done|]. by intros (_ & _ & ?).
Qed.

Lemma hub_tick_idle i d selfPK env window lead :
  plain_seeds -> node_inv i d -> hub_tick d selfPK env window lead = Ok [].
Proof.
  intros Hp [_ HF]. unfold hub_tick. rewrite no_pairs; [done|].
  eapply Forall_impl; [exact HF|]. intros c [_ Hc]. apply Hc, Hp.
Qed.

Record idle (m : mesh) : Prop := {
  id_dialled : Forall silent m.(ms_dialled);
  id_replies : m.(ms_replies) = [];
  id_log : m.(ms_log) = [];
}.

Lemma no_parts {A} (parts : list (list A)) fs : parts ⊆ [] -> fs `prefix_of` concat parts -> fs = [].
Proof.
  intros Hsub Hpre. destruct parts as [|p parts]; [by apply prefix_nil_inv in Hpre|].
  exfalso. eapply not_elem_of_nil, Hsub. left.
Qed.

Lemma mesh_step_idle m m' : plain_seeds -> mesh_inv m -> idle m -> mesh_step m m' -> idle m'.
Proof.
  intros Hp Hm [Hd Hr Hl] Hstep. pose proof (mi_nodes _ Hm) as Hn.
  destruct Hstep as [i listen pk port ep d Hi Hnew|i d d' Hi Hset|i d sns d' out Hi Hs Hb|i d net Hi|
    i d pk st ep net out Hi Hs|i d contact net Hi|i d selfPK env window lead out Hi Ht|
    i d conn full fs d' evs Hi Hfull Hpre Hc|i d parts fs d' evs Hi Hparts Hpre Hc|i d parts fs Hi Hparts Hpre].
  - by split.
  - by split.
  - split; cbn; [|done..]. apply Forall_app. split; [done|]. by eapply bootstrap_inv; [apply Hn|..].
  - split; cbn; [|done..]. apply Forall_app. split; [done|]. apply Refresh_silent.
  - split; cbn; [|done..]. apply Forall_app. split; [done|]. by eapply SendState_silent.
  - split; cbn; [|done..]. apply Forall_app. split; [done|]. apply OpenControl_silent.
  - rewrite (hub_tick_idle _ _ _ _ _ _ Hp (Hn _ _ Hi)) in Ht. injection Ht as <-.
    split; cbn; by rewrite ?app_nil_r.
  - assert (silent fs) as Hs by (eapply begins_prefix; [|done]; rewrite Forall_forall in Hd; by apply Hd).
    destruct (handleConn_inert d conn fs d' evs) as (_ & _ & -> & He); [|done|].
    { intros x rest Hx. destruct (Hs x rest Hx); auto. }
    rewrite (He Hs). split; cbn; by rewrite ?app_nil_r.
  - rewrite Hr in Hparts. rewrite (no_parts _ _ Hparts Hpre) in Hc. injection Hc as <- <-.
    split; cbn; by rewrite ?app_nil_r.
  - rewrite Hr in Hparts. rewrite (no_parts _ _ Hparts Hpre). split; cbn; by rewrite ?app_nil_r.
Qed.

(** ** Theorems *)

(** C6: In any network of nodes that all run this program, whatever the network delays or
    cuts: every routing table stays well formed and holds only identifiers of the node's
    own seeds, the discovery callback never fires, and nothing but punch plans is
    written on an accepted connection. *)
Theorem mesh_discovers_nobody m :
  rtc mesh_step empty_mesh m ->
  (forall i d, m.(ms_nodes) !! i = Some d ->
     node_wf d /\ Forall (fun c => exists s, s ∈ seeds i /\ c.(c_ID) = s.(c_ID)) (KnownPeers d.(d_table))) /\
  (forall i c, (i, EvPeerDiscovered c) ∉ m.(ms_log)) /\
  Forall (Forall plan_frame) m.(ms_replies).
Proof.
  intros Hr%mesh_reach_inv. destruct Hr as [Hn Hd Hrep Hl]. split_and!.
  - intros i d Hi. destruct (Hn i d Hi) as [Hwf HF]. split; [done|].
    eapply Forall_impl; [exact HF|]. by intros c [? _].
  - intros i c Hin. rewrite Forall_forall in Hl. by apply Hl in Hin.
  - done.
Qed.

(** C26: In a network of nodes of this program whose seeds have no public endpoint, as main
    makes them, no tick of the hub's scheduler ever sends a punch plan, and no callback
    of any node ever fires. *)
Theorem mesh_never_punches m :
  plain_seeds -> rtc mesh_step empty_mesh m ->
  m.(ms_log) = [] /\ m.(ms_replies) = [] /\
  (forall i d selfPK env window lead,
     m.(ms_nodes) !! i = Some d -> hub_tick d selfPK env window lead = Ok []).
Proof.
  intros Hp Hr. assert (mesh_inv m /\ idle m) as [Hm Hi].
  { assert (mesh_inv empty_mesh /\ idle empty_mesh) as H0.
    { split; [by apply mesh_reach_inv|]. split; cbn; [constructor|done..]. }
    revert H0. clear -Hp Hr. induction Hr as [|m1 m2 m3 H12 _ IH]; [done|]. intros [H1 H2].
    apply IH. split; [by eapply mesh_step_inv|by eapply mesh_step_idle]. }
  split_and!; [apply Hi..|]. intros i d selfPK env window lead Hd. eapply hub_tick_idle; [done|by apply Hm].
Qed.
End mesh.
