(* ===== verification/Wire.v ===== *)
(** * Types of the messages on the wire

    [msg_typed] is what the receiver of a [DhtMessage] takes for granted and
    the Go type does not say: identifiers that can be decoded and keys that
    can be sliced.  Nodes of this program only send typed messages, and a
    typed message makes no handler panic. *)

From S2P Require Import Prelude.
From S2P Require Import GoBytes GoNet GoSort Table TableInv TableConc Closest Node NodeInv NodeProps.
Local Open Scope Z_scope.

Record msg_typed (m : DhtMessage) : Prop := {
  mt_type : byte_range m.(m_Type);
  mt_start : int64_range m.(m_PunchStartUnix);
  mt_window : int64_range m.(m_PunchWindowMs);
  mt_find : m.(m_Type) = MsgFindNode ->
    (20 <= length (hex_decode m.(m_SenderID)))%nat /\ is_id m.(m_TargetID) /\
    (16 <= String.length m.(m_PublicKey))%nat;
  mt_resp : m.(m_Type) = MsgFindNodeResp ->
    Forall (fun c => (20 <= length (hex_decode c.(c_ID)))%nat) m.(m_Contacts);
}.

Definition frame_typed (f : frame DhtMessage) : Prop :=
  match f with FTypes => True | FValue m => msg_typed m end.

Section wire.
Context {sort : SliceSort} `{!SliceSortOk sort}.

(** The streams a node writes, on connections it dials or accepts.  [Refresh]
    and [Bootstrap] look for the node's own identifier. *)
Inductive sends (d : DHT) : list (frame DhtMessage) -> Prop :=
  | sends_find contact net : sends d (findNode d d.(d_table).(t_selfID) contact net)
  | sends_control contact net addr fs :
      (addr, fs) ∈ (OpenControl d contact net).2 -> sends d fs
  | sends_state pk state ep net out addr fs :
      SendState d pk state ep net = Ok out -> (addr, fs) ∈ out -> sends d fs
  | sends_punch contact tpk tep id start window ports net err out dst fs :
      int64_range start -> int64_range window ->
      SendPunchPlan d contact tpk tep id start window ports net = Ok (err, out) ->
      (dst, fs) ∈ out -> sends d fs
  | sends_answer conn stream d' evs conn' fs :
      handleConn d conn stream = Ok (d', evs) -> EvWrite conn' fs ∈ evs -> sends d fs.

(** ** What nodes send *)

Lemma known_long t c :
  table_wf t -> c ∈ KnownPeers t -> (20 <= length (hex_decode c.(c_ID)))%nat.
Proof.
  intros Hwf (b & Hb & Hc)%list_elem_of_In%in_concat. apply list_elem_of_In, list_elem_of_lookup in Hb as (i & Hi).
  pose proof (bw_index _ _ _ (tw_bucket _ Hwf _ _ Hi)) as HF. rewrite Forall_forall in HF.
  specialize (HF c ltac:(by apply list_elem_of_In)). unfold bucket_of in HF.
  destruct (xorDist _ _) as [x| |] eqn:Hx; [|done..].
  assert (is_ok (xorDist t.(t_selfID) c.(c_ID))) as Hle%xorDist_ok by by eexists.
  pose proof (tw_self _ Hwf) as Hs. unfold is_id in Hs. lia.
Qed.

Lemma closest_known t target n out :
  closest t target n = Ok out -> Forall (fun c => c ∈ KnownPeers t) out.
Proof.
  intros H. destruct (closest_prefix t target n out H) as (_ & rest & Hp & _).
  apply Forall_forall. intros c Hc. rewrite <- Hp. apply elem_of_app. by left.
Qed.

Lemma zero_int64 : int64_range 0.
Proof. unfold int64_range, min_int64, max_int64. lia. Qed.

Lemma typed_plain typ sender pk ep st tgt :
  byte_range typ -> typ <> MsgFindNode -> typ <> MsgFindNodeResp ->
  msg_typed (mkMsg typ sender tgt [] pk ep "" st "" "" "" 0 0 []).
Proof. intros. split; cbn; auto using zero_int64; done. Qed.

Lemma hello_typed d : msg_typed (hello_msg d).
Proof. by apply typed_plain. Qed.

Lemma find_typed d :
  node_wf d -> (16 <= String.length d.(d_publicKey))%nat -> msg_typed (find_msg d d.(d_table).(t_selfID)).
Proof.
  intros Hwf Hk. split; cbn; auto using zero_int64; try done. intros _.
  pose proof (tw_self _ (nw_table _ Hwf)) as Hs. split_and!; [unfold is_id in Hs; lia|done|done].
Qed.

Lemma punch_typed d tpk tep id start window ports :
  int64_range start -> int64_range window -> msg_typed (punch_msg d tpk tep id start window ports).
Proof.
  intros Hs Hw. split; cbn; try done. revert Hw. unfold int64_range, min_int64, max_int64. intros Hw.
  pose proof (Z.quot_rem' window 1000000). pose proof (Z.rem_bound_abs window 1000000). lia.
Qed.

Lemma fresh_typed m : msg_typed m -> Forall frame_typed (encode_fresh m).
Proof. intros. apply Forall_cons. split; [done|]. by apply Forall_singleton. Qed.

Lemma answer_typed d conn stream d' evs conn' fs :
  node_wf d -> handleConn d conn stream = Ok (d', evs) -> EvWrite conn' fs ∈ evs -> Forall frame_typed fs.
Proof.
  intros Hwf H Hin. unfold handleConn in H. destruct (decode false stream) as [[msg rest]|];
    [|by simplify_eq; apply not_elem_of_nil in Hin].
  repeat case_decide; simplify_eq; try by apply not_elem_of_nil in Hin.
  - unfold handleFindNode in H. apply bind_ok in H as (t & Ht & H). apply bind_ok in H as (cb & Hcb & H).
    apply bind_ok in H as (near & Hnear & H). injection H as <- <-.
    apply elem_of_app in Hin as [Hin|Hin%list_elem_of_singleton].
    + exfalso. unfold notify_registered in Hcb. destruct (_ && _); res_inv; set_solver.
    + injection Hin as -> ->. apply fresh_typed. split; cbn; auto using zero_int64; try done. intros _.
      pose proof (insert_wf _ _ _ (nw_table _ Hwf) Ht) as Hwf'. eapply Forall_impl; [by eapply closest_known|].
      intros c. by apply known_long.
  - injection H as <- <-. apply list_elem_of_singleton in Hin. injection Hin as -> ->.
    by apply fresh_typed, typed_plain.
  - unfold handleReportState in H. case_decide; res_inv; by apply not_elem_of_nil in Hin.
  - unfold punch_event in Hin. destruct (d_onPunchPlan d'); set_solver.
Qed.

Lemma sends_typed d fs :
  node_wf d -> (16 <= String.length d.(d_publicKey))%nat -> sends d fs -> Forall frame_typed fs.
Proof.
  intros Hwf Hk. destruct 1 as [contact net|contact net addr fs Hin|pk st ep net out addr fs Hs Hin|
    contact tpk tep id start window ports net err out dst fs Hst Hw Hs Hin|conn stream d' evs conn' fs Hc Hin].
  - pose proof (fresh_typed _ (hello_typed d)). pose proof (fresh_typed _ (find_typed d Hwf Hk)).
    destruct net; cbn [findNode]; [constructor..|done|by apply Forall_app].
  - unfold OpenControl in Hin. case_decide; [by apply not_elem_of_nil in Hin|].
    destruct net; cbn in Hin; try (by apply not_elem_of_nil in Hin);
      apply list_elem_of_singleton in Hin; injection Hin as -> ->; apply fresh_typed, hello_typed.
  - unfold SendState in Hs. case_decide; [simplify_eq; by apply not_elem_of_nil in Hin|].
    destruct net; res_inv; try (by apply not_elem_of_nil in Hin);
      apply list_elem_of_singleton in Hin; injection Hin as -> ->; by apply fresh_typed, typed_plain.
  - pose proof (fresh_typed _ (punch_typed d tpk tep id start window ports Hst Hw)) as Hp.
    unfold SendPunchPlan in Hs. destruct (d_controlConns d !! c_PublicKey contact).
    + destruct net; simplify_eq; try (by apply not_elem_of_nil in Hin);
        apply list_elem_of_singleton in Hin; by injection Hin as _ ->.
    + res_inv. case_decide; [simplify_eq; by apply not_elem_of_nil in Hin|].
      destruct net; simplify_eq; try (by apply not_elem_of_nil in Hin);
        apply list_elem_of_singleton in Hin; by injection Hin as _ ->.
  - by eapply answer_typed.
Qed.

(** ** What typed messages do to a node *)

Lemma closest_total t target n :
  table_wf t -> is_id target -> exists out, closest t target n = Ok out.
Proof.
  intros Hwf Hid. destruct (closest t target n) as [out|p|] eqn:Hc; [by eexists|exfalso|exfalso].
  - assert (is_panic (closest t target n)) as (_ & (c & Hin & Hlt)%Exists_exists)%is_panic_closest
      by (rewrite Hc; by eexists).
    pose proof (known_long t c Hwf Hin). unfold is_id in Hid. lia.
  - unfold closest in Hc. destruct (bool_decide _ && _); [done|]. by case_decide.
Qed.

Lemma handleFindNode_total d conn msg :
  node_wf d -> msg_typed msg -> msg.(m_Type) = MsgFindNode -> is_ok (handleFindNode d conn msg).
Proof.
  intros Hwf Hm Hty. destruct (mt_find _ Hm Hty) as (Hid & Htgt & Hpk). unfold handleFindNode.
  destruct (insert_result d.(d_table) (sender_contact d conn msg) (nw_table _ Hwf)) as [[_ Hlt]|(t & Ht & _)];
    [cbn in Hlt; lia|]. rewrite Ht. cbn [mbind result_bind].
  assert (exists evs, notify_registered d (sender_contact d conn msg) msg = Ok evs) as [evs ->].
  { unfold notify_registered. destruct (_ && _); [|by eexists]. rewrite slice_to_take by done. by eexists. }
  cbn [mbind result_bind].
  destruct (closest_total t msg.(m_TargetID) (Z.to_nat kBucketSize)) as [near ->];
    [by eapply insert_wf; [apply Hwf|]|done|]. by eexists.
Qed.

Lemma decode_typed fs m rest :
  Forall frame_typed fs -> decode false fs = Some (m, rest) -> msg_typed m.
Proof.
  intros HF Hd. destruct fs as [|[|?] [|[|?] fs]]; cbn in Hd; simplify_eq.
  apply Forall_cons in HF as [_ HF]. by apply Forall_cons in HF as [? _].
Qed.

Lemma handleConn_typed d conn fs :
  node_wf d -> Forall frame_typed fs -> is_ok (handleConn d conn fs).
Proof.
  intros Hwf HF. unfold handleConn. destruct (decode false fs) as [[m rest]|] eqn:Hd; [|by eexists].
  pose proof (decode_typed _ _ _ HF Hd) as Hm. repeat case_decide; try by eexists.
  - by apply handleFindNode_total.
  - unfold handleReportState. case_decide as Hl; [|by eexists]. destruct Hl as [H8 H8'].
    rewrite !slice_to_take by done. by eexists.
Qed.

Lemma decode_all_typed seen fs : Forall frame_typed fs -> Forall msg_typed (decode_all seen fs).
Proof.
  intros HF. revert seen. induction HF as [|f fs Hf HF IH]; intros seen; cbn; [done|].
  destruct f as [|m], seen; cbn in *; [done| |constructor; auto|done].
  destruct HF as [|[|m] fs Hm HF]; [done..|]. specialize (IH true). by cbn in IH.
Qed.

Lemma reader_typed d fs :
  node_wf d -> Forall frame_typed fs -> is_ok (findNode_reader d fs).
Proof.
  intros Hwf HF%(decode_all_typed false). unfold findNode_reader.
  destruct (for_range_ok (fun s : DHT * list event => node_wf s.1) read_reply (decode_all false fs) (d, []))
    as (s' & -> & _); [|done|by eexists].
  intros [d1 evs1] m Hin Hwf1. rewrite Forall_forall in HF. specialize (HF m Hin). unfold read_reply.
  case_decide as Hty; [|case_decide; by eexists].
  destruct (handleFindNodeResp_total d1 m Hwf1) as (d2 & evs2 & -> & Hwf2 & _); [|by eexists].
  eapply Forall_impl; [by apply (mt_resp _ HF)|]. auto.
Qed.

End wire.
