(* ===== verification/Discovery.v ===== *)
(** * Discovery of the public endpoint on UDP sockets

    [discoverPublicEndpoint] of [main.go] with its sockets: the one on the
    WireGuard port that [reusableListenUDP] opens, and the one of the
    fallback.  [discover] of [Daemon] is what it computes from the datagrams
    the two sockets receive. *)

From S2P Require Import Prelude GoBytes GoStrings GoNet Stun Host Uapi UapiProps Daemon DaemonProps.

(** The UDP part of the operating system: the values of [SOL_SOCKET] and
    [SO_REUSEPORT], whether a port can be bound (with the option or without),
    name resolution, and what a socket, named by its port, writes and reads. *)
Record udp_net := mkUdp {
  ud_SOL_SOCKET : Z;
  ud_SO_REUSEPORT : Z;
  ud_bind : bool -> Z -> bool;
  ud_resolve : string -> option string;
  ud_write : Z -> string -> list Z -> bool;
  ud_read : Z -> option (list Z);
}.

(** [syscall.SetsockoptInt(fd, 0xffff, 0x0200, 1)] sets the option where these
    are its numbers; its error is ignored. *)
Definition sets_reuseport (u : udp_net) : bool :=
  bool_decide (u.(ud_SOL_SOCKET) = 65535%Z /\ u.(ud_SO_REUSEPORT) = 512%Z).

Definition reusableListenUDP (u : udp_net) (port : Z) : option Z :=
  if u.(ud_bind) (sets_reuseport u) port then Some port else None.

(** [net.ListenUDP("udp", &net.UDPAddr{Port: port})]. *)
Definition ListenUDP (u : udp_net) (port : Z) : option Z :=
  if u.(ud_bind) false port then Some port else None.

(** [nat.DiscoverPublic] on a socket that may not have been opened: the
    result, if there is one with an address. *)
Definition stun_on (u : udp_net) (stunAddr : string) (sock : option Z) :
    result (option (list Z * Z * string)) :=
  match sock with
  | None => Ok None
  | Some s =>
      r ← DiscoverPublic u.(ud_resolve) (u.(ud_write) s) (u.(ud_read) s) stunAddr;
      match r with
      | inl _ => Ok None
      | inr res => Ok ((fun ip => (ip, res.(sr_PublicPort), res.(sr_NATType))) <$> res.(sr_PublicIP))
      end
  end.

Section discovery.
Context {W : Type} {host : Host W}.

Definition discoverPublicEndpoint (u : udp_net) (stunAddr : string) (client : Client) (meshPort : Z) :
    io W (string * string) :=
  wgDump ← ShowDump client;
  let wgPort := wg_port wgDump meshPort in
  stunResult ← lift (stun_on u stunAddr (reusableListenUDP u wgPort));
  match stunResult with
  | Some (ip, port, natType) => mret (JoinHostPort (IPString ip) (Itoa port), natType)
  | None =>
      stunResult ← lift (stun_on u stunAddr (ListenUDP u (wrap64 (meshPort + 10))));
      mret (match stunResult with
            | Some (ip, _, natType) => (JoinHostPort (IPString ip) (Itoa wgPort), natType)
            | None => ("", "")
            end)
  end.

(** The datagram an exchange on a socket receives. *)
Definition datagram (u : udp_net) (stunAddr : string) (sock : option Z) : option (list Z) :=
  s ← sock;
  server ← u.(ud_resolve) (if decide (stunAddr = "") then defaultStunServer else stunAddr);
  if u.(ud_write) s server buildStunRequest then u.(ud_read) s else None.

Lemma stun_on_probe u stunAddr sock : stun_on u stunAddr sock = stun_probe (datagram u stunAddr sock).
Proof.
  destruct sock as [s|]; [|done]. unfold stun_on, datagram, DiscoverPublic. cbn [mbind option_bind]. cbn zeta.
  destruct (ud_resolve u (if decide (stunAddr = "") then _ else _)) as [server|]; [|done]. cbn [mbind option_bind].
  destruct (ud_write u s server buildStunRequest); [|done]. cbn [negb]. destruct (ud_read u s) as [data|]; [|done].
  unfold stun_probe. by destruct (parseStunResponse (take 1024 data)).
Qed.

(** The code on sockets computes [discover] of what they receive. *)
Lemma discoverPublicEndpoint_discover u stunAddr client meshPort (w w' : W) dump :
  ShowDump client w = Ok (dump, w') ->
  let wgPort := wg_port dump meshPort in
  discoverPublicEndpoint u stunAddr client meshPort w =
  lift (discover wgPort (datagram u stunAddr (reusableListenUDP u wgPort))
          (datagram u stunAddr (ListenUDP u (wrap64 (meshPort + 10))))) w'.
Proof.
  intros Hd wgPort. unfold discoverPublicEndpoint. io_run Hd. fold wgPort. rewrite !stun_on_probe.
  unfold discover, mbind, io_bind, lift. destruct (stun_probe _) as [[[[ip port] nt]|]| |]; [done| |done..].
  cbn. by destruct (stun_probe _) as [[[[ip port] nt]|]| |].
Qed.

(** The exchange on a socket told an address and a port. *)
Definition told (data : option (list Z)) (ip : list Z) (port : Z) (nt : string) : Prop :=
  exists bytes, data = Some bytes /\ parseStunResponse (take 1024 bytes) = Ok (mkStun (Some ip) port nt).

(** It told no address: there was no datagram, or none in it. *)
Definition told_nothing (data : option (list Z)) : Prop :=
  data = None \/ exists bytes r, data = Some bytes /\ parseStunResponse (take 1024 bytes) = Ok r /\ r.(sr_PublicIP) = None.

Lemma told_probe data ip port nt : told data ip port nt -> stun_probe data = Ok (Some (ip, port, nt)).
Proof. intros (bytes & -> & H). cbn. by rewrite H. Qed.

Lemma told_nothing_probe data : told_nothing data -> stun_probe data = Ok None.
Proof. intros [->|(bytes & r & -> & H & Hr)]; cbn; [done|]. rewrite H. cbn. by rewrite Hr. Qed.

Lemma told_split data ip port nt p :
  (forall bytes, data = Some bytes -> Forall byte_range bytes) -> told data ip port nt ->
  SplitHostPort (JoinHostPort (IPString ip) (Itoa p)) = Some (IPString ip, Itoa p).
Proof.
  intros Hb Ht. pose proof Ht as (bytes & -> & _).
  destruct (stun_probe_shape bytes ip port nt) as [Hl _]; [by apply Hb|by apply told_probe|].
  destruct (IPString_brackets ip Hl). by apply Split_JoinHostPort_Itoa.
Qed.

End discovery.
