(* ===== verification/Running.v ===== *)
(** * Concrete schedules

    The theorems about listeners, loops, the shutdown, the mesh and the wire
    applied to concrete schedules. *)

From S2P Require Import Prelude GoBytes GoStrings GoNet GoSort Table TableInv Node NodeInv NodeProps Pex PexConc.
From S2P Require Import Host Uapi UapiProps MeshState Scan Monitor Daemon DaemonProps Punch Witnesses Machine.
From S2P Require Import Service Listeners Loops Shutdown Mesh Wire Stun Discovery GoFlag Main.

#[local] Strategy 1000 [NodeID].

(** ** Services *)

Definition or_else {A} (d : A) (o : option (result A)) : A :=
  match o with Some (Ok a) => a | _ => d end.

Definition ping_b : DhtMessage := zero_msg MsgPing (NodeID key_b).

(** A node serves a ping and a control channel, and is stopped. *)
Definition acts_up : list (action unit Dht.op DhtMessage) :=
  [AStart; AArrive conn1 (encode_fresh ping_b); AAccept; AFault; AArrive conn1 (encode_fresh (hello_msg node0));
   AServe 0 tt; AAccept; AServe 0 tt].
Definition acts_stop : list (action unit Dht.op DhtMessage) := [AStop; AStopNext].
Definition acts_drain : list (action unit Dht.op DhtMessage) := [AAccept; ARelease 0 false].

Definition svc_up : runtime DHT DhtMessage event := or_else (boot node0) (run acts_up (boot node0)).
Definition svc_down : runtime DHT DhtMessage event :=
  or_else (boot node0) (run (acts_up ++ acts_stop) (boot node0)).
Definition svc_end : runtime DHT DhtMessage event := or_else (boot node0) (run acts_drain svc_down).

Lemma svc_up_run : run acts_up (boot node0) = Some (Ok svc_up).
Proof. vm_compute. reflexivity. Qed.
Lemma svc_down_run : run (acts_up ++ acts_stop) (boot node0) = Some (Ok svc_down).
Proof. vm_compute. reflexivity. Qed.
Lemma svc_end_run : run acts_drain svc_down = Some (Ok svc_end).
Proof. vm_compute. reflexivity. Qed.

Lemma dht_service_invariant_witness :
  svc_down.(rt_open) = false /\ Dht.dht_acceptLoop svc_down.(rt_svc) AcceptError = Return.
Proof.
  destruct (dht_service_invariant Some key_a 51822 "192.0.2.1:51820" node0 (acts_up ++ acts_stop) svc_down
    node0_new svc_down_run) as (_ & _ & _ & H & _).
  split; [vm_compute; reflexivity|]. apply H. vm_compute. reflexivity.
Defined.

Lemma dht_stop_drains_witness : length acts_drain <= work svc_down /\ quiet svc_end.
Proof.
  destruct (dht_stop_drains Some key_a 51822 "192.0.2.1:51820" node0 (acts_up ++ acts_stop) svc_down acts_drain svc_end
    node0_new svc_down_run eq_refl ltac:(repeat constructor) svc_end_run) as (H1 & _ & _ & H2).
  split; [exact H1|]. vm_compute. auto.
Defined.

Lemma dht_request_crashes_witness :
  exists acts', run (AArrive conn1 (encode_fresh (zero_msg MsgFindNode "")) :: acts') svc_up
    = Some (Panic IndexOutOfRange).
Proof.
  apply (dht_request_crashes Some key_a 51822 "192.0.2.1:51820" node0 acts_up svc_up conn1 (zero_msg MsgFindNode "")
    node0_new svc_up_run); [reflexivity|vm_compute; discriminate|reflexivity|vm_compute; lia].
Defined.

Definition pex0 : Protocol := mkProto key_a ∅ "0.0.0.0:51821" 0 false false.
Definition request_b : PexMessage := mkPexMsg MsgTypePexRequest key_b [mkEntry key_c ["203.0.113.9:51820"] 0] 1.
Definition pex_acts : list (action (nat -> list PeerEntry) PexListener.op PexMessage) :=
  [AStart; AStart; AArrive conn1 (encode_fresh request_b); AAccept; AServe 0 (fun _ => [])].
Definition pex_up : runtime Protocol PexMessage pex_event := or_else (boot pex0) (run pex_acts (boot pex0)).

Lemma pex_up_run : run pex_acts (boot pex0) = Some (Ok pex_up).
Proof. vm_compute. reflexivity. Qed.

Lemma pex_service_invariant_witness :
  pex_up.(rt_loops) <= 1 /\ is_Some (pex_up.(rt_svc).(p_entries) !! key_c).
Proof.
  destruct (pex_service_invariant key_a "0.0.0.0:51821" pex0 pex_acts pex_up eq_refl pex_up_run) as (H & _).
  split; [exact H|]. vm_compute. eauto.
Defined.

(** A stranger's request with a key of five characters ends the process. *)
Definition bad_request : PexMessage := mkPexMsg MsgTypePexRequest key_b [mkEntry "short" ["203.0.113.9:51820"] 0] 1.
Definition pex_crash : list (action (nat -> list PeerEntry) PexListener.op PexMessage) :=
  [AStart; AArrive conn1 (encode_fresh bad_request); AAccept; AServe 0 (fun _ => []); AGo 0].

Lemma pex_panics_only_witness :
  exists pre a post r, pex_crash = pre ++ a :: post /\ run pre (boot pex0) = Some (Ok r).
Proof.
  destruct (pex_panics_only key_a "0.0.0.0:51821" pex0 pex_crash SliceOutOfRange
    eq_refl ltac:(vm_compute; reflexivity)) as (pre & a & post & r & H1 & H2 & _).
  exists pre, a, post, r. split; [exact H1|exact H2].
Defined.

Example pex_request_crashes_example :
  exists acts', run (AArrive conn1 (encode_fresh bad_request) :: acts') pex_up = Some (Panic SliceOutOfRange).
Proof.
  apply (pex_request_crashes key_a "0.0.0.0:51821" pex0 pex_acts pex_up conn1 (fun _ => []) bad_request eq_refl pex_up_run);
    [reflexivity|vm_compute; discriminate|reflexivity|].
  left. vm_compute. split; [split; discriminate|]. split; [reflexivity|lia].
Qed.

(** ** Loops *)

Definition told_c : list PeerEntry := [mkEntry key_c ["203.0.113.9:51820"; "192.0.2.7:51820"] 0].
Definition gossip_acts : list gossip_action :=
  [GTick; GTick; GSelect OnTick told_c; GTick; GSelect OnTick []; GTick; GStop; GSelect OnTick told_c].
Definition gossip1 : gossiping := or_else (start_gossip pex0) (gossip_run gossip_acts (start_gossip pex0)).

Lemma gossip_rounds_bounded_witness :
  length (taken gossip_acts) = 3 /\ 3 <= ticks gossip_acts /\ length gossip1.(gs_sent) = 4 /\
  gossip1.(gs_proto).(p_seq) = 2%Z /\
  exists g2, gossip_step (GSelect OnStop []) gossip1 = Some (Ok g2).
Proof.
  destruct (gossip_rounds_bounded key_a "0.0.0.0:51821" pex0 gossip_acts gossip1 eq_refl ltac:(vm_compute; reflexivity))
    as (H1 & _ & _ & H4).
  split; [reflexivity|]. split; [exact H1|]. split; [vm_compute; reflexivity|]. split; [vm_compute; reflexivity|].
  destruct (proj2 (H4 eq_refl) [] eq_refl) as (g2 & H & _). exists g2. exact H.
Defined.

Lemma monitor_runs_witness :
  exists m w', @runHandshakeMonitor unit fixed_host keys_in_order cfg0 (15 * second) (NewState self_key 0)
    [OnTick; OnTick; OnStop] tt = Ok ((m, false), w') /\ mon_inv hub_key m.
Proof.
  destruct (monitor_runs keys_in_order cfg0 (15 * second) self_key 0 [OnTick; OnTick; OnStop] tt wg0_ok fixed_long_keys)
    as (m & w' & H & _ & Hi).
  exists m, w'. split; [exact H|exact Hi].
Defined.

(** ** Shutdown *)

Lemma shutdown_clean_witness :
  exists dm pr, launch "192.0.2.9:51820" dm = Ok pr /\ pr.(pr_monitor) = true /\
    exists pr', proc_run ([PSignal; PMainReceive] ++ replicate 4 PMain) pr = Some (Ok pr') /\ pr'.(pr_main) = Exited.
Proof.
  destruct (startup flags0 boot0 wg0 machine0) as [[[dm|] w']| |] eqn:E; [|vm_compute in E; discriminate..].
  destruct (shutdown_clean flags0 boot0 wg0 "192.0.2.9:51820" machine0 w' dm E) as (pr0 & Hl & _).
  exists dm, pr0. split; [exact Hl|]. vm_compute in E. injection E as <- _. vm_compute in Hl. injection Hl as <-.
  split; [reflexivity|]. eexists. split; vm_compute; reflexivity.
Defined.

Lemma signal_shutdown_witness :
  exists dm pr0 pr, launch "" dm = Ok pr0 /\ proc_run [PSignal; PRefreshReceive] pr0 = Some (Ok pr) /\
    pr.(pr_main) = Waiting.
Proof.
  destruct (startup flags0 boot0 wg0 machine0) as [[[dm|] w']| |] eqn:E; [|vm_compute in E; discriminate..].
  destruct (signal_shutdown flags0 boot0 wg0 "" machine0 w' dm E) as (pr0 & Hl & (pr & Hr & Hlost) & _).
  exists dm, pr0, pr. split; [exact Hl|]. split; [exact Hr|]. apply (Hlost [] pr); [constructor|reflexivity].
Defined.

(** ** The command line *)

Definition assign0 : list assignment := [
  mkAssign "public-key" (VString self_key) true true;
  mkAssign "seed" (VString (hub_key +:+ "@192.0.2.9:51822")) false false;
  mkAssign "relay" (VString "192.0.2.9:51820") true false;
  mkAssign "interface" (VString "wg0") false true;
  mkAssign "sync-punch" (VBool true) false true;
  mkAssign "handshake-interval" (VDuration (30 * second)) false true;
  mkAssign "interface" (VString "utun4") true true].

Definition main0 : list string -> io machine outcome := main "linux" "/root" (fun _ => false) (fun _ => boot0).

Lemma command_line_roundtrip_witness :
  exists o, main0 (concat (render <$> assign0) ++ ["start"]) machine0
            = run_main "linux" "/root" (fun _ => false) (fun _ => boot0) o machine0 /\
    o.(o_interfaceName) = "utun4" /\ o.(o_meshPort) = 51821%Z /\ o.(o_hsInterval) = (30 * second)%Z /\ o.(o_syncPunch) = true.
Proof.
  destruct (command_line_roundtrip "linux" "/root" (fun _ => false) (fun _ => boot0) assign0 ["start"] machine0)
    as (o & Ho & Hm).
  - repeat (apply Forall_cons_2; [eexists; split;
      [apply list_elem_of_In; vm_compute; eauto 30|vm_compute; repeat split; discriminate]|]).
    apply Forall_nil_2.
  - vm_compute. reflexivity.
  - exists o. split; [exact Hm|]. vm_compute in Ho. injection Ho. intros. subst. repeat split; assumption.
Defined.

Lemma main_serving_witness :
  exists r w', main0 (concat (render <$> assign0)) machine0 = Ok (Serving r, w') /\
    r.(rn_process).(pr_main) = Waiting /\ is_Some r.(rn_monitor) /\ r.(rn_punch) = None.
Proof.
  destruct (main0 (concat (render <$> assign0)) machine0) as [[[c|r] w']| |] eqn:E;
    [vm_compute in E; discriminate| |vm_compute in E; discriminate..].
  exists r, w'. split; [reflexivity|].
  destruct (main_serving "linux" "/root" (fun _ => false) (fun _ => boot0)
    (concat (render <$> assign0)) r machine0 w' E) as (fs & rest & sds & _ & _ & _ & _ & _ & Hw & _).
  split; [exact Hw|]. vm_compute in E. injection E as <- _. split; [eexists; reflexivity|reflexivity].
Defined.

(** ** Two nodes *)

Definition seeds0 (i : nat) : list Contact := if decide (i = 0) then [cb] else [].

Definition node_b : DHT :=
  mkDHT (new_table (NodeID key_b)) key_b "198.51.100.7:51820" "" zero_contact 51822 false false ∅ None false.
Definition booted : DHT := match Bootstrap node0 [(cb, AllSent)] with Ok (d, _) => d | _ => node0 end.
Definition hello_find : list (frame DhtMessage) := findNode booted (NodeID key_a) cb AllSent.
Definition served : DHT := match Node.handleConn node_b conn1 hello_find with Ok (d, _) => d | _ => node_b end.

Definition mesh0 : mesh := mkMesh (<[1 := served]> (<[1 := node_b]> (<[0 := booted]> (<[0 := node0]> ∅)))) [hello_find] [] [].

Lemma mesh0_reached : rtc (mesh_step seeds0) empty_mesh mesh0.
Proof.
  eapply rtc_l; [eapply (mesh_new seeds0 _ 0 Some key_a 51822 "192.0.2.1:51820" node0); [reflexivity|exact node0_new]|].
  eapply rtc_l; [eapply (mesh_bootstrap seeds0 _ 0 node0 [(cb, AllSent)] booted [(cb.(c_Endpoint), hello_find)]);
    [reflexivity|constructor; [left|constructor]|vm_compute; reflexivity]|].
  eapply rtc_l; [eapply (mesh_new seeds0 _ 1 Some key_b 51822 "198.51.100.7:51820" node_b); [reflexivity|reflexivity]|].
  eapply rtc_l; [eapply (mesh_serve seeds0 _ 1 node_b conn1 hello_find hello_find served []);
    [reflexivity|left|reflexivity|vm_compute; reflexivity]|].
  apply rtc_refl.
Qed.

Lemma mesh_discovers_nobody_witness :
  (1, EvPeerDiscovered cb) ∉ mesh0.(ms_log).
Proof. apply (mesh_discovers_nobody seeds0 mesh0 mesh0_reached). Defined.

Lemma mesh_never_punches_witness : hub_tick served key_b (fun _ _ => mkPairEnv 0 AllSent AllSent) 0 0 = Ok [].
Proof.
  refine (proj2 (proj2 (mesh_never_punches seeds0 mesh0 _ mesh0_reached)) 1 served key_b _ 0%Z 0%Z _).
  - intros i. unfold seeds0. destruct (decide (i = 0)); [|constructor]. constructor; [reflexivity|constructor].
  - reflexivity.
Defined.

(** ** The wire *)


(** ** Discovery *)

(** A system with other option numbers, whose WireGuard port is taken. *)
Definition udp0 : udp_net :=
  mkUdp 1 15 (fun _ port => bool_decide (port = 51831%Z)) Some (fun _ _ _ => true) (fun _ => Some stun_data).

Lemma stun_data_bytes : Forall byte_range stun_data.
Proof.
  assert (forallb (fun b => bool_decide (0 <= b < 256)%Z) stun_data = true) as Hb by (vm_compute; reflexivity).
  apply Forall_forall. intros b Hin%list_elem_of_In. rewrite forallb_forall in Hb.
  apply (bool_decide_eq_true_1 _ (Hb b Hin)).
Qed.

